(* ===== verification/_CoqProject ===== *)
-Q . S2P
Prelude.v
Bits.v
SaM.v
HuffStream.v
Kraft.v
Huffman.v
HuffmanCode.v
BoyerMoore.v
Merkle.v
Ramcoder.v
RamcoderCode.v
Message.v
Pangea.v
Summary.v
Funds.v
FundsPots.v
FundsPay.v
FundsBets.v
Poker.v
PokerRank.v
Prime25519.v
Curve25519.v
Sha256.v
Cards.v
Utils.v
Hand.v
CoinTx.v
Address.v
Acct.v
Serdes.v
SerdesCode.v
