(* ===== verification/Prelude.v ===== *)
(** * A library on the core of SuperNET (libjl777)

    SuperNET is a daemon whose plugins share a toolbox of C files (src/plugins/utils).  This
    library models the plugin that plays poker without a trusted dealer (src/plugins/games,
    src/plugins/common/hostnet777.c), the toolbox it stands on, and the formats in which
    coins, accounts and data are exchanged.

    ** How the program works

    A table is a set of nodes; each keeps the table, the public data with the hand, and its
    private keys, and reacts to commands of the others.  A hand begins when the dealer makes a
    deck of 52 keys, every card encrypted for every player (cards777.c), and the nodes agree
    on it; the deck goes round, each player shuffles it and multiplies every card by a factor
    of its own.  Cards are opened by dividing the factors out one after the other.  Between
    the cards the players bet; at the end hands are ranked (poker.c), bets are cut into side
    pots, each pot is shared between its winners and the rakes (pangeafunds.c).  What happens
    is appended to a history that the nodes compare.

    ** Conventions

    A C integer is a [Z]; where it can wrap around, its width is written as [u8], [u16],
    [u32], [u64], [i8], [i32] or [i64] of this file.  An array is a list, and an access outside
    it ([aget], [aset]) gives [None]; so does every other undefined behaviour that the model
    meets.  State is passed explicitly; a loop over an index is [for_loopM], with the number
    of its rounds as a natural number, and one that may return early is [for_ret].  Loops that
    end for another reason take fuel, and theorems show that the fuel given is enough.  Time,
    random bytes and what other machines send are arguments.

    Each definition that translates code says so in its comment: file, lines and name.

    ** The files

    - Prelude.v: machine integers, arrays, loops and their rules, little-endian words.
    - Bits.v: bits777.c, bit arrays, Bloom filter, CRC-32.  A Bloom filter never forgets; the
      CRC is division of polynomials and finds every damaged byte.
    - HuffStream.v: huffstream.c, the bit stream and its integer codes.  Cursor and position
      stay in step; every sequence of items is read back as it was written; a write past the
      end is refused.
    - SaM.v: SaM.c, a hash on trits, its key stream and proof of work.  Rounds in closed form,
      independence from memory, injective padding, encrypting twice.
    - Kraft.v: binary codes, the Kraft sum, optimality of joining the two rarest symbols.
    - Huffman.v: huffstream.c, the heap and the Huffman codes; HuffmanCode.v proves that no
      code begins another one, that none is better, and that decoding undoes encoding.
    - BoyerMoore.v: huffstream.c, the pattern search finds the first occurrence.
    - Merkle.v: merkle.c, hash trees; a changed tree is the one that is built from the changed
      blocks, and a comparison finds the first block that differs or two hashed inputs of the trees collide.
    - Ramcoder.v: ramcoder.c, the adaptive range coder; RamcoderCode.v proves that the decoder
      gets back what the encoder was given, from the interval both keep.
    - Message.v: hostnet777.c, messages before encryption and after decryption.
    - Pangea.v: hostnet777.c, pangea777.c, the state of a table and the seats.  Seating keeps
      the seats without duplicates and indices and seats inverse to each other.
    - Summary.v: pangeafunds.c, hostnet777.c, message header and hand history: round trips.
    - Funds.v: pangeafunds.c, chips, bets, pots, turns.  The theorems are in FundsPots.v (side
      pots partition the bets), FundsPay.v (winners; settling conserves chips), FundsBets.v
      (betting, folding, antes conserve chips).
    - Poker.v: poker.c, evaluators and names; PokerRank.v proves them equal to the rules of
      poker, stated on counts of ranks and suits.
    - Prime25519.v, Curve25519.v: curve25519.h, the field modulo 2^255 - 19 and the ladder.
      2^255 - 19 is proved prime; no product overflows; inversion inverts.
    - Sha256.v: curve25519.h, SHA-256 in pieces computes the hash of the standard.
    - Cards.v: cards777.c, the encrypted deck.  A card that went through all players comes
      back, its owner finds it, trails validate, decks are complete.
    - Utils.v: utils777.c, hexadecimal and other text, small sets, dates.
    - Hand.v: pangea777.c, the protocol from the new deck to the open cards, on top of Pangea,
      Cards, Funds.  When all have reported the same deck encoding starts.
    - CoinTx.v: cointx.c, raw transactions: what is written is the format, and is read back.
    - Address.v: cJSON.c, NXT777.c, account numbers in decimal and as Reed-Solomon addresses.
      The addresses are code words, and are read back unless they contain the letter 9.
    - Acct.v: bits777.c, accounts, signatures, hash chains; a signature binds its time and data,
      though not to the owner of the key (see the findings).
    - Serdes.v: serdes777.c, peggy transactions on the wire; SerdesCode.v proves that they are
      read back as they were written, with the signature behind them.

    ** Bounds and fuel

    Chips are sums of at most nine 64-bit balances; the theorems on money assume what
    [play_ok] and its companions say, that no sum reaches 2^63.  Fuel: [sidepots_loop] nine
    rounds (a layer for each player), [pangea_dispsummary] one for each byte of the history,
    [unzbuf_loop] and [zbuf_loop] one for each character, [convert_loop] one for each digit
    in base 32,
    the sort of the heap n^2 + 1 for n items, the search stringlen + 1, the shifts of the range
    coder 17 (an interval doubles each time).

    ** Not modelled

    Printing and JSON of requests and displays; threads, sockets and files; memory that is
    only allocated and freed; functions on doubles; third-party code (nanomsg, miniupnpc,
    LibTomCrypt, TweetNaCl, libgfshare, the parser of cJSON, sophia, picoc) and the deprecated
    directories.  InstantDEX, prices and the gateways work on doubles and on answers of web
    services.  Functions of LibTomCrypt that the code calls for SHA-256 stand for the hash of
    the standard, [Sha256.sha256].  The manifest lists every component with its reason. *)
From Stdlib Require Import ZArith Lia.
From stdpp Require Import base list numbers option.
Open Scope Z_scope.

Declare Scope c_scope.
Delimit Scope c_scope with C.

(** ** Machine integers *)

(** The value of [x] stored in an unsigned [w]-bit object. *)
Definition uwrap (w x : Z) : Z := x mod 2 ^ w.

(** The value of [x] stored in a two's complement [w]-bit object. *)
Definition swrap (w x : Z) : Z := (x + 2 ^ (w - 1)) mod 2 ^ w - 2 ^ (w - 1).

Abbreviation u8 := (uwrap 8).
Abbreviation u16 := (uwrap 16).
Abbreviation u32 := (uwrap 32).
Abbreviation u64 := (uwrap 64).
Abbreviation i8 := (swrap 8).
Abbreviation i32 := (swrap 32).
Abbreviation i64 := (swrap 64).

(** Truth value of a C condition, and a condition used as a value. *)
Definition truth (x : Z) : bool := negb (x =? 0).
Definition c_bool (b : bool) : Z := if b then 1 else 0.

(** ** Arrays

    A C array is a list; an access outside it is undefined behaviour and gives
    [None]. *)
Definition aget {A} (l : list A) (i : Z) : option A :=
  if 0 <=? i then l !! Z.to_nat i else None.

Definition aset {A} (l : list A) (i : Z) (x : A) : option (list A) :=
  if (0 <=? i) && (i <? Z.of_nat (length l)) then Some (<[Z.to_nat i := x]> l) else None.

(** Array read with a default, for the places where the bounds are known. *)
Definition znth (l : list Z) (i : Z) : Z :=
  match aget l i with Some x => x | None => 0 end.

(** [l] with element [i] replaced; unchanged when [i] is out of range. *)
Definition zput {A} (l : list A) (i : Z) (x : A) : list A :=
  match aset l i x with Some l' => l' | None => l end.

(** ** Loops

    [for_loop n i body s]: the C loop [for (; n > 0; n--, i++) s = body(i,s)].
    [for_loopM] is the same with a body that may hit undefined behaviour, and
    [for_ret] has a body that may also leave the loop with a result. *)
Fixpoint for_loop {S} (n : nat) (i : Z) (body : Z -> S -> S) (s : S) : S :=
  match n with
  | O => s
  | S n' => for_loop n' (i + 1) body (body i s)
  end.

Fixpoint for_loopM {S} (n : nat) (i : Z) (body : Z -> S -> option S) (s : S) : option S :=
  match n with
  | O => Some s
  | S n' => s' ← body i s; for_loopM n' (i + 1) body s'
  end.

Fixpoint for_ret {S R} (n : nat) (i : Z) (body : Z -> S -> option (S + R)) (s : S)
  : option (S + R) :=
  match n with
  | O => Some (inl s)
  | S n' =>
      r ← body i s;
      match r with
      | inl s' => for_ret n' (i + 1) body s'
      | inr x => Some (inr x)
      end
  end.

(** ** Structs

    [r.[f <- v]] is the record [r] with field [f] set to [v], and [upd g r] applies [g] to
    a field.  A record type has an [Eta] instance that rebuilds it from its fields; the
    update of each field is derived from it by abstracting that field. *)
Class Eta (R : Type) := eta : R -> R.
Class Field {R T} (f : R -> T) := upd : (T -> T) -> R -> R.
#[global] Hint Mode Field ! - - : typeclass_instances.

Ltac derive_field :=
  match goal with
  | |- @Field ?R ?T ?f =>
      let g := fresh "g" in let r := fresh "r" in
      unfold Field; intros g r;
      let e := eval hnf in (@eta R _ r) in
      match eval pattern (f r) in e with
      | ?h _ => let t := eval cbv beta in (h (g (f r))) in exact t
      end
  end.
#[export] Hint Extern 1 (Field _) => derive_field : typeclass_instances.

Notation "r .[ f <- v ]" := (upd (f := f) (fun _ => v) r)
  (at level 1, left associativity, f at level 99, v at level 200, format "r .[ f  <-  v ]").

(** ** Searches

    [for (i=0; i<n; i++) if ( arr[i] == x ) return(i); return(-1);] *)
Definition array_search (arr : list Z) (n x : Z) : option Z :=
  r ← for_ret (Z.to_nat n) 0 (fun i _ =>
    y ← aget arr i;
    if y =? x then Some (inr i) else Some (inl tt)) tt;
  Some (match r with inl _ => -1 | inr i => i end).

(** ** Tactics *)

(** Linear arithmetic with [/] and [mod] by constants. *)
Ltac dmlia := Z.to_euclidean_division_equations; lia.

(** Case analysis on every boolean comparison of integers in sight. *)
Ltac zbool :=
  repeat match goal with
  | H : andb _ _ = true |- _ => apply andb_true_iff in H; destruct H
  | H : (_ <? _) = true |- _ => apply Z.ltb_lt in H
  | H : (_ <? _) = false |- _ => apply Z.ltb_ge in H
  | H : (_ <=? _) = true |- _ => apply Z.leb_le in H
  | H : (_ <=? _) = false |- _ => apply Z.leb_gt in H
  | H : (_ =? _) = true |- _ => apply Z.eqb_eq in H
  | H : (_ =? _) = false |- _ => apply Z.eqb_neq in H
  | H : negb _ = true |- _ => apply negb_true_iff in H
  | H : negb _ = false |- _ => apply negb_false_iff in H
  end.

Ltac zcase :=
  match goal with
  | |- context [?a <? ?b] => destruct (Z.ltb_spec a b)
  | |- context [?a <=? ?b] => destruct (Z.leb_spec a b)
  | |- context [?a =? ?b] => destruct (Z.eqb_spec a b)
  end.

(** ** Lemmas on machine integers *)

Lemma uwrap_range w x : 0 <= w -> 0 <= uwrap w x < 2 ^ w.
Proof. intros. apply Z.mod_pos_bound. lia. Qed.

Lemma uwrap_small w x : 0 <= x < 2 ^ w -> uwrap w x = x.
Proof. intros. by apply Z.mod_small. Qed.

Lemma uwrap_idemp w x : 0 <= w -> uwrap w (uwrap w x) = uwrap w x.
Proof. intros. apply uwrap_small. by apply uwrap_range. Qed.

Lemma swrap_range w x : 0 < w -> - 2 ^ (w - 1) <= swrap w x < 2 ^ (w - 1).
Proof.
  intros. unfold swrap.
  assert (2 ^ w = 2 * 2 ^ (w - 1)) by (rewrite <- Z.pow_succ_r by lia; f_equal; lia).
  pose proof (Z.mod_pos_bound (x + 2 ^ (w - 1)) (2 ^ w)). lia.
Qed.

Lemma swrap_small w x : 0 < w -> - 2 ^ (w - 1) <= x < 2 ^ (w - 1) -> swrap w x = x.
Proof.
  intros. unfold swrap.
  assert (2 ^ w = 2 * 2 ^ (w - 1)) by (rewrite <- Z.pow_succ_r by lia; f_equal; lia).
  rewrite Z.mod_small; lia.
Qed.

Lemma uwrap_testbit w x i :
  0 <= w -> 0 <= i -> Z.testbit (uwrap w x) i = (i <? w) && Z.testbit x i.
Proof.
  intros. unfold uwrap. destruct (Z.ltb_spec i w); simpl.
  - by rewrite Z.mod_pow2_bits_low by lia.
  - by rewrite Z.mod_pow2_bits_high by lia.
Qed.

Lemma testbit_small x w i : 0 <= x < 2 ^ w -> w <= i -> Z.testbit x i = false.
Proof.
  intros Hx Hi. destruct (Z.leb_spec 0 w) as [Hw|Hw].
  - rewrite <- (Z.mod_small x (2 ^ w)) by lia. apply Z.mod_pow2_bits_high. lia.
  - rewrite Z.pow_neg_r in Hx by lia. lia.
Qed.

(** A number whose bits from [w] on are clear is below [2 ^ w]. *)
Lemma testbit_bound x w :
  0 <= w -> 0 <= x -> (forall i, w <= i -> Z.testbit x i = false) -> x < 2 ^ w.
Proof.
  intros Hw Hx H. rewrite <- (Z.mod_small x (2 ^ w)) at 1.
  - apply Z.mod_pos_bound. lia.
  - split; [lia|]. destruct (Z.lt_ge_cases x (2 ^ w)) as [|Hge]; [lia|].
    assert (x <> 0) by lia. exfalso.
    pose proof (Z.bit_log2 x ltac:(lia)) as Hb.
    rewrite H in Hb; [done|]. by apply Z.log2_le_pow2; lia.
Qed.

(** [x & (1 << i)] tests bit [i]. *)
Lemma land_pow2 x i : 0 <= i -> Z.land x (2 ^ i) = if Z.testbit x i then 2 ^ i else 0.
Proof.
  intros. apply Z.bits_inj'. intros j Hj.
  rewrite Z.land_spec, Z.pow2_bits_eqb by lia.
  destruct (Z.eqb_spec i j) as [->|].
  - rewrite andb_true_r. destruct (Z.testbit x j) eqn:E.
    + by rewrite Z.pow2_bits_true by lia.
    + by rewrite Z.bits_0.
  - rewrite andb_false_r. destruct (Z.testbit x i); [|by rewrite Z.bits_0].
    by rewrite Z.pow2_bits_false by lia.
Qed.

Lemma truth_land_pow2 x i : 0 <= i -> truth (Z.land x (2 ^ i)) = Z.testbit x i.
Proof.
  intros. rewrite land_pow2 by done. unfold truth.
  destruct (Z.testbit x i); [|done].
  assert (0 < 2 ^ i) by lia. destruct (Z.eqb_spec (2 ^ i) 0); [lia|done].
Qed.

Lemma lor_shiftl x y n : 0 <= n -> 0 <= x < 2 ^ n -> Z.lor x (Z.shiftl y n) = x + 2 ^ n * y.
Proof.
  intros Hn Hx. rewrite Z.mul_comm, <- Z.shiftl_mul_pow2 by done.
  rewrite <- Z.add_lor_land. replace (Z.land x (Z.shiftl y n)) with 0; [lia|].
  symmetry. apply Z.bits_inj'. intros i Hi. rewrite Z.land_spec, Z.bits_0, Z.shiftl_spec by done.
  destruct (Z.lt_ge_cases i n).
  - by rewrite (Z.testbit_neg_r y), andb_false_r by lia.
  - by rewrite (testbit_small x n) by lia.
Qed.

Lemma lor_mul a y n : 0 <= n -> 0 <= y < 2 ^ n -> Z.lor (2 ^ n * a) y = 2 ^ n * a + y.
Proof. intros Hn Hy. rewrite Z.mul_comm, <- Z.shiftl_mul_pow2, Z.lor_comm, lor_shiftl, Z.shiftl_mul_pow2 by done. lia. Qed.

Lemma c_bool_range b : 0 <= c_bool b <= 1.
Proof. destruct b; simpl; lia. Qed.

Lemma truth_c_bool b : truth (c_bool b) = b.
Proof. by destruct b. Qed.

(** ** Sequencing of partial operations *)

Lemma bind_Some {A B} (x : A) (f : A -> option B) : (Some x ≫= f) = f x.
Proof. done. Qed.

(** Run the first operation of a sequence once it has been rewritten to its result. *)
Ltac step := rewrite bind_Some; cbn beta iota.

(** ** Lemmas on arrays *)

Lemma aget_Some {A} (l : list A) i x :
  aget l i = Some x <-> 0 <= i /\ l !! Z.to_nat i = Some x.
Proof. unfold aget. zcase; split; intros; try tauto; try done. lia. Qed.

Lemma aget_range {A} (l : list A) i :
  0 <= i < Z.of_nat (length l) -> exists x, aget l i = Some x.
Proof.
  intros. destruct (lookup_lt_is_Some_2 l (Z.to_nat i)) as [x Hx]; [lia|].
  exists x. apply aget_Some. split; [lia|done].
Qed.

Lemma aget_znth l i : 0 <= i < Z.of_nat (length l) -> aget l i = Some (znth l i).
Proof. intros H. unfold znth. by destruct (aget_range l i H) as [x ->]. Qed.

Lemma aset_zput {A} (l : list A) i x :
  0 <= i < Z.of_nat (length l) -> aset l i x = Some (zput l i x).
Proof. intros. unfold zput, aset. repeat zcase; simpl; try done; lia. Qed.

Lemma zput_length {A} (l : list A) i x : length (zput l i x) = length l.
Proof.
  unfold zput, aset. destruct ((0 <=? i) && (i <? Z.of_nat (length l))); [|done].
  apply length_insert.
Qed.

Lemma znth_zput l i j x :
  0 <= i < Z.of_nat (length l) ->
  znth (zput l i x) j = if i =? j then x else znth l j.
Proof.
  intros. unfold zput, aset, znth, aget. repeat (zcase; simpl); try lia; subst.
  - by rewrite list_lookup_insert_eq by lia.
  - by rewrite list_lookup_insert_ne by lia.
Qed.

Lemma Forall_znth (P : Z -> Prop) l i : P 0 -> Forall P l -> P (znth l i).
Proof.
  intros H0 HF. unfold znth, aget. zcase; [|done].
  destruct (l !! Z.to_nat i) eqn:E; [|done]. by eapply Forall_lookup_1.
Qed.

Lemma Forall_zput {A} (P : A -> Prop) l i x : Forall P l -> P x -> Forall P (zput l i x).
Proof.
  intros HF Hx. unfold zput, aset.
  destruct ((0 <=? i) && (i <? Z.of_nat (length l))); [|done].
  by apply Forall_insert.
Qed.

Lemma aget_zput {A} (l : list A) i j x :
  0 <= i < Z.of_nat (length l) ->
  aget (zput l i x) j = if i =? j then Some x else aget l j.
Proof.
  intros. unfold zput, aset, aget. repeat (zcase; simpl); try lia; subst; try done.
  - by rewrite list_lookup_insert_eq by lia.
  - by rewrite list_lookup_insert_ne by lia.
Qed.

Lemma seqZ_snoc m n : 0 <= n -> seqZ m (n + 1) = seqZ m n ++ [m + n].
Proof. intros Hn. by rewrite seqZ_app by lia. Qed.

Lemma aget_replicate {A} n (x : A) i : 0 <= i < Z.of_nat n -> aget (replicate n x) i = Some x.
Proof. intros. apply aget_Some. split; [lia|]. apply lookup_replicate_2. lia. Qed.

(** ** Loop rules *)

Lemma for_loop_inv {S} (P : Z -> S -> Prop) n i body (s : S) :
  (forall j t, i <= j < i + Z.of_nat n -> P j t -> P (j + 1) (body j t)) ->
  P i s -> P (i + Z.of_nat n) (for_loop n i body s).
Proof.
  revert i s. induction n as [|n IH]; intros i s Hb Hi; simpl.
  - by rewrite Z.add_0_r.
  - replace (i + Z.of_nat (Datatypes.S n)) with ((i + 1) + Z.of_nat n) by lia.
    apply IH; [intros; apply Hb; [lia|done]|]. apply Hb; [lia|done].
Qed.

Lemma for_loopM_inv {S} (P : Z -> S -> Prop) n i body (s : S) :
  (forall j t, i <= j < i + Z.of_nat n -> P j t ->
     exists t', body j t = Some t' /\ P (j + 1) t') ->
  P i s -> exists s', for_loopM n i body s = Some s' /\ P (i + Z.of_nat n) s'.
Proof.
  revert i s. induction n as [|n IH]; intros i s Hb Hi; simpl.
  - exists s. by rewrite Z.add_0_r.
  - destruct (Hb i s) as (s' & Hs' & HP); [lia|done|].
    rewrite Hs'. simpl.
    replace (i + Z.of_nat (Datatypes.S n)) with ((i + 1) + Z.of_nat n) by lia.
    apply IH; [intros; apply Hb; [lia|done]|done].
Qed.

Lemma for_loop_snoc {S} n i body (s : S) :
  for_loop (Datatypes.S n) i body s = body (i + Z.of_nat n) (for_loop n i body s).
Proof.
  revert i s. induction n as [|n IH]; intros i s.
  - simpl. f_equal. lia.
  - change (for_loop (Datatypes.S (Datatypes.S n)) i body s)
      with (for_loop (Datatypes.S n) (i + 1) body (body i s)).
    rewrite IH. simpl. f_equal. lia.
Qed.

Lemma for_loop_ext {S} n i body body' (s : S) :
  (forall j t, i <= j < i + Z.of_nat n -> body j t = body' j t) ->
  for_loop n i body s = for_loop n i body' s.
Proof.
  revert i s. induction n as [|n IH]; intros i s H; simpl; [done|].
  rewrite H by lia. apply IH. intros. apply H. lia.
Qed.

(** Unfolding one round. *)
Lemma for_loopM_S {S} n i body (s : S) :
  for_loopM (Datatypes.S n) i body s = s' ← body i s; for_loopM n (i + 1) body s'.
Proof. done. Qed.

Lemma for_ret_S {S R} n i (body : Z -> S -> option (S + R)) s :
  for_ret (Datatypes.S n) i body s = r ← body i s;
    match r with inl s' => for_ret n (i + 1) body s' | inr x => Some (inr x) end.
Proof. done. Qed.

(** A loop that never leaves early keeps what every round keeps. *)
Lemma for_ret_inv {S R} (P : Z -> S -> Prop) n : forall i (body : Z -> S -> option (S + R)) s,
  (forall k s, i <= k < i + Z.of_nat n -> P k s -> exists s', body k s = Some (inl s') /\ P (k + 1) s') -> P i s ->
  exists s', for_ret n i body s = Some (inl s') /\ P (i + Z.of_nat n) s'.
Proof.
  induction n as [|n IH]; intros i body s Hstep Hi; [exists s; rewrite Z.add_0_r; done|].
  destruct (Hstep i s ltac:(lia) Hi) as (s1 & E & H1). destruct (IH (i + 1) body s1) as (s2 & E2 & H2); [|done|].
  - intros k t Hk Ht. apply Hstep; [lia|done].
  - exists s2. rewrite for_ret_S, E. step. split; [done|]. by replace (i + Z.of_nat (Datatypes.S n)) with (i + 1 + Z.of_nat n) by lia.
Qed.

Lemma for_loopM_snoc {S} n i body (s : S) :
  for_loopM (Datatypes.S n) i body s = s' ← for_loopM n i body s; body (i + Z.of_nat n) s'.
Proof.
  revert i s. induction n as [|n IH]; intros i s.
  - change (for_loopM 1 i body s) with (s' ← body i s; Some s').
    change (for_loopM 0 i body s) with (Some s). simpl. rewrite Z.add_0_r. by destruct (body i s).
  - rewrite (for_loopM_S (Datatypes.S n)).
    change (for_loopM (Datatypes.S n) i body s) with (s' ← body i s; for_loopM n (i + 1) body s').
    destruct (body i s) as [s'|]; [rewrite !bind_Some|done]. rewrite IH.
    by replace (i + 1 + Z.of_nat n) with (i + Z.of_nat (Datatypes.S n)) by lia.
Qed.

Lemma for_loopM_app {S} m n i body (s : S) :
  for_loopM (m + n) i body s = s' ← for_loopM m i body s; for_loopM n (i + Z.of_nat m) body s'.
Proof.
  revert i s. induction m as [|m IH]; intros i s.
  - change (for_loopM 0 i body s) with (Some s). by rewrite bind_Some, Z.add_0_r.
  - cbn [Nat.add]. rewrite !for_loopM_S. destruct (body i s); [|done].
    rewrite !bind_Some, IH.
    by replace (i + 1 + Z.of_nat m) with (i + Z.of_nat (Datatypes.S m)) by lia.
Qed.

(** A search that stays in bounds returns the first index of [x], or -1. *)
Lemma array_search_spec arr n x :
  0 <= n <= Z.of_nat (length arr) ->
  exists k, array_search arr n x = Some k /\
    ((k = -1 /\ forall i, 0 <= i < n -> aget arr i <> Some x) \/
     (0 <= k < n /\ aget arr k = Some x /\ forall i, 0 <= i < k -> aget arr i <> Some x)).
Proof.
  intros Hn. unfold array_search.
  assert (H : forall m k, 0 <= k -> k + Z.of_nat m = n ->
    (forall i, 0 <= i < k -> aget arr i <> Some x) ->
    exists r, for_ret m k (fun i _ => y ← aget arr i;
        if y =? x then Some (inr i) else Some (inl tt)) tt = Some r /\
      match r with
      | inl _ => forall i, 0 <= i < n -> aget arr i <> Some x
      | inr j => 0 <= j < n /\ aget arr j = Some x /\ forall i, 0 <= i < j -> aget arr i <> Some x
      end).
  { induction m as [|m IH]; intros k Hk Hm Hno.
    - exists (inl tt). split; [done|]. intros i Hi. apply Hno. lia.
    - rewrite for_ret_S. destruct (aget_range arr k) as [y Hy]; [lia|]. rewrite Hy, bind_Some.
      destruct (Z.eqb_spec y x) as [->|Hne]; rewrite bind_Some.
      + exists (inr k). split; [done|]. split_and!; [lia|lia|done|done].
      + apply IH; [lia|lia|]. intros i Hi. destruct (Z.eq_dec i k) as [->|]; [congruence|].
        apply Hno. lia. }
  destruct (H (Z.to_nat n) 0) as (r & -> & Hr); [lia..|]. rewrite bind_Some.
  eexists. split; [done|]. destruct r; eauto.
Qed.

(** ** Finite sums *)

Fixpoint zsum (n : nat) (f : Z -> Z) : Z :=
  match n with O => 0 | S n' => zsum n' f + f (Z.of_nat n') end.

Lemma zsum_S n f : zsum (S n) f = zsum n f + f (Z.of_nat n).
Proof. done. Qed.

Lemma zsum_ext n f g : (forall i, 0 <= i < Z.of_nat n -> f i = g i) -> zsum n f = zsum n g.
Proof.
  intros H. induction n as [|n IH]; [done|]. rewrite !zsum_S, IH by (intros; apply H; lia).
  f_equal. apply H. lia.
Qed.

Lemma zsum_add n f g : zsum n (fun i => f i + g i) = zsum n f + zsum n g.
Proof. induction n as [|n IH]; [done|]. rewrite !zsum_S, IH. lia. Qed.

Lemma zsum_const0 n : zsum n (fun _ => 0) = 0.
Proof. induction n as [|n IH]; [done|]. rewrite zsum_S, IH. lia. Qed.

Lemma zsum_nonneg n f : (forall i, 0 <= i < Z.of_nat n -> 0 <= f i) -> 0 <= zsum n f.
Proof.
  intros H. induction n as [|n IH]; [done|]. rewrite zsum_S.
  pose proof (H (Z.of_nat n)). pose proof (IH ltac:(intros; apply H; lia)). lia.
Qed.

Lemma zsum_le n f g : (forall i, 0 <= i < Z.of_nat n -> f i <= g i) -> zsum n f <= zsum n g.
Proof.
  intros H. induction n as [|n IH]; [done|]. rewrite !zsum_S.
  pose proof (H (Z.of_nat n)). pose proof (IH ltac:(intros; apply H; lia)). lia.
Qed.

Lemma zsum_swap m n f :
  zsum m (fun i => zsum n (fun j => f i j)) = zsum n (fun j => zsum m (fun i => f i j)).
Proof.
  induction m as [|m IH]; [by rewrite zsum_const0|]. rewrite zsum_S, IH, <- zsum_add.
  apply zsum_ext. intros. by rewrite zsum_S.
Qed.

Lemma zsum_prefix m n f :
  (m <= n)%nat -> (forall i, 0 <= i < Z.of_nat n -> 0 <= f i) -> zsum m f <= zsum n f.
Proof.
  intros Hle Hf. induction n as [|n IH]; [by replace m with 0%nat by lia|].
  destruct (Nat.eq_dec m (S n)) as [->|]; [done|]. rewrite zsum_S.
  pose proof (Hf (Z.of_nat n) ltac:(lia)). specialize (IH ltac:(lia) ltac:(intros; apply Hf; lia)). lia.
Qed.

Lemma zsum_term n f i :
  (forall i, 0 <= i < Z.of_nat n -> 0 <= f i) -> 0 <= i < Z.of_nat n -> f i <= zsum n f.
Proof.
  intros H Hi. induction n as [|n IH]; [lia|]. rewrite zsum_S.
  destruct (Z.eq_dec i (Z.of_nat n)) as [->|].
  - pose proof (zsum_nonneg n f ltac:(intros; apply H; lia)). lia.
  - pose proof (H (Z.of_nat n)). pose proof (IH ltac:(intros; apply H; lia) ltac:(lia)). lia.
Qed.

(** Changing one term. *)
Lemma zsum_upd n f g i d :
  0 <= i < Z.of_nat n -> g i = f i + d ->
  (forall j, 0 <= j < Z.of_nat n -> j <> i -> g j = f j) -> zsum n g = zsum n f + d.
Proof.
  intros Hi Hd Hg. induction n as [|n IH]; [lia|]. rewrite !zsum_S.
  destruct (Z.eq_dec i (Z.of_nat n)) as [->|].
  - rewrite Hd, (zsum_ext n g f) by (intros; apply Hg; lia). lia.
  - rewrite IH by (lia || intros; apply Hg; lia). rewrite (Hg (Z.of_nat n)) by lia. lia.
Qed.

Lemma zsum_one n i : 0 <= i < Z.of_nat n -> zsum n (fun j => c_bool (j =? i)) = 1.
Proof.
  intros Hi. rewrite (zsum_upd n (fun _ => 0) _ i 1); rewrite ?zsum_const0; try done.
  - by rewrite Z.eqb_refl.
  - intros j Hj Hne. by destruct (Z.eqb_spec j i).
Qed.

(** A positive count has a witness. *)
Lemma zsum_count_pos n (P : Z -> bool) :
  0 < zsum n (fun j => c_bool (P j)) -> exists j, 0 <= j < Z.of_nat n /\ P j = true.
Proof.
  induction n as [|n IH]; [unfold zsum; lia|]. rewrite zsum_S. intros H.
  destruct (P (Z.of_nat n)) eqn:E; [exists (Z.of_nat n); split; [lia|done]|].
  simpl in H. destruct IH as (j & Hj & Hp); [lia|]. exists j. split; [lia|done].
Qed.

(** A sum over the elements of an array. *)
Lemma zsum_znth l : zsum (length l) (znth l) = foldr Z.add 0 l.
Proof.
  induction l as [|x l IH] using rev_ind; [done|].
  rewrite length_app, Nat.add_1_r, zsum_S, foldr_app. simpl.
  assert (E : forall k l, foldr Z.add k l = foldr Z.add 0 l + k).
  { clear. intros k l. induction l as [|y l IH]; simpl; lia. }
  rewrite E, <- IH. f_equal.
  - apply zsum_ext. intros i Hi. unfold znth, aget. destruct (0 <=? i); [|done].
    by rewrite lookup_app_l by lia.
  - unfold znth, aget. destruct (Z.leb_spec 0 (Z.of_nat (length l))); [|lia].
    rewrite Nat2Z.id, lookup_app_r, Nat.sub_diag by lia. simpl. lia.
Qed.

(** A loop whose body never fails computes the loop of the pure body. *)
Lemma for_loopM_pure {S} n i body (f : Z -> S -> S) (s : S) :
  (forall j t, i <= j < i + Z.of_nat n -> body j t = Some (f j t)) ->
  for_loopM n i body s = Some (for_loop n i f s).
Proof.
  revert i s. induction n as [|n IH]; intros i s H; [done|].
  rewrite for_loopM_S, H, bind_Some by lia. apply IH. intros. apply H. lia.
Qed.

(** ** Arrays given by a function *)

Lemma znth_ext (a b : list Z) : length a = length b -> (forall i, 0 <= i < Z.of_nat (length a) -> znth a i = znth b i) -> a = b.
Proof.
  intros Hl H. apply list_eq. intros i. destruct (lt_dec i (length a)) as [Hi|]; [|rewrite !lookup_ge_None_2 by lia; done].
  pose proof (aget_znth a (Z.of_nat i) ltac:(lia)) as Ha. pose proof (aget_znth b (Z.of_nat i) ltac:(lia)) as Hb. rewrite H in Ha by lia.
  unfold aget in *. destruct (Z.leb_spec 0 (Z.of_nat i)); [|lia]. rewrite Nat2Z.id in *. congruence.
Qed.

Definition tab (n : Z) (f : Z -> Z) : list Z := map f (seqZ 0 n).

Lemma tab_length n f : length (tab n f) = Z.to_nat n.
Proof. unfold tab. by rewrite length_map, length_seqZ. Qed.

Lemma znth_tab n f i : 0 <= i < n -> znth (tab n f) i = f i.
Proof.
  intros Hi. unfold znth, aget, tab. destruct (Z.leb_spec 0 i); [|lia]. rewrite list_lookup_fmap, lookup_seqZ_lt by lia. cbn. f_equal. lia.
Qed.

Lemma tab_Forall (P : Z -> Prop) n f : (forall i, 0 <= i < n -> P (f i)) -> Forall P (tab n f).
Proof. intros H. unfold tab. apply Forall_map. apply Forall_seqZ. intros i Hi. apply H. lia. Qed.

(** A loop that writes [f k] at [from + k]. *)
Lemma write_loop n from (f : Z -> Z) (g : Z -> option Z) t : 0 <= from -> from + Z.of_nat n <= Z.of_nat (length t) ->
  (forall i, from <= i < from + Z.of_nat n -> g i = Some (f i)) ->
  for_loopM n from (fun i t => x ← g i; aset t i x) t = Some (tab (Z.of_nat (length t)) (fun i => if (from <=? i) && (i <? from + Z.of_nat n) then f i else znth t i)).
Proof.
  intros Hf Hn Hg.
  destruct (for_loopM_inv (fun i u => length u = length t /\ forall j, 0 <= j -> znth u j = if (from <=? j) && (j <? i) then f j else znth t j) n from
    (fun i t => x ← g i; aset t i x) t) as (u & E & Hl & Hu).
  - intros i u Hi [Hl Hu]. exists (zput u i (f i)). rewrite Hg by lia. step. split; [apply aset_zput; lia|]. split; [by rewrite zput_length|].
    intros j Hj. rewrite znth_zput by lia. destruct (Z.eqb_spec i j) as [<-|].
    + destruct (Z.leb_spec from i); [|lia]. destruct (Z.ltb_spec i (i + 1)); [done|lia].
    + rewrite Hu by done. destruct (Z.leb_spec from j), (Z.ltb_spec j i), (Z.ltb_spec j (i + 1)); done || lia.
  - split; [done|]. intros j Hj. destruct (Z.leb_spec from j), (Z.ltb_spec j from); done || lia.
  - rewrite E. f_equal. apply znth_ext; [rewrite tab_length; lia|]. intros j Hj. rewrite znth_tab by lia. apply Hu; lia.
Qed.

Lemma znth_app (a b : list Z) i : 0 <= i -> znth (a ++ b) i = if i <? Z.of_nat (length a) then znth a i else znth b (i - Z.of_nat (length a)).
Proof.
  intros Hi. unfold znth, aget. destruct (Z.leb_spec 0 i); [|lia]. destruct (Z.ltb_spec i (Z.of_nat (length a))).
  - by rewrite lookup_app_l by lia.
  - destruct (Z.leb_spec 0 (i - Z.of_nat (length a))); [|lia]. rewrite lookup_app_r by lia. by replace (Z.to_nat (i - Z.of_nat (length a))) with (Z.to_nat i - length a)%nat by lia.
Qed.

Lemma znth_drop k (l : list Z) i : 0 <= i -> znth (drop k l) i = znth l (Z.of_nat k + i).
Proof.
  intros Hi. unfold znth, aget. destruct (Z.leb_spec 0 i); [|lia]. destruct (Z.leb_spec 0 (Z.of_nat k + i)); [|lia]. rewrite lookup_drop. by replace (Z.to_nat (Z.of_nat k + i)) with (k + Z.to_nat i)%nat by lia.
Qed.

(** ** Little-endian memory images

    [le_bytes n x] are the [n] bytes of [x] in memory, lowest first, and
    [le_val l] the unsigned number stored in the bytes [l]. *)
Fixpoint le_bytes (n : nat) (x : Z) : list Z :=
  match n with
  | O => []
  | S n' => u8 x :: le_bytes n' (Z.shiftr x 8)
  end.

Fixpoint le_val (l : list Z) : Z :=
  match l with
  | [] => 0
  | b :: t => b + 256 * le_val t
  end.

(** [l] is an array of bytes. *)
Abbreviation bytes l := (Forall (fun b => 0 <= b < 256) l).

Lemma le_bytes_length n x : length (le_bytes n x) = n.
Proof. revert x. induction n; intros; simpl; auto. Qed.

Lemma le_bytes_bytes n x : bytes (le_bytes n x).
Proof.
  revert x. induction n; intros; simpl; constructor; auto.
  by apply (uwrap_range 8).
Qed.

Lemma le_val_bytes n x : le_val (le_bytes n x) = x mod 2 ^ (8 * Z.of_nat n).
Proof.
  revert x. induction n as [|n IH]; intros x; cbn [le_bytes le_val].
  - by rewrite Z.mul_0_r, Z.mod_1_r.
  - rewrite IH, Z.shiftr_div_pow2 by lia. unfold uwrap.
    replace (8 * Z.of_nat (Datatypes.S n)) with (8 + 8 * Z.of_nat n) by lia.
    rewrite Z.pow_add_r by lia. rewrite Z.rem_mul_r by lia.
    change (2 ^ 8) with 256. lia.
Qed.

Lemma le_val_range l : bytes l -> 0 <= le_val l < 2 ^ (8 * Z.of_nat (length l)).
Proof.
  induction 1 as [|b l Hb Hl IH]; cbn [le_val length]; [simpl; lia|].
  replace (8 * Z.of_nat (Datatypes.S (length l))) with (8 + 8 * Z.of_nat (length l)) by lia.
  rewrite Z.pow_add_r by lia. change (2 ^ 8) with 256. lia.
Qed.

Lemma le_bytes_val l : bytes l -> le_bytes (length l) (le_val l) = l.
Proof.
  induction 1 as [|b l Hb Hl IH]; cbn [le_bytes le_val length]; [done|]. cbv beta in Hb.
  f_equal.
  - unfold uwrap. change (2 ^ 8) with 256. dmlia.
  - replace (Z.shiftr (b + 256 * le_val l) 8) with (le_val l); [done|].
    rewrite Z.shiftr_div_pow2 by lia. change (2 ^ 8) with 256. dmlia.
Qed.

(** Bit [i] of the number is bit [i mod 8] of byte [i / 8]. *)
Lemma le_bytes_mod n x y : x mod 2 ^ (8 * Z.of_nat n) = y mod 2 ^ (8 * Z.of_nat n) -> le_bytes n x = le_bytes n y.
Proof.
  intros H. rewrite <- (le_bytes_val (le_bytes n x) (le_bytes_bytes n _)), <- (le_bytes_val (le_bytes n y) (le_bytes_bytes n _)).
  by rewrite !le_bytes_length, !le_val_bytes, H.
Qed.

Lemma le_val_app a b : le_val (a ++ b) = le_val a + 2 ^ (8 * Z.of_nat (length a)) * le_val b.
Proof.
  induction a as [|x a IH]; cbn [app le_val length]; [change (2 ^ (8 * Z.of_nat 0)) with 1; lia|].
  rewrite IH. replace (8 * Z.of_nat (S (length a))) with (8 + 8 * Z.of_nat (length a)) by lia.
  rewrite Z.pow_add_r by lia. change (2 ^ 8) with 256. ring.
Qed.

Lemma le_val_testbit l i :
  bytes l -> 0 <= i -> Z.testbit (le_val l) i = Z.testbit (znth l (i / 8)) (i mod 8).
Proof.
  intros Hl. revert i. induction Hl as [|b l Hb Hl IH]; intros i Hi; cbv beta in *.
  - cbn [le_val]. unfold znth, aget. zcase; rewrite ?lookup_nil; by rewrite !Z.bits_0.
  - cbn [le_val]. destruct (Z.lt_ge_cases i 8) as [Hlt|Hge].
    + rewrite Z.div_small, Z.mod_small by lia. change (znth (b :: l) 0) with b.
      rewrite <- (Z.mod_pow2_bits_low _ 8) by lia. change (2 ^ 8) with 256.
      f_equal. dmlia.
    + replace (znth (b :: l) (i / 8)) with (znth l ((i - 8) / 8)).
      2: { unfold znth, aget. replace (i / 8) with ((i - 8) / 8 + 1) by dmlia.
           repeat zcase; try dmlia.
           by replace (Z.to_nat ((i - 8) / 8 + 1)) with (Datatypes.S (Z.to_nat ((i - 8) / 8)))
             by dmlia. }
      replace (i mod 8) with ((i - 8) mod 8) by dmlia.
      rewrite <- IH by lia.
      replace (Z.testbit (b + 256 * le_val l) i)
        with (Z.testbit ((b + 256 * le_val l) / 2 ^ 8) (i - 8)).
      * f_equal. change (2 ^ 8) with 256. dmlia.
      * rewrite Z.div_pow2_bits by lia. f_equal. lia.
Qed.

Create HintDb c_word.
Create Rewrite HintDb c_len.
#[export] Hint Resolve uwrap_range swrap_range : c_word.
#[export] Hint Resolve le_bytes_bytes : c_word.
#[export] Hint Rewrite @zput_length le_bytes_length : c_len.

#[global] Arguments for_loop : simpl never.
#[global] Arguments for_loopM : simpl never.
#[global] Arguments for_ret : simpl never.
#[global] Arguments le_bytes : simpl never.
#[global] Arguments zsum : simpl never.
#[global] Arguments Z.pow : simpl never.
