(* ===== verification/Bits.v ===== *)
(** * bits777.c: bit arrays, Hamming weights, Bloom filter, CRC-32

    The macros [GETBIT], [SETBIT] and [CLEARBIT] address bit [i mod 8] of byte
    [i / 8]; an access outside the byte array is [None].  A [bits384] is the list of
    its 48 bytes, its [ulongs[i]] the little-endian words of 8 bytes. *)
From Stdlib Require Import ZArith Lia.
From stdpp Require Import base list numbers option.
From S2P Require Import Prelude.
Open Scope Z_scope.

(** ** The bit macros *)

(** bits777.c:29-29 [GETBIT] *)
Definition GETBIT (bits : list Z) (bitoffset : Z) : option Z :=
  b ← aget bits (Z.shiftr bitoffset 3);
  Some (Z.land b (Z.shiftl 1 (Z.land bitoffset 7))).

(** bits777.c:28-28 [SETBIT] *)
Definition SETBIT (bits : list Z) (bitoffset : Z) : option (list Z) :=
  b ← aget bits (Z.shiftr bitoffset 3);
  aset bits (Z.shiftr bitoffset 3) (u8 (Z.lor b (Z.shiftl 1 (Z.land bitoffset 7)))).

(** bits777.c:30-30 [CLEARBIT] *)
Definition CLEARBIT (bits : list Z) (bitoffset : Z) : option (list Z) :=
  b ← aget bits (Z.shiftr bitoffset 3);
  aset bits (Z.shiftr bitoffset 3) (u8 (Z.land b (Z.lnot (Z.shiftl 1 (Z.land bitoffset 7))))).

(** The bit the macros address, as a boolean. *)
Definition bit (bits : list Z) (i : Z) : bool := Z.testbit (znth bits (i / 8)) (i mod 8).

(** ** Hamming weights *)

(** bits777.c:78-85 [bitweight] *)
Definition bitweight (x : Z) : Z :=
  for_loop 64 0 (fun i wt => if truth (Z.land (Z.shiftl 1 i) x) then wt + 1 else wt) 0.

(** [a.ulongs[i]] of a [bits384]. *)
Definition ulongs (a : list Z) (i : Z) : Z :=
  le_val (firstn 8 (skipn (Z.to_nat (8 * i)) a)).

(** bits777.c:87-93 [wt384] *)
Definition wt384 (a b : list Z) : Z :=
  for_loop 6 0 (fun i n => n + bitweight (Z.lxor (ulongs a i) (ulongs b i))) 0.

(** The [int spectrum[384]] is updated in place; the result is the new array and [n]. *)
(** bits777.c:95-102 [spectrum384] *)
Definition spectrum384 (spectrum a b : list Z) : option (list Z * Z) :=
  for_loopM 384 0 (fun i '(spec, n) =>
    x ← GETBIT a i;
    y ← GETBIT b i;
    if truth (Z.lxor x y) then
      s ← aget spec i;
      spec' ← aset spec i (i32 (s + 1));
      Some (spec', n + 1)
    else Some (spec, n)) (spectrum, 0).

(** ** Bloom filter *)

(** bits777.c:32-32 [NUM_BLOOMPRIMES] *)
Definition NUM_BLOOMPRIMES : nat := 8.
(** bits777.c:34-34 [bloombits] *)
Definition BLOOM_ROW : nat := Z.to_nat (79997 / 8 + 1).

(** bits777.c:76-76 [bloomprimes] *)
Definition bloomprimes : list Z :=
  [79559; 79631; 79691; 79697; 79811; 79841; 79901; 79997].

(** [hashbits[NUM_BLOOMPRIMES][79997/8 + 1]] followed by [pad[8]]. *)
(** bits777.c:34-34 [struct bloombits] *)
Record bloombits := mk_bloombits { hashbits : list (list Z); pad : list Z }.

(** bits777.c:104-109 [set_bloombits] *)
Definition set_bloombits (bloom : bloombits) (nxt64bits : Z) : option bloombits :=
  rows ← for_loopM NUM_BLOOMPRIMES 0 (fun i rows =>
    row ← aget rows i;
    p ← aget bloomprimes i;
    row' ← SETBIT row (nxt64bits mod p);
    aset rows i row') (hashbits bloom);
  Some (mk_bloombits rows (pad bloom)).

(** bits777.c:111-124 [in_bloombits] *)
Definition in_bloombits (bloom : bloombits) (nxt64bits : Z) : option Z :=
  r ← for_ret NUM_BLOOMPRIMES 0 (fun i (_ : unit) =>
    row ← aget (hashbits bloom) i;
    p ← aget bloomprimes i;
    g ← GETBIT row (nxt64bits mod p);
    if g =? 0 then Some (inr 0) else Some (inl tt)) tt;
  Some (match r with inl _ => 1 | inr x => x end).

(** The struct as the bytes it occupies, and back. *)
Definition bloom_bytes (bloom : bloombits) : list Z := concat (hashbits bloom) ++ pad bloom.

Fixpoint rows_of (n : nat) (l : list Z) : list (list Z) :=
  match n with
  | O => []
  | S n' => firstn BLOOM_ROW l :: rows_of n' (skipn BLOOM_ROW l)
  end.

Definition bloom_of_bytes (l : list Z) : bloombits :=
  mk_bloombits (rows_of NUM_BLOOMPRIMES l) (skipn (NUM_BLOOMPRIMES * BLOOM_ROW) l).

(** bits777.c:132-133 [merge_bloombits] [n] 64-bit words of [dest], each or-ed with the word of [src]. *)
Fixpoint or_words (n : nat) (dest src : list Z) : list Z :=
  match n with
  | O => dest
  | S n' =>
      le_bytes 8 (Z.lor (le_val (firstn 8 dest)) (le_val (firstn 8 src)))
        ++ or_words n' (skipn 8 dest) (skipn 8 src)
  end.

(** bits777.c:126-134 [merge_bloombits] *)
Definition merge_bloombits (_dest _src : bloombits) : bloombits :=
  let n := (length (bloom_bytes _dest) / 8)%nat in
  bloom_of_bytes (or_words n (bloom_bytes _dest) (bloom_bytes _src)).

(** ** CRC-32 *)

(** bits777.c:173-217 [crc32_tab] *)
Definition crc32_tab : list Z := [
   0x00000000; 0x77073096; 0xee0e612c; 0x990951ba; 0x076dc419; 0x706af48f;
   0xe963a535; 0x9e6495a3; 0x0edb8832; 0x79dcb8a4; 0xe0d5e91e; 0x97d2d988;
   0x09b64c2b; 0x7eb17cbd; 0xe7b82d07; 0x90bf1d91; 0x1db71064; 0x6ab020f2;
   0xf3b97148; 0x84be41de; 0x1adad47d; 0x6ddde4eb; 0xf4d4b551; 0x83d385c7;
   0x136c9856; 0x646ba8c0; 0xfd62f97a; 0x8a65c9ec; 0x14015c4f; 0x63066cd9;
   0xfa0f3d63; 0x8d080df5; 0x3b6e20c8; 0x4c69105e; 0xd56041e4; 0xa2677172;
   0x3c03e4d1; 0x4b04d447; 0xd20d85fd; 0xa50ab56b; 0x35b5a8fa; 0x42b2986c;
   0xdbbbc9d6; 0xacbcf940; 0x32d86ce3; 0x45df5c75; 0xdcd60dcf; 0xabd13d59;
   0x26d930ac; 0x51de003a; 0xc8d75180; 0xbfd06116; 0x21b4f4b5; 0x56b3c423;
   0xcfba9599; 0xb8bda50f; 0x2802b89e; 0x5f058808; 0xc60cd9b2; 0xb10be924;
   0x2f6f7c87; 0x58684c11; 0xc1611dab; 0xb6662d3d; 0x76dc4190; 0x01db7106;
   0x98d220bc; 0xefd5102a; 0x71b18589; 0x06b6b51f; 0x9fbfe4a5; 0xe8b8d433;
   0x7807c9a2; 0x0f00f934; 0x9609a88e; 0xe10e9818; 0x7f6a0dbb; 0x086d3d2d;
   0x91646c97; 0xe6635c01; 0x6b6b51f4; 0x1c6c6162; 0x856530d8; 0xf262004e;
   0x6c0695ed; 0x1b01a57b; 0x8208f4c1; 0xf50fc457; 0x65b0d9c6; 0x12b7e950;
   0x8bbeb8ea; 0xfcb9887c; 0x62dd1ddf; 0x15da2d49; 0x8cd37cf3; 0xfbd44c65;
   0x4db26158; 0x3ab551ce; 0xa3bc0074; 0xd4bb30e2; 0x4adfa541; 0x3dd895d7;
   0xa4d1c46d; 0xd3d6f4fb; 0x4369e96a; 0x346ed9fc; 0xad678846; 0xda60b8d0;
   0x44042d73; 0x33031de5; 0xaa0a4c5f; 0xdd0d7cc9; 0x5005713c; 0x270241aa;
   0xbe0b1010; 0xc90c2086; 0x5768b525; 0x206f85b3; 0xb966d409; 0xce61e49f;
   0x5edef90e; 0x29d9c998; 0xb0d09822; 0xc7d7a8b4; 0x59b33d17; 0x2eb40d81;
   0xb7bd5c3b; 0xc0ba6cad; 0xedb88320; 0x9abfb3b6; 0x03b6e20c; 0x74b1d29a;
   0xead54739; 0x9dd277af; 0x04db2615; 0x73dc1683; 0xe3630b12; 0x94643b84;
   0x0d6d6a3e; 0x7a6a5aa8; 0xe40ecf0b; 0x9309ff9d; 0x0a00ae27; 0x7d079eb1;
   0xf00f9344; 0x8708a3d2; 0x1e01f268; 0x6906c2fe; 0xf762575d; 0x806567cb;
   0x196c3671; 0x6e6b06e7; 0xfed41b76; 0x89d32be0; 0x10da7a5a; 0x67dd4acc;
   0xf9b9df6f; 0x8ebeeff9; 0x17b7be43; 0x60b08ed5; 0xd6d6a3e8; 0xa1d1937e;
   0x38d8c2c4; 0x4fdff252; 0xd1bb67f1; 0xa6bc5767; 0x3fb506dd; 0x48b2364b;
   0xd80d2bda; 0xaf0a1b4c; 0x36034af6; 0x41047a60; 0xdf60efc3; 0xa867df55;
   0x316e8eef; 0x4669be79; 0xcb61b38c; 0xbc66831a; 0x256fd2a0; 0x5268e236;
   0xcc0c7795; 0xbb0b4703; 0x220216b9; 0x5505262f; 0xc5ba3bbe; 0xb2bd0b28;
   0x2bb45a92; 0x5cb36a04; 0xc2d7ffa7; 0xb5d0cf31; 0x2cd99e8b; 0x5bdeae1d;
   0x9b64c2b0; 0xec63f226; 0x756aa39c; 0x026d930a; 0x9c0906a9; 0xeb0e363f;
   0x72076785; 0x05005713; 0x95bf4a82; 0xe2b87a14; 0x7bb12bae; 0x0cb61b38;
   0x92d28e9b; 0xe5d5be0d; 0x7cdcefb7; 0x0bdbdf21; 0x86d3d2d4; 0xf1d4e242;
   0x68ddb3f8; 0x1fda836e; 0x81be16cd; 0xf6b9265b; 0x6fb077e1; 0x18b74777;
   0x88085ae6; 0xff0f6a70; 0x66063bca; 0x11010b5c; 0x8f659eff; 0xf862ae69;
   0x616bffd3; 0x166ccf45; 0xa00ae278; 0xd70dd2ee; 0x4e048354; 0x3903b3c2;
   0xa7672661; 0xd06016f7; 0x4969474d; 0x3e6e77db; 0xaed16a4a; 0xd9d65adc;
   0x40df0b66; 0x37d83bf0; 0xa9bcae53; 0xdebb9ec5; 0x47b2cf7f; 0x30b5ffe9;
   0xbdbdf21c; 0xcabac28a; 0x53b39330; 0x24b4a3a6; 0xbad03605; 0xcdd70693;
   0x54de5729; 0x23d967bf; 0xb3667a2e; 0xc4614ab8; 0x5d681b02; 0x2a6f2b94;
   0xb40bbe37; 0xc30c8ea1; 0x5a05df1b; 0x2d02ef8d].

(** bits777.c:219-230 [_crc32] *)
Definition _crc32 (crc : Z) (buf : list Z) : Z :=
  let crc := Z.lxor crc (2 ^ 32 - 1) in
  let crc := fold_left (fun crc p =>
    Z.lxor (znth crc32_tab (Z.land (Z.lxor crc p) 0xFF)) (Z.shiftr crc 8)) buf crc in
  Z.lxor crc (2 ^ 32 - 1).

(** ** The bit macros: functional behaviour *)

Lemma shiftr3 i : Z.shiftr i 3 = i / 8.
Proof. by rewrite Z.shiftr_div_pow2. Qed.

Lemma land7 i : Z.land i 7 = i mod 8.
Proof. change 7 with (Z.ones 3). by rewrite Z.land_ones. Qed.

Lemma shl1 i : 0 <= i -> Z.shiftl 1 i = 2 ^ i.
Proof. intros. rewrite Z.shiftl_mul_pow2 by lia. lia. Qed.

Lemma pow2_mod8 i : 1 <= 2 ^ (i mod 8) <= 128.
Proof.
  pose proof (Z.mod_pos_bound i 8 ltac:(lia)).
  split; [lia|]. change 128 with (2 ^ 7). apply Z.pow_le_mono_r; lia.
Qed.

Lemma znth_byte bits k : bytes bits -> 0 <= znth bits k < 256.
Proof. intros H. apply (Forall_znth (fun b => 0 <= b < 256) bits k); [lia|done]. Qed.

(** A byte is given by its bits. *)
Lemma byte_ext m1 m2 i : bytes m1 -> bytes m2 -> 0 <= i -> (forall k, 0 <= k < 8 -> bit m1 (8 * i + k) = bit m2 (8 * i + k)) -> znth m1 i = znth m2 i.
Proof.
  intros H1 H2 Hi H. apply Z.bits_inj'. intros k Hk. destruct (Z.lt_ge_cases k 8) as [Hlt|Hge].
  - specialize (H k ltac:(lia)). unfold bit in H. replace ((8 * i + k) / 8) with i in H by dmlia. replace ((8 * i + k) mod 8) with k in H by dmlia. done.
  - rewrite !(testbit_small _ 8); try done; by apply znth_byte.
Qed.

Lemma bit_zput bits k x j :
  0 <= k < Z.of_nat (length bits) -> 0 <= j ->
  bit (zput bits k x) j = if j / 8 =? k then Z.testbit x (j mod 8) else bit bits j.
Proof.
  intros. unfold bit. rewrite znth_zput by lia.
  destruct (Z.eqb_spec k (j / 8)), (Z.eqb_spec (j / 8) k); congruence.
Qed.

Lemma div_mod8_inj i j : i / 8 = j / 8 -> i mod 8 = j mod 8 -> i = j.
Proof. intros. dmlia. Qed.

Lemma GETBIT_eq bits i :
  0 <= i < 8 * Z.of_nat (length bits) ->
  GETBIT bits i = Some (if bit bits i then 2 ^ (i mod 8) else 0).
Proof.
  intros. unfold GETBIT, bit. rewrite shiftr3, land7, shl1 by dmlia.
  rewrite aget_znth by dmlia. simpl. by rewrite land_pow2 by dmlia.
Qed.

Lemma GETBIT_truth bits i :
  0 <= i < 8 * Z.of_nat (length bits) ->
  exists g, GETBIT bits i = Some g /\ truth g = bit bits i /\ 0 <= g <= 128.
Proof.
  intros. eexists. split; [by apply GETBIT_eq|].
  pose proof (pow2_mod8 i). destruct (bit bits i); [|done].
  split; [|lia]. unfold truth. by destruct (Z.eqb_spec (2 ^ (i mod 8)) 0); [lia|].
Qed.

(** [bits] with bit [i] made equal to [v]. *)
Definition bit_upd (bits : list Z) (i : Z) (v : bool) : list Z :=
  let b := znth bits (i / 8) in
  let m := 2 ^ (i mod 8) in
  zput bits (i / 8) (if v then Z.lor b m else Z.ldiff b m).

Lemma bit_upd_length bits i v : length (bit_upd bits i v) = length bits.
Proof. apply zput_length. Qed.

Lemma byte_testbit_ge b i : 0 <= b < 256 -> 8 <= i -> Z.testbit b i = false.
Proof. intros. by apply (testbit_small b 8). Qed.

Lemma bit_upd_byte b k (v : bool) :
  0 <= b < 256 -> 0 <= k < 8 ->
  0 <= (if v then Z.lor b (2 ^ k) else Z.ldiff b (2 ^ k)) < 256.
Proof.
  intros Hb Hk.
  assert (0 <= if v then Z.lor b (2 ^ k) else Z.ldiff b (2 ^ k)).
  { destruct v; [apply Z.lor_nonneg; lia|apply Z.ldiff_nonneg; lia]. }
  split; [done|]. change 256 with (2 ^ 8). apply testbit_bound; [lia|done|].
  intros i Hi. destruct v; rewrite ?Z.lor_spec, ?Z.ldiff_spec,
    (byte_testbit_ge b i), ?Z.pow2_bits_false by lia; done.
Qed.

Lemma bit_upd_bytes bits i v : 0 <= i -> bytes bits -> bytes (bit_upd bits i v).
Proof.
  intros Hi H. apply Forall_zput; [done|]. apply bit_upd_byte; [by apply znth_byte|dmlia].
Qed.

Lemma bit_bit_upd bits i v j :
  0 <= i < 8 * Z.of_nat (length bits) -> 0 <= j ->
  bit (bit_upd bits i v) j = if j =? i then v else bit bits j.
Proof.
  intros Hi Hj. unfold bit_upd. rewrite bit_zput by dmlia.
  destruct (Z.eqb_spec (j / 8) (i / 8)) as [E|E].
  2: { by destruct (Z.eqb_spec j i); [subst|]. }
  assert (Hv : forall b, Z.testbit (if v then Z.lor b (2 ^ (i mod 8)) else Z.ldiff b (2 ^ (i mod 8)))
                 (j mod 8) = if j =? i then v else Z.testbit b (j mod 8)).
  { intros b. destruct v; rewrite ?Z.lor_spec, ?Z.ldiff_spec, Z.pow2_bits_eqb by dmlia;
      destruct (Z.eqb_spec (i mod 8) (j mod 8)) as [E2|E2]; destruct (Z.eqb_spec j i) as [E3|E3];
      try (subst; congruence); try (exfalso; apply E3, div_mod8_inj; congruence);
      simpl; auto with bool; by rewrite ?orb_true_r, ?orb_false_r, ?andb_false_r, ?andb_true_r. }
  rewrite Hv. unfold bit. by rewrite E.
Qed.

Lemma SETBIT_eq bits i :
  bytes bits -> 0 <= i < 8 * Z.of_nat (length bits) ->
  SETBIT bits i = Some (bit_upd bits i true).
Proof.
  intros Hb Hi. unfold SETBIT, bit_upd. rewrite shiftr3, land7, shl1 by dmlia.
  rewrite aget_znth by dmlia. simpl. rewrite aset_zput by dmlia. do 2 f_equal.
  apply uwrap_small. change (2 ^ 8) with 256.
  apply (bit_upd_byte _ _ true); [by apply znth_byte|dmlia].
Qed.

Lemma CLEARBIT_eq bits i :
  bytes bits -> 0 <= i < 8 * Z.of_nat (length bits) ->
  CLEARBIT bits i = Some (bit_upd bits i false).
Proof.
  intros Hb Hi. unfold CLEARBIT, bit_upd. rewrite shiftr3, land7, shl1 by dmlia.
  rewrite aget_znth by dmlia. simpl. rewrite aset_zput by dmlia.
  rewrite <- Z.ldiff_land. do 2 f_equal.
  apply uwrap_small. change (2 ^ 8) with 256.
  apply (bit_upd_byte _ _ false); [by apply znth_byte|dmlia].
Qed.

(** ** Hamming weights: both routines count the differing bits *)

(** The number of [i < n] with [f i]. *)
Fixpoint count (n : nat) (f : Z -> bool) : Z :=
  match n with
  | O => 0
  | S n' => count n' f + c_bool (f (Z.of_nat n'))
  end.

#[local] Arguments count : simpl never.

Lemma count_S n f : count (S n) f = count n f + c_bool (f (Z.of_nat n)).
Proof. done. Qed.

Lemma count_ext n f g :
  (forall i, 0 <= i < Z.of_nat n -> f i = g i) -> count n f = count n g.
Proof.
  induction n as [|n IH]; intros H; rewrite ?count_S; [done|].
  rewrite IH by (intros; apply H; lia). by rewrite H by lia.
Qed.

Lemma count_app n m f :
  count (n + m) f = count n f + count m (fun j => f (Z.of_nat n + j)).
Proof.
  induction m as [|m IH]; [rewrite Nat.add_0_r; change (count 0 _) with 0; lia|].
  rewrite Nat.add_succ_r, !count_S, IH. rewrite Nat2Z.inj_add. lia.
Qed.

Lemma bitweight_count x : bitweight x = count 64 (Z.testbit x).
Proof.
  unfold bitweight.
  assert (H : forall n, for_loop n 0 (fun i wt =>
      if truth (Z.land (Z.shiftl 1 i) x) then wt + 1 else wt) 0 = count n (Z.testbit x)).
  { induction n as [|n IH]; [done|]. rewrite for_loop_snoc, IH. cbv beta. rewrite count_S.
    rewrite Z.add_0_l, shl1, Z.land_comm, truth_land_pow2 by lia.
    destruct (Z.testbit x (Z.of_nat n)); simpl; lia. }
  apply (H 64%nat).
Qed.

Lemma ulongs_testbit a i j :
  bytes a -> length a = 48%nat -> 0 <= i < 6 -> 0 <= j < 64 ->
  Z.testbit (ulongs a i) j = bit a (64 * i + j).
Proof.
  intros Ha Hl Hi Hj. unfold ulongs.
  rewrite le_val_testbit; [|by apply Forall_take, Forall_drop|lia].
  unfold bit. f_equal; [|dmlia]. unfold znth, aget.
  repeat zcase; try dmlia.
  rewrite lookup_take_lt by dmlia. rewrite lookup_drop.
  by replace (Z.to_nat (8 * i) + Z.to_nat (j / 8))%nat with (Z.to_nat ((64 * i + j) / 8)) by dmlia.
Qed.

Definition diff (a b : list Z) (i : Z) : bool := xorb (bit a i) (bit b i).

Lemma wt384_count a b :
  bytes a -> bytes b -> length a = 48%nat -> length b = 48%nat ->
  wt384 a b = count 384 (diff a b).
Proof.
  intros Ha Hb Hla Hlb.
  assert (H : forall n, (n <= 6)%nat ->
    for_loop n 0 (fun i n => n + bitweight (Z.lxor (ulongs a i) (ulongs b i))) 0
      = count (64 * n) (diff a b)).
  { induction n as [|n IH]; intros Hn; [done|].
    rewrite for_loop_snoc, IH by lia.
    replace (64 * S n)%nat with (64 * n + 64)%nat by lia.
    rewrite count_app, bitweight_count. f_equal. apply count_ext.
    intros j Hj. rewrite Z.lxor_spec, !ulongs_testbit by (done || lia).
    unfold diff. do 2 f_equal; lia. }
  apply (H 6%nat). lia.
Qed.

Lemma truth_lxor_masks (p q : bool) m :
  0 < m -> truth (Z.lxor (if p then m else 0) (if q then m else 0)) = xorb p q.
Proof.
  intros. destruct p, q; rewrite ?Z.lxor_nilpotent, ?Z.lxor_0_r, ?Z.lxor_0_l; simpl; try done;
    unfold truth; by destruct (Z.eqb_spec m 0); [lia|].
Qed.

Lemma zput_Forall_range spec i x :
  Forall (fun c => -2 ^ 31 <= c < 2 ^ 31) spec ->
  Forall (fun c => -2 ^ 31 <= c < 2 ^ 31) (zput spec i (i32 x)).
Proof. intros. apply Forall_zput; [done|]. apply (swrap_range 32). lia. Qed.

Lemma spectrum384_count spectrum a b :
  bytes a -> bytes b -> length a = 48%nat -> length b = 48%nat ->
  length spectrum = 384%nat ->
  exists spec', spectrum384 spectrum a b = Some (spec', count 384 (diff a b)) /\
    length spec' = 384%nat /\
    forall i, 0 <= i < 384 ->
      znth spec' i = if diff a b i then i32 (znth spectrum i + 1) else znth spectrum i.
Proof.
  intros Ha Hb Hla Hlb Hs. unfold spectrum384.
  edestruct (for_loopM_inv (fun i (st : list Z * Z) =>
      length st.1 = 384%nat /\ st.2 = count (Z.to_nat i) (diff a b) /\
      forall j, 0 <= j < 384 -> znth st.1 j =
        if (j <? i) && diff a b j then i32 (znth spectrum j + 1) else znth spectrum j) 384 0)
    as ([spec' n] & Hrun & Hl & Hn & Hj); cycle 2.
  - rewrite Hrun. cbn [fst snd] in Hl, Hn, Hj.
    change (Z.to_nat (0 + Z.of_nat 384)) with 384%nat in Hn. exists spec'. split; [by rewrite Hn|]. split; [done|].
    intros i Hi. rewrite Hj by done. destruct (Z.ltb_spec i (0 + Z.of_nat 384)); [done|lia].
  - intros i [spec n] Hi (Hl & Hn & Hj). cbn [fst snd] in Hl, Hn, Hj.
    rewrite !GETBIT_eq by lia. simpl. rewrite truth_lxor_masks by (pose proof (pow2_mod8 i); lia).
    change (xorb (bit a i) (bit b i)) with (diff a b i).
    replace (Z.to_nat (i + 1)) with (S (Z.to_nat i)) by lia. rewrite count_S, Z2Nat.id by lia.
    destruct (diff a b i) eqn:Ed; simpl.
    + rewrite aget_znth by lia. simpl. rewrite aset_zput by lia. simpl. eexists. split; [done|]. simpl.
      rewrite zput_length. split_and!; [done|lia|].
      intros j Hj'. rewrite znth_zput by lia. destruct (Z.eqb_spec i j) as [<-|Hne].
      * rewrite Hj by lia. rewrite Z.ltb_irrefl, Ed.
        by replace (i <? i + 1) with true by (symmetry; apply Z.ltb_lt; lia).
      * rewrite Hj by lia. replace (j <? i + 1) with (j <? i); [done|].
        destruct (Z.ltb_spec j i), (Z.ltb_spec j (i + 1)); lia || done.
    + eexists. split; [done|]. simpl. split_and!; [done|lia|].
      intros j Hj'. rewrite Hj by lia. destruct (Z.eq_dec i j) as [<-|Hne].
      * by rewrite Ed, !andb_false_r.
      * replace (j <? i + 1) with (j <? i); [done|].
        destruct (Z.ltb_spec j i), (Z.ltb_spec j (i + 1)); lia || done.
  - simpl. split_and!; [done|done|]. intros j Hj. by destruct (Z.ltb_spec j 0); [lia|].
Qed.

(** ** Bloom filter: cells *)

Definition bloom_wf (bl : bloombits) : Prop :=
  length (hashbits bl) = NUM_BLOOMPRIMES /\
  Forall (fun row => bytes row /\ length row = BLOOM_ROW) (hashbits bl) /\
  bytes (pad bl) /\ length (pad bl) = 8%nat.

Definition row (bl : bloombits) (i : Z) : list Z := default [] (aget (hashbits bl) i).
Definition cell (bl : bloombits) (i j : Z) : bool := bit (row bl i) j.
Definition prime (i : Z) : Z := znth bloomprimes i.
Definition hash (x i : Z) : Z := x mod prime i.

(** The eight cells of [x] are all set. *)
Definition hit (bl : bloombits) (x : Z) : bool :=
  forallb (fun i => cell bl i (hash x i)) (map Z.of_nat (seq 0 8)).

#[local] Arguments BLOOM_ROW : simpl never.
#[local] Opaque BLOOM_ROW.

Lemma BLOOM_ROW_eq : Z.of_nat BLOOM_ROW = 10000.
Proof. Transparent BLOOM_ROW. unfold BLOOM_ROW. rewrite Z2Nat.id; done. Opaque BLOOM_ROW. Qed.

Lemma prime_range i : 0 <= i < 8 -> aget bloomprimes i = Some (prime i) /\ 0 < prime i <= 79997.
Proof.
  intros H. assert (i = 0 \/ i = 1 \/ i = 2 \/ i = 3 \/ i = 4 \/ i = 5 \/ i = 6 \/ i = 7) by lia.
  destruct_or!; subst; split; (done || (cbv; split; congruence)).
Qed.

Lemma hash_range x i : 0 <= i < 8 -> 0 <= hash x i < 80000.
Proof. intros H. destruct (prime_range i H) as [_ ?]. unfold hash. dmlia. Qed.

Lemma row_wf bl i :
  bloom_wf bl -> 0 <= i < 8 ->
  aget (hashbits bl) i = Some (row bl i) /\ bytes (row bl i) /\
  Z.of_nat (length (row bl i)) = 10000.
Proof.
  intros (Hl & Hr & _) Hi. unfold row.
  destruct (aget_range (hashbits bl) i) as [r Hr']; [rewrite Hl; done|].
  rewrite Hr'. simpl. apply aget_Some in Hr' as [_ Hr'].
  eapply Forall_lookup_1 in Hr; [|done]. destruct Hr as [? ->].
  rewrite BLOOM_ROW_eq. done.
Qed.

(** Setting the cell [j] of row [i]. *)
Definition set_cell (bl : bloombits) (i j : Z) : bloombits :=
  mk_bloombits (zput (hashbits bl) i (bit_upd (row bl i) j true)) (pad bl).

Lemma set_cell_wf bl i j :
  bloom_wf bl -> 0 <= i < 8 -> 0 <= j < 80000 -> bloom_wf (set_cell bl i j).
Proof.
  intros Hw Hi Hj. destruct (row_wf bl i Hw Hi) as (_ & Hb & Hlen).
  destruct Hw as (Hl & Hr & Hp). split_and!; simpl; try apply Hp.
  - by rewrite zput_length.
  - apply Forall_zput; [done|]. split; [apply bit_upd_bytes; [lia|done]|].
    rewrite bit_upd_length. pose proof BLOOM_ROW_eq. lia.
Qed.

Lemma set_cell_cell bl i j i' j' :
  bloom_wf bl -> 0 <= i < 8 -> 0 <= j < 80000 -> 0 <= j' ->
  cell (set_cell bl i j) i' j' = (i' =? i) && (j' =? j) || cell bl i' j'.
Proof.
  intros Hw Hi Hj Hj'. destruct (row_wf bl i Hw Hi) as (_ & Hb & Hlen).
  unfold cell, row at 1. simpl. rewrite aget_zput by (destruct Hw as [-> _]; exact Hi).
  rewrite (Z.eqb_sym i i'). destruct (Z.eqb_spec i' i) as [->|]; simpl.
  - rewrite bit_bit_upd by lia. by destruct (j' =? j).
  - done.
Qed.

Lemma set_cells_loop x n : (n <= 8)%nat -> forall bl,
  bloom_wf bl ->
  exists bl', for_loopM n 0 (fun i rows =>
      row ← aget rows i;
      p ← aget bloomprimes i;
      row' ← SETBIT row (x mod p);
      aset rows i row') (hashbits bl) = Some (hashbits bl') /\ pad bl' = pad bl /\ bloom_wf bl' /\
    forall i j, 0 <= i < 8 -> 0 <= j ->
      cell bl' i j = (i <? Z.of_nat n) && (j =? hash x i) || cell bl i j.
Proof.
  intros Hn bl Hw.
  edestruct (for_loopM_inv (fun k rows => exists bl', rows = hashbits bl' /\ pad bl' = pad bl /\
      bloom_wf bl' /\ forall i j, 0 <= i < 8 -> 0 <= j ->
        cell bl' i j = (i <? k) && (j =? hash x i) || cell bl i j) n 0)
    as (s' & Hrun & bl' & -> & Hp & Hw' & Hc); cycle 2.
  - exists bl'. split_and!; [exact Hrun|done|done|].
    intros. rewrite Hc by done. done.
  - intros k rows Hk (bl' & -> & Hp & Hw' & Hc).
    destruct (row_wf bl' k Hw') as (Hrow & Hb & Hlen); [lia|].
    destruct (prime_range k) as [Hpr Hpos]; [lia|]. rewrite Hrow, Hpr. simpl.
    change (x mod prime k) with (hash x k). pose proof (hash_range x k).
    rewrite SETBIT_eq by (done || lia). simpl. rewrite aset_zput by (destruct Hw' as [-> _]; change (Z.of_nat NUM_BLOOMPRIMES) with 8; lia).
    eexists. split; [done|]. exists (set_cell bl' k (hash x k)).
    split_and!; [done|done|apply set_cell_wf; done || lia|].
    intros i j Hi Hj. rewrite set_cell_cell, Hc by (done || lia).
    destruct (Z.eqb_spec i k) as [->|]; simpl.
    + rewrite Z.ltb_irrefl. simpl. destruct (Z.ltb_spec k (k + 1)); [|lia]. simpl.
      by destruct (j =? hash x k).
    + replace (i <? k + 1) with (i <? k); [done|].
      destruct (Z.ltb_spec i k), (Z.ltb_spec i (k + 1)); done || lia.
  - exists bl. split_and!; try done. intros i j Hi Hj.
    by destruct (Z.ltb_spec i 0); [lia|].
Qed.

Lemma set_bloombits_spec bl x :
  bloom_wf bl ->
  exists bl', set_bloombits bl x = Some bl' /\ bloom_wf bl' /\
    forall i j, 0 <= i < 8 -> 0 <= j -> cell bl' i j = (j =? hash x i) || cell bl i j.
Proof.
  intros Hw. destruct (set_cells_loop x 8 (le_n _) bl Hw) as (bl' & Hrun & Hp & Hw' & Hc).
  exists bl'. unfold set_bloombits. change NUM_BLOOMPRIMES with 8%nat. rewrite Hrun. simpl.
  split_and!; [by destruct bl'; simpl in *; rewrite <- Hp|done|].
  intros i j Hi Hj. rewrite Hc by done. by destruct (Z.ltb_spec i (Z.of_nat 8)); [|lia].
Qed.

Lemma for_ret_forallb {S} n k (f : Z -> bool) (s : S) :
  for_ret n k (fun i (u : S) => if f i then Some (inl u) else Some (inr 0)) s
    = Some (if forallb f (map (fun j => k + Z.of_nat j) (seq 0 n))
            then inl s else inr 0).
Proof.
  revert k. induction n as [|n IH]; intros k; [done|].
  change (for_ret (Datatypes.S n) k ?b s) with (r ← b k s;
    match r with inl s' => for_ret n (k + 1) b s' | inr x => Some (inr x) end).
  cbn [seq map forallb]. rewrite Z.add_0_r.
  destruct (f k); simpl; [|done]. rewrite IH. do 2 f_equal.
  rewrite <- seq_shift, map_map. rewrite (map_ext (fun j => k + 1 + Z.of_nat j) (fun j => k + Z.of_nat (Datatypes.S j))) by lia. done.
Qed.

Lemma for_ret_ext {S R} n k (b1 b2 : Z -> S -> option (S + R)) s :
  (forall i s, k <= i < k + Z.of_nat n -> b1 i s = b2 i s) ->
  for_ret n k b1 s = for_ret n k b2 s.
Proof.
  revert k s. induction n as [|n IH]; intros k s H; [done|].
  change (for_ret (Datatypes.S n) k ?b s) with (r ← b k s;
    match r with inl s' => for_ret n (k + 1) b s' | inr x => Some (inr x) end).
  rewrite H by lia. destruct (b2 k s) as [[]|]; simpl; auto.
  apply IH. intros. apply H. lia.
Qed.

Lemma in_bloombits_hit bl x :
  bloom_wf bl -> in_bloombits bl x = Some (c_bool (hit bl x)).
Proof.
  intros Hw. unfold in_bloombits. change NUM_BLOOMPRIMES with 8%nat.
  rewrite (for_ret_ext _ _ _ (fun i u => if cell bl i (hash x i) then Some (inl u) else Some (inr 0))).
  - rewrite (for_ret_forallb _ _ (fun i => cell bl i (hash x i))).
    change (map (fun j => 0 + Z.of_nat j) (seq 0 8)) with (map Z.of_nat (seq 0 8)). unfold hit.
    by destruct (forallb _ _).
  - intros i [] Hi. destruct (row_wf bl i Hw) as (Hrow & Hb & Hlen); [lia|].
    destruct (prime_range i) as [Hpr Hpos]; [lia|]. rewrite Hrow, Hpr. simpl.
    pose proof (hash_range x i). change (x mod prime i) with (hash x i).
    rewrite GETBIT_eq by lia. simpl. unfold cell.
    pose proof (pow2_mod8 (hash x i)).
    destruct (bit _ _); simpl; [|done]. by destruct (Z.eqb_spec (2 ^ (hash x i mod 8)) 0); [lia|].
Qed.

(** ** Bloom filter: merging *)

Lemma or_words_S n d s :
  or_words (S n) d s = le_bytes 8 (Z.lor (le_val (firstn 8 d)) (le_val (firstn 8 s)))
    ++ or_words n (skipn 8 d) (skipn 8 s).
Proof. done. Qed.

Lemma lor_byte a b : 0 <= a < 256 -> 0 <= b < 256 -> 0 <= Z.lor a b < 256.
Proof.
  intros. assert (0 <= Z.lor a b) by (apply Z.lor_nonneg; lia). split; [done|].
  change 256 with (2 ^ 8). apply testbit_bound; [lia|done|].
  intros. by rewrite Z.lor_spec, !(byte_testbit_ge _ i) by done.
Qed.

Lemma zip_lor_bytes a b : bytes a -> bytes b -> bytes (zip_with Z.lor a b).
Proof.
  intros Ha. revert b. induction Ha; intros b Hb; destruct Hb; simpl; constructor; auto.
  by apply lor_byte.
Qed.

(** Or-ing two words is or-ing their bytes. *)
Lemma le_val_lor a b :
  bytes a -> bytes b -> length a = length b ->
  Z.lor (le_val a) (le_val b) = le_val (zip_with Z.lor a b).
Proof.
  intros Ha Hb Hl. apply Z.bits_inj'. intros i Hi.
  rewrite Z.lor_spec, !le_val_testbit by auto using zip_lor_bytes.
  unfold znth, aget. zcase; [|dmlia]. rewrite lookup_zip_with.
  destruct (a !! Z.to_nat (i / 8)) eqn:Ea, (b !! Z.to_nat (i / 8)) eqn:Eb; simpl;
    rewrite ?Z.bits_0, ?Z.lor_spec; try done; exfalso;
    (apply lookup_lt_Some in Ea || apply lookup_lt_Some in Eb);
    (apply lookup_ge_None in Ea || apply lookup_ge_None in Eb); lia.
Qed.

Lemma or_words_zip n d s :
  bytes d -> bytes s -> length d = (8 * n)%nat -> length s = (8 * n)%nat ->
  or_words n d s = zip_with Z.lor d s.
Proof.
  revert d s. induction n as [|n IH]; intros d s Hd Hs Hld Hls; rewrite ?or_words_S.
  { apply nil_length_inv in Hld, Hls. by subst. }
  rewrite IH by (try (apply Forall_drop; done); rewrite length_drop; lia).
  assert (Hf : length (firstn 8 d) = 8%nat) by (rewrite length_take; lia).
  assert (Hf' : length (firstn 8 s) = 8%nat) by (rewrite length_take; lia).
  rewrite le_val_lor by (try (by apply Forall_take); congruence).
  replace 8%nat with (length (zip_with Z.lor (firstn 8 d) (firstn 8 s))) at 1
    by (rewrite length_zip_with; lia).
  rewrite le_bytes_val by (apply zip_lor_bytes; by apply Forall_take).
  rewrite <- zip_with_app by congruence. by rewrite !take_drop.
Qed.

Lemma rows_of_app n (r : list (list Z)) t :
  Forall (fun row : list Z => length row = BLOOM_ROW) r -> length r = n ->
  rows_of n (concat r ++ t) = r.
Proof.
  intros H. revert n. induction H as [|x r Hx Hr IH]; intros n Hn; simpl in Hn; subst n; [done|].
  simpl. rewrite <- app_assoc, take_app_length', drop_app_length' by done. by rewrite IH.
Qed.

Lemma concat_length_rows (r : list (list Z)) :
  Forall (fun row : list Z => length row = BLOOM_ROW) r -> length (concat r) = (length r * BLOOM_ROW)%nat.
Proof. induction 1; simpl; [done|]. rewrite length_app. lia. Qed.

Lemma concat_zip (r r' : list (list Z)) :
  Forall (fun row : list Z => length row = BLOOM_ROW) r ->
  Forall (fun row : list Z => length row = BLOOM_ROW) r' -> length r = length r' ->
  zip_with Z.lor (concat r) (concat r') = concat (zip_with (zip_with Z.lor) r r').
Proof.
  intros H. revert r'. induction H as [|x r Hx Hr IH]; intros r' H' Hl; [done|].
  destruct H' as [|y r' Hy Hr']; [done|]. simpl in *.
  rewrite zip_with_app by congruence. f_equal. apply IH; [done|lia].
Qed.

(** The merge is the cell-wise union. *)
Definition bloom_union (d s : bloombits) : bloombits :=
  mk_bloombits (zip_with (zip_with Z.lor) (hashbits d) (hashbits s))
    (zip_with Z.lor (pad d) (pad s)).

Lemma rows_length bl : bloom_wf bl -> Forall (fun row : list Z => length row = BLOOM_ROW) (hashbits bl).
Proof. intros (_ & H & _). eapply Forall_impl; [|exact H]. by intros x [_ ?]. Qed.

Lemma concat_bytes bl : bloom_wf bl -> bytes (concat (hashbits bl)).
Proof.
  intros (_ & H & _). apply Forall_concat. eapply Forall_impl; [|exact H]. by intros x [? _].
Qed.

Lemma merge_bloombits_union d s :
  bloom_wf d -> bloom_wf s -> merge_bloombits d s = bloom_union d s.
Proof.
  intros Hd Hs. pose proof (rows_length _ Hd) as Rd. pose proof (rows_length _ Hs) as Rs.
  pose proof BLOOM_ROW_eq as HB.
  unfold merge_bloombits, bloom_bytes.
  assert (Ld : length (concat (hashbits d) ++ pad d) = (8 * (8 * 1250 + 1))%nat).
  { rewrite length_app, concat_length_rows by done. destruct Hd as (-> & _ & _ & ->).
    unfold NUM_BLOOMPRIMES. lia. }
  assert (Ls : length (concat (hashbits s) ++ pad s) = (8 * (8 * 1250 + 1))%nat).
  { rewrite length_app, concat_length_rows by done. destruct Hs as (-> & _ & _ & ->).
    unfold NUM_BLOOMPRIMES. lia. }
  rewrite Ld. rewrite Nat.mul_comm, Nat.div_mul by lia.
  rewrite or_words_zip by first [done | apply Forall_app; split;
    [by apply concat_bytes|apply Hd || apply Hs]].
  rewrite zip_with_app by (rewrite !concat_length_rows by done;
    destruct Hd as [-> _], Hs as [-> _]; done).
  rewrite concat_zip by first [done | destruct Hd as [-> _], Hs as [-> _]; done].
  unfold bloom_of_bytes, bloom_union.
  assert (Hz : Forall (fun row : list Z => length row = BLOOM_ROW)
                 (zip_with (zip_with Z.lor) (hashbits d) (hashbits s))).
  { clear -Rd Rs. revert Rs. generalize (hashbits s). induction Rd as [|x r Hx Hr IH];
      intros r' Hr'; destruct Hr'; simpl; constructor; auto.
    rewrite length_zip_with. lia. }
  assert (Lz : length (zip_with (zip_with Z.lor) (hashbits d) (hashbits s)) = NUM_BLOOMPRIMES).
  { rewrite length_zip_with. destruct Hd as [-> _], Hs as [-> _]. done. }
  rewrite rows_of_app by done. f_equal. rewrite drop_app_length'; [done|].
  rewrite concat_length_rows, Lz by done. done.
Qed.

Lemma bit_zip_lor a b j :
  length a = length b -> 0 <= j -> bit (zip_with Z.lor a b) j = bit a j || bit b j.
Proof.
  intros Hl Hj. unfold bit, znth, aget. zcase; [|dmlia]. rewrite lookup_zip_with.
  destruct (a !! Z.to_nat (j / 8)) eqn:Ea, (b !! Z.to_nat (j / 8)) eqn:Eb; simpl;
    rewrite ?Z.bits_0, ?Z.lor_spec; try done; exfalso;
    (apply lookup_lt_Some in Ea || apply lookup_lt_Some in Eb);
    (apply lookup_ge_None in Ea || apply lookup_ge_None in Eb); lia.
Qed.

Lemma bloom_union_row d s i :
  bloom_wf d -> bloom_wf s -> 0 <= i < 8 ->
  row (bloom_union d s) i = zip_with Z.lor (row d i) (row s i).
Proof.
  intros Hd Hs Hi. destruct (row_wf d i Hd Hi) as (Hrd & _), (row_wf s i Hs Hi) as (Hrs & _).
  apply aget_Some in Hrd as [? Hrd], Hrs as [? Hrs].
  unfold row at 1. simpl.
  replace (aget _ i) with (Some (zip_with Z.lor (row d i) (row s i))); [done|].
  symmetry. apply aget_Some. split; [done|]. by rewrite lookup_zip_with, Hrd, Hrs.
Qed.

Lemma bloom_union_wf d s : bloom_wf d -> bloom_wf s -> bloom_wf (bloom_union d s).
Proof.
  intros (Hl & Hr & Hp & Hpl) (Hl' & Hr' & Hp' & Hpl'). split_and!; simpl.
  - rewrite length_zip_with, Hl, Hl'. done.
  - clear -Hr Hr'. revert Hr'. generalize (hashbits s).
    induction Hr as [|x r [Hx Hx'] Hr IH]; intros r' Hr'; destruct Hr' as [|y r' [Hy Hy']];
      simpl; constructor; auto.
    split; [by apply zip_lor_bytes|]. rewrite length_zip_with. lia.
  - by apply zip_lor_bytes.
  - rewrite length_zip_with. lia.
Qed.

Lemma bloom_union_cell d s i j :
  bloom_wf d -> bloom_wf s -> 0 <= i < 8 -> 0 <= j ->
  cell (bloom_union d s) i j = cell d i j || cell s i j.
Proof.
  intros Hd Hs Hi Hj. unfold cell. rewrite bloom_union_row by done. apply bit_zip_lor; [|done].
  destruct (row_wf d i Hd Hi) as (_ & _ & ?), (row_wf s i Hs Hi) as (_ & _ & ?). lia.
Qed.

Lemma hit_spec bl x : hit bl x = true <-> forall i, 0 <= i < 8 -> cell bl i (hash x i) = true.
Proof.
  unfold hit. rewrite forallb_forall. split.
  - intros H i Hi. apply H, in_map_iff. exists (Z.to_nat i). rewrite in_seq. lia.
  - intros H i Hi. apply in_map_iff in Hi as (k & <- & Hk). apply in_seq in Hk. apply H. lia.
Qed.

(** ** CRC-32: the reflected polynomial 0xEDB88320, bit by bit *)

Definition crc_step (x : Z) : Z :=
  if Z.odd x then Z.lxor (Z.shiftr x 1) 0xEDB88320 else Z.shiftr x 1.

Definition crc_byte (x : Z) : Z := Nat.iter 8 crc_step x.

(** The table-free reference: eight polynomial division steps per byte. *)
Definition crc_reference (crc : Z) (buf : list Z) : Z :=
  Z.lxor (fold_left (fun c p => crc_byte (Z.lxor c p)) buf (Z.lxor crc (2 ^ 32 - 1))) (2 ^ 32 - 1).

Lemma crc_step_lxor a b : crc_step (Z.lxor a b) = Z.lxor (crc_step a) (crc_step b).
Proof.
  unfold crc_step. rewrite Z.shiftr_lxor, <- !Z.bit0_odd, Z.lxor_spec.
  destruct (Z.testbit a 0), (Z.testbit b 0); simpl; try done.
  - rewrite (Z.lxor_comm (Z.shiftr b 1)), Z.lxor_assoc, <- (Z.lxor_assoc 0xEDB88320).
    by rewrite Z.lxor_nilpotent, Z.lxor_0_l.
  - by rewrite !Z.lxor_assoc, (Z.lxor_comm 0xEDB88320).
  - by rewrite Z.lxor_assoc.
Qed.

Lemma crc_iter_lxor n a b :
  Nat.iter n crc_step (Z.lxor a b) = Z.lxor (Nat.iter n crc_step a) (Nat.iter n crc_step b).
Proof. induction n as [|n IH]; simpl; [done|]. by rewrite IH, crc_step_lxor. Qed.

Lemma crc_step_shl z : crc_step (Z.shiftl z 1) = z.
Proof.
  unfold crc_step. rewrite Z.shiftl_mul_pow2, Z.shiftr_div_pow2 by lia. change (2 ^ 1) with 2.
  rewrite Z.odd_mul, andb_false_r. by rewrite Z.div_mul.
Qed.

Lemma crc_iter_shl n z : Nat.iter n crc_step (Z.shiftl z (Z.of_nat n)) = z.
Proof.
  revert z. induction n as [|n IH]; intros z; simpl.
  - by rewrite Z.shiftl_0_r.
  - replace (Z.of_nat (S n)) with (1 + Z.of_nat n) by lia.
    rewrite <- Z.shiftl_shiftl by lia. rewrite IH. apply crc_step_shl.
Qed.

(** The table holds the eight-step remainder of every byte. *)
Lemma crc32_tab_eq k : 0 <= k < 256 -> znth crc32_tab k = crc_byte k.
Proof.
  intros Hk.
  assert (H : forallb (fun n => znth crc32_tab (Z.of_nat n) =? crc_byte (Z.of_nat n)) (seq 0 256) = true)
    by (vm_compute; reflexivity).
  rewrite forallb_forall in H. specialize (H (Z.to_nat k)).
  rewrite Z2Nat.id in H by lia. apply Z.eqb_eq, H, in_seq. lia.
Qed.

Lemma crc_table_step c p :
  0 <= p < 256 ->
  Z.lxor (znth crc32_tab (Z.land (Z.lxor c p) 0xFF)) (Z.shiftr c 8) = crc_byte (Z.lxor c p).
Proof.
  intros Hp. set (y := Z.lxor c p).
  assert (Hland : Z.land y 0xFF = y mod 2 ^ 8) by (change 0xFF with (Z.ones 8); by apply Z.land_ones).
  assert (Hy : y = Z.lxor (y mod 2 ^ 8) (Z.shiftl (Z.shiftr y 8) 8)).
  { apply Z.bits_inj'. intros i Hi. rewrite Z.lxor_spec, Z.shiftl_spec by lia.
    destruct (Z.lt_ge_cases i 8).
    - by rewrite Z.mod_pow2_bits_low, (Z.testbit_neg_r _ (i - 8)), xorb_false_r by lia.
    - rewrite Z.mod_pow2_bits_high, Z.shiftr_spec, xorb_false_l by lia. f_equal. lia. }
  assert (Hc : Z.shiftr c 8 = Z.shiftr y 8).
  { unfold y. rewrite Z.shiftr_lxor, (Z.shiftr_div_pow2 p), (Z.div_small p) by lia.
    by rewrite Z.lxor_0_r. }
  rewrite Hland, crc32_tab_eq by (apply Z.mod_pos_bound; lia).
  rewrite Hc. rewrite Hy at 3. unfold crc_byte.
  rewrite (crc_iter_lxor 8). f_equal. symmetry. apply (crc_iter_shl 8).
Qed.

Lemma crc_step_range x : 0 <= x < 2 ^ 32 -> 0 <= crc_step x < 2 ^ 32.
Proof.
  intros Hx. unfold crc_step. rewrite Z.shiftr_div_pow2 by lia. change (2 ^ 1) with 2.
  assert (0 <= x / 2 < 2 ^ 32) by dmlia. destruct (Z.odd x); [|done].
  assert (0 <= Z.lxor (x / 2) 0xEDB88320) by (apply Z.lxor_nonneg; lia).
  split; [done|]. apply testbit_bound; [lia|done|]. intros i Hi.
  rewrite Z.lxor_spec, (testbit_small (x / 2) 32), (testbit_small 0xEDB88320 32) by lia.
  done.
Qed.

Lemma lxor_range32 a b : 0 <= a < 2 ^ 32 -> 0 <= b < 2 ^ 32 -> 0 <= Z.lxor a b < 2 ^ 32.
Proof.
  intros. assert (0 <= Z.lxor a b) by (apply Z.lxor_nonneg; lia).
  split; [done|]. apply testbit_bound; [lia|done|]. intros i Hi.
  by rewrite Z.lxor_spec, !(testbit_small _ 32 i) by done.
Qed.

(** One division step can be undone: bit 31 tells whether the polynomial was added. *)
Lemma crc_step_inj x y :
  0 <= x < 2 ^ 32 -> 0 <= y < 2 ^ 32 -> crc_step x = crc_step y -> x = y.
Proof.
  intros Hx Hy E.
  assert (H31 : forall z, 0 <= z < 2 ^ 32 -> Z.testbit (crc_step z) 31 = Z.odd z).
  { intros z Hz. unfold crc_step. destruct (Z.odd z); rewrite ?Z.lxor_spec, Z.shiftr_spec by lia;
      by rewrite (testbit_small z 32) by (done || lia). }
  pose proof (H31 x Hx) as Ex. pose proof (H31 y Hy) as Ey. rewrite E in Ex.
  assert (Ho : Z.odd x = Z.odd y) by congruence.
  assert (Hs : Z.shiftr x 1 = Z.shiftr y 1).
  { unfold crc_step in E. rewrite Ho in E. destruct (Z.odd y); [|done].
    apply (f_equal (fun z => Z.lxor z 0xEDB88320)) in E.
    by rewrite !Z.lxor_assoc, Z.lxor_nilpotent, !Z.lxor_0_r in E. }
  rewrite !Z.shiftr_div_pow2 in Hs by lia. change (2 ^ 1) with 2 in Hs.
  rewrite (Z.div_mod x 2), (Z.div_mod y 2), !Zmod_odd, Ho, Hs by lia. done.
Qed.

Lemma crc_byte_inj x y :
  0 <= x < 2 ^ 32 -> 0 <= y < 2 ^ 32 -> crc_byte x = crc_byte y -> x = y.
Proof.
  unfold crc_byte. generalize 8%nat. intros n. revert x y.
  induction n as [|n IH]; intros x y Hx Hy; [done|]. rewrite !Nat.iter_succ_r.
  intros E. apply crc_step_inj; [done..|]. apply IH; auto using crc_step_range.
Qed.

Lemma crc_byte_range x : 0 <= x < 2 ^ 32 -> 0 <= crc_byte x < 2 ^ 32.
Proof.
  unfold crc_byte. generalize 8%nat. intros n Hx.
  induction n; simpl; auto using crc_step_range.
Qed.

(** The register of the reference, as a fold, is injective in its start value. *)
Definition crc_fold (buf : list Z) (c : Z) : Z :=
  fold_left (fun c p => crc_byte (Z.lxor c p)) buf c.

Lemma byte_range32 p : 0 <= p < 256 -> 0 <= p < 2 ^ 32.
Proof. intros. split; [lia|]. apply Z.lt_trans with 256; [lia|done]. Qed.

Lemma crc_fold_range buf c : bytes buf -> 0 <= c < 2 ^ 32 -> 0 <= crc_fold buf c < 2 ^ 32.
Proof.
  intros H. revert c. induction H as [|p buf Hp Hb IH]; intros c Hc; [done|].
  apply IH, crc_byte_range, lxor_range32; auto using byte_range32.
Qed.

Lemma crc_fold_inj buf c d :
  bytes buf -> 0 <= c < 2 ^ 32 -> 0 <= d < 2 ^ 32 -> crc_fold buf c = crc_fold buf d -> c = d.
Proof.
  intros H. revert c d. induction H as [|p buf Hp Hb IH]; intros c d Hc Hd E; [done|].
  apply byte_range32 in Hp.
  apply IH in E; [|by apply crc_byte_range, lxor_range32..].
  apply crc_byte_inj in E; [|by apply lxor_range32..].
  apply (f_equal (fun z => Z.lxor z p)) in E.
  by rewrite !Z.lxor_assoc, Z.lxor_nilpotent, !Z.lxor_0_r in E.
Qed.

Lemma crc32_fold crc buf :
  bytes buf ->
  _crc32 crc buf = Z.lxor (crc_fold buf (Z.lxor crc (2 ^ 32 - 1))) (2 ^ 32 - 1).
Proof.
  intros H. unfold _crc32, crc_fold. f_equal. generalize (Z.lxor crc (2 ^ 32 - 1)).
  induction H as [|p buf Hp Hb IH]; intros c; cbn [fold_left]; [done|].
  rewrite crc_table_step by done. apply IH.
Qed.

(** ** Properties *)

(** The Hamming distance [wt384] and the per-bit histogram [spectrum384] agree:
    on 384-bit values the histogram routine never leaves its arrays, returns exactly
    [wt384 a b], and increments (as an [int]) precisely the slots where [a] and [b]
    differ. *)
Theorem spectrum384_wt384 spectrum a b :
  bytes a -> bytes b -> length a = 48%nat -> length b = 48%nat -> length spectrum = 384%nat ->
  exists spec', spectrum384 spectrum a b = Some (spec', wt384 a b) /\
    wt384 a b = count 384 (diff a b) /\
    forall i, 0 <= i < 384 ->
      znth spec' i = if diff a b i then i32 (znth spectrum i + 1) else znth spectrum i.
Proof.
  intros. rewrite wt384_count by done.
  destruct (spectrum384_count spectrum a b) as (s & ? & ? & ?); [done..|]. eauto.
Qed.

Lemma bytes_replicate n x : 0 <= x < 256 -> bytes (replicate n x).
Proof. intros. by apply Forall_replicate. Qed.

Lemma spectrum384_wt384_witness :
  exists spec', spectrum384 (replicate 384 7) (replicate 48 0xF0) (replicate 48 0x0F)
    = Some (spec', wt384 (replicate 48 0xF0) (replicate 48 0x0F)) /\
    wt384 (replicate 48 0xF0) (replicate 48 0x0F)
      = count 384 (diff (replicate 48 0xF0) (replicate 48 0x0F)) /\
    forall i, 0 <= i < 384 ->
      znth spec' i = if diff (replicate 48 0xF0) (replicate 48 0x0F) i
                     then i32 (znth (replicate 384 7) i + 1) else znth (replicate 384 7) i.
Proof.
  apply (spectrum384_wt384 (replicate 384 7) (replicate 48 0xF0) (replicate 48 0x0F));
    (apply bytes_replicate; lia) || reflexivity.
Defined.

Definition empty_bloom : bloombits :=
  mk_bloombits (replicate NUM_BLOOMPRIMES (replicate BLOOM_ROW 0)) (replicate 8 0).

Lemma empty_bloom_wf : bloom_wf empty_bloom.
Proof.
  unfold bloom_wf, empty_bloom. cbn [hashbits pad]. split_and!; try done.
  - apply Forall_replicate. split; [by apply bytes_replicate|apply length_replicate].
  - by apply (bytes_replicate 8%nat 0).
Qed.

(** The Bloom filter has no false negatives, through insertions and merges: an
    insertion stays in bounds and keeps the filter well formed, the inserted account is
    found, accounts that were found before stay found, and after a merge an account is
    found whenever it was found in either filter. *)
Theorem bloom_no_false_negatives bl other x :
  bloom_wf bl -> bloom_wf other ->
  exists bl', set_bloombits bl x = Some bl' /\ bloom_wf bl' /\
    in_bloombits bl' x = Some 1 /\
    (forall y, in_bloombits bl y = Some 1 -> in_bloombits bl' y = Some 1) /\
    bloom_wf (merge_bloombits bl' other) /\
    (forall y, in_bloombits bl' y = Some 1 \/ in_bloombits other y = Some 1 ->
       in_bloombits (merge_bloombits bl' other) y = Some 1).
Proof.
  intros Hw Ho. destruct (set_bloombits_spec bl x Hw) as (bl' & Hset & Hw' & Hc).
  exists bl'. rewrite merge_bloombits_union by done. pose proof (bloom_union_wf bl' other Hw' Ho).
  assert (Hin : forall b y, bloom_wf b -> in_bloombits b y = Some 1 <-> hit b y = true).
  { intros b y Hb. rewrite in_bloombits_hit by done. destruct (hit b y); simpl; split; done || congruence. }
  split_and!; [done..| | |done|].
  - apply Hin; [done|]. apply hit_spec. intros i Hi. pose proof (hash_range x i Hi).
    rewrite Hc by lia. by rewrite Z.eqb_refl.
  - intros y. rewrite !Hin, !hit_spec by done. intros Hy i Hi. pose proof (hash_range y i Hi).
    rewrite Hc, Hy, orb_true_r by lia. done.
  - intros y Hy. apply Hin; [done|]. apply hit_spec. intros i Hi. pose proof (hash_range y i Hi).
    rewrite bloom_union_cell by (done || lia). apply orb_true_iff.
    destruct Hy as [Hy|Hy]; apply Hin in Hy; try done; rewrite hit_spec in Hy; eauto.
Qed.

Lemma bloom_no_false_negatives_witness :
  exists bl', set_bloombits empty_bloom 2015 = Some bl' /\ bloom_wf bl' /\
    in_bloombits bl' 2015 = Some 1 /\
    (forall y, in_bloombits empty_bloom y = Some 1 -> in_bloombits bl' y = Some 1) /\
    bloom_wf (merge_bloombits bl' empty_bloom) /\
    (forall y, in_bloombits bl' y = Some 1 \/ in_bloombits empty_bloom y = Some 1 ->
       in_bloombits (merge_bloombits bl' empty_bloom) y = Some 1).
Proof.
  apply (bloom_no_false_negatives empty_bloom empty_bloom 2015); apply empty_bloom_wf.
Defined.

(** The table-driven CRC is the bit-by-bit CRC-32 of the reflected polynomial
    0xEDB88320 on every buffer and start value, and it can be computed in pieces. *)
Theorem crc32_reference crc buf buf2 :
  bytes buf -> bytes buf2 ->
  _crc32 crc buf = crc_reference crc buf /\
  _crc32 (_crc32 crc buf) buf2 = _crc32 crc (buf ++ buf2).
Proof.
  intros H H2. rewrite !crc32_fold by (try apply Forall_app; done). split; [done|].
  rewrite Z.lxor_assoc, Z.lxor_nilpotent, Z.lxor_0_r. unfold crc_fold. by rewrite fold_left_app.
Qed.

Lemma crc32_reference_witness :
  _crc32 0 [49; 50; 51; 52; 53; 54; 55; 56; 57] = crc_reference 0 [49; 50; 51; 52; 53; 54; 55; 56; 57] /\
  _crc32 (_crc32 0 [49; 50; 51; 52; 53; 54; 55; 56; 57]) [0]
    = _crc32 0 ([49; 50; 51; 52; 53; 54; 55; 56; 57] ++ [0]).
Proof.
  apply (crc32_reference 0 [49; 50; 51; 52; 53; 54; 55; 56; 57] [0]); repeat constructor; lia.
Defined.

(** The published check value of CRC-32. *)
Example crc32_check : _crc32 0 [49; 50; 51; 52; 53; 54; 55; 56; 57] = 0xCBF43926.
Proof. vm_compute. reflexivity. Qed.

(** [C40] The CRC detects every corruption of a single byte: two buffers that differ in
    one byte have different checksums, wherever the byte is. *)
Theorem crc32_detects_byte_error crc p a b s :
  0 <= crc < 2 ^ 32 -> bytes p -> bytes s -> 0 <= a < 256 -> 0 <= b < 256 -> a <> b ->
  _crc32 crc (p ++ a :: s) <> _crc32 crc (p ++ b :: s).
Proof.
  intros Hc Hp Hs Ha Hb Hne E.
  rewrite !crc32_fold in E by (apply Forall_app; split; [done|by constructor]).
  apply (f_equal (fun z => Z.lxor z (2 ^ 32 - 1))) in E.
  rewrite !Z.lxor_assoc, !Z.lxor_nilpotent, !Z.lxor_0_r in E.
  assert (Hm : 0 <= 2 ^ 32 - 1 < 2 ^ 32) by done.
  pose proof (crc_fold_range p _ Hp (lxor_range32 _ _ Hc Hm)) as Hf.
  unfold crc_fold in E. rewrite !fold_left_app in E. cbn [fold_left] in E.
  apply byte_range32 in Ha, Hb.
  apply crc_fold_inj in E; [|done|by apply crc_byte_range, lxor_range32..].
  apply crc_byte_inj in E; [|by apply lxor_range32..].
  apply Hne. apply (f_equal (Z.lxor (fold_left (fun c p => crc_byte (Z.lxor c p)) p
    (Z.lxor crc (2 ^ 32 - 1))))) in E.
  by rewrite <- !Z.lxor_assoc, Z.lxor_nilpotent, !Z.lxor_0_l in E.
Qed.

Lemma crc32_detects_byte_error_witness :
  _crc32 0 ([1; 2] ++ 3 :: [4]) <> _crc32 0 ([1; 2] ++ 5 :: [4]).
Proof. apply (crc32_detects_byte_error 0 [1; 2] 3 5 [4]); try (repeat constructor; lia); lia. Defined.
