(* ===== verification/SaM.v ===== *)
(** * SaM.c: a hash function on trits

    The state is 729 trits (-1, 0, 1).  A round splits it into two halves with one table and
    merges them with another, both walking through the positions in steps of 254; nine rounds
    make [SaM_SplitAndMerge].  Messages are absorbed 243 trits at a time, and the first 243
    trits are emitted as 384 bits.  The same function makes a key stream ([SaM_encrypt]) and
    a proof of work ([SaM_nonce]).

    [SAM_INDICES] is the table as [SaM_PrepareIndices] leaves it when the program starts.
    Arrays on the stack that are not initialised are arguments ([SaM_info], [garbage]), or are
    filled with zeroes where the code writes them in full before it reads them.  The nonces
    that are drawn while the time lasts are an argument.

    The walk visits every position once; a round is the closed form [mix], with the tables
    equal to the functions [SaM_Bias] and [SaM_Sum]; what was in memory before does not
    matter; padding keeps messages of bytes apart; a hit is below 3^27; encrypting twice gives
    the text back.  The test of the code and the statistics it prints are left out. *)
From Stdlib Require Import ZArith Lia.
From stdpp Require Import base list numbers option.
From S2P Require Import Prelude Bits.
Open Scope Z_scope.

(** SaM.c:30-30 [SAM_HASH_SIZE] *)
Definition SAM_HASH_SIZE : Z := 243.
(** SaM.c:31-31 [SAM_STATE_SIZE] *)
Definition SAM_STATE_SIZE : Z := 729.
(** SaM.c:32-32 [SAM_NUMBER_OF_ROUNDS] *)
Definition SAM_NUMBER_OF_ROUNDS : nat := 9.
(** SaM.c:33-33 [SAM_DELTA] *)
Definition SAM_DELTA : Z := 254.
(** SaM.c:35-35 [SAMHIT_LIMIT] *)
Definition SAMHIT_LIMIT : Z := 7625597484987.

(** SaM.c:43-43 [SaM_info] *)
Record SaM_info := mkSaM { bits : list Z; trits : list Z; hash : list Z }.

#[export] Instance eta_SaM_info : Eta SaM_info := fun s => mkSaM (bits s) (trits s) (hash s).

(** SaM.c:67-76 [SaM_PrepareIndices] *)
Definition SaM_PrepareIndices (table : list Z) : option (list Z) :=
  '(table, _) ← for_loopM (Z.to_nat SAM_STATE_SIZE) 0 (fun i '(table, currentIndex) =>
    let nextIndex := (currentIndex + SAM_DELTA) mod SAM_STATE_SIZE in
    table ← aset table i nextIndex;
    Some (table, nextIndex)) (table, 0);
  Some table.

(** SaM.c:65-65 [SAM_INDICES] *)
Definition SAM_INDICES : list Z := default [] (SaM_PrepareIndices (replicate (Z.to_nat SAM_STATE_SIZE) 0)).

(** SaM.c:78-78 [SaM_Bias] *)
Definition SaM_Bias (a b : Z) : Z := if a =? 0 then 0 else if a =? - b then a else - a.
(** SaM.c:79-79 [SaM_Sum] *)
Definition SaM_Sum (a b : Z) : Z := if a =? b then - a else a + b.

(** SaM.c:83-83 [SAMSUM] *)
Definition SAMSUM : list (list Z) := [[1; -1; 0]; [-1; 0; 1]; [0; 1; -1]].
(** SaM.c:84-84 [SAMBIAS] *)
Definition SAMBIAS : list (list Z) := [[1; 1; -1]; [0; 0; 0]; [1; -1; -1]].

Definition table (t : list (list Z)) (a b : Z) : option Z := row ← aget t (a + 1); aget row (1 + b).

(** SaM.c:89-97 [SaM_SplitAndMerge] *)
Definition split_round (trits : list Z) (currentIndex : Z) : option (list Z * list Z * Z) :=
  let junk := replicate (Z.to_nat SAM_STATE_SIZE) 0 in
  for_loopM (Z.to_nat SAM_STATE_SIZE) 0 (fun i '(leftPart, rightPart, currentIndex) =>
    nextIndex ← aget SAM_INDICES i;
    a ← aget trits currentIndex; b ← aget trits nextIndex;
    x ← table SAMBIAS a b; y ← table SAMBIAS b a;
    leftPart ← aset leftPart i x; rightPart ← aset rightPart i y;
    Some (leftPart, rightPart, nextIndex)) (junk, junk, currentIndex).

(** SaM.c:98-104 [SaM_SplitAndMerge] *)
Definition merge_round (leftPart rightPart trits : list Z) (currentIndex : Z) : option (list Z * Z) :=
  for_loopM (Z.to_nat SAM_STATE_SIZE) 0 (fun i '(trits, currentIndex) =>
    nextIndex ← aget SAM_INDICES i;
    a ← aget leftPart currentIndex; b ← aget rightPart nextIndex;
    x ← table SAMSUM a b;
    trits ← aset trits i x;
    Some (trits, nextIndex)) (trits, currentIndex).

(** SaM.c:81-106 [SaM_SplitAndMerge] *)
Definition SaM_SplitAndMerge (state : SaM_info) : option SaM_info :=
  '(t, _) ← for_loopM SAM_NUMBER_OF_ROUNDS 0 (fun _ '(t, currentIndex) =>
    '(leftPart, rightPart, currentIndex) ← split_round t currentIndex;
    merge_round leftPart rightPart t currentIndex) (trits state, 0);
  Some (state.[trits <- t]).

(** SaM.c:108-113 [SaM_Initialize] *)
Definition SaM_Initialize (state : SaM_info) : option SaM_info :=
  t ← for_loopM (Z.to_nat (SAM_STATE_SIZE - SAM_HASH_SIZE)) SAM_HASH_SIZE (fun i t => aset t i (if truth (Z.land i 1) then 1 else -1)) (trits state);
  Some (state.[trits <- t]).

(** SaM.c:115-119 [SaM_Squeeze] The output is the field [hash] wherever it is called. *)
Definition SaM_Squeeze (state : SaM_info) : option SaM_info :=
  SaM_SplitAndMerge (state.[hash <- take (Z.to_nat SAM_HASH_SIZE) (trits state)]).

(** SaM.c:126-132 [_SaM_Absorb] The block at [inputSize - remainder], padded. *)
Definition absorb_block (t input : list Z) (remainder : Z) : option (list Z) :=
  let size := if SAM_HASH_SIZE <=? remainder then SAM_HASH_SIZE else remainder in
  let from := Z.of_nat (length input) - remainder in
  t ← for_loopM (Z.to_nat size) 0 (fun i t => x ← aget input (from + i); aset t i x) t;
  for_loopM (Z.to_nat (SAM_HASH_SIZE - size)) size (fun i t => aset t i (if truth (Z.land i 1) then 1 else -1)) t.

(** SaM.c:121-135 [_SaM_Absorb] *)
Fixpoint absorb_loop (fuel : nat) (state : SaM_info) (input : list Z) (remainder : Z) : option SaM_info :=
  match fuel with
  | O => None
  | S fuel =>
      t ← absorb_block (trits state) input remainder;
      state ← SaM_SplitAndMerge (state.[trits <- t]);
      let remainder := remainder - SAM_HASH_SIZE in
      if 0 <? remainder then absorb_loop fuel state input remainder else Some state
  end.

Definition _SaM_Absorb (state : SaM_info) (input : list Z) : option SaM_info :=
  absorb_loop (Datatypes.S (length input)) state input (Z.of_nat (length input)).

(** SaM.c:150-159 [SaM_Absorb] The bits of the bytes, behind those there already. *)
Definition add_bits (out input : list Z) : option (list Z) :=
  for_loopM (8 * length input) 0 (fun i out =>
    x ← aget input (Z.shiftr i 3);
    Some (out ++ [c_bool (truth (Z.land x (Z.shiftl 1 (Z.land i 7))))])) out.

(** SaM.c:136-165 [SaM_Absorb] Without bytes nothing is added.  The numbers of bits are int32 in the code; the model is
    that of inputs below 2^28 bytes, where they do not wrap. *)
Definition SaM_Absorb (state : SaM_info) (input input2 : list Z) : option (Z * SaM_info) :=
  t ← add_bits [] input;
  t ← add_bits t input2;
  state ← _SaM_Absorb state t;
  Some (Z.of_nat (length t), state).

(** SaM.c:189-195 [SaM_emit] *)
Definition emit19 (hash : list Z) (i : Z) : option Z :=
  rawbits ← for_loopM 12 0 (fun j rawbits => t ← aget hash (12 * i + j); Some (u32 (rawbits * 3 + t + 1))) 0;
  Some (Z.land (u64 (Z.shiftl rawbits 19) / 531441) 0x7ffff).

(** SaM.c:196-198 [SaM_emit] *)
Definition emit4 (hash : list Z) : option Z :=
  rawbits ← for_loopM 3 240 (fun i rawbits => t ← aget hash i; Some (u32 (rawbits * 3 + t + 1))) 0;
  Some (Z.land (u32 (Z.shiftl rawbits 4) / 27) 0xf).

(** SaM.c:181-208 [SaM_emit] The 384 bits are also left in the state. *)
Definition SaM_emit (state : SaM_info) : option SaM_info :=
  state ← SaM_Squeeze state;
  bits19 ← for_loopM 20 0 (fun i l => x ← emit19 (hash state) i; Some (l ++ [x])) [];
  rawbits ← emit4 (hash state);
  let low := concat (map (le_bytes 2) bits19) in
  let bits64 := foldl (fun acc x => Z.lor (u64 (Z.shiftl acc 3)) (Z.land (Z.shiftr x 16) 7)) 0 bits19 in
  let bits64 := Z.lor (u64 (Z.shiftl bits64 4)) (Z.land rawbits 0xf) in
  Some (state.[bits <- low ++ le_bytes 8 bits64]).

(** SaM.c:316-325 [SaM_encrypt] At most 48 bytes with one block of the key stream; the position in the text is [pos]. *)
Definition encrypt_block (pad : list Z) (pos len : Z) (src : list Z) (dest : option (list Z)) (xorpad : list Z) : option (option (list Z) * list Z) :=
  for_loopM (Z.to_nat (Z.min 48 (len + 1))) 0 (fun i '(dest, xorpad) =>
    p ← aget pad i;
    c ← aget src (pos + i);
    let x := Z.lxor p c in
    xorpad ← aset xorpad i x;
    match dest with
    | None => Some (None, xorpad)
    | Some d => d ← aset d (pos + i) x; Some (Some d, xorpad)
    end) (dest, xorpad).

Fixpoint encrypt_loop (fuel : nat) (XORpad : SaM_info) (pos len : Z) (src : list Z) (dest : option (list Z)) (xorpad : list Z) : option (option (list Z) * list Z) :=
  match fuel with
  | O => None
  | S fuel =>
      if 0 <=? len then
        XORpad ← SaM_emit XORpad;
        '(dest, xorpad) ← encrypt_block (bits XORpad) pos len src dest xorpad;
        let k := Z.min 48 (len + 1) in
        encrypt_loop fuel XORpad (pos + k) (len - k) src dest xorpad
      else Some (dest, xorpad)
  end.

(** SaM.c:311-326 [SaM_encrypt] What is written to [dest] (unless it is null), and the result. *)
Definition SaM_encrypt (XORpad : SaM_info) (garbage : list Z) (dest : option (list Z)) (src : list Z) (len : Z) (password : list Z) (timestamp : Z) : option (option (list Z) * list Z) :=
  XORpad ← SaM_Initialize XORpad;
  '(_, XORpad) ← SaM_Absorb XORpad password (le_bytes 4 timestamp);
  encrypt_loop (Z.to_nat (len + 3)) XORpad 0 len src dest garbage.

(** SaM.c:328-334 [SaM_hit] *)
Definition SaM_hit (state : SaM_info) : option Z :=
  for_loopM 27 0 (fun i hit => t ← aget (hash state) i; Some (u64 (hit * 3 + t + 1))) 0.

(** SaM.c:336-347 [SaM] The hit and the 384 bits. *)
Definition SaM (state : SaM_info) (input input2 : list Z) : option (Z * list Z) :=
  state ← SaM_Initialize state;
  '(_, state) ← SaM_Absorb state input input2;
  state ← SaM_emit state;
  hit ← SaM_hit state;
  Some (hit, bits state).

(** SaM.c:349-359 [SaM_threshold] *)
Definition SaM_threshold (leverage : Z) : Z :=
  let leverage := if 26 <? leverage then 26 else leverage in
  SAMHIT_LIMIT / for_loop (Z.to_nat leverage) 0 (fun _ divisor => u64 (divisor * 3)) 1.

(** SaM.c:366-376 [SaM_nonce] A nonce is checked. *)
Definition check_nonce (state : SaM_info) (data : list Z) (leverage nonce : Z) : option Z :=
  let threshold := SaM_threshold leverage in
  '(hit, _) ← SaM state data (le_bytes 4 nonce);
  if threshold <=? hit then
    Some (if 2 ^ 32 <? u64 (threshold - hit) then 0xffffffff else u32 (threshold - hit))
  else Some 0.

(** SaM.c:378-390 [SaM_nonce] Nonces are drawn while the time lasts; the state of the hash is on the stack. *)
Fixpoint find_nonce (data : list Z) (leverage : Z) (draws : list (SaM_info * Z)) : option Z :=
  match draws with
  | [] => Some 0
  | (state, nonce) :: draws =>
      '(hit, _) ← SaM state data (le_bytes 4 nonce);
      if hit <? SaM_threshold leverage then Some nonce else find_nonce data leverage draws
  end.

(** SaM.c:361-393 [SaM_nonce] *)
Definition SaM_nonce (state : SaM_info) (data : list Z) (leverage maxmillis nonce : Z) (draws : list (SaM_info * Z)) : option Z :=
  if negb (leverage =? 0) then
    if maxmillis =? 0 then check_nonce state data leverage nonce else find_nonce data leverage draws
  else Some 0.

(** ** The walk through the positions *)

Definition idx (k : Z) : Z := SAM_DELTA * k mod SAM_STATE_SIZE.

Lemma idx_range k : 0 <= idx k < SAM_STATE_SIZE.
Proof. apply Z.mod_pos_bound. done. Qed.

Lemma SaM_PrepareIndices_eq t : Z.of_nat (length t) = SAM_STATE_SIZE -> SaM_PrepareIndices t = Some (tab SAM_STATE_SIZE (fun i => idx (i + 1))).
Proof.
  intros Ht. unfold SaM_PrepareIndices.
  edestruct (for_loopM_inv (fun i '(u, cur) => length u = length t /\ cur = idx i /\ forall j, 0 <= j < i -> znth u j = idx (j + 1)) (Z.to_nat SAM_STATE_SIZE) 0)
    as ([u cur] & E & Hl & _ & Hu); [| |rewrite E].
  - intros i [u cur] Hi (Hl & -> & Hu). cbv zeta.
    assert (En : (idx i + SAM_DELTA) mod SAM_STATE_SIZE = idx (i + 1)). { unfold idx. rewrite Zplus_mod_idemp_l. f_equal. lia. }
    rewrite En. rewrite aset_zput by (unfold SAM_STATE_SIZE in *; lia). step. eexists. split; [reflexivity|]. cbn beta iota. split; [by rewrite zput_length|]. split; [done|].
    intros j Hj. rewrite znth_zput by (unfold SAM_STATE_SIZE in *; lia). destruct (Z.eqb_spec i j) as [<-|]; [done|]. apply Hu. lia.
  - split; [done|]. split; [done|]. intros j Hj. lia.
  - step. f_equal. apply znth_ext; [rewrite tab_length; lia|]. intros j Hj. rewrite znth_tab by lia. apply Hu. rewrite Z2Nat.id by done. lia.
Qed.

Lemma SAM_INDICES_eq : SAM_INDICES = tab SAM_STATE_SIZE (fun i => idx (i + 1)).
Proof. unfold SAM_INDICES. rewrite SaM_PrepareIndices_eq; [done|]. rewrite length_replicate. done. Qed.

Lemma SAM_INDICES_get i : 0 <= i < SAM_STATE_SIZE -> aget SAM_INDICES i = Some (idx (i + 1)).
Proof.
  intros Hi. rewrite SAM_INDICES_eq, aget_znth by (rewrite tab_length, Z2Nat.id by done; done). by rewrite znth_tab.
Qed.

(** The walk visits every position once and ends where it began. *)
Lemma idx_inj i j : 0 <= i < SAM_STATE_SIZE -> 0 <= j < SAM_STATE_SIZE -> idx i = idx j -> i = j.
Proof.
  unfold idx, SAM_DELTA, SAM_STATE_SIZE. intros Hi Hj E.
  assert (Hinv : forall k, 0 <= k < 729 -> (221 * (254 * k mod 729)) mod 729 = k).
  { intros k Hk. rewrite Zmult_mod_idemp_r. replace (221 * (254 * k)) with (k + 77 * k * 729) by lia. rewrite Z_mod_plus_full. by apply Z.mod_small. }
  rewrite <- (Hinv i Hi), <- (Hinv j Hj). by rewrite E.
Qed.

(** ** One round *)

Definition trit (x : Z) : Prop := x = -1 \/ x = 0 \/ x = 1.
Definition trit_state (t : list Z) : Prop := Z.of_nat (length t) = SAM_STATE_SIZE /\ Forall trit t.

Lemma trit_znth l i : Forall trit l -> trit (znth l i).
Proof. intros H. apply Forall_znth; [right; by left|done]. Qed.

Lemma SAMBIAS_eq a b : trit a -> trit b -> table SAMBIAS a b = Some (SaM_Bias a b).
Proof. intros [-> | [-> | ->]] [-> | [-> | ->]]; reflexivity. Qed.

Lemma SAMSUM_eq a b : trit a -> trit b -> table SAMSUM a b = Some (SaM_Sum a b).
Proof. intros [-> | [-> | ->]] [-> | [-> | ->]]; reflexivity. Qed.

Lemma Bias_trit a b : trit a -> trit b -> trit (SaM_Bias a b).
Proof. unfold trit. intros [-> | [-> | ->]] [-> | [-> | ->]]; vm_compute; lia. Qed.

Lemma Sum_trit a b : trit a -> trit b -> trit (SaM_Sum a b).
Proof. unfold trit. intros [-> | [-> | ->]] [-> | [-> | ->]]; vm_compute; lia. Qed.

(** The two halves and their sum. *)
Definition half_left (t : list Z) (i : Z) : Z := SaM_Bias (znth t (idx i)) (znth t (idx (i + 1))).
Definition half_right (t : list Z) (i : Z) : Z := SaM_Bias (znth t (idx (i + 1))) (znth t (idx i)).
Definition mix (t : list Z) : list Z := tab SAM_STATE_SIZE (fun i => SaM_Sum (half_left t (idx i)) (half_right t (idx (i + 1)))).

Lemma half_trit t i : Forall trit t -> trit (half_left t i) /\ trit (half_right t i).
Proof. intros H. split; apply Bias_trit; by apply trit_znth. Qed.

Lemma mix_state t : trit_state t -> trit_state (mix t).
Proof.
  intros [_ Ht]. split; [unfold mix; rewrite tab_length, Z2Nat.id; done|]. apply tab_Forall. intros i _. apply Sum_trit; by apply half_trit.
Qed.

Lemma trit_get t i : trit_state t -> 0 <= i < SAM_STATE_SIZE -> aget t i = Some (znth t i).
Proof. intros [Hl _] Hi. apply aget_znth. lia. Qed.

Lemma split_round_eq t : trit_state t -> split_round t 0 = Some (tab SAM_STATE_SIZE (half_left t), tab SAM_STATE_SIZE (half_right t), 0).
Proof.
  intros Ht. unfold split_round. cbv zeta.
  edestruct (for_loopM_inv (fun i '(l, r, cur) => Z.of_nat (length l) = SAM_STATE_SIZE /\ Z.of_nat (length r) = SAM_STATE_SIZE /\ cur = idx i /\
    forall j, 0 <= j < i -> znth l j = half_left t j /\ znth r j = half_right t j) (Z.to_nat SAM_STATE_SIZE) 0) as ([[l r] cur] & E & Hl & Hr & Hc & Hu); [| |rewrite E].
  - intros i [[l r] cur] Hi (Hl & Hr & -> & Hu). assert (Hi2 : 0 <= i < SAM_STATE_SIZE) by (unfold SAM_STATE_SIZE in *; lia).
    rewrite SAM_INDICES_get by done. step. rewrite !(trit_get t) by (done || apply idx_range). do 2 step.
    rewrite !SAMBIAS_eq by (apply trit_znth, Ht). do 2 step. rewrite !aset_zput by lia. do 2 step. eexists. split; [reflexivity|].
    cbn beta iota. rewrite !zput_length. split; [done|]. split; [done|]. split; [done|]. intros j Hj. rewrite !znth_zput by lia. destruct (Z.eqb_spec i j) as [<-|]; [done|]. apply Hu. lia.
  - cbn beta iota. rewrite !length_replicate. split; [done|]. split; [done|]. split; [done|]. intros j Hj. lia.
  - rewrite Z2Nat.id in Hc, Hu by done. subst cur. do 3 f_equal; apply znth_ext; rewrite ?tab_length; try (unfold SAM_STATE_SIZE in *; lia);
      intros j Hj; rewrite znth_tab by lia; apply Hu; unfold SAM_STATE_SIZE in *; lia.
Qed.

Lemma merge_round_eq (f g : Z -> Z) t : (forall i, trit (f i)) -> (forall i, trit (g i)) -> Z.of_nat (length t) = SAM_STATE_SIZE ->
  merge_round (tab SAM_STATE_SIZE f) (tab SAM_STATE_SIZE g) t 0 = Some (tab SAM_STATE_SIZE (fun i => SaM_Sum (f (idx i)) (g (idx (i + 1)))), 0).
Proof.
  intros Hf Hg Ht. unfold merge_round.
  assert (Hget : forall h k, aget (tab SAM_STATE_SIZE h) (idx k) = Some (h (idx k))).
  { intros h k. pose proof (idx_range k). rewrite aget_znth by (rewrite tab_length, Z2Nat.id by done; done). by rewrite znth_tab. }
  edestruct (for_loopM_inv (fun i '(u, cur) => Z.of_nat (length u) = SAM_STATE_SIZE /\ cur = idx i /\
    forall j, 0 <= j < i -> znth u j = SaM_Sum (f (idx j)) (g (idx (j + 1)))) (Z.to_nat SAM_STATE_SIZE) 0) as ([u cur] & E & Hl & Hc & Hu); [| |rewrite E].
  - intros i [u cur] Hi (Hl & -> & Hu). assert (Hi2 : 0 <= i < SAM_STATE_SIZE) by (unfold SAM_STATE_SIZE in *; lia).
    rewrite SAM_INDICES_get by done. step. rewrite !Hget. do 2 step. rewrite SAMSUM_eq by done. step. rewrite aset_zput by lia. step. eexists. split; [reflexivity|].
    cbn beta iota. rewrite zput_length. split; [done|]. split; [done|]. intros j Hj. rewrite znth_zput by lia. destruct (Z.eqb_spec i j) as [<-|]; [done|]. apply Hu. lia.
  - cbn beta iota. split; [done|]. split; [done|]. intros j Hj. lia.
  - rewrite Z2Nat.id in Hc, Hu by done. subst cur. do 2 f_equal. apply znth_ext; rewrite ?tab_length; [unfold SAM_STATE_SIZE in *; lia|].
    intros j Hj; rewrite znth_tab by lia; apply Hu; unfold SAM_STATE_SIZE in *; lia.
Qed.

Definition mixed (t : list Z) : list Z := Nat.iter SAM_NUMBER_OF_ROUNDS mix t.

Lemma iter_mix_state n t : trit_state t -> trit_state (Nat.iter n mix t).
Proof. intros Ht. induction n; [done|]. cbn. by apply mix_state. Qed.

Lemma mixed_state t : trit_state t -> trit_state (mixed t).
Proof. apply iter_mix_state. Qed.

Lemma SaM_SplitAndMerge_eq s : trit_state (trits s) -> SaM_SplitAndMerge s = Some (s.[trits <- mixed (trits s)]).
Proof.
  intros Ht. unfold SaM_SplitAndMerge, mixed.
  assert (E : forall n i t, trit_state t -> for_loopM n i (fun _ '(t, currentIndex) => '(leftPart, rightPart, currentIndex) ← split_round t currentIndex;
    merge_round leftPart rightPart t currentIndex) (t, 0) = Some (Nat.iter n mix t, 0)).
  { induction n as [|n IH]; intros i t Hs; [done|]. rewrite for_loopM_S, split_round_eq by done. step.
    rewrite merge_round_eq by (done || apply Hs || (intros; apply half_trit, Hs)). step. fold (mix t). rewrite IH by (by apply mix_state). by rewrite Nat.iter_succ_r. }
  rewrite E by done. step. done.
Qed.

(** ** Absorbing *)

Definition pad (i : Z) : Z := if Z.odd i then 1 else -1.

Lemma pad_code i : (if truth (Z.land i 1) then 1 else -1) = pad i.
Proof. unfold pad. change 1 with (2 ^ 0) at 1. rewrite truth_land_pow2 by done. by rewrite Z.bit0_odd. Qed.

Lemma pad_trit i : trit (pad i).
Proof. unfold pad, trit. destruct (Z.odd i); auto. Qed.

(** The next block of a message, padded, and the state with a block in front. *)
Definition block (r : list Z) : list Z := tab SAM_HASH_SIZE (fun i => if i <? Z.of_nat (length r) then znth r i else pad i).
Definition put_block (b t : list Z) : list Z := tab SAM_STATE_SIZE (fun i => if i <? SAM_HASH_SIZE then znth b i else znth t i).
Definition tail_ok (t : list Z) : Prop := Z.of_nat (length t) = SAM_STATE_SIZE /\ forall i, SAM_HASH_SIZE <= i < SAM_STATE_SIZE -> trit (znth t i).

Lemma put_block_state r t : Forall trit r -> tail_ok t -> trit_state (put_block (block r) t).
Proof.
  intros Hr [Hl Ht]. split; [unfold put_block; by rewrite tab_length, Z2Nat.id|]. apply tab_Forall. intros i Hi.
  destruct (Z.ltb_spec i SAM_HASH_SIZE); [|apply Ht; lia]. unfold block. rewrite znth_tab by lia. destruct (_ <? _); [by apply trit_znth|apply pad_trit].
Qed.

Lemma put_block_ext b t u : (forall i, SAM_HASH_SIZE <= i < SAM_STATE_SIZE -> znth t i = znth u i) -> put_block b t = put_block b u.
Proof.
  intros H. unfold put_block. apply znth_ext; [by rewrite !tab_length|]. intros i Hi. rewrite tab_length, Z2Nat.id in Hi by done. rewrite !znth_tab by done.
  destruct (Z.ltb_spec i SAM_HASH_SIZE); [done|apply H; lia].
Qed.

Lemma trit_tail t : trit_state t -> tail_ok t.
Proof. intros [Hl Ht]. split; [done|]. intros i _. by apply trit_znth. Qed.

Lemma absorb_block_eq t input remainder : Z.of_nat (length t) = SAM_STATE_SIZE -> 0 <= remainder <= Z.of_nat (length input) ->
  absorb_block t input remainder = Some (put_block (block (drop (Z.to_nat (Z.of_nat (length input) - remainder)) input)) t).
Proof.
  intros Ht Hr. unfold absorb_block. set (size := if SAM_HASH_SIZE <=? remainder then SAM_HASH_SIZE else remainder). cbv zeta. set (from := Z.of_nat (length input) - remainder).
  assert (Hsize : 0 <= size <= SAM_HASH_SIZE /\ size <= remainder /\ (size < SAM_HASH_SIZE -> size = remainder)).
  { unfold size. destruct (Z.leb_spec SAM_HASH_SIZE remainder); unfold SAM_HASH_SIZE in *; lia. }
  assert (Hconst : SAM_STATE_SIZE = 729 /\ SAM_HASH_SIZE = 243) by done. assert (Hfrom : from = Z.of_nat (length input) - remainder) by done.
  rewrite (write_loop _ 0 (fun i => znth input (from + i)) (fun i => aget input (from + i))); [|lia|lia|intros i Hi; apply aget_znth; lia]. step.
  set (u := tab _ _). assert (Hu : Z.of_nat (length u) = SAM_STATE_SIZE) by (unfold u; rewrite tab_length; lia).
  assert (E : for_loopM (Z.to_nat (SAM_HASH_SIZE - size)) size (fun i t => aset t i (if truth (Z.land i 1) then 1 else -1)) u =
    Some (tab (Z.of_nat (length u)) (fun i => if (size <=? i) && (i <? size + Z.of_nat (Z.to_nat (SAM_HASH_SIZE - size))) then pad i else znth u i))).
  { apply (write_loop _ size pad (fun i => Some (if truth (Z.land i 1) then 1 else -1))); [lia|lia|]. intros i _. by rewrite pad_code. }
  rewrite E. f_equal. apply znth_ext; [unfold put_block; rewrite !tab_length; lia|]. intros i Hi. rewrite tab_length in Hi. unfold put_block. rewrite !znth_tab by lia.
  destruct (Z.ltb_spec i SAM_HASH_SIZE) as [Hlt|Hge].
  - unfold block. rewrite znth_tab by lia. rewrite length_drop. destruct (Z.leb_spec size i); cbn [andb].
    + destruct (Z.ltb_spec i (size + Z.of_nat (Z.to_nat (SAM_HASH_SIZE - size)))); [|lia]. destruct (Z.ltb_spec i (Z.of_nat (length input - Z.to_nat from))); [lia|done].
    + destruct (Z.ltb_spec i (Z.of_nat (length input - Z.to_nat from))); [|lia]. rewrite znth_drop by lia. unfold u. rewrite znth_tab by lia.
      destruct (Z.leb_spec 0 i); [|lia]. destruct (Z.ltb_spec i (0 + Z.of_nat (Z.to_nat size))); [|lia]. cbn [andb]. f_equal. lia.
  - destruct (Z.leb_spec size i); [|lia]. destruct (Z.ltb_spec i (size + Z.of_nat (Z.to_nat (SAM_HASH_SIZE - size)))); [lia|]. cbn [andb]. unfold u. rewrite znth_tab by lia.
    destruct (Z.leb_spec 0 i); [|lia]. destruct (Z.ltb_spec i (0 + Z.of_nat (Z.to_nat size))); [lia|]. done.
Qed.

(** The blocks of a message: at least one. *)
Fixpoint blocks (fuel : nat) (r : list Z) : list (list Z) :=
  match fuel with
  | O => []
  | S fuel => block r :: (if SAM_HASH_SIZE <? Z.of_nat (length r) then blocks fuel (drop (Z.to_nat SAM_HASH_SIZE) r) else [])
  end.

Definition sponge (t : list Z) (bs : list (list Z)) : list Z := foldl (fun t b => mixed (put_block b t)) t bs.

Lemma absorb_loop_eq fuel : forall s input remainder, tail_ok (trits s) -> Forall trit input -> 0 <= remainder <= Z.of_nat (length input) -> remainder < Z.of_nat fuel ->
  let t := sponge (trits s) (blocks fuel (drop (Z.to_nat (Z.of_nat (length input) - remainder)) input)) in
  absorb_loop fuel s input remainder = Some (s.[trits <- t]) /\ trit_state t.
Proof.
  induction fuel as [|fuel IH]; intros s input remainder Ht Hin Hr Hf; [lia|]. cbv zeta. cbn [absorb_loop blocks]. set (r := drop (Z.to_nat (Z.of_nat (length input) - remainder)) input).
  rewrite absorb_block_eq by (apply Ht || lia). fold r. step. assert (Hrt : Forall trit r) by (by apply Forall_drop). pose proof (put_block_state r (trits s) Hrt Ht) as Hp.
  rewrite SaM_SplitAndMerge_eq by done. step. cbn [trits]. set (t1 := mixed (put_block (block r) (trits s))). assert (Ht1 : trit_state t1) by (by apply iter_mix_state).
  assert (Hlr : Z.of_nat (length r) = remainder) by (unfold r; rewrite length_drop; lia). rewrite Hlr. change (sponge (trits s) (block r :: ?l)) with (sponge t1 l).
  assert (Hc : SAM_HASH_SIZE = 243) by done. destruct (Z.ltb_spec SAM_HASH_SIZE remainder), (Z.ltb_spec 0 (remainder - SAM_HASH_SIZE)); try lia; [|done].
  destruct (IH (mkSaM (bits s) t1 (hash s)) input (remainder - SAM_HASH_SIZE)) as [E Hs]; [by apply trit_tail|done|lia|lia|].
  assert (Ed : drop (Z.to_nat SAM_HASH_SIZE) r = drop (Z.to_nat (Z.of_nat (length input) - (remainder - SAM_HASH_SIZE))) input) by (unfold r; rewrite drop_drop; f_equal; lia).
  rewrite Ed. split; [exact E|exact Hs].
Qed.

(** ** Bytes *)

Definition bits_of (input : list Z) : list Z := tab (8 * Z.of_nat (length input)) (fun i => c_bool (bit input i)).

Lemma message_bits_length input : Z.of_nat (length (bits_of input)) = 8 * Z.of_nat (length input).
Proof. unfold bits_of. rewrite tab_length. lia. Qed.

Lemma bits_of_trit input : Forall trit (bits_of input).
Proof. apply tab_Forall. intros i _. unfold trit. destruct (bit input i); auto. Qed.

Lemma add_bits_eq out input : add_bits out input = Some (out ++ bits_of input).
Proof.
  unfold add_bits. edestruct (for_loopM_inv (fun i o => o = out ++ tab i (fun i => c_bool (bit input i))) (8 * length input) 0) as (o & E & Ho); [| |rewrite E].
  - intros i o Hi ->. rewrite Z.shiftr_div_pow2 by done. change (2 ^ 3) with 8. rewrite aget_znth by dmlia. step. eexists. split; [reflexivity|].
    change 7 with (Z.ones 3). rewrite Z.land_ones by done. change (2 ^ 3) with 8. rewrite Z.shiftl_mul_pow2, Z.mul_1_l by dmlia. rewrite truth_land_pow2 by dmlia.
    rewrite <- app_assoc. f_equal. unfold tab. rewrite seqZ_snoc, map_app by lia. done.
  - by rewrite app_nil_r.
  - subst o. unfold bits_of. do 3 f_equal. lia.
Qed.

Definition message (input input2 : list Z) : list Z := bits_of input ++ bits_of input2.
Definition message_blocks (input input2 : list Z) : list (list Z) := blocks (Datatypes.S (length (message input input2))) (message input input2).

Lemma SaM_Absorb_eq s input input2 : tail_ok (trits s) ->
  let t := sponge (trits s) (message_blocks input input2) in
  SaM_Absorb s input input2 = Some (8 * (Z.of_nat (length input) + Z.of_nat (length input2)), s.[trits <- t]) /\ trit_state t.
Proof.
  intros Ht. cbv zeta. unfold SaM_Absorb. rewrite add_bits_eq. step. rewrite add_bits_eq. step. cbn [app]. fold (message input input2). unfold _SaM_Absorb.
  destruct (absorb_loop_eq (Datatypes.S (length (message input input2))) s (message input input2) (Z.of_nat (length (message input input2))) Ht) as [E Hs];
    [by apply Forall_app; split; apply bits_of_trit|lia|lia|]. rewrite Z.sub_diag in E, Hs. change (drop (Z.to_nat 0) ?l) with l in E, Hs. rewrite E. step. split; [|exact Hs].
  do 2 f_equal. unfold message. rewrite length_app, Nat2Z.inj_add, !message_bits_length. lia.
Qed.

(** ** From the start *)

#[local] Opaque mixed put_block.

Definition start : list Z := tab SAM_STATE_SIZE pad.
Definition digest (input input2 : list Z) : list Z := sponge start (message_blocks input input2).

Lemma sponge_start t u fuel r : (forall i, SAM_HASH_SIZE <= i < SAM_STATE_SIZE -> znth t i = znth u i) ->
  sponge t (blocks (Datatypes.S fuel) r) = sponge u (blocks (Datatypes.S fuel) r).
Proof.
  intros H. cbn [blocks]. match goal with |- sponge _ (?b :: ?l) = _ => change (sponge (mixed (put_block b t)) l = sponge (mixed (put_block b u)) l) end.
  by rewrite (put_block_ext _ t u H).
Qed.

Lemma SaM_Initialize_eq s : Z.of_nat (length (trits s)) = SAM_STATE_SIZE ->
  exists t, SaM_Initialize s = Some (s.[trits <- t]) /\ Z.of_nat (length t) = SAM_STATE_SIZE /\ forall i, SAM_HASH_SIZE <= i < SAM_STATE_SIZE -> znth t i = pad i.
Proof.
  intros Hl. assert (Hconst : SAM_STATE_SIZE = 729 /\ SAM_HASH_SIZE = 243) by done. unfold SaM_Initialize.
  assert (E : for_loopM (Z.to_nat (SAM_STATE_SIZE - SAM_HASH_SIZE)) SAM_HASH_SIZE (fun i t => aset t i (if truth (Z.land i 1) then 1 else -1)) (trits s) =
    Some (tab (Z.of_nat (length (trits s))) (fun i => if (SAM_HASH_SIZE <=? i) && (i <? SAM_HASH_SIZE + Z.of_nat (Z.to_nat (SAM_STATE_SIZE - SAM_HASH_SIZE))) then pad i else znth (trits s) i))).
  { apply (write_loop _ SAM_HASH_SIZE pad (fun i => Some (if truth (Z.land i 1) then 1 else -1))); [lia|lia|]. intros i _. by rewrite pad_code. }
  rewrite E. step. eexists. split; [reflexivity|]. split; [rewrite tab_length; lia|]. intros i Hi. rewrite znth_tab by lia.
  destruct (Z.leb_spec SAM_HASH_SIZE i); [|lia]. by destruct (Z.ltb_spec i (SAM_HASH_SIZE + Z.of_nat (Z.to_nat (SAM_STATE_SIZE - SAM_HASH_SIZE)))); [|lia].
Qed.

(** What is in memory does not matter. *)
Lemma absorb_from_start s input input2 : Z.of_nat (length (trits s)) = SAM_STATE_SIZE ->
  exists s1, SaM_Initialize s = Some s1 /\
  SaM_Absorb s1 input input2 = Some (8 * (Z.of_nat (length input) + Z.of_nat (length input2)), s.[trits <- digest input input2]) /\ trit_state (digest input input2).
Proof.
  intros Hl. destruct (SaM_Initialize_eq s Hl) as (t & E & Ht & Hp). exists (s.[trits <- t]). split; [exact E|].
  destruct (SaM_Absorb_eq (s.[trits <- t]) input input2) as [E2 Hs].
  { split; [done|]. intros i Hi. cbn [trits]. rewrite Hp by done. apply pad_trit. }
  change (trits (s.[trits <- t])) with t in E2, Hs. assert (Ed : sponge t (message_blocks input input2) = digest input input2).
  { apply sponge_start. intros i Hi. rewrite Hp by done. unfold start. by rewrite znth_tab by (unfold SAM_HASH_SIZE in *; lia). }
  rewrite Ed in E2, Hs. split; [exact E2|exact Hs].
Qed.

(** ** Emitting *)

(** A number in base 3, most significant trit first. *)
Lemma base3_loop (h : list Z) w n from : Forall trit h -> 0 <= from -> from + Z.of_nat n <= Z.of_nat (length h) -> 3 ^ Z.of_nat n <= 2 ^ w -> 0 <= w ->
  exists x, for_loopM n 0 (fun j v => t ← aget h (from + j); Some (uwrap w (v * 3 + t + 1))) 0 = Some x /\ 0 <= x < 3 ^ Z.of_nat n.
Proof.
  intros Hh Hf Hn Hp Hw. edestruct (for_loopM_inv (fun i x => 0 <= x < 3 ^ i) n 0) as (x & E & Hx); [| |exists x; split; [exact E|exact Hx]].
  - intros j v Hj Hv. cbn beta. rewrite aget_znth by lia. step. eexists. split; [reflexivity|].
    assert (Ht : -1 <= znth h (from + j) <= 1) by (destruct (trit_znth h (from + j) Hh) as [-> | [-> | ->]]; lia).
    rewrite Z.pow_add_r by lia. change (3 ^ 1) with 3. assert (3 ^ (j + 1) <= 3 ^ Z.of_nat n) as Hle by (apply Z.pow_le_mono_r; lia). rewrite Z.pow_add_r in Hle by lia. change (3 ^ 1) with 3 in Hle.
    rewrite uwrap_small by lia. lia.
  - cbn. lia.
Qed.

Lemma emit19_range h i : Forall trit h -> Z.of_nat (length h) = SAM_HASH_SIZE -> 0 <= i < 20 -> exists x, emit19 h i = Some x /\ 0 <= x < 2 ^ 19.
Proof.
  intros Hh Hl Hi. unfold emit19. unfold SAM_HASH_SIZE in Hl. destruct (base3_loop h 32 12 (12 * i) Hh) as (x & E & Hx); [lia|lia|vm_compute; discriminate|done|].
  rewrite E. step. eexists. split; [reflexivity|]. change 524287 with (Z.ones 19). rewrite Z.land_ones by done. apply Z.mod_pos_bound. done.
Qed.

Lemma emit4_total h : Forall trit h -> Z.of_nat (length h) = SAM_HASH_SIZE -> exists x, emit4 h = Some x.
Proof.
  intros Hh Hl. unfold SAM_HASH_SIZE in Hl. unfold emit4. edestruct (for_loopM_inv (fun _ _ : Z => True) 3 240) as (x & E & _); [| |rewrite E].
  - intros j v Hj _. cbn beta. rewrite aget_znth by lia. step. eexists. split; [reflexivity|done].
  - done.
  - step. by eexists.
Qed.

(** The 384 bits that come out of a state. *)
Definition out (t : list Z) : list Z := match SaM_emit (mkSaM [] t []) with Some s => bits s | None => [] end.

Lemma SaM_emit_eq s : trit_state (trits s) ->
  SaM_emit s = Some (mkSaM (out (trits s)) (mixed (trits s)) (take (Z.to_nat SAM_HASH_SIZE) (trits s))) /\ length (out (trits s)) = 48%nat /\ bytes (out (trits s)).
Proof.
  intros Ht. set (h := take (Z.to_nat SAM_HASH_SIZE) (trits s)). assert (Hh : Forall trit h) by (apply Forall_take, Ht).
  assert (Hl : Z.of_nat (length h) = SAM_HASH_SIZE). { destruct Ht as [Hlt _]. unfold h. rewrite length_take. unfold SAM_STATE_SIZE, SAM_HASH_SIZE in *. lia. }
  edestruct (for_loopM_inv (fun i l => Z.of_nat (length l) = i) 20 0 (fun i l => x ← emit19 h i; Some (l ++ [x])) []) as (l & El & Hll); [|done|].
  { intros j u Hj Hu. destruct (emit19_range h j Hh Hl ltac:(lia)) as (x & -> & _). step. eexists. split; [reflexivity|]. rewrite length_app. cbn. lia. }
  destruct (emit4_total h Hh Hl) as (x4 & E4). set (bytes48 := concat (map (le_bytes 2) l) ++ le_bytes 8 (Z.lor (u64 (Z.shiftl (foldl (fun acc x => Z.lor (u64 (Z.shiftl acc 3)) (Z.land (Z.shiftr x 16) 7)) 0 l) 4)) (Z.land x4 0xf))).
  assert (Hemit : forall b hs, SaM_emit (mkSaM b (trits s) hs) = Some (mkSaM bytes48 (mixed (trits s)) h)).
  { intros b hs. unfold SaM_emit, SaM_Squeeze. change (_.[hash <- _]) with (mkSaM b (trits s) h). rewrite SaM_SplitAndMerge_eq by exact Ht. step.
    change (_.[trits <- _]) with (mkSaM b (mixed (trits s)) h). cbn [hash]. rewrite El. step. rewrite E4. step. reflexivity. }
  assert (Hout : out (trits s) = bytes48) by (unfold out; by rewrite Hemit). rewrite Hout. split; [destruct s as [b t hs]; apply Hemit|].
  assert (Hc : forall l, length (concat (map (le_bytes 2) l)) = (2 * length l)%nat /\ bytes (concat (map (le_bytes 2) l))).
  { clear. induction l as [|x l [IH1 IH2]]; [split; [done|constructor]|]. cbn [map concat length]. rewrite length_app, le_bytes_length, IH1. split; [lia|]. apply Forall_app. split; [apply le_bytes_bytes|done]. }
  destruct (Hc l) as [H1 H2]. unfold bytes48. split; [rewrite length_app, le_bytes_length, H1; lia|apply Forall_app; split; [done|apply le_bytes_bytes]].
Qed.

(** The hit of a state. *)
Definition hit_of (t : list Z) : Z := default 0 (SaM_hit (mkSaM [] [] (take (Z.to_nat SAM_HASH_SIZE) t))).

Lemma SaM_hit_eq b u t : trit_state t -> SaM_hit (mkSaM b u (take (Z.to_nat SAM_HASH_SIZE) t)) = Some (hit_of t) /\ 0 <= hit_of t < SAMHIT_LIMIT.
Proof.
  intros [Hl Ht]. unfold hit_of, SaM_hit. cbn [hash]. set (h := take (Z.to_nat SAM_HASH_SIZE) t). assert (Hh : Forall trit h) by (by apply Forall_take).
  assert (Hlh : Z.of_nat (length h) = 243). { unfold h. rewrite length_take. unfold SAM_STATE_SIZE, SAM_HASH_SIZE in *. lia. }
  destruct (base3_loop h 64 27 0 Hh) as (x & E & Hx); [lia|lia|vm_compute; discriminate|done|]. change (3 ^ Z.of_nat 27) with SAMHIT_LIMIT in Hx.
  change (for_loopM 27 0 (fun i hit => t0 ← aget h i; Some (u64 (hit * 3 + t0 + 1))) 0) with (for_loopM 27 0 (fun j v => t ← aget h (0 + j); Some (uwrap 64 (v * 3 + t + 1))) 0).
  rewrite E. by cbn.
Qed.

Lemma SaM_eq s input input2 : Z.of_nat (length (trits s)) = SAM_STATE_SIZE ->
  SaM s input input2 = Some (hit_of (digest input input2), out (digest input input2)).
Proof.
  intros Hl. unfold SaM. destruct (absorb_from_start s input input2 Hl) as (s1 & -> & E & Hs). step. rewrite E. step.
  set (d := digest input input2) in *. change (s.[trits <- d]) with (mkSaM (bits s) d (hash s)). destruct (SaM_emit_eq (mkSaM (bits s) d (hash s)) Hs) as (E2 & _). rewrite E2. step. cbn [trits].
  rewrite (proj1 (SaM_hit_eq _ _ _ Hs)). step. done.
Qed.

Lemma digest_state input input2 : trit_state (digest input input2).
Proof.
  destruct (absorb_from_start (mkSaM [] (replicate (Z.to_nat SAM_STATE_SIZE) 0) []) input input2) as (s1 & _ & _ & H); [|exact H].
  cbn [trits]. rewrite length_replicate. done.
Qed.

(** Where the first message ends does not matter. *)
Lemma message_app a b : message a b = bits_of (a ++ b).
Proof.
  unfold message, bits_of. apply znth_ext; [rewrite length_app, !tab_length, length_app; lia|]. intros i Hi. rewrite length_app, !tab_length in Hi.
  rewrite znth_app, (znth_tab _ (fun i => c_bool (bit (a ++ b) i))) by (rewrite ?length_app; lia). rewrite tab_length. unfold bit. rewrite znth_app by dmlia.
  destruct (Z.ltb_spec i (Z.of_nat (Z.to_nat (8 * Z.of_nat (length a))))), (Z.ltb_spec (i / 8) (Z.of_nat (length a))); try dmlia; rewrite znth_tab by lia; [done|].
  unfold bit. do 2 f_equal; [|dmlia]. f_equal. dmlia.
Qed.

Lemma digest_app a b a2 b2 : a ++ b = a2 ++ b2 -> digest a b = digest a2 b2.
Proof. intros E. unfold digest, message_blocks. by rewrite !message_app, E. Qed.

#[local] Opaque out digest.

(** ** The key stream *)

(** Byte [k] of the key stream of a state. *)
Definition key (t : list Z) (k : Z) : Z := znth (out (Nat.iter (Z.to_nat (k / 48)) mixed t)) (k mod 48).

Lemma key_first t k : 0 <= k < 48 -> key t k = znth (out t) k.
Proof. intros Hk. unfold key. by rewrite Z.div_small, Z.mod_small by lia. Qed.

Lemma key_next t k : 0 <= k -> key t (48 + k) = key (mixed t) k.
Proof.
  intros Hk. unfold key. replace (48 + k) with (k + 1 * 48) by lia. rewrite Z.div_add, Z.mod_add by lia.
  replace (Z.to_nat (k / 48 + 1)) with (Datatypes.S (Z.to_nat (k / 48))) by dmlia. by rewrite Nat.iter_succ_r.
Qed.

#[local] Opaque key.

Lemma encrypt_block_eq p pos len src d xorpad : length p = 48%nat -> length xorpad = 48%nat -> 0 <= pos -> 0 <= len ->
  pos + len + 1 <= Z.of_nat (length src) -> pos + len + 1 <= Z.of_nat (length d) ->
  exists d' x', encrypt_block p pos len src (Some d) xorpad = Some (Some d', x') /\ length d' = length d /\ length x' = 48%nat /\
    forall j, 0 <= j -> znth d' j = if (pos <=? j) && (j <? pos + Z.min 48 (len + 1)) then Z.lxor (znth p (j - pos)) (znth src j) else znth d j.
Proof.
  intros Hp Hx Hpos Hlen Hsrc Hd. unfold encrypt_block.
  edestruct (for_loopM_inv (fun i '((o, x) : option (list Z) * list Z) => exists u, o = Some u /\ length u = length d /\ length x = 48%nat /\
    forall j, 0 <= j -> znth u j = if (pos <=? j) && (j <? pos + i) then Z.lxor (znth p (j - pos)) (znth src j) else znth d j) (Z.to_nat (Z.min 48 (len + 1))) 0)
    as ([o x] & E & u & -> & Hu & Hxl & Hj); [| |exists u, x; split; [exact E|]].
  - intros i [o x] Hi (u & -> & Hu & Hxl & Hj). cbn beta iota. rewrite !aget_znth by lia. do 2 step. rewrite !aset_zput by lia. do 2 step. eexists. split; [reflexivity|]. cbn beta iota.
    eexists. split; [reflexivity|]. rewrite !zput_length. split; [done|]. split; [done|]. intros j Hj0. rewrite znth_zput by lia. destruct (Z.eqb_spec (pos + i) j) as [<-|Hne].
    + destruct (Z.leb_spec pos (pos + i)); [|lia]. destruct (Z.ltb_spec (pos + i) (pos + (i + 1))); [|lia]. cbn [andb]. by replace (pos + i - pos) with i by lia.
    + rewrite Hj by done. destruct (Z.leb_spec pos j), (Z.ltb_spec j (pos + i)), (Z.ltb_spec j (pos + (i + 1))); done || lia.
  - cbn beta iota. exists d. split; [done|]. split; [done|]. split; [done|]. intros j Hj. destruct (Z.leb_spec pos j), (Z.ltb_spec j (pos + 0)); done || lia.
  - split; [done|]. split; [done|]. intros j Hj0. rewrite Hj by done. by rewrite Z2Nat.id by lia.
Qed.

Lemma encrypt_loop_eq fuel : forall s pos len src d xorpad, trit_state (trits s) -> length xorpad = 48%nat -> 0 <= pos -> -1 <= len -> len + 1 < Z.of_nat fuel ->
  pos + len + 1 <= Z.of_nat (length src) -> pos + len + 1 <= Z.of_nat (length d) ->
  exists d' x', encrypt_loop fuel s pos len src (Some d) xorpad = Some (Some d', x') /\ length d' = length d /\
    forall j, 0 <= j -> znth d' j = if (pos <=? j) && (j <=? pos + len) then Z.lxor (key (trits s) (j - pos)) (znth src j) else znth d j.
Proof.
  induction fuel as [|fuel IH]; intros s pos len src d xorpad Ht Hx Hpos Hlen Hf Hsrc Hd; [lia|]. cbn [encrypt_loop]. destruct (Z.leb_spec 0 len) as [H0|H0].
  - destruct (SaM_emit_eq s Ht) as (-> & Hol & _). step. cbn [bits]. destruct (encrypt_block_eq (out (trits s)) pos len src d xorpad) as (d1 & x1 & -> & Hl1 & Hx1 & H1); [exact Hol|exact Hx|lia|lia|lia|lia|]. step.
    set (k := Z.min 48 (len + 1)) in *. assert (Hk : k = 48 \/ k = len + 1 /\ k <= 48) by lia.
    destruct (IH (mkSaM (out (trits s)) (mixed (trits s)) (take (Z.to_nat SAM_HASH_SIZE) (trits s))) (pos + k) (len - k) src d1 x1) as (d2 & x2 & E & Hl2 & H2);
      [exact (mixed_state _ Ht)|exact Hx1|lia|lia|lia|lia|lia|].
    exists d2, x2. split; [exact E|]. split; [lia|]. intros j Hj. rewrite H2, H1 by done. cbn [trits].
    destruct (Z.leb_spec pos j), (Z.leb_spec (pos + k) j), (Z.leb_spec j (pos + k + (len - k))), (Z.ltb_spec j (pos + k)), (Z.leb_spec j (pos + len)); cbn [andb]; first [lia|reflexivity|idtac].
    + destruct Hk as [Hk|Hk]; [|lia]. rewrite Hk. replace (j - pos) with (48 + (j - (pos + 48))) by lia. by rewrite key_next by lia.
    + by rewrite key_first by lia.
  - exists d, xorpad. split; [done|]. split; [done|]. intros j Hj. destruct (Z.leb_spec pos j), (Z.leb_spec j (pos + len)); cbn [andb]; done || lia.
Qed.

Lemma SaM_encrypt_eq s g d src len password timestamp : Z.of_nat (length (trits s)) = SAM_STATE_SIZE -> length g = 48%nat -> 0 <= len ->
  len + 1 <= Z.of_nat (length src) -> len + 1 <= Z.of_nat (length d) ->
  exists d' x, SaM_encrypt s g (Some d) src len password timestamp = Some (Some d', x) /\ length d' = length d /\
    forall j, 0 <= j -> znth d' j = if j <=? len then Z.lxor (key (digest password (le_bytes 4 timestamp)) j) (znth src j) else znth d j.
Proof.
  intros Hs Hg Hlen Hsrc Hd. unfold SaM_encrypt. destruct (absorb_from_start s password (le_bytes 4 timestamp) Hs) as (s1 & -> & E & Ht). step. rewrite E. step.
  set (dg := digest password (le_bytes 4 timestamp)) in *. change (s.[trits <- dg]) with (mkSaM (bits s) dg (hash s)).
  destruct (encrypt_loop_eq (Z.to_nat (len + 3)) (mkSaM (bits s) dg (hash s)) 0 len src d g) as (d' & x & E2 & Hl & H); [exact Ht|exact Hg|lia|lia|lia|lia|lia|].
  exists d', x. split; [exact E2|]. split; [done|]. intros j Hj. rewrite H by done. destruct (Z.leb_spec 0 j); [|lia]. cbn [andb trits]. by rewrite Z.sub_0_r.
Qed.

(** [C30] Encrypting what was encrypted with the same password and time gives the text back, whatever
    is in the memory that is not initialised. One byte more than [len] says is treated. *)
Theorem SaM_encrypt_twice s s2 g g2 d d2 src len password timestamp :
  Z.of_nat (length (trits s)) = SAM_STATE_SIZE -> Z.of_nat (length (trits s2)) = SAM_STATE_SIZE -> length g = 48%nat -> length g2 = 48%nat ->
  0 <= len -> Z.of_nat (length src) = len + 1 -> Z.of_nat (length d) = len + 1 -> Z.of_nat (length d2) = len + 1 ->
  exists secret x x2, SaM_encrypt s g (Some d) src len password timestamp = Some (Some secret, x) /\
    SaM_encrypt s2 g2 (Some d2) secret len password timestamp = Some (Some src, x2).
Proof.
  intros Hs Hs2 Hg Hg2 Hlen Hsrc Hd Hd2. destruct (SaM_encrypt_eq s g d src len password timestamp) as (d' & x & E & Hl & H); [done|done|done|lia|lia|].
  destruct (SaM_encrypt_eq s2 g2 d2 d' len password timestamp) as (d3 & x2 & E2 & Hl2 & H2); [done|done|done|lia|lia|].
  exists d', x, x2. split; [exact E|]. rewrite E2. do 3 f_equal. apply znth_ext; [lia|]. intros j Hj. rewrite H2, H by lia. destruct (Z.leb_spec j len); [|lia].
  by rewrite <- Z.lxor_assoc, Z.lxor_nilpotent, Z.lxor_0_l.
Qed.

(** ** The hash *)

(** [C27] Hashing never fails; the hit is a number of 27 trits and the signature has 48 bytes; they
    depend on nothing but the two messages - not on what was in the memory of the state, nor on
    where the first message ends. *)
Theorem SaM_total s s2 a b a2 b2 : Z.of_nat (length (trits s)) = SAM_STATE_SIZE -> Z.of_nat (length (trits s2)) = SAM_STATE_SIZE ->
  exists hit sig, SaM s a b = Some (hit, sig) /\ 0 <= hit < SAMHIT_LIMIT /\ length sig = 48%nat /\ bytes sig /\
    (a ++ b = a2 ++ b2 -> SaM s2 a2 b2 = Some (hit, sig)).
Proof.
  intros Hs Hs2. exists (hit_of (digest a b)), (out (digest a b)). rewrite !SaM_eq by done. pose proof (digest_state a b) as Hd. split; [done|].
  split; [exact (proj2 (SaM_hit_eq [] [] _ Hd))|]. destruct (SaM_emit_eq (mkSaM [] (digest a b) []) Hd) as (_ & H1 & H2). split; [exact H1|]. split; [exact H2|].
  intros E. by rewrite (digest_app a b a2 b2 E).
Qed.

(** [C29] [SaM_SplitAndMerge] is nine times the round in closed form: position [i] becomes the sum of
    the left half at the [i]-th position of the walk and the right half at the next one, where
    the halves are biased pairs of neighbours of the walk; the walk visits every position once. *)
Theorem SaM_SplitAndMerge_rounds s : trit_state (trits s) ->
  let round t := tab SAM_STATE_SIZE (fun i =>
    let l k := SaM_Bias (znth t (254 * k mod 729)) (znth t (254 * (k + 1) mod 729)) in
    let r k := SaM_Bias (znth t (254 * (k + 1) mod 729)) (znth t (254 * k mod 729)) in
    SaM_Sum (l (254 * i mod 729)) (r (254 * (i + 1) mod 729))) in
  SaM_SplitAndMerge s = Some (s.[trits <- Nat.iter 9 round (trits s)]) /\ trit_state (Nat.iter 9 round (trits s)) /\
  (forall i j, 0 <= i < 729 -> 0 <= j < 729 -> 254 * i mod 729 = 254 * j mod 729 -> i = j).
Proof.
  intros Ht. cbv zeta. change (fun t => tab SAM_STATE_SIZE _) with mix. split; [exact (SaM_SplitAndMerge_eq s Ht)|]. split; [exact (iter_mix_state 9 _ Ht)|exact idx_inj].
Qed.

(** ** Padding *)

Lemma blocks_lookup fuel : forall r k, (length r < fuel)%nat ->
  blocks fuel r !! k = if decide (k = 0%nat \/ SAM_HASH_SIZE * Z.of_nat k < Z.of_nat (length r)) then Some (block (drop (Z.to_nat SAM_HASH_SIZE * k) r)) else None.
Proof.
  assert (Hc : SAM_HASH_SIZE = 243) by done. induction fuel as [|fuel IH]; intros r k Hf; [lia|]. cbn [blocks]. destruct k as [|k].
  - rewrite decide_True by auto. by rewrite Nat.mul_0_r.
  - cbn [lookup list_lookup]. destruct (Z.ltb_spec SAM_HASH_SIZE (Z.of_nat (length r))) as [Hlt|Hge].
    + change (list_lookup k ?l) with (l !! k). rewrite IH by (rewrite length_drop; lia). rewrite length_drop, drop_drop.
      replace (Z.to_nat SAM_HASH_SIZE + Z.to_nat SAM_HASH_SIZE * k)%nat with (Z.to_nat SAM_HASH_SIZE * S k)%nat by lia.
      destruct (decide (k = 0%nat \/ _)) as [H1|H1], (decide (S k = 0%nat \/ _)) as [H2|H2]; try done; exfalso; lia.
    + rewrite decide_False by lia. done.
Qed.

(** What is at position [j] of the padded message. *)
Lemma blocks_at r k i : 0 <= i < SAM_HASH_SIZE -> (k = 0%nat \/ SAM_HASH_SIZE * Z.of_nat k < Z.of_nat (length r)) ->
  exists b, blocks (S (length r)) r !! k = Some b /\ znth b i = if SAM_HASH_SIZE * Z.of_nat k + i <? Z.of_nat (length r) then znth r (SAM_HASH_SIZE * Z.of_nat k + i) else pad i.
Proof.
  assert (Hc : SAM_HASH_SIZE = 243) by done. intros Hi Hk. rewrite blocks_lookup by lia. rewrite decide_True by done. eexists. split; [reflexivity|]. unfold block. rewrite znth_tab by done.
  rewrite length_drop, znth_drop by lia. replace (Z.of_nat (Z.to_nat SAM_HASH_SIZE * k) + i) with (SAM_HASH_SIZE * Z.of_nat k + i) by lia.
  destruct (Z.ltb_spec i (Z.of_nat (length r - Z.to_nat SAM_HASH_SIZE * k))), (Z.ltb_spec (SAM_HASH_SIZE * Z.of_nat k + i) (Z.of_nat (length r))); done || lia.
Qed.

Lemma bits_not_pad a j i : 0 <= j < 8 * Z.of_nat (length a) -> Z.even i = true -> znth (bits_of a) j <> pad i.
Proof.
  intros Hj Hi. unfold bits_of. rewrite znth_tab by done. unfold pad. rewrite <- Z.negb_even, Hi. cbn. pose proof (c_bool_range (bit a j)). lia.
Qed.

(** A shorter message of bytes has other blocks. *)
Lemma blocks_shorter a b : (length a < length b)%nat -> blocks (S (length (bits_of a))) (bits_of a) <> blocks (S (length (bits_of b))) (bits_of b).
Proof.
  intros Hl E. pose proof (message_bits_length a) as Ha. pose proof (message_bits_length b) as Hb. set (n := Z.of_nat (length (bits_of a))) in *.
  assert (Hc : SAM_HASH_SIZE = 243) by done. set (k := Z.to_nat (n / 243)). assert (Hk : Z.of_nat k = n / 243) by (unfold k; dmlia). set (i := n mod 243). assert (Hn : n = 243 * Z.of_nat k + i) by (rewrite Hk; unfold i; dmlia).
  assert (Hi : 0 <= i < 243) by (apply Z.mod_pos_bound; done).
  destruct (Z.eq_dec i 0) as [Hi0|Hi0]; [destruct (decide (k = 0%nat)) as [Hk0|Hk0]|].
  - destruct (blocks_at (bits_of a) k 0) as (x & Ex & Hx); [lia|auto|]. destruct (blocks_at (bits_of b) k 0) as (y & Ey & Hy); [lia|auto|]. rewrite E, Ey in Ex. injection Ex as ->.
    fold n in Hx. rewrite Hx in Hy. destruct (Z.ltb_spec (SAM_HASH_SIZE * Z.of_nat k + 0) n); [lia|]. destruct (Z.ltb_spec (SAM_HASH_SIZE * Z.of_nat k + 0) (Z.of_nat (length (bits_of b)))); [|lia].
    apply (bits_not_pad b (SAM_HASH_SIZE * Z.of_nat k + 0) 0); [lia|done|done].
  - destruct (blocks_at (bits_of b) k 0) as (y & Ey & _); [lia|right; lia|]. rewrite <- E, blocks_lookup in Ey by lia. rewrite decide_False in Ey by (fold n; lia). done.
  - set (j := if Z.even i then i else i + 1). assert (Hj : i <= j <= i + 1 /\ 0 <= j < 243 /\ Z.even j = true).
    { unfold j. destruct (Z.even i) eqn:Ee; [split_and!; lia || done|]. assert (Z.odd i = true) by (by rewrite <- Z.negb_even, Ee). split_and!; [lia|lia|lia| |by rewrite Z.even_add, Ee].
      destruct (Z.eq_dec i 242) as [E2|]; [by rewrite E2 in Ee|lia]. }
    destruct Hj as (Hj1 & Hj2 & Hj3). destruct (blocks_at (bits_of a) k j) as (x & Ex & Hx); [lia|right; fold n; lia|]. destruct (blocks_at (bits_of b) k j) as (y & Ey & Hy); [lia|right; lia|]. rewrite E, Ey in Ex. injection Ex as ->.
    fold n in Hx. rewrite Hx in Hy. destruct (Z.ltb_spec (SAM_HASH_SIZE * Z.of_nat k + j) n); [lia|]. destruct (Z.ltb_spec (SAM_HASH_SIZE * Z.of_nat k + j) (Z.of_nat (length (bits_of b)))); [|lia].
    apply (bits_not_pad b (SAM_HASH_SIZE * Z.of_nat k + j) j); [lia|done|done].
Qed.

Lemma blocks_inj a b : bytes a -> bytes b -> blocks (S (length (bits_of a))) (bits_of a) = blocks (S (length (bits_of b))) (bits_of b) -> a = b.
Proof.
  intros Hba Hbb E. assert (Hl : length a = length b).
  { destruct (lt_eq_lt_dec (length a) (length b)) as [[Hlt|]|Hgt]; [by apply blocks_shorter in Hlt|done|by apply blocks_shorter in Hgt]. }
  pose proof (message_bits_length a) as Ha. pose proof (message_bits_length b) as Hb. assert (Hc : SAM_HASH_SIZE = 243) by done. apply znth_ext; [done|]. intros q Hq. apply byte_ext; [done|done|lia|]. intros t Ht.
  set (j := 8 * q + t). set (k := Z.to_nat (j / 243)). assert (Hk : Z.of_nat k = j / 243) by (unfold k; dmlia). assert (Hj : j = 243 * Z.of_nat k + j mod 243) by (rewrite Hk; dmlia). pose proof (Z.mod_pos_bound j 243 ltac:(done)) as Hm.
  destruct (blocks_at (bits_of a) k (j mod 243)) as (x & Ex & Hx); [lia|right; lia|]. destruct (blocks_at (bits_of b) k (j mod 243)) as (y & Ey & Hy); [lia|right; lia|]. rewrite E, Ey in Ex. injection Ex as ->.
  rewrite Hx, Hc, <- Hj in Hy. destruct (Z.ltb_spec j (Z.of_nat (length (bits_of a)))); [|lia]. destruct (Z.ltb_spec j (Z.of_nat (length (bits_of b)))); [|lia].
  unfold bits_of in Hy. rewrite !znth_tab in Hy by lia. by destruct (bit a j), (bit b j).
Qed.

(** [C28] Messages of bytes are cut into blocks of 243 trits, of which the last one is padded; every
    block replaces the front of the state before nine rounds. The padding never makes two
    messages the same. *)
Theorem SaM_Absorb_injective s a a2 : Z.of_nat (length (trits s)) = SAM_STATE_SIZE ->
  (exists s1, SaM_Initialize s = Some s1 /\
     SaM_Absorb s1 a a2 = Some (8 * (Z.of_nat (length a) + Z.of_nat (length a2)), s.[trits <- foldl (fun t b => mixed (put_block b t)) start (message_blocks a a2)])) /\
  forall b b2, bytes (a ++ a2) -> bytes (b ++ b2) -> message_blocks a a2 = message_blocks b b2 -> a ++ a2 = b ++ b2.
Proof.
  intros Hs. split.
  - destruct (absorb_from_start s a a2 Hs) as (s1 & E1 & E2 & _). exists s1. split; [exact E1|exact E2].
  - intros b b2 Ha Hb E. unfold message_blocks in E. rewrite !message_app in E. by apply blocks_inj.
Qed.

(** ** Proof of work *)

Lemma SaM_threshold_eq leverage : SaM_threshold leverage = 3 ^ 27 / 3 ^ Z.max 0 (Z.min leverage 26).
Proof.
  unfold SaM_threshold. cbv zeta. change SAMHIT_LIMIT with (3 ^ 27). f_equal.
  set (e := if 26 <? leverage then 26 else leverage). assert (He : e = Z.min leverage 26) by (unfold e; destruct (Z.ltb_spec 26 leverage); lia).
  pose proof (for_loop_inv (fun j d => d = 3 ^ j) (Z.to_nat e) 0 (fun _ divisor => u64 (divisor * 3)) 1) as I. rewrite I; [f_equal; lia| |done].
  intros j t Hj ->. rewrite Z.pow_add_r by lia. change (3 ^ 1) with 3. apply uwrap_small. assert (3 ^ j <= 3 ^ 26) by (apply Z.pow_le_mono_r; lia). assert (0 <= 3 ^ j) by (apply Z.pow_nonneg; lia). split; [lia|].
  change (3 ^ 26) with 2541865828329 in *. change (2 ^ 64) with 18446744073709551616. lia.
Qed.

Lemma SaM_threshold_range leverage : 0 <= SaM_threshold leverage <= SAMHIT_LIMIT.
Proof.
  rewrite SaM_threshold_eq. assert (1 <= 3 ^ Z.max 0 (Z.min leverage 26)) by (change 1 with (3 ^ 0) at 1; apply Z.pow_le_mono_r; lia). change SAMHIT_LIMIT with (3 ^ 27).
  split; [apply Z.div_pos; lia|]. apply Z.div_le_upper_bound; [lia|]. nia.
Qed.

(** [C31] A nonce is refused with 0xffffffff exactly when its hit is above the threshold, which is
    3^27 divided by three to the leverage, of which no more than 26 counts; a hit that equals the threshold passes. *)
Theorem SaM_nonce_check s data leverage nonce draws : Z.of_nat (length (trits s)) = SAM_STATE_SIZE -> leverage <> 0 ->
  exists hit sig, SaM s data (le_bytes 4 nonce) = Some (hit, sig) /\ SaM_threshold leverage = 3 ^ 27 / 3 ^ Z.max 0 (Z.min leverage 26) /\
    SaM_nonce s data leverage 0 nonce draws = Some (if hit <=? SaM_threshold leverage then 0 else 0xffffffff).
Proof.
  intros Hs Hlev. exists (hit_of (digest data (le_bytes 4 nonce))), (out (digest data (le_bytes 4 nonce))). rewrite SaM_eq by done. split; [done|]. split; [apply SaM_threshold_eq|].
  unfold SaM_nonce. rewrite (proj2 (Z.eqb_neq _ _) Hlev). cbn [negb]. change (0 =? 0) with true. cbv iota. unfold check_nonce. cbv zeta. rewrite SaM_eq by done. step.
  pose proof (SaM_threshold_range leverage) as Ht. pose proof (proj2 (SaM_hit_eq [] [] _ (digest_state data (le_bytes 4 nonce)))) as Hh. set (hit := hit_of _) in *. set (th := SaM_threshold leverage) in *. unfold SAMHIT_LIMIT in *.
  destruct (Z.leb_spec th hit), (Z.leb_spec hit th); try lia; [|  |done].
  - assert (hit = th) as -> by lia. by rewrite Z.sub_diag.
  - assert (E : u64 (th - hit) = 2 ^ 64 + (th - hit)). { unfold uwrap. rewrite <- (Z.mod_add _ 1) by done. rewrite Z.mod_small; [lia|]. change (2 ^ 64) with 18446744073709551616. lia. }
    rewrite E. change (2 ^ 64) with 18446744073709551616. change (2 ^ 32) with 4294967296. by destruct (Z.ltb_spec 4294967296 (18446744073709551616 + (th - hit))); [|lia].
Qed.

(** A nonce that was found was drawn, and passes the check on every machine. *)
Theorem SaM_nonce_found s s0 data leverage maxmillis nonce0 draws nonce : Z.of_nat (length (trits s)) = SAM_STATE_SIZE ->
  Forall (fun p => Z.of_nat (length (trits p.1)) = SAM_STATE_SIZE) draws -> leverage <> 0 -> maxmillis <> 0 -> nonce <> 0 ->
  SaM_nonce s0 data leverage maxmillis nonce0 draws = Some nonce ->
  In nonce (map snd draws) /\ SaM_nonce s data leverage 0 nonce [] = Some 0.
Proof.
  intros Hs Hdraws Hlev Hmax Hnz. unfold SaM_nonce. rewrite (proj2 (Z.eqb_neq _ _) Hlev), (proj2 (Z.eqb_neq _ _) Hmax). cbn [negb]. change (0 =? 0) with true. cbv iota.
  induction draws as [|[m x] draws IH]; cbn [find_nonce map]; [intros [= E]; congruence|]. apply list.Forall_cons in Hdraws as [Hm Hdraws]. rewrite SaM_eq by exact Hm. step.
  destruct (Z.ltb_spec (hit_of (digest data (le_bytes 4 x))) (SaM_threshold leverage)) as [Hlt|Hge].
  - intros [= ->]. split; [by left|]. unfold check_nonce. cbv zeta. rewrite SaM_eq by exact Hs. step. by destruct (Z.leb_spec (SaM_threshold leverage) (hit_of (digest data (le_bytes 4 nonce)))); [lia|].
  - intros E. destruct (IH Hdraws E) as [H1 H2]. split; [by right|exact H2].
Qed.

(** ** Examples *)

#[local] Opaque SaM SaM_encrypt SaM_nonce SaM_SplitAndMerge SaM_Absorb SaM_Initialize message_blocks.

Definition memory (x : Z) : SaM_info := mkSaM [] (replicate (Z.to_nat SAM_STATE_SIZE) x) [].

Lemma memory_length x : Z.of_nat (length (trits (memory x))) = SAM_STATE_SIZE.
Proof. unfold memory. cbn [trits]. rewrite length_replicate. reflexivity. Qed.

Lemma memory_trits : trit_state (trits (memory 0)).
Proof. split; [apply memory_length|]. unfold memory. cbn [trits]. apply Forall_replicate. right. by left. Qed.

Lemma SaM_SplitAndMerge_rounds_witness : exists t, SaM_SplitAndMerge (memory 0) = Some ((memory 0).[trits <- t]) /\ trit_state t.
Proof.
  destruct (SaM_SplitAndMerge_rounds (memory 0) memory_trits) as (E & T & _). eexists. split; [exact E|exact T].
Defined.

Lemma SaM_total_witness : exists hit sig, SaM (memory 0) [1; 2] [3] = Some (hit, sig) /\ 0 <= hit < SAMHIT_LIMIT /\ length sig = 48%nat /\ SaM (memory 7) [1] [2; 3] = Some (hit, sig).
Proof.
  destruct (SaM_total (memory 0) (memory 7) [1; 2] [3] [1] [2; 3] (memory_length 0) (memory_length 7)) as (hit & sig & E & Hh & Hl & _ & E2).
  exists hit, sig. split; [exact E|]. split; [exact Hh|]. split; [exact Hl|]. exact (E2 eq_refl).
Defined.

Lemma SaM_encrypt_twice_witness : exists secret x x2,
  SaM_encrypt (memory 0) (replicate 48 0) (Some [0; 0]) [72; 105] 1 [1; 2; 3] 9 = Some (Some secret, x) /\
  SaM_encrypt (memory 7) (replicate 48 1) (Some [5; 5]) secret 1 [1; 2; 3] 9 = Some (Some [72; 105], x2).
Proof.
  destruct (SaM_encrypt_twice (memory 0) (memory 7) (replicate 48 0) (replicate 48 1) [0; 0] [5; 5] [72; 105] 1 [1; 2; 3] 9 (memory_length 0) (memory_length 7) eq_refl eq_refl ltac:(lia) eq_refl eq_refl eq_refl)
    as (secret & x & x2 & E & E2). exists secret, x, x2. split; [exact E|exact E2].
Defined.

Lemma SaM_Absorb_injective_witness : (exists s1 s2, SaM_Initialize (memory 7) = Some s1 /\ SaM_Absorb s1 [1] [2] = Some (16, s2)) /\ message_blocks [1] [2] <> message_blocks [1; 2] [0].
Proof.
  destruct (SaM_Absorb_injective (memory 7) [1] [2] (memory_length 7)) as [(s1 & E1 & E2) Hinj]. split.
  - exists s1. eexists. split; [exact E1|exact E2].
  - intros E. apply Hinj in E; [discriminate| |]; repeat (apply list.Forall_cons; split; [lia|]); constructor.
Defined.

Lemma SaM_nonce_check_witness : exists hit, SaM_nonce (memory 0) [1; 2] 26 0 77 [] = Some (if hit <=? 3 then 0 else 0xffffffff).
Proof.
  destruct (SaM_nonce_check (memory 0) [1; 2] 26 77 [] (memory_length 0) ltac:(lia)) as (hit & sig & _ & Et & E). exists hit. rewrite Et in E. exact E.
Defined.
