(* ===== verification/HuffStream.v ===== *)
(** * huffstream.c: the bit stream [HUFF] and its variable-length integer codes

    A [HUFF] is a cursor over a byte buffer.  [ptr] is kept, as in the code, next to
    [bitoffset] and [maski], as the index of the byte it points to in [buf]; that the
    three agree is the invariant [hwf], not an assumption of the model.  An operation
    returns [None] when the C code would read or write outside [buf] or shift by more
    than the width of an [int].  The [printf] diagnostics and the running averages kept
    in function-local statics are not modelled. *)
From Stdlib Require Import ZArith Lia.
From stdpp Require Import base list numbers option.
From S2P Require Import Prelude Bits.
Open Scope Z_scope.

(** huffstream.c:24-24 [struct huffstream] *)
Record HUFF := mkHUFF {
  buf : list Z; ptr : Z; bitoffset : Z; maski : Z; endpos : Z; allocsize : Z; allocated : Z }.

(** huffstream.c:56-56 [huffmasks] *)
Definition huffmasks : list Z :=
  [Z.shiftl 1 0; Z.shiftl 1 1; Z.shiftl 1 2; Z.shiftl 1 3;
   Z.shiftl 1 4; Z.shiftl 1 5; Z.shiftl 1 6; Z.shiftl 1 7].

(** huffstream.c:57-57 [huffoppomasks] *)
Definition huffoppomasks : list Z :=
  [u8 (Z.lnot (Z.shiftl 1 0)); u8 (Z.lnot (Z.shiftl 1 1)); u8 (Z.lnot (Z.shiftl 1 2));
   u8 (Z.lnot (Z.shiftl 1 3)); u8 (Z.lnot (Z.shiftl 1 4)); u8 (Z.lnot (Z.shiftl 1 5));
   u8 (Z.lnot (Z.shiftl 1 6)); u8 (Z.lnot (Z.shiftl 1 7))].

(** huffstream.c:59-59 [_init_HUFF]: [maski], [endpos] and [allocated] keep what the
    struct held before. *)
Definition _init_HUFF (hp : HUFF) (allocsize : Z) (buf : list Z) : HUFF :=
  mkHUFF buf 0 0 (maski hp) (endpos hp) (uwrap 31 allocsize) (allocated hp).

(** huffstream.c:61-68 [hconv_bitlen] *)
Definition hconv_bitlen (bitlen : Z) : Z :=
  let len := i32 (Z.shiftr bitlen 3) in
  if truth (Z.land (i32 bitlen) 7) then len + 1 else len.

(** huffstream.c:70-85 [hupdate_internals] *)
Definition hupdate_internals (hp : HUFF) : Z * HUFF :=
  let '(retval, bitoffset) :=
    if allocsize hp <? Z.shiftr (bitoffset hp) 3
    then (-1, u32 (Z.shiftl (allocsize hp) 3 - 1))
    else (0, bitoffset hp) in
  let endpos := if endpos hp <? bitoffset then bitoffset else endpos hp in
  (retval, mkHUFF (buf hp) (Z.shiftr bitoffset 3) bitoffset (Z.land bitoffset 7)
             endpos (allocsize hp) (allocated hp)).

Definition SEEK_SET : Z := 0.
Definition SEEK_CUR : Z := 1.
Definition SEEK_END : Z := 2.

(** huffstream.c:87-100 [hseek] *)
Definition hseek (hp : HUFF) (offset mode : Z) : Z * HUFF :=
  let b := if mode =? SEEK_END then u32 (offset + endpos hp)
           else if mode =? SEEK_SET then u32 offset
           else u32 (bitoffset hp + offset) in
  let '(r, hp) := hupdate_internals
    (mkHUFF (buf hp) (ptr hp) b (maski hp) (endpos hp) (allocsize hp) (allocated hp)) in
  if r <? 0 then (-1, hp) else (0, hp).

(** huffstream.c:29-29 [hrewind] *)
Definition hrewind (hp : HUFF) : Z * HUFF := hseek hp 0 SEEK_SET.

(** huffstream.c:102-109 [hclear]; [memset] needs [allocsize] bytes at [buf]. *)
Definition hclear (hp : HUFF) (clearbuf : Z) : option HUFF :=
  let '(_, hp) := hupdate_internals
    (mkHUFF (buf hp) (ptr hp) 0 (maski hp) (endpos hp) (allocsize hp) (allocated hp)) in
  let hp := mkHUFF (buf hp) (ptr hp) (bitoffset hp) (maski hp) 0 (allocsize hp) (allocated hp) in
  if truth clearbuf then
    if allocsize hp <=? Z.of_nat (length (buf hp)) then
      Some (mkHUFF (replicate (Z.to_nat (allocsize hp)) 0 ++ drop (Z.to_nat (allocsize hp)) (buf hp))
              (ptr hp) (bitoffset hp) (maski hp) (endpos hp) (allocsize hp) (allocated hp))
    else None
  else Some hp.

(** huffstream.c:111-127 [hgetbit] *)
Definition hgetbit (hp : HUFF) : option (Z * HUFF) :=
  if bitoffset hp <? endpos hp then
    b ← aget (buf hp) (ptr hp);
    m ← aget huffmasks (maski hp);
    let bit := if truth (Z.land b m) then 1 else 0 in
    let maski := u32 (maski hp + 1) in
    let bitoffset := u32 (bitoffset hp + 1) in
    let '(maski, ptr) := if maski =? 8 then (0, ptr hp + 1) else (maski, ptr hp) in
    Some (bit, mkHUFF (buf hp) ptr bitoffset maski (endpos hp) (allocsize hp) (allocated hp))
  else Some (-1, hp).

(** huffstream.c:129-147 [hputbit] *)
Definition hputbit (hp : HUFF) (bit : Z) : option (Z * HUFF) :=
  b ← aget (buf hp) (ptr hp);
  b' ← (if truth bit then m ← aget huffmasks (maski hp); Some (u8 (Z.lor b m))
        else m ← aget huffoppomasks (maski hp); Some (u8 (Z.land b m)));
  buf' ← aset (buf hp) (ptr hp) b';
  let maski := u32 (maski hp + 1) in
  let '(maski, ptr) := if 8 <=? maski then (0, ptr hp + 1) else (maski, ptr hp) in
  let bitoffset := u32 (bitoffset hp + 1) in
  let endpos := if endpos hp <? bitoffset then bitoffset else endpos hp in
  if allocsize hp <=? Z.shiftr bitoffset 3 then
    let '(_, hp) := hupdate_internals
      (mkHUFF buf' ptr (u32 (bitoffset - 1)) maski endpos (allocsize hp) (allocated hp)) in
    Some (-1, hp)
  else Some (0, mkHUFF buf' ptr bitoffset maski endpos (allocsize hp) (allocated hp)).

(** huffstream.c:149-156 [hwrite]: least significant bit first. *)
Definition hwrite (codebits numbits : Z) (hp : HUFF) : option (Z * HUFF) :=
  r ← for_ret (Z.to_nat numbits) 0 (fun _ '(codebits, hp) =>
    '(e, hp) ← hputbit hp (Z.land codebits 1);
    if e <? 0 then Some (inr (-1, hp)) else Some (inl (Z.shiftr codebits 1, hp))) (codebits, hp);
  Some (match r with inl (_, hp) => (numbits, hp) | inr x => x end).

(** huffstream.c:158-170 [hread]: the first bit read ends up most significant.  The
    result is the value, [*numbitsp] and the stream. *)
Definition hread (numbits : Z) (hp : HUFF) : option (Z * Z * HUFF) :=
  r ← for_ret (Z.to_nat numbits) 0 (fun i '(codebits, hp) =>
    let codebits := u64 (Z.shiftl codebits 1) in
    '(bit, hp) ← hgetbit hp;
    if bit <? 0 then Some (inr (codebits, i, hp))
    else Some (inl (Z.lor codebits bit, hp))) (0, hp);
  Some (match r with inl (codebits, hp) => (codebits, Z.max 0 numbits, hp) | inr x => x end).

(** huffstream.c:172-194 [hmemcpy]: exactly one of [dest] and [src] is given.  Returns
    the return value, the memory at [dest] and the stream. *)
Definition hmemcpy (dest src : option (list Z)) (hp : HUFF) (datalen : Z)
  : option (Z * option (list Z) * HUFF) :=
  if truth (Z.land (bitoffset hp) 7) || (allocsize hp <? u32 (Z.shiftr (bitoffset hp) 3 + datalen))
  then Some (-1, dest, hp)
  else
    let done dest buf :=
      let bitoffset := u32 (bitoffset hp + Z.shiftl datalen 3) in
      Some (datalen, dest, mkHUFF buf (ptr hp + datalen) bitoffset (maski hp)
        (if endpos hp <? bitoffset then bitoffset else endpos hp) (allocsize hp) (allocated hp)) in
    let n := Z.to_nat datalen in
    let p := Z.to_nat (ptr hp) in
    match dest, src with
    | Some d, None =>
        if (0 <=? datalen) && (0 <=? ptr hp) && (ptr hp + datalen <=? Z.of_nat (length (buf hp)))
             && (datalen <=? Z.of_nat (length d))
        then done (Some (take n (drop p (buf hp)) ++ drop n d)) (buf hp) else None
    | None, Some s =>
        if (0 <=? datalen) && (0 <=? ptr hp) && (ptr hp + datalen <=? Z.of_nat (length (buf hp)))
             && (datalen <=? Z.of_nat (length s))
        then done None (take p (buf hp) ++ take n s ++ drop (p + n) (buf hp)) else None
    | _, _ => Some (-1, dest, hp)
    end.

(** huffstream.c:196-208 [hcalc_bitsize] *)
Definition hcalc_bitsize (x : Z) : Z :=
  if x =? 0 then 1
  else match for_ret 64 0 (fun k mask =>
         if truth (Z.land mask x) then Some (inr ((63 - k) + 1)) else Some (inl (Z.shiftr mask 1)))
         (2 ^ 63) with
       | Some (inr r) => r
       | _ => -1
       end.

(** The [int] value of [1 << i]. *)
Definition int_shl1 (i : Z) : option Z :=
  if (0 <=? i) && (i <? 32) then Some (i32 (2 ^ i)) else None.

(** huffstream.c:232-239 [hemit_bits] *)
Definition hemit_bits (hp : HUFF) (val numbits : Z) : option (Z * HUFF) :=
  hp ← for_loopM (Z.to_nat numbits) 0 (fun i hp =>
    m ← int_shl1 i;
    '(_, hp) ← hputbit hp (c_bool (truth (Z.land val (u32 m))));
    Some hp) hp;
  Some (numbits, hp).

(** huffstream.c:241-248 [hemit_longbits] *)
Definition hemit_longbits (hp : HUFF) (val : Z) : option (Z * HUFF) :=
  hp ← for_loopM 64 0 (fun i hp =>
    m ← int_shl1 i;
    '(_, hp) ← hputbit hp (c_bool (truth (Z.land val (u64 m))));
    Some hp) hp;
  Some (64, hp).

(** huffstream.c:250-259 [hdecode_bits]: return value, [*valp] and the stream. *)
Definition hdecode_bits (hp : HUFF) (numbits : Z) : option (Z * Z * HUFF) :=
  '(val, hp) ← for_loopM (Z.to_nat (u32 numbits)) 0 (fun i '(val, hp) =>
    '(bit, hp) ← hgetbit hp;
    if truth bit then m ← int_shl1 i; Some (Z.lor val (u32 m), hp) else Some (val, hp)) (0, hp);
  Some (numbits, val, hp).

(** ** Variable-length codes: a short tag, then a payload of the width it announces *)

(** huffstream.c:261-293 [hemit_smallbits] *)
Definition hemit_smallbits (hp : HUFF) (val : Z) : option (Z * HUFF) :=
  if 4 <=? val then
    if val <? 2 ^ 5 then
      '(n, hp) ← hemit_bits hp 4 3; '(m, hp) ← hemit_bits hp val 5; Some (n + m, hp)
    else if val <? 2 ^ 8 then
      '(n, hp) ← hemit_bits hp 5 3; '(m, hp) ← hemit_bits hp val 8; Some (n + m, hp)
    else if val <? 2 ^ 12 then
      '(n, hp) ← hemit_bits hp 6 3; '(m, hp) ← hemit_bits hp val 12; Some (n + m, hp)
    else
      '(n, hp) ← hemit_bits hp 7 3; '(m, hp) ← hemit_bits hp val 16; Some (n + m, hp)
  else hemit_bits hp val 3.

(** huffstream.c:295-307 [hcalc_smallsize] *)
Definition hcalc_smallsize (val : Z) : Z :=
  if 4 <=? val then
    if val <? 2 ^ 5 then 8 else if val <? 2 ^ 8 then 11 else if val <? 2 ^ 12 then 15 else 19
  else 3.

(** huffstream.c:309-329 [hdecode_smallbits]: the calls of [hgetbit] in one expression
    are taken left to right. *)
Definition hdecode_smallbits (hp : HUFF) : option (Z * Z * HUFF) :=
  '(b0, hp) ← hgetbit hp;
  '(b1, hp) ← hgetbit hp;
  '(b2, hp) ← hgetbit hp;
  let val := Z.lor (Z.lor b0 (Z.shiftl b1 1)) (Z.shiftl b2 2) in
  if val <? 4 then Some (3, u16 val, hp)
  else
    '(n, s, hp) ← (if val =? 4 then hdecode_bits hp 5
                   else if val =? 5 then hdecode_bits hp 8
                   else if val =? 6 then hdecode_bits hp 12
                   else hdecode_bits hp 16);
    Some (3 + n, u16 s, hp).

(** huffstream.c:331-372 [hemit_varbits] *)
Definition hemit_varbits (hp : HUFF) (val : Z) : option (Z * HUFF) :=
  if 10 <=? val then
    if val <? 2 ^ 8 then
      '(n, hp) ← hemit_bits hp 10 4; '(m, hp) ← hemit_bits hp val 8; Some (n + m, hp)
    else if val <? 2 ^ 10 then
      '(n, hp) ← hemit_bits hp 11 4; '(m, hp) ← hemit_bits hp val 10; Some (n + m, hp)
    else if val <? 2 ^ 13 then
      '(n, hp) ← hemit_bits hp 12 4; '(m, hp) ← hemit_bits hp val 13; Some (n + m, hp)
    else if val <? 2 ^ 16 then
      '(n, hp) ← hemit_bits hp 13 4; '(m, hp) ← hemit_bits hp val 16; Some (n + m, hp)
    else if val <? 2 ^ 20 then
      '(n, hp) ← hemit_bits hp 14 4; '(m, hp) ← hemit_bits hp val 20; Some (n + m, hp)
    else
      '(n, hp) ← hemit_bits hp 15 4; '(m, hp) ← hemit_bits hp val 32; Some (n + m, hp)
  else hemit_bits hp val 4.

(** huffstream.c:374-394 [hdecode_varbits] *)
Definition hdecode_varbits (hp : HUFF) : option (Z * Z * HUFF) :=
  '(b0, hp) ← hgetbit hp;
  '(b1, hp) ← hgetbit hp;
  '(b2, hp) ← hgetbit hp;
  '(b3, hp) ← hgetbit hp;
  let val := Z.lor (Z.lor (Z.lor b0 (Z.shiftl b1 1)) (Z.shiftl b2 2)) (Z.shiftl b3 3) in
  if val <? 10 then Some (4, u32 val, hp)
  else
    '(n, v, hp) ← (if val =? 10 then hdecode_bits hp 8
                   else if val =? 11 then hdecode_bits hp 10
                   else if val =? 12 then hdecode_bits hp 13
                   else if val =? 13 then hdecode_bits hp 16
                   else if val =? 14 then hdecode_bits hp 20
                   else hdecode_bits hp 32);
    Some (4 + n, v, hp).

(** huffstream.c:396-408 [hemit_svarbits] *)
Definition hemit_svarbits (hp : HUFF) (val : Z) : option (Z * HUFF) :=
  if val <? 2 ^ 16 then
    '(_, hp) ← hputbit hp 0; hemit_smallbits hp (u16 val)
  else
    '(_, hp) ← hputbit hp 1; hemit_varbits hp val.

(** huffstream.c:410-420 [hdecode_svarbits] *)
Definition hdecode_svarbits (hp : HUFF) : option (Z * Z * HUFF) :=
  '(b, hp) ← hgetbit hp;
  if b =? 0 then hdecode_smallbits hp else hdecode_varbits hp.

(** huffstream.c:453-463 [hemit_valuebits] *)
Definition hemit_valuebits (hp : HUFF) (value : Z) : option (Z * HUFF) :=
  '(numbits, value, hp) ← for_loopM 2 0 (fun _ '(numbits, value, hp) =>
    '(n, hp) ← hemit_varbits hp (u32 (Z.land value 0xffffffff));
    Some (numbits + n, Z.shiftr value 32, hp)) (0, value, hp);
  Some (numbits, hp).

(** huffstream.c:465-473 [hdecode_valuebits] *)
Definition hdecode_valuebits (hp : HUFF) : option (Z * Z * HUFF) :=
  '(numbits, tmp, hp) ← for_loopM 2 0 (fun i '(numbits, tmp, hp) =>
    '(n, v, hp) ← hdecode_varbits hp;
    tmp ← aset tmp i v;
    Some (numbits + n, tmp, hp)) (0, [0; 0], hp);
  t0 ← aget tmp 0;
  t1 ← aget tmp 1;
  Some (numbits, Z.lor t0 (Z.shiftl t1 32), hp).

(** ** Bit strings *)

(** huffstream.c:508-520 [huff_reversebits]: the macros address the bytes of the two
    64-bit locals. *)
Definition huff_reversebits (x n : Z) : option Z :=
  rev ← for_loopM (Z.to_nat n) 0 (fun i rev =>
    g ← GETBIT (le_bytes 8 x) (n - i - 1);
    if truth g then SETBIT rev i else Some rev) (le_bytes 8 0);
  Some (le_val rev).

(** huffstream.c:522-537 [huff_convstr]: [str] is the string without its terminator. *)
Definition huff_convstr (str : list Z) : option Z :=
  let n := Z.of_nat (length str) in
  m ← int_shl1 (n - 1);
  '(codebits, _) ← for_loopM (Z.to_nat n) 0 (fun k '(codebits, mask) =>
    c ← aget str (n - 1 - k);
    let codebits := if negb (c =? 48) then Z.lor codebits mask else codebits in
    Some (codebits, Z.shiftr mask 1)) (0, u64 m);
  Some codebits.

(** huffstream.c:539-548 [huff_str]: the characters written to the 128-byte static
    buffer, without the terminator. *)
Definition huff_str (codebits n : Z) : option (list Z) :=
  if n <? 128 then
    Some (for_loop (Z.to_nat n) 0 (fun _ '(str, mask) =>
      (str ++ [c_bool (truth (Z.land codebits mask)) + 48], u64 (Z.shiftl mask 1))) ([], 1)).1
  else None.

(** ** The invariant and the abstract stream

    In a well-formed stream the cached pointer and mask index agree with the bit
    offset, and the written part lies in the buffer. *)
Definition hwf (hp : HUFF) : Prop :=
  ptr hp = bitoffset hp / 8 /\ maski hp = bitoffset hp mod 8 /\
  bytes (buf hp) /\ Z.of_nat (length (buf hp)) = allocsize hp /\
  0 <= bitoffset hp <= endpos hp /\ endpos hp <= 8 * allocsize hp /\ allocsize hp < 2 ^ 28.

Definition hbit (hp : HUFF) (i : Z) : bool := bit (buf hp) i.

(** [hp] with its cursor at bit [p]. *)
Definition hat (hp : HUFF) (p : Z) : HUFF :=
  mkHUFF (buf hp) (p / 8) p (p mod 8) (endpos hp) (allocsize hp) (allocated hp).

(** [hp] after one bit was written at the cursor. *)
Definition hput1 (hp : HUFF) (b : bool) : HUFF :=
  let p := bitoffset hp in
  mkHUFF (bit_upd (buf hp) p b) ((p + 1) / 8) (p + 1) ((p + 1) mod 8)
    (Z.max (endpos hp) (p + 1)) (allocsize hp) (allocated hp).

Definition hputs (hp : HUFF) (l : list bool) : HUFF := fold_left hput1 l hp.

(** [n] more bits can be written without reaching the end of the buffer. *)
Definition room (hp : HUFF) (n : nat) : Prop := bitoffset hp + Z.of_nat n < 8 * allocsize hp.

(** The bits from [p] on are [l]. *)
Definition stored (hp : HUFF) (p : Z) (l : list bool) : Prop :=
  0 <= p /\ p + Z.of_nat (length l) <= endpos hp /\
  forall k b, l !! k = Some b -> hbit hp (p + Z.of_nat k) = b.

Lemma mask_range k : 0 <= k < 8 ->
  aget huffmasks k = Some (2 ^ k) /\ aget huffoppomasks k = Some (u8 (Z.lnot (2 ^ k))).
Proof.
  intros. assert (k = 0 \/ k = 1 \/ k = 2 \/ k = 3 \/ k = 4 \/ k = 5 \/ k = 6 \/ k = 7) by lia.
  destruct_or!; subst; by split.
Qed.

Lemma u32_small x : 0 <= x < 2 ^ 32 -> u32 x = x.
Proof. apply uwrap_small. Qed.

Lemma ldiff_mask b k : 0 <= b < 256 -> 0 <= k < 8 -> Z.land b (u8 (Z.lnot (2 ^ k))) = Z.ldiff b (2 ^ k).
Proof.
  intros Hb Hk. apply Z.bits_inj'. intros i Hi.
  rewrite Z.land_spec, Z.ldiff_spec, uwrap_testbit, Z.lnot_spec by lia.
  destruct (Z.ltb_spec i 8); simpl; [done|]. by rewrite (byte_testbit_ge b i) by lia.
Qed.

Lemma hputbit_byte hp b :
  hwf hp -> bitoffset hp < 8 * allocsize hp ->
  exists b0 b', aget (buf hp) (ptr hp) = Some b0 /\
    (if truth b then m ← aget huffmasks (maski hp); Some (u8 (Z.lor b0 m))
     else m ← aget huffoppomasks (maski hp); Some (u8 (Z.land b0 m))) = Some b' /\
    aset (buf hp) (ptr hp) b' = Some (bit_upd (buf hp) (bitoffset hp) (truth b)).
Proof.
  intros (Hp & Hm & Hb & Hl & Ho & He & Ha) Hr.
  assert (Hk : 0 <= maski hp < 8) by dmlia.
  destruct (mask_range _ Hk) as [-> ->].
  pose proof (znth_byte (buf hp) (bitoffset hp / 8) Hb) as Hz.
  exists (znth (buf hp) (bitoffset hp / 8)).
  exists (if truth b then Z.lor (znth (buf hp) (bitoffset hp / 8)) (2 ^ maski hp)
          else Z.ldiff (znth (buf hp) (bitoffset hp / 8)) (2 ^ maski hp)).
  rewrite Hp. split; [apply aget_znth; dmlia|].
  rewrite <- (uwrap_small 8 (if truth b then _ else _)) at 1.
  2: { change (2 ^ 8) with 256. by apply bit_upd_byte. }
  rewrite aset_zput by dmlia. unfold bit_upd. rewrite Hm in *.
  destruct (truth b); simpl; [done|]. by rewrite ldiff_mask by done.
Qed.

Ltac stream := unfold hwf, hat, hput1; simpl; rewrite ?bit_upd_length; split_and!.

Lemma hputbit_eq hp b :
  hwf hp -> room hp 1 -> hputbit hp b = Some (0, hput1 hp (truth b)).
Proof.
  intros Hw Hr. unfold room in Hr.
  destruct (hputbit_byte hp b Hw) as (b0 & b' & E1 & E2 & E3); [lia|].
  unfold hputbit. rewrite E1. simpl. rewrite E2. simpl. rewrite E3. simpl.
  destruct Hw as (Hp & Hm & Hb & Hl & Ho & He & Ha).
  rewrite !u32_small by (dmlia || lia). rewrite Hp, Hm, shiftr3.
  destruct (Z.leb_spec (allocsize hp) ((bitoffset hp + 1) / 8)); [dmlia|].
  unfold hput1.
  replace (Z.max (endpos hp) (bitoffset hp + 1)) with
    (if endpos hp <? bitoffset hp + 1 then bitoffset hp + 1 else endpos hp) by (zcase; lia).
  destruct (Z.leb_spec 8 (bitoffset hp mod 8 + 1)); do 2 f_equal; f_equal; dmlia.
Qed.

(** On the last bit of the buffer the bit is stored, but the call reports an error and
    the cursor does not move. *)
Lemma hputbit_last hp b :
  hwf hp -> bitoffset hp + 1 = 8 * allocsize hp ->
  hputbit hp b = Some (-1, mkHUFF (bit_upd (buf hp) (bitoffset hp) (truth b))
    (bitoffset hp / 8) (bitoffset hp) (bitoffset hp mod 8) (8 * allocsize hp)
    (allocsize hp) (allocated hp)).
Proof.
  intros Hw Hr.
  destruct (hputbit_byte hp b Hw) as (b0 & b' & E1 & E2 & E3); [lia|].
  unfold hputbit. rewrite E1. simpl. rewrite E2. simpl. rewrite E3. simpl.
  destruct Hw as (Hp & Hm & Hb & Hl & Ho & He & Ha).
  rewrite !u32_small by (dmlia || lia). rewrite Hp, Hm, shiftr3.
  destruct (Z.leb_spec (allocsize hp) ((bitoffset hp + 1) / 8)); [|dmlia].
  unfold hupdate_internals. simpl. rewrite shiftr3.
  replace (bitoffset hp + 1 - 1) with (bitoffset hp) by lia.
  destruct (Z.leb_spec 8 (bitoffset hp mod 8 + 1)); simpl;
  (destruct (Z.ltb_spec (allocsize hp) (bitoffset hp / 8)); [dmlia|]);
  rewrite shiftr3, land7; do 2 f_equal; f_equal;
  (destruct (Z.ltb_spec (endpos hp) (bitoffset hp + 1)); zcase; lia).
Qed.

Lemma hput1_wf hp b : hwf hp -> room hp 1 -> hwf (hput1 hp b).
Proof.
  intros (Hp & Hm & Hb & Hl & Ho & He & Ha) Hr. unfold room in Hr. stream; try lia.
  apply bit_upd_bytes; [lia|done].
Qed.

Lemma hgetbit_eq hp :
  hwf hp -> bitoffset hp < endpos hp ->
  hgetbit hp = Some (c_bool (hbit hp (bitoffset hp)), hat hp (bitoffset hp + 1)).
Proof.
  intros (Hp & Hm & Hb & Hl & Ho & He & Ha) Hr. unfold hgetbit.
  destruct (Z.ltb_spec (bitoffset hp) (endpos hp)); [|lia].
  assert (Hk : 0 <= maski hp < 8) by dmlia.
  destruct (mask_range _ Hk) as [-> _]. rewrite aget_znth by dmlia. simpl.
  rewrite truth_land_pow2, !u32_small by (dmlia || lia).
  unfold hbit, bit, hat, c_bool. rewrite Hp, Hm.
  destruct (Z.eqb_spec (bitoffset hp mod 8 + 1) 8); do 2 f_equal; f_equal; dmlia.
Qed.

Lemma hgetbit_eof hp : endpos hp <= bitoffset hp -> hgetbit hp = Some (-1, hp).
Proof. intros. unfold hgetbit. by destruct (Z.ltb_spec (bitoffset hp) (endpos hp)); [lia|]. Qed.

Lemma hat_wf hp p : hwf hp -> 0 <= p <= endpos hp -> hwf (hat hp p).
Proof. intros (Hp & Hm & Hb & Hl & Ho & He & Ha) Hr. stream; done || lia. Qed.

Lemma hat_hat hp p q : hat (hat hp p) q = hat hp q.
Proof. done. Qed.

Lemma hat_self hp : hwf hp -> hat hp (bitoffset hp) = hp.
Proof. intros (Hp & Hm & _). destruct hp; unfold hat; simpl in *. by subst. Qed.

Lemma hseek_set hp p :
  hwf hp -> 0 <= p <= endpos hp -> hseek hp p SEEK_SET = (0, hat hp p).
Proof.
  intros (Hp & Hm & Hb & Hl & Ho & He & Ha) Hr. unfold hseek, hupdate_internals. simpl.
  rewrite u32_small by lia. rewrite shiftr3.
  destruct (Z.ltb_spec (allocsize hp) (p / 8)); [dmlia|]. simpl.
  unfold hat. rewrite shiftr3, land7. do 2 f_equal. zcase; lia.
Qed.

(** ** Runs of bits *)

Lemma hputs_app hp l1 l2 : hputs hp (l1 ++ l2) = hputs (hputs hp l1) l2.
Proof. apply fold_left_app. Qed.

Lemma room_hput1 hp b n : room hp (S n) -> room (hput1 hp b) n.
Proof. unfold room, hput1. simpl. lia. Qed.

Lemma room_le hp m n : (m <= n)%nat -> room hp n -> room hp m.
Proof. unfold room. lia. Qed.

(** What a run of writes does to the stream. *)
Lemma hputs_spec hp l :
  hwf hp -> room hp (length l) ->
  hwf (hputs hp l) /\ bitoffset (hputs hp l) = bitoffset hp + Z.of_nat (length l) /\
  allocsize (hputs hp l) = allocsize hp /\
  endpos (hputs hp l) = Z.max (endpos hp) (bitoffset hp + Z.of_nat (length l)) /\
  forall i, 0 <= i -> hbit (hputs hp l) i =
    match l !! Z.to_nat (i - bitoffset hp) with
    | Some b => if bitoffset hp <=? i then b else hbit hp i
    | None => hbit hp i
    end.
Proof.
  revert hp. induction l as [|b l IH]; intros hp Hw Hr; simpl.
  - split_and!; try done; try lia. destruct Hw as (_ & _ & _ & _ & ? & _). lia.
  - assert (Hr1 : room hp 1) by (eapply room_le; [|done]; simpl; lia).
    destruct (IH (hput1 hp b)) as (IW & IB & IA & IE & IH'); [by apply hput1_wf|by apply room_hput1|].
    pose proof Hw as (Hp & Hm & Hb & Hl & Ho & He & Ha). unfold room in Hr1.
    change (fold_left hput1 l (hput1 hp b)) with (hputs (hput1 hp b) l).
    split_and!; [done| | | |].
    + rewrite IB. simpl. lia.
    + by rewrite IA.
    + rewrite IE. simpl. lia.
    + intros i Hi. rewrite IH' by done. simpl.
      unfold hbit at 1 2. simpl. rewrite bit_bit_upd by lia.
      destruct (Z.leb_spec (bitoffset hp) i) as [Hge|Hlt].
      * destruct (Z.eqb_spec i (bitoffset hp)) as [->|Hne].
        -- replace (bitoffset hp <? bitoffset hp) with false by (symmetry; apply Z.ltb_irrefl).
           rewrite Z.sub_diag. simpl.
           destruct (Z.leb_spec (bitoffset hp + 1) (bitoffset hp)); [lia|]. by destruct (l !! _).
        -- replace (Z.to_nat (i - bitoffset hp)) with (S (Z.to_nat (i - (bitoffset hp + 1)))) by lia.
           simpl. destruct (l !! _); [|done].
           destruct (Z.leb_spec (bitoffset hp + 1) i); [done|lia].
      * destruct (Z.eqb_spec i (bitoffset hp)); [lia|].
        destruct (Z.leb_spec (bitoffset hp + 1) i); [lia|].
        by destruct (l !! _), ((b :: l) !! _).
Qed.

Lemma hputs_wf hp l : hwf hp -> room hp (length l) -> hwf (hputs hp l).
Proof. intros. by apply hputs_spec. Qed.

Lemma hputs_room hp l n : hwf hp -> room hp (length l + n) -> hwf (hputs hp l) /\ room (hputs hp l) n.
Proof.
  intros Hw Hr. assert (Hl : room hp (length l)) by (eapply room_le; [|exact Hr]; lia).
  destruct (hputs_spec hp l Hw Hl) as (H1 & H2 & H3 & _). split; [done|]. unfold room in *. rewrite H2, H3. lia.
Qed.

Lemma stored_hputs hp l :
  hwf hp -> room hp (length l) -> stored (hputs hp l) (bitoffset hp) l.
Proof.
  intros Hw Hr. destruct (hputs_spec hp l Hw Hr) as (_ & _ & _ & He & Hb).
  destruct Hw as (_ & _ & _ & _ & ? & _). split_and!; [lia|lia|].
  intros k b Hk. rewrite Hb by lia.
  replace (Z.to_nat (bitoffset hp + Z.of_nat k - bitoffset hp)) with k by lia.
  rewrite Hk. by destruct (Z.leb_spec (bitoffset hp) (bitoffset hp + Z.of_nat k)); [|lia].
Qed.

Lemma stored_app hp p l1 l2 :
  stored hp p (l1 ++ l2) <-> stored hp p l1 /\ stored hp (p + Z.of_nat (length l1)) l2.
Proof.
  unfold stored. rewrite length_app. split.
  - intros (? & ? & H). split_and!; try lia; intros k b Hk.
    + apply H. by apply lookup_app_l_Some.
    + rewrite <- Z.add_assoc, <- Nat2Z.inj_add. apply H. rewrite lookup_app_r by lia.
      rewrite <- Hk. f_equal. lia.
  - intros ((? & ? & H1) & (? & ? & H2)). split_and!; try lia. intros k b Hk.
    apply lookup_app_Some in Hk as [Hk|[Hk1 Hk]]; [by apply H1|].
    apply H2 in Hk. rewrite <- Hk. f_equal. lia.
Qed.

Lemma stored_cons hp p b l :
  stored hp p (b :: l) -> hbit hp p = b /\ p < endpos hp /\ stored hp (p + 1) l.
Proof.
  intros H. apply (stored_app hp p [b] l) in H as [H1 H2]. split_and!; [| |done].
  - destruct H1 as (_ & _ & H1). rewrite <- (H1 0%nat b) by done. f_equal. simpl. lia.
  - destruct H1 as (_ & H1 & _). simpl in H1. lia.
Qed.

Lemma stored_hat hp p q l : stored (hat hp q) p l <-> stored hp p l.
Proof. done. Qed.

Lemma hgetbit_stored hp p b l :
  hwf hp -> stored hp p (b :: l) ->
  hgetbit (hat hp p) = Some (c_bool b, hat hp (p + 1)) /\ stored hp (p + 1) l.
Proof.
  intros Hw Hs. pose proof Hs as (Hp & _ & _). apply stored_cons in Hs as (Hb & He & Hs).
  split; [|done]. rewrite hgetbit_eq; simpl; [|apply hat_wf; [done|lia]|done].
  unfold hbit in *. simpl. by rewrite Hb.
Qed.

(** A stream at its start over the bytes [data], of which [e] bits are written. *)
Definition over (data : list Z) (e a : Z) : HUFF := mkHUFF data 0 0 0 e (Z.of_nat (length data)) a.

Lemma over_wf data e a : bytes data -> Z.of_nat (length data) < 2 ^ 28 -> 0 <= e <= 8 * Z.of_nat (length data) -> hwf (over data e a).
Proof. intros. unfold hwf, over. cbn [ptr bitoffset maski buf allocsize endpos]. split_and!; done || lia. Qed.

Lemma hconv_bitlen_eq n : 0 <= n < 2 ^ 31 -> hconv_bitlen n = (n + 7) / 8.
Proof.
  intros H. unfold hconv_bitlen. rewrite shiftr3. rewrite (swrap_small 32 (n / 8)) by dmlia. rewrite (swrap_small 32 n) by lia. rewrite land7.
  unfold truth. destruct (Z.eqb_spec (n mod 8) 0); cbn [negb]; dmlia.
Qed.

Lemma znth_take n (l : list Z) i : 0 <= i < Z.of_nat n -> znth (take n l) i = znth l i.
Proof.
  intros H. unfold znth, aget. destruct (Z.leb_spec 0 i); [|lia]. by rewrite lookup_take_lt by lia.
Qed.

(** The first bytes of a buffer have the bits of the buffer. *)
Lemma stored_take hp n bits a : stored hp 0 bits -> Z.of_nat (length bits) <= 8 * Z.of_nat n -> (n <= length (buf hp))%nat ->
  stored (over (take n (buf hp)) (8 * Z.of_nat n) a) 0 bits.
Proof.
  intros (_ & _ & H) Hn Hl. split_and!; [lia|cbn; lia|]. intros k b Hk. specialize (H k b Hk). rewrite <- H. unfold hbit, bit. cbn [over buf].
  apply lookup_lt_Some in Hk. rewrite znth_take; [done|]. dmlia.
Qed.

(** ** Numbers as runs of bits *)

(** The [n] low bits of [x], lowest first. *)
Fixpoint bits_of (n : nat) (x : Z) : list bool :=
  match n with
  | O => []
  | S n' => bits_of n' x ++ [Z.testbit x (Z.of_nat n')]
  end.

Lemma bits_of_length n x : length (bits_of n x) = n.
Proof. induction n; simpl; rewrite ?length_app; simpl; lia. Qed.

Lemma int_shl1_eq i :
  0 <= i < 32 -> exists m, int_shl1 i = Some m /\ u32 m = 2 ^ i.
Proof.
  intros H. unfold int_shl1.
  replace ((0 <=? i) && (i <? 32)) with true
    by (symmetry; apply andb_true_intro; split; [apply Z.leb_le|apply Z.ltb_lt]; lia).
  eexists. split; [done|].
  destruct (Z.eq_dec i 31) as [->|]; [done|].
  assert (0 < 2 ^ i <= 2 ^ 30) by (split; [lia|apply Z.pow_le_mono_r; lia]).
  rewrite swrap_small; [apply uwrap_small|lia|]; change (2 ^ 30) with 1073741824 in *; lia.
Qed.

Lemma c_bool_truth b : truth (c_bool b) = b.
Proof. by destruct b. Qed.

Lemma hemit_bits_eq hp val n :
  hwf hp -> room hp n -> (n <= 32)%nat ->
  hemit_bits hp val (Z.of_nat n) = Some (Z.of_nat n, hputs hp (bits_of n val)).
Proof.
  intros Hw Hr Hn. unfold hemit_bits. rewrite Nat2Z.id.
  match goal with |- context [for_loopM n 0 ?b hp] => set (body := b) end.
  assert (H : for_loopM n 0 body hp = Some (hputs hp (bits_of n val))); [|by rewrite H].
  revert Hr Hn. induction n as [|n IH]; intros Hr Hn; [done|].
  rewrite for_loopM_snoc, IH by (lia || by (eapply room_le; [|done]; lia)). simpl.
  unfold body. rewrite Z.add_0_l. destruct (int_shl1_eq (Z.of_nat n)) as (m & -> & Hm); [lia|].
  simpl. rewrite Hm, truth_land_pow2 by lia.
  assert (Hr' : room hp (length (bits_of n val))) by (rewrite bits_of_length; eapply room_le; [|done]; lia).
  pose proof (hputs_spec hp _ Hw Hr') as (Hw' & Hb & Ha & _). rewrite bits_of_length in Hb.
  rewrite hputbit_eq; [|done|unfold room in *; rewrite Hb, Ha; lia].
  simpl. by rewrite c_bool_truth, hputs_app.
Qed.

Lemma lor_bit_range x n b :
  0 <= x < 2 ^ Z.of_nat n -> Z.lor x (if b : bool then 2 ^ Z.of_nat n else 0) = x + c_bool b * 2 ^ Z.of_nat n.
Proof.
  intros Hx. destruct b; simpl; [|rewrite Z.lor_0_r; lia].
  rewrite Z.mul_1_l, Z.add_nocarry_lxor, Z.lxor_lor; try done.
  all: apply Z.bits_inj'; intros i Hi; rewrite Z.land_spec, Z.pow2_bits_eqb, Z.bits_0 by lia;
    destruct (Z.eqb_spec (Z.of_nat n) i) as [<-|]; rewrite ?andb_false_r; try done;
    by rewrite (testbit_small x (Z.of_nat n)) by (done || lia).
Qed.

Lemma mod_pow2_S x n :
  x mod 2 ^ Z.of_nat (S n) = x mod 2 ^ Z.of_nat n + c_bool (Z.testbit x (Z.of_nat n)) * 2 ^ Z.of_nat n.
Proof.
  rewrite <- lor_bit_range by (apply Z.mod_pos_bound; lia).
  apply Z.bits_inj'. intros i Hi. rewrite Z.lor_spec.
  assert (Ht : Z.testbit (if Z.testbit x (Z.of_nat n) then 2 ^ Z.of_nat n else 0) i
          = (Z.of_nat n =? i) && Z.testbit x i).
  { destruct (Z.testbit x (Z.of_nat n)) eqn:E; rewrite ?Z.pow2_bits_eqb, ?Z.bits_0 by lia;
      destruct (Z.eqb_spec (Z.of_nat n) i) as [<-|]; by rewrite ?E. }
  rewrite Ht.
  destruct (Z.lt_trichotomy i (Z.of_nat n)) as [Hlt|[->|Hgt]].
  - rewrite !Z.mod_pow2_bits_low by lia. destruct (Z.eqb_spec (Z.of_nat n) i); [lia|].
    by rewrite orb_false_r.
  - rewrite Z.mod_pow2_bits_low, Z.mod_pow2_bits_high, Z.eqb_refl by lia. done.
  - rewrite !Z.mod_pow2_bits_high by lia. by destruct (Z.eqb_spec (Z.of_nat n) i); [lia|].
Qed.

Lemma hdecode_bits_eq hp p val n :
  hwf hp -> stored hp p (bits_of n val) -> (n <= 32)%nat ->
  hdecode_bits (hat hp p) (Z.of_nat n)
    = Some (Z.of_nat n, val mod 2 ^ Z.of_nat n, hat hp (p + Z.of_nat n)).
Proof.
  intros Hw Hs Hn. unfold hdecode_bits. rewrite u32_small, Nat2Z.id by lia.
  match goal with |- context [for_loopM n 0 ?b _] => set (body := b) end.
  assert (H : for_loopM n 0 body (0, hat hp p) = Some (val mod 2 ^ Z.of_nat n, hat hp (p + Z.of_nat n)));
    [|by rewrite H].
  revert Hs Hn. induction n as [|n IH]; intros Hs Hn.
  - rewrite Z.mod_1_r, Z.add_0_r. done.
  - simpl in Hs. apply stored_app in Hs as [Hs1 Hs2]. rewrite bits_of_length in Hs2.
    rewrite for_loopM_snoc, IH by (done || lia). simpl. unfold body.
    destruct (hgetbit_stored hp _ _ _ Hw Hs2) as [-> _]. simpl. rewrite Z.add_0_l.
    destruct (int_shl1_eq (Z.of_nat n)) as (m & -> & Hm); [lia|].
    rewrite mod_pow2_S, <- lor_bit_range by (apply Z.mod_pos_bound; lia).
    rewrite c_bool_truth. simpl. rewrite Hm.
    replace (p + Z.of_nat (S n)) with (p + Z.of_nat n + 1) by lia.
    destruct (Z.testbit val (Z.of_nat n)); [done|]. by rewrite Z.lor_0_r.
Qed.

(** ** The interface of a bit code

    An encoder and a decoder over the stream are a code when every number of the
    domain has a bit string [codec_code], the encoder appends that string, and the
    decoder reads it back wherever it is stored.  Both return [codec_count]. *)
Class BitCodec (emit : HUFF -> Z -> option (Z * HUFF))
    (decode : HUFF -> option (Z * Z * HUFF)) := {
  codec_dom : Z -> Prop;
  codec_code : Z -> list bool;
  codec_count : Z -> Z;
  codec_emit hp x : hwf hp -> codec_dom x -> room hp (length (codec_code x)) ->
    emit hp x = Some (codec_count x, hputs hp (codec_code x));
  codec_decode hp p x : hwf hp -> codec_dom x -> stored hp p (codec_code x) ->
    decode (hat hp p) =
      Some (codec_count x, x, hat hp (p + Z.of_nat (length (codec_code x)))) }.

(** Encode, seek back, decode: the number comes back, the decoder stops where the
    encoder stopped, and nothing outside the written bits has changed. *)
Lemma codec_roundtrip `{C : BitCodec emit decode} hp x :
  hwf hp -> codec_dom x -> room hp (length (codec_code x)) ->
  exists hp', emit hp x = Some (codec_count x, hp') /\ hwf hp' /\
    bitoffset hp' = bitoffset hp + Z.of_nat (length (codec_code x)) /\
    hseek hp' (bitoffset hp) SEEK_SET = (0, hat hp' (bitoffset hp)) /\
    decode (hat hp' (bitoffset hp)) = Some (codec_count x, x, hp') /\
    forall i, 0 <= i < bitoffset hp \/ bitoffset hp' <= i -> hbit hp' i = hbit hp i.
Proof.
  intros Hw Hx Hr. pose proof (hputs_spec hp _ Hw Hr) as (Hw' & Hb & Ha & He & Hi).
  pose proof Hw as (_ & _ & _ & _ & Ho & _).
  eexists. split; [by apply codec_emit|]. split_and!; [done|done| | |].
  - apply hseek_set; [done|]. lia.
  - rewrite (codec_decode _ _ x) by (done || by apply stored_hputs).
    rewrite <- Hb. by rewrite hat_self.
  - intros i Hir. rewrite Hi by lia. destruct (codec_code x !! _) eqn:E; [|done].
    apply lookup_lt_Some in E. destruct (Z.leb_spec (bitoffset hp) i); [lia|done].
Qed.

Lemma room_app hp m n : hwf hp -> room hp (m + n) ->
  forall l, length l = m -> hwf (hputs hp l) /\ room (hputs hp l) n.
Proof.
  intros Hw Hr l Hl. pose proof (hputs_spec hp l Hw) as H. rewrite Hl in H.
  destruct H as (Hw' & Hb & Ha & _); [eapply room_le; [|done]; lia|].
  split; [done|]. unfold room in *. rewrite Hb, Ha. lia.
Qed.

(** Tag and payload written by two calls of [hemit_bits]. *)
Lemma hemit_tagged hp tag k val n :
  hwf hp -> room hp (k + n) -> (k <= 32)%nat -> (n <= 32)%nat ->
  ('(a, hp) ← hemit_bits hp tag (Z.of_nat k); '(b, hp) ← hemit_bits hp val (Z.of_nat n);
   Some (a + b, hp))
  = Some (Z.of_nat (k + n), hputs hp (bits_of k tag ++ bits_of n val)).
Proof.
  intros Hw Hr Hk Hn.
  destruct (room_app hp k n Hw Hr (bits_of k tag) (bits_of_length _ _)) as [Hw' Hr'].
  rewrite hemit_bits_eq by first [done | eapply room_le; [|done]; lia]. simpl.
  rewrite hemit_bits_eq by done. simpl. by rewrite hputs_app, Nat2Z.inj_add.
Qed.

Definition small_code (x : Z) : list bool :=
  if x <? 4 then bits_of 3 x
  else if x <? 2 ^ 5 then bits_of 3 4 ++ bits_of 5 x
  else if x <? 2 ^ 8 then bits_of 3 5 ++ bits_of 8 x
  else if x <? 2 ^ 12 then bits_of 3 6 ++ bits_of 12 x
  else bits_of 3 7 ++ bits_of 16 x.

Definition var_code (x : Z) : list bool :=
  if x <? 10 then bits_of 4 x
  else if x <? 2 ^ 8 then bits_of 4 10 ++ bits_of 8 x
  else if x <? 2 ^ 10 then bits_of 4 11 ++ bits_of 10 x
  else if x <? 2 ^ 13 then bits_of 4 12 ++ bits_of 13 x
  else if x <? 2 ^ 16 then bits_of 4 13 ++ bits_of 16 x
  else if x <? 2 ^ 20 then bits_of 4 14 ++ bits_of 20 x
  else bits_of 4 15 ++ bits_of 32 x.

Ltac code_cases :=
  repeat match goal with
  | H : context [if ?a <? ?b then _ else _] |- _ => destruct (Z.ltb_spec a b)
  | |- context [if ?a <? ?b then _ else _] => destruct (Z.ltb_spec a b)
  | |- context [if ?a <=? ?b then _ else _] => destruct (Z.leb_spec a b)
  end; try lia.

Ltac code_len := rewrite ?length_app, ?bits_of_length in *.

Lemma emit_small hp x :
  hwf hp -> 0 <= x < 2 ^ 16 -> room hp (length (small_code x)) ->
  hemit_smallbits hp x = Some (Z.of_nat (length (small_code x)), hputs hp (small_code x)).
Proof.
  intros Hw Hx Hr. unfold hemit_smallbits, small_code in *. code_cases; code_len.
  - apply (hemit_bits_eq hp x 3); done || lia.
  - apply (hemit_tagged hp 4 3 x 5); done || lia.
  - apply (hemit_tagged hp 5 3 x 8); done || lia.
  - apply (hemit_tagged hp 6 3 x 12); done || lia.
  - apply (hemit_tagged hp 7 3 x 16); done || lia.
Qed.

Lemma emit_var hp x :
  hwf hp -> 0 <= x < 2 ^ 32 -> room hp (length (var_code x)) ->
  hemit_varbits hp x = Some (Z.of_nat (length (var_code x)), hputs hp (var_code x)).
Proof.
  intros Hw Hx Hr. unfold hemit_varbits, var_code in *. code_cases; code_len.
  - apply (hemit_bits_eq hp x 4); done || lia.
  - apply (hemit_tagged hp 10 4 x 8); done || lia.
  - apply (hemit_tagged hp 11 4 x 10); done || lia.
  - apply (hemit_tagged hp 12 4 x 13); done || lia.
  - apply (hemit_tagged hp 13 4 x 16); done || lia.
  - apply (hemit_tagged hp 14 4 x 20); done || lia.
  - apply (hemit_tagged hp 15 4 x 32); done || lia.
Qed.

(** Read a tag of three or four bits stored at the cursor. *)
Ltac read_tag Hw Hs :=
  cbn [bits_of app] in Hs;
  repeat (let E := fresh in
    destruct (hgetbit_stored _ _ _ _ Hw Hs) as [E ?Hs']; rewrite E; clear E Hs;
    rename Hs' into Hs; simpl mbind; cbn beta iota).

Lemma decode_tagged hp p tag k val n m :
  hwf hp -> stored hp p (bits_of k tag ++ bits_of n val) -> (n <= 32)%nat ->
  0 <= val < 2 ^ Z.of_nat n -> m = Z.of_nat n ->
  stored hp p (bits_of k tag) /\
  hdecode_bits (hat hp (p + Z.of_nat k)) m = Some (m, val, hat hp (p + Z.of_nat k + m)).
Proof.
  intros Hw Hs Hn Hv ->. apply stored_app in Hs as [H1 H2]. rewrite bits_of_length in H2.
  split; [done|]. rewrite (hdecode_bits_eq _ _ val) by done. by rewrite Z.mod_small.
Qed.

(** The decoders of a tag, as functions of the tag value. *)
Lemma decode_small_tag hp p tag :
  hwf hp -> 0 <= tag < 8 -> stored hp p (bits_of 3 tag) ->
  hdecode_smallbits (hat hp p) =
    if tag <? 4 then Some (3, tag, hat hp (p + 3))
    else
      '(n, s, hp) ← (if tag =? 4 then hdecode_bits (hat hp (p + 3)) 5
                     else if tag =? 5 then hdecode_bits (hat hp (p + 3)) 8
                     else if tag =? 6 then hdecode_bits (hat hp (p + 3)) 12
                     else hdecode_bits (hat hp (p + 3)) 16);
      Some (3 + n, u16 s, hp).
Proof.
  intros Hw Ht Hs. unfold hdecode_smallbits.
  assert (tag = 0 \/ tag = 1 \/ tag = 2 \/ tag = 3 \/ tag = 4 \/ tag = 5 \/ tag = 6 \/ tag = 7) by lia.
  destruct_or!; subst tag; read_tag Hw Hs;
    replace (p + 1 + 1 + 1) with (p + 3) by lia; reflexivity.
Qed.

Lemma decode_var_tag hp p tag :
  hwf hp -> 0 <= tag < 16 -> stored hp p (bits_of 4 tag) ->
  hdecode_varbits (hat hp p) =
    if tag <? 10 then Some (4, tag, hat hp (p + 4))
    else
      '(n, v, hp) ← (if tag =? 10 then hdecode_bits (hat hp (p + 4)) 8
                     else if tag =? 11 then hdecode_bits (hat hp (p + 4)) 10
                     else if tag =? 12 then hdecode_bits (hat hp (p + 4)) 13
                     else if tag =? 13 then hdecode_bits (hat hp (p + 4)) 16
                     else if tag =? 14 then hdecode_bits (hat hp (p + 4)) 20
                     else hdecode_bits (hat hp (p + 4)) 32);
      Some (4 + n, v, hp).
Proof.
  intros Hw Ht Hs. unfold hdecode_varbits.
  assert (tag = 0 \/ tag = 1 \/ tag = 2 \/ tag = 3 \/ tag = 4 \/ tag = 5 \/ tag = 6 \/ tag = 7 \/
    tag = 8 \/ tag = 9 \/ tag = 10 \/ tag = 11 \/ tag = 12 \/ tag = 13 \/ tag = 14 \/ tag = 15) by lia.
  destruct_or!; subst tag; read_tag Hw Hs;
    replace (p + 1 + 1 + 1 + 1) with (p + 4) by lia; reflexivity.
Qed.

Ltac finish_decode Hw Hs tag k x n tac :=
  let H1 := fresh in let H2 := fresh in
  destruct (decode_tagged _ _ tag k x n (Z.of_nat n) Hw Hs) as [H1 H2]; [lia|lia|done|];
  rewrite (tac tag) by (done || lia);
  let kz := eval vm_compute in (Z.of_nat k) in
  let nz := eval vm_compute in (Z.of_nat n) in
  change (Z.of_nat k) with kz in H2; change (Z.of_nat n) with nz in H2;
  simpl; rewrite H2; simpl;
  rewrite ?(uwrap_small 16) by lia; do 2 f_equal; f_equal; lia.

Lemma decode_small hp p x :
  hwf hp -> 0 <= x < 2 ^ 16 -> stored hp p (small_code x) ->
  hdecode_smallbits (hat hp p) =
    Some (Z.of_nat (length (small_code x)), x, hat hp (p + Z.of_nat (length (small_code x)))).
Proof.
  intros Hw Hx Hs. unfold small_code in *. code_cases; code_len.
  - rewrite (decode_small_tag hp p x) by (done || lia).
    destruct (Z.ltb_spec x 4); [done|lia].
  - finish_decode Hw Hs 4 3%nat x 5%nat (decode_small_tag hp p).
  - finish_decode Hw Hs 5 3%nat x 8%nat (decode_small_tag hp p).
  - finish_decode Hw Hs 6 3%nat x 12%nat (decode_small_tag hp p).
  - finish_decode Hw Hs 7 3%nat x 16%nat (decode_small_tag hp p).
Qed.

Lemma decode_var hp p x :
  hwf hp -> 0 <= x < 2 ^ 32 -> stored hp p (var_code x) ->
  hdecode_varbits (hat hp p) =
    Some (Z.of_nat (length (var_code x)), x, hat hp (p + Z.of_nat (length (var_code x)))).
Proof.
  intros Hw Hx Hs. unfold var_code in *. code_cases; code_len.
  - rewrite (decode_var_tag hp p x) by (done || lia).
    destruct (Z.ltb_spec x 10); [done|lia].
  - finish_decode Hw Hs 10 4%nat x 8%nat (decode_var_tag hp p).
  - finish_decode Hw Hs 11 4%nat x 10%nat (decode_var_tag hp p).
  - finish_decode Hw Hs 12 4%nat x 13%nat (decode_var_tag hp p).
  - finish_decode Hw Hs 13 4%nat x 16%nat (decode_var_tag hp p).
  - finish_decode Hw Hs 14 4%nat x 20%nat (decode_var_tag hp p).
  - finish_decode Hw Hs 15 4%nat x 32%nat (decode_var_tag hp p).
Qed.

#[export] Instance small_codec : BitCodec hemit_smallbits hdecode_smallbits := {
  codec_dom x := 0 <= x < 2 ^ 16;
  codec_code := small_code;
  codec_count x := Z.of_nat (length (small_code x));
  codec_emit := emit_small;
  codec_decode := decode_small }.

#[export] Instance var_codec : BitCodec hemit_varbits hdecode_varbits := {
  codec_dom x := 0 <= x < 2 ^ 32;
  codec_code := var_code;
  codec_count x := Z.of_nat (length (var_code x));
  codec_emit := emit_var;
  codec_decode := decode_var }.

(** A flag bit, then one of the two codes; the flag is not counted. *)
Definition svar_code (x : Z) : list bool :=
  if x <? 2 ^ 16 then false :: small_code x else true :: var_code x.

Definition svar_count (x : Z) : Z := Z.of_nat (length (svar_code x)) - 1.

Lemma emit_svar hp x :
  hwf hp -> 0 <= x < 2 ^ 32 -> room hp (length (svar_code x)) ->
  hemit_svarbits hp x = Some (svar_count x, hputs hp (svar_code x)).
Proof.
  intros Hw Hx Hr. unfold hemit_svarbits, svar_count, svar_code in *.
  assert (Hr1 : room hp 1) by (eapply room_le; [|done]; destruct (x <? 2 ^ 16); simpl; lia).
  destruct (Z.ltb_spec x (2 ^ 16)); simpl in Hr; rewrite hputbit_eq by done; simpl;
    apply room_hput1 with (b := truth 0) in Hr || apply room_hput1 with (b := truth 1) in Hr.
  - rewrite uwrap_small by lia. rewrite emit_small by first [done | lia | by apply hput1_wf].
    do 2 f_equal. lia.
  - rewrite emit_var by first [done | lia | by apply hput1_wf]. do 2 f_equal. lia.
Qed.

Lemma decode_svar hp p x :
  hwf hp -> 0 <= x < 2 ^ 32 -> stored hp p (svar_code x) ->
  hdecode_svarbits (hat hp p) =
    Some (svar_count x, x, hat hp (p + Z.of_nat (length (svar_code x)))).
Proof.
  intros Hw Hx Hs. unfold hdecode_svarbits, svar_count, svar_code in *.
  destruct (Z.ltb_spec x (2 ^ 16)); destruct (hgetbit_stored _ _ _ _ Hw Hs) as [-> Hs'];
    cbn [length]; simpl.
  - rewrite (decode_small _ _ x) by first [done | lia]. do 2 f_equal; f_equal; lia.
  - rewrite (decode_var _ _ x) by done. do 2 f_equal; f_equal; lia.
Qed.

#[export] Instance svar_codec : BitCodec hemit_svarbits hdecode_svarbits := {
  codec_dom x := 0 <= x < 2 ^ 32;
  codec_code := svar_code;
  codec_count := svar_count;
  codec_emit := emit_svar;
  codec_decode := decode_svar }.

(** The two 32-bit halves, low half first. *)
Definition value_code (x : Z) : list bool := var_code (x mod 2 ^ 32) ++ var_code (x / 2 ^ 32).

Lemma emit_value hp x :
  hwf hp -> 0 <= x < 2 ^ 64 -> room hp (length (value_code x)) ->
  hemit_valuebits hp x = Some (Z.of_nat (length (value_code x)), hputs hp (value_code x)).
Proof.
  intros Hw Hx Hr. unfold hemit_valuebits, value_code in *. code_len.
  assert (Hlo : 0 <= x mod 2 ^ 32 < 2 ^ 32) by (apply Z.mod_pos_bound; lia).
  assert (Hhi : 0 <= x / 2 ^ 32 < 2 ^ 32) by dmlia.
  destruct (room_app hp _ _ Hw Hr (var_code (x mod 2 ^ 32)) eq_refl) as [Hw' Hr'].
  assert (Hland : forall y, Z.land y 0xffffffff = y mod 2 ^ 32) by (intros; apply (Z.land_ones y 32); lia).
  change (for_loopM 2 0 ?b ?s) with (s1 ← b 0 s; s2 ← b 1 s1; Some s2). cbv beta iota.
  rewrite !Hland, uwrap_small by done.
  rewrite emit_var; [|done|done|eapply room_le; [|done]; lia]. step. step.
  rewrite Hland, (Z.shiftr_div_pow2 x) by lia. rewrite (Z.mod_small (x / 2 ^ 32)), uwrap_small by done.
  rewrite emit_var by done. do 3 step. rewrite hputs_app. do 2 f_equal. lia.
Qed.

Lemma decode_value hp p x :
  hwf hp -> 0 <= x < 2 ^ 64 -> stored hp p (value_code x) ->
  hdecode_valuebits (hat hp p) =
    Some (Z.of_nat (length (value_code x)), x, hat hp (p + Z.of_nat (length (value_code x)))).
Proof.
  intros Hw Hx Hs. unfold hdecode_valuebits, value_code in *. apply stored_app in Hs as [Hs1 Hs2].
  assert (Hlo : 0 <= x mod 2 ^ 32 < 2 ^ 32) by (apply Z.mod_pos_bound; lia).
  assert (Hhi : 0 <= x / 2 ^ 32 < 2 ^ 32) by dmlia.
  change (for_loopM 2 0 ?b ?s) with (s1 ← b 0 s; s2 ← b 1 s1; Some s2). cbv beta iota.
  rewrite (decode_var _ _ (x mod 2 ^ 32)) by done. step. change (aset [0; 0] 0 ?v) with (Some [v; 0]). do 2 step.
  rewrite (decode_var _ _ (x / 2 ^ 32)) by done. step.
  change (aset [x mod 2 ^ 32; 0] 1 ?v) with (Some [x mod 2 ^ 32; v]). do 3 step.
  change (aget [?a; ?b] 0) with (Some a). change (aget [?a; ?b] 1) with (Some b). do 2 step.
  rewrite length_app.
  replace (Z.lor (x mod 2 ^ 32) (Z.shiftl (x / 2 ^ 32) 32)) with x.
  - do 2 f_equal; f_equal; lia.
  - apply Z.bits_inj'. intros i Hi. rewrite Z.lor_spec, Z.shiftl_spec by lia.
    destruct (Z.lt_ge_cases i 32).
    + by rewrite Z.mod_pow2_bits_low, (Z.testbit_neg_r _ (i - 32)), orb_false_r by lia.
    + rewrite Z.mod_pow2_bits_high, Z.div_pow2_bits by lia. simpl. f_equal. lia.
Qed.

#[export] Instance value_codec : BitCodec hemit_valuebits hdecode_valuebits := {
  codec_dom x := 0 <= x < 2 ^ 64;
  codec_code := value_code;
  codec_count x := Z.of_nat (length (value_code x));
  codec_emit := emit_value;
  codec_decode := decode_value }.


(** ** Plain runs of bits: [hwrite] and [hread] *)

Lemma bits_of_cons n x : bits_of (S n) x = Z.testbit x 0 :: bits_of n (Z.shiftr x 1).
Proof.
  revert x. induction n as [|n IH]; intros x; [done|].
  change (bits_of (S (S n)) x) with (bits_of (S n) x ++ [Z.testbit x (Z.of_nat (S n))]).
  rewrite IH. simpl. rewrite Z.shiftr_spec by lia.
  by replace (Z.of_nat n + 1) with (Z.of_nat (S n)) by lia.
Qed.

Lemma bits_of_lookup n x k b : bits_of n x !! k = Some b -> b = Z.testbit x (Z.of_nat k).
Proof.
  induction n as [|n IH]; [done|]. simpl. intros [H|[H1 H2]]%lookup_app_Some; [auto|].
  rewrite bits_of_length in *. apply list_lookup_singleton_Some in H2 as [H2 <-].
  do 2 f_equal. lia.
Qed.

Lemma land1_truth x : truth (Z.land x 1) = Z.testbit x 0.
Proof. apply (truth_land_pow2 x 0). lia. Qed.

Lemma hwrite_eq hp x n :
  hwf hp -> room hp n -> hwrite x (Z.of_nat n) hp = Some (Z.of_nat n, hputs hp (bits_of n x)).
Proof.
  intros Hw Hr. unfold hwrite. rewrite Nat2Z.id.
  match goal with |- context [for_ret n 0 ?b _] => set (body := b) end.
  assert (Hbody : forall i c hp, body i (c, hp) = '(e, hp) ← hputbit hp (Z.land c 1);
    if e <? 0 then Some (inr (-1, hp)) else Some (inl (Z.shiftr c 1, hp))) by done.
  clearbody body.
  assert (H : forall i, for_ret n i body (x, hp) =
    Some (inl (Z.shiftr x (Z.of_nat n), hputs hp (bits_of n x)))); [|by rewrite H].
  revert x hp Hw Hr. induction n as [|n IH]; intros x hp Hw Hr i.
  - change (for_ret 0 i body (x, hp)) with (@Some (Z * HUFF + Z * HUFF) (inl (x, hp))).
    by rewrite Z.shiftr_0_r.
  - rewrite for_ret_S, Hbody. assert (Hr1 : room hp 1) by (eapply room_le; [|done]; lia).
    rewrite hputbit_eq by done. step. change (0 <? 0) with false. cbv iota. step.
    rewrite land1_truth, IH by first [by apply hput1_wf | by apply room_hput1].
    rewrite bits_of_cons, Z.shiftr_shiftr by lia.
    by replace (1 + Z.of_nat n) with (Z.of_nat (S n)) by lia.
Qed.

(** The number whose binary digits, most significant first, are [l]. *)
Definition msb_val (l : list bool) : Z := fold_left (fun v b => 2 * v + c_bool b) l 0.

Lemma fold_msb l v :
  fold_left (fun v b => 2 * v + c_bool b) l v = v * 2 ^ Z.of_nat (length l) + msb_val l.
Proof.
  unfold msb_val. revert v. induction l as [|b l IH]; intros v; cbn [fold_left length].
  { rewrite Z.pow_0_r. lia. }
  rewrite (IH (2 * v + _)), (IH (2 * 0 + _)), Nat2Z.inj_succ, Z.pow_succ_r by lia. ring.
Qed.

Lemma msb_val_cons b l : msb_val (b :: l) = c_bool b * 2 ^ Z.of_nat (length l) + msb_val l.
Proof. unfold msb_val at 1. simpl. apply fold_msb. Qed.

Lemma msb_val_range l : 0 <= msb_val l < 2 ^ Z.of_nat (length l).
Proof.
  induction l as [|b l IH]; [done|]. rewrite msb_val_cons. simpl.
  rewrite Nat2Z.inj_succ, Z.pow_succ_r by lia. destruct b; simpl; lia.
Qed.

Lemma lor_c_bool x b : Z.lor (u64 (Z.shiftl x 1)) (c_bool b) = u64 (2 * x + c_bool b).
Proof.
  rewrite Z.shiftl_mul_pow2 by lia. change (2 ^ 1) with 2.
  apply Z.bits_inj'. intros i Hi. rewrite Z.lor_spec, !uwrap_testbit by lia.
  destruct (Z.eq_dec i 0) as [->|Hne].
  - change (0 <? 64) with true. cbn [andb].
    rewrite (Z.mul_comm x 2), Z.testbit_even_0. cbn [orb].
    by destruct b; cbn [c_bool]; rewrite ?Z.testbit_odd_0, ?Z.add_0_r, ?Z.testbit_even_0.
  - replace i with (Z.succ (i - 1)) by lia.
    replace (Z.testbit (c_bool b) (Z.succ (i - 1))) with false.
    2: { symmetry. apply (testbit_small _ 1); destruct b; simpl; change (2 ^ 1) with 2; lia. }
    rewrite orb_false_r, (Z.mul_comm x 2). f_equal.
    destruct b; cbn [c_bool]; [by rewrite Z.testbit_even_succ, Z.testbit_odd_succ by lia|].
    by rewrite Z.add_0_r.
Qed.

(** Reading [m] stored bits from within the loop of [hread]. *)
Lemma hread_loop hp body l :
  (forall i c hp, body i (c, hp) = let codebits := u64 (Z.shiftl c 1) in
    '(bit, hp) ← hgetbit hp;
    if bit <? 0 then Some (inr (codebits, i, hp)) else Some (inl (Z.lor codebits bit, hp))) ->
  hwf hp -> forall n p c i, stored hp p l ->
  for_ret (length l + n) i body (u64 c, hat hp p) =
  for_ret n (i + Z.of_nat (length l)) body
    (u64 (fold_left (fun v b => 2 * v + c_bool b) l c), hat hp (p + Z.of_nat (length l))).
Proof.
  intros Hb Hw n. induction l as [|b l IH]; intros p c i Hs; cbn [length].
  - by rewrite !Z.add_0_r.
  - change (S (length l) + n)%nat with (S (length l + n)). rewrite for_ret_S, Hb. cbv zeta.
    destruct (hgetbit_stored hp _ _ _ Hw Hs) as [-> Hs']. step.
    assert (E : (c_bool b <? 0) = false) by by destruct b. rewrite E. step.
    rewrite lor_c_bool.
    replace (u64 (2 * u64 c + c_bool b)) with (u64 (2 * c + c_bool b)).
    2: { unfold uwrap. rewrite <- (Z.add_mod_idemp_l (2 * c)), <- (Z.mul_mod_idemp_r 2 c) by done.
         by rewrite Z.add_mod_idemp_l by done. }
    rewrite IH by done. cbn [fold_left]. f_equal; [lia|]. f_equal. f_equal. lia.
Qed.

Lemma hread_eq hp p l :
  hwf hp -> stored hp p l -> Z.of_nat (length l) <= 64 ->
  hread (Z.of_nat (length l)) (hat hp p)
    = Some (msb_val l, Z.of_nat (length l), hat hp (p + Z.of_nat (length l))).
Proof.
  intros Hw Hs Hl. unfold hread. rewrite Nat2Z.id.
  rewrite <- (Nat.add_0_r (length l)) at 1.
  change (0, hat hp p) with (u64 0, hat hp p). rewrite (hread_loop hp _ l) by done.
  rewrite Z.max_r by lia. simpl. do 3 f_equal. fold (msb_val l).
  apply uwrap_small. pose proof (msb_val_range l).
  assert (2 ^ Z.of_nat (length l) <= 2 ^ 64) by (apply Z.pow_le_mono_r; lia). lia.
Qed.

(** A read that meets the end of the stream returns what is left, shifted once more. *)
Lemma hread_short hp p l n :
  hwf hp -> stored hp p l -> p + Z.of_nat (length l) = endpos hp ->
  Z.of_nat (length l) < n ->
  hread n (hat hp p) = Some (u64 (2 * msb_val l), Z.of_nat (length l), hat hp (endpos hp)).
Proof.
  intros Hw Hs He Hn. unfold hread.
  replace (Z.to_nat n) with (length l + S (Z.to_nat n - length l - 1))%nat by lia.
  change (0, hat hp p) with (u64 0, hat hp p). rewrite (hread_loop hp _ l) by done.
  rewrite for_ret_S, He, hgetbit_eof by done. step. change (-1 <? 0) with true. cbv iota. do 2 step. fold (msb_val l).
  rewrite Z.shiftl_mul_pow2 by lia. unfold uwrap. rewrite Z.mul_mod_idemp_l by done.
  do 3 f_equal. f_equal. lia.
Qed.

Lemma bit_le_bytes n x i :
  0 <= i -> bit (le_bytes n x) i = (i <? 8 * Z.of_nat n) && Z.testbit x i.
Proof.
  intros. unfold bit. rewrite <- le_val_testbit, le_val_bytes by (done || apply le_bytes_bytes).
  apply (uwrap_testbit (8 * Z.of_nat n)); lia.
Qed.

Lemma huff_reversebits_eq x n :
  0 <= n <= 64 ->
  exists r, huff_reversebits x n = Some r /\ 0 <= r < 2 ^ 64 /\
    forall i, 0 <= i -> Z.testbit r i = (i <? n) && Z.testbit x (n - 1 - i).
Proof.
  intros Hn. unfold huff_reversebits.
  edestruct (for_loopM_inv (fun k rev => bytes rev /\ length rev = 8%nat /\
      forall i, 0 <= i -> bit rev i = (i <? k) && Z.testbit x (n - 1 - i)) (Z.to_nat n) 0)
    as (rev & Hrun & Hb & Hl & Hr); [| |rewrite Hrun; step; eexists; split; [done|]].
  - intros k rev Hk (Hb & Hl & Hr). rewrite Z2Nat.id in Hk by lia.
    destruct (GETBIT_truth (le_bytes 8 x) (n - k - 1)) as (g & -> & Hg & _).
    { rewrite le_bytes_length. lia. }
    step. rewrite Hg, bit_le_bytes by lia.
    replace (n - k - 1 <? 8 * Z.of_nat 8) with true by (symmetry; apply Z.ltb_lt; lia).
    cbn [andb]. replace (n - k - 1) with (n - 1 - k) by lia.
    destruct (Z.testbit x (n - 1 - k)) eqn:E.
    + rewrite SETBIT_eq by (done || lia). eexists. split; [done|]. split_and!.
      * by apply bit_upd_bytes; [lia|].
      * by rewrite bit_upd_length.
      * intros i Hi. rewrite bit_bit_upd, Hr by lia. destruct (Z.eqb_spec i k) as [->|].
        -- rewrite E. by destruct (Z.ltb_spec k (k + 1)); [|lia].
        -- f_equal. destruct (Z.ltb_spec i k), (Z.ltb_spec i (k + 1)); done || lia.
    + eexists. split; [done|]. split_and!; [done..|]. intros i Hi. rewrite Hr by done.
      destruct (Z.ltb_spec i k), (Z.ltb_spec i (k + 1)); try done; try lia.
      by replace i with k by lia; rewrite E.
  - split_and!; [apply le_bytes_bytes|apply le_bytes_length|]. intros i Hi.
    rewrite bit_le_bytes, Z.bits_0, andb_false_r by done. by destruct (Z.ltb_spec i 0); [lia|].
  - pose proof (le_val_range rev Hb) as Hrange. rewrite Hl in Hrange. split; [exact Hrange|].
    intros i Hi. rewrite le_val_testbit by done. change (bit rev i = (i <? n) && Z.testbit x (n - 1 - i)).
    rewrite Hr by done. by rewrite Z2Nat.id by lia.
Qed.

Lemma msb_val_testbit l i :
  0 <= i -> Z.testbit (msb_val l) i =
    match l !! Z.to_nat (Z.of_nat (length l) - 1 - i) with
    | Some b => (i <? Z.of_nat (length l)) && b
    | None => false
    end.
Proof.
  intros Hi. induction l as [|b l IH]; [by rewrite Z.bits_0|].
  rewrite msb_val_cons. cbn [length].
  pose proof (msb_val_range l) as Hr.
  assert (Hb : Z.testbit (c_bool b * 2 ^ Z.of_nat (length l) + msb_val l) i =
    if i =? Z.of_nat (length l) then b else Z.testbit (msb_val l) i).
  { rewrite Z.add_comm, <- lor_bit_range, Z.lor_spec by done.
    assert (Ht : Z.testbit (if b then 2 ^ Z.of_nat (length l) else 0) i = (i =? Z.of_nat (length l)) && b).
    { rewrite Z.eqb_sym. destruct b; rewrite ?Z.pow2_bits_eqb, ?Z.bits_0, ?andb_true_r, ?andb_false_r by lia; done. }
    rewrite Ht. destruct (Z.eqb_spec i (Z.of_nat (length l))) as [->|]; [|by rewrite orb_false_r].
    by rewrite (testbit_small (msb_val l) (Z.of_nat (length l))) by (done || lia). }
  rewrite Hb. destruct (Z.eqb_spec i (Z.of_nat (length l))) as [->|].
  - replace (Z.to_nat _) with 0%nat by lia. cbn.
    by destruct (Z.ltb_spec (Z.of_nat (length l)) (Z.of_nat (S (length l)))); [|lia].
  - rewrite IH. destruct (Z.lt_ge_cases i (Z.of_nat (length l))) as [Hlt|Hge].
    + replace (Z.to_nat (Z.of_nat (S (length l)) - 1 - i))
        with (S (Z.to_nat (Z.of_nat (length l) - 1 - i))) by lia. cbn.
      destruct (l !! _); [|done]. by destruct (Z.ltb_spec i (Z.of_nat (length l))), (Z.ltb_spec i (Z.of_nat (S (length l)))); try lia.
    + destruct (Z.ltb_spec i (Z.of_nat (length l))); [lia|].
      destruct (Z.ltb_spec i (Z.of_nat (S (length l)))); [lia|].
      by destruct (l !! _), ((b :: l) !! _).
Qed.

Lemma bits_of_get n x k : (k < n)%nat -> bits_of n x !! k = Some (Z.testbit x (Z.of_nat k)).
Proof.
  intros. destruct (bits_of n x !! k) as [b|] eqn:E.
  - by rewrite (bits_of_lookup _ _ _ _ E).
  - apply lookup_ge_None in E. rewrite bits_of_length in E. lia.
Qed.

(** The value read back from bits written lowest first is their mirror image. *)
Lemma msb_val_bits_of x n :
  0 <= n <= 64 -> huff_reversebits x n = Some (msb_val (bits_of (Z.to_nat n) x)).
Proof.
  intros Hn. destruct (huff_reversebits_eq x n Hn) as (r & -> & Hr & Ht). f_equal.
  apply Z.bits_inj'. intros i Hi. rewrite Ht, msb_val_testbit, bits_of_length, Z2Nat.id by lia.
  destruct (Z.ltb_spec i n).
  - rewrite bits_of_get by lia. cbn [andb]. f_equal. lia.
  - by destruct (bits_of _ _ !! _).
Qed.

(** ** Bit lengths and bit strings *)

Lemma hcalc_bitsize_loop x n :
  0 < x -> (n <= 64)%nat -> Z.log2 x < Z.of_nat n ->
  for_ret n (64 - Z.of_nat n) (fun k mask =>
    if truth (Z.land mask x) then Some (inr ((63 - k) + 1)) else Some (inl (Z.shiftr mask 1)))
    (2 ^ (Z.of_nat n - 1)) = Some (inr (Z.log2 x + 1)).
Proof.
  intros Hx. induction n as [|n IH]; intros Hn Hl; [pose proof (Z.log2_nonneg x); lia|].
  rewrite for_ret_S, Z.land_comm, truth_land_pow2 by lia.
  destruct (Z.eq_dec (Z.log2 x) (Z.of_nat n)) as [E|E].
  - replace (Z.of_nat (S n) - 1) with (Z.log2 x) by lia. rewrite Z.bit_log2 by lia. step.
    do 2 f_equal. lia.
  - rewrite Z.bits_above_log2 by lia. step. rewrite <- IH by lia.
    rewrite Z.shiftr_div_pow2 by lia. f_equal; [lia|].
    pose proof (Z.log2_nonneg x).
    replace (Z.of_nat (S n) - 1) with (Z.of_nat n - 1 + 1) by lia.
    rewrite Z.pow_add_r by lia. apply Z.div_mul. lia.
Qed.

Lemma int_shl1_u64 i : 0 <= i < 31 -> exists m, int_shl1 i = Some m /\ u64 m = 2 ^ i.
Proof.
  intros H. unfold int_shl1.
  replace ((0 <=? i) && (i <? 32)) with true
    by (symmetry; apply andb_true_intro; split; [apply Z.leb_le|apply Z.ltb_lt]; lia).
  eexists. split; [done|].
  assert (0 < 2 ^ i <= 2 ^ 30) by (split; [lia|apply Z.pow_le_mono_r; lia]).
  change (2 ^ 30) with 1073741824 in *.
  rewrite swrap_small by (lia || change (2 ^ (32 - 1)) with 2147483648; lia).
  apply uwrap_small. change (2 ^ 64) with 18446744073709551616. lia.
Qed.

(** [huff_convstr] collects the characters other than ['0'], the first one in bit 0. *)
Lemma huff_convstr_eq str :
  (1 <= length str <= 31)%nat ->
  exists c, huff_convstr str = Some c /\ 0 <= c < 2 ^ Z.of_nat (length str) /\
    forall k, (k < length str)%nat -> Z.testbit c (Z.of_nat k) = negb (znth str (Z.of_nat k) =? 48).
Proof.
  intros Hl. unfold huff_convstr. set (n := Z.of_nat (length str)).
  destruct (int_shl1_u64 (n - 1)) as (m & -> & Hm); [lia|]. step. rewrite Hm.
  edestruct (for_loopM_inv (fun k '(c, mask) => (k < n -> mask = 2 ^ (n - 1 - k)) /\ 0 <= c /\
      forall i, 0 <= i -> Z.testbit c i = (n - k <=? i) && (i <? n) && negb (znth str i =? 48))
      (Z.to_nat n) 0)
    as ([c mask] & Hrun & _ & Hc & Ht); [| |rewrite Hrun; step; exists c; split_and!; try done].
  - intros k [c mask] Hk (Hmask & Hc & Ht). rewrite Hmask by lia.
    rewrite aget_znth by lia. step. eexists. split; [done|]. split_and!.
    + intros. rewrite Z.shiftr_div_pow2 by lia.
      replace (n - 1 - k) with (n - 1 - (k + 1) + 1) by lia.
      rewrite Z.pow_add_r by lia. apply Z.div_mul. lia.
    + destruct (negb _); [apply Z.lor_nonneg; lia|done].
    + intros i Hi. replace (Z.testbit (if negb (znth str (n - 1 - k) =? 48) then _ else c) i)
        with (Z.testbit c i || ((i =? n - 1 - k) && negb (znth str i =? 48))).
      * rewrite Ht by done. destruct (Z.eqb_spec i (n - 1 - k)) as [->|Hne]; cbn [andb].
        -- destruct (Z.leb_spec (n - k) (n - 1 - k)); [lia|].
           destruct (Z.leb_spec (n - (k + 1)) (n - 1 - k)); [|lia].
           by destruct (Z.ltb_spec (n - 1 - k) n); [|lia].
        -- rewrite orb_false_r. do 2 f_equal.
           destruct (Z.leb_spec (n - k) i), (Z.leb_spec (n - (k + 1)) i); done || lia.
      * destruct (Z.eqb_spec i (n - 1 - k)) as [->|Hne]; cbn [andb].
        -- destruct (negb _); [|by rewrite orb_false_r].
           rewrite Z.lor_spec, Z.pow2_bits_true by lia. done.
        -- rewrite orb_false_r. destruct (negb _); [|done].
           rewrite Z.lor_spec, Z.pow2_bits_false, orb_false_r by lia. done.
  - split_and!; [intros; f_equal; lia|done|]. intros i Hi. rewrite Z.bits_0.
    by destruct (Z.leb_spec (n - 0) i), (Z.ltb_spec i n); try lia.
  - apply testbit_bound; [lia|done|]. intros i Hi. rewrite Ht by lia.
    destruct (Z.ltb_spec i n); [lia|]. by rewrite andb_false_r.
  - intros k Hk. rewrite Ht by lia.
    destruct (Z.leb_spec (n - (0 + Z.of_nat (Z.to_nat n))) (Z.of_nat k)); [|lia].
    by destruct (Z.ltb_spec (Z.of_nat k) n); [|lia].
Qed.

(** The character that stands for a bit. *)
Definition bit_char (b : bool) : Z := c_bool b + 48.

Lemma huff_str_eq c n :
  (n <= 64)%nat -> huff_str c (Z.of_nat n) = Some (map bit_char (bits_of n c)).
Proof.
  intros Hn. unfold huff_str. destruct (Z.ltb_spec (Z.of_nat n) 128); [|lia].
  rewrite Nat2Z.id. f_equal.
  match goal with |- context [for_loop n 0 ?b _] => set (body := b) end.
  assert (H' : for_loop n 0 body ([], 1) = (map bit_char (bits_of n c), u64 (2 ^ Z.of_nat n)));
    [|by rewrite H'].
  induction n as [|n IH]; [done|]. rewrite for_loop_snoc, IH by lia. unfold body.
  rewrite uwrap_small by (split; [lia|apply Z.pow_lt_mono_r; lia]).
  rewrite truth_land_pow2, Z.shiftl_mul_pow2 by lia. cbn [bits_of]. rewrite map_app.
  f_equal. unfold uwrap. f_equal. rewrite <- Z.pow_add_r by lia. f_equal. lia.
Qed.

(** ** Byte copies *)

(** [hp] with the bytes [s] copied to the byte at the cursor. *)
Definition hput_bytes (hp : HUFF) (s : list Z) : HUFF :=
  let p := Z.to_nat (ptr hp) in
  let q := bitoffset hp + 8 * Z.of_nat (length s) in
  mkHUFF (take p (buf hp) ++ s ++ drop (p + length s) (buf hp)) (ptr hp + Z.of_nat (length s)) q
    (maski hp) (Z.max (endpos hp) q) (allocsize hp) (allocated hp).

Lemma hput_bytes_wf hp s :
  hwf hp -> bytes s -> bitoffset hp mod 8 = 0 ->
  bitoffset hp / 8 + Z.of_nat (length s) <= allocsize hp -> hwf (hput_bytes hp s).
Proof.
  intros (Hp & Hm & Hb & Hl & Ho & He & Ha) Hs Hal Hfit. unfold hwf, hput_bytes.
  cbn [buf ptr bitoffset maski endpos allocsize]. split_and!; try lia; try dmlia.
  - rewrite !Forall_app. split_and!; [by apply Forall_take|done|by apply Forall_drop].
  - rewrite !length_app, length_take, length_drop. dmlia.
Qed.

Lemma hmemcpy_fits hp n :
  hwf hp -> bitoffset hp mod 8 = 0 -> 0 <= n -> bitoffset hp / 8 + n <= allocsize hp ->
  truth (Z.land (bitoffset hp) 7) || (allocsize hp <? u32 (Z.shiftr (bitoffset hp) 3 + n)) = false.
Proof.
  intros (Hp & Hm & Hb & Hl & Ho & He & Ha) Hal Hn Hfit.
  rewrite land7, Hal, shiftr3, u32_small by dmlia. change (truth 0) with false. simpl.
  apply Z.ltb_ge. lia.
Qed.

Lemma hmemcpy_put hp s :
  hwf hp -> bitoffset hp mod 8 = 0 ->
  bitoffset hp / 8 + Z.of_nat (length s) <= allocsize hp ->
  hmemcpy None (Some s) hp (Z.of_nat (length s)) = Some (Z.of_nat (length s), None, hput_bytes hp s).
Proof.
  intros Hw Hal Hfit. unfold hmemcpy. rewrite hmemcpy_fits by (done || lia). cbv zeta.
  destruct Hw as (Hp & Hm & Hb & Hl & Ho & He & Ha).
  replace (_ && _ && _ && _) with true.
  2: { symmetry. rewrite !andb_true_iff, !Z.leb_le. dmlia. }
  unfold hput_bytes. rewrite Nat2Z.id, (take_ge s) by lia. do 2 f_equal.
  rewrite Z.shiftl_mul_pow2, u32_small by (lia || change (2 ^ 3) with 8; dmlia).
  change (2 ^ 3) with 8. rewrite (Z.mul_comm _ 8). f_equal. zcase; lia.
Qed.

Lemma hmemcpy_get hp d n :
  hwf hp -> bitoffset hp mod 8 = 0 -> 0 <= n <= Z.of_nat (length d) ->
  bitoffset hp + 8 * n <= endpos hp ->
  hmemcpy (Some d) None hp n = Some (n,
    Some (take (Z.to_nat n) (drop (Z.to_nat (bitoffset hp / 8)) (buf hp)) ++ drop (Z.to_nat n) d),
    hat hp (bitoffset hp + 8 * n)).
Proof.
  intros Hw Hal Hn Hfit. assert (Hw' := Hw).
  destruct Hw as (Hp & Hm & Hb & Hl & Ho & He & Ha). unfold hmemcpy.
  rewrite hmemcpy_fits by first [done | lia | dmlia]. cbv zeta.
  replace (_ && _ && _ && _) with true.
  2: { symmetry. rewrite !andb_true_iff, !Z.leb_le. dmlia. }
  rewrite Z.shiftl_mul_pow2, u32_small by (lia || change (2 ^ 3) with 8; dmlia).
  change (2 ^ 3) with 8. rewrite Hp. unfold hat. do 2 f_equal. rewrite (Z.mul_comm n 8).
  f_equal; [dmlia|dmlia|]. zcase; lia.
Qed.

(** ** Mixed streams: any sequence of items, each written with one of the codes *)

Inductive kind := KBits (n : nat) | KSmall | KVar | KSvar | KValue.

Definition emit_item (hp : HUFF) (k : kind) (x : Z) : option (Z * HUFF) :=
  match k with
  | KBits n => hemit_bits hp x (Z.of_nat n)
  | KSmall => hemit_smallbits hp x
  | KVar => hemit_varbits hp x
  | KSvar => hemit_svarbits hp x
  | KValue => hemit_valuebits hp x
  end.

Definition decode_item (hp : HUFF) (k : kind) : option (Z * Z * HUFF) :=
  match k with
  | KBits n => hdecode_bits hp (Z.of_nat n)
  | KSmall => hdecode_smallbits hp
  | KVar => hdecode_varbits hp
  | KSvar => hdecode_svarbits hp
  | KValue => hdecode_valuebits hp
  end.

Fixpoint emit_items (hp : HUFF) (l : list (kind * Z)) : option (Z * HUFF) :=
  match l with
  | [] => Some (0, hp)
  | (k, x) :: l =>
      '(n, hp) ← emit_item hp k x; '(m, hp) ← emit_items hp l; Some (n + m, hp)
  end.

Fixpoint decode_items (hp : HUFF) (l : list kind) : option (Z * list Z * HUFF) :=
  match l with
  | [] => Some (0, [], hp)
  | k :: l =>
      '(n, x, hp) ← decode_item hp k; '(m, xs, hp) ← decode_items hp l; Some (n + m, x :: xs, hp)
  end.

Definition item_ok (i : kind * Z) : Prop :=
  match i.1 with
  | KBits n => (n <= 32)%nat /\ 0 <= i.2 < 2 ^ Z.of_nat n
  | KSmall => 0 <= i.2 < 2 ^ 16
  | KVar | KSvar => 0 <= i.2 < 2 ^ 32
  | KValue => 0 <= i.2 < 2 ^ 64
  end.

Definition item_code (i : kind * Z) : list bool :=
  match i.1 with
  | KBits n => bits_of n i.2
  | KSmall => small_code i.2
  | KVar => var_code i.2
  | KSvar => svar_code i.2
  | KValue => value_code i.2
  end.

Definition item_count (i : kind * Z) : Z :=
  Z.of_nat (length (item_code i)) - match i.1 with KSvar => 1 | _ => 0 end.

Lemma emit_item_eq hp k x :
  hwf hp -> item_ok (k, x) -> room hp (length (item_code (k, x))) ->
  emit_item hp k x = Some (item_count (k, x), hputs hp (item_code (k, x))).
Proof.
  intros Hw Hx Hr. destruct k; cbn in *; unfold item_count; cbn [fst snd item_code];
    rewrite ?Z.sub_0_r.
  - destruct Hx. rewrite bits_of_length in *. by apply hemit_bits_eq.
  - by apply (codec_emit (BitCodec := small_codec)).
  - by apply (codec_emit (BitCodec := var_codec)).
  - by apply (codec_emit (BitCodec := svar_codec)).
  - by apply (codec_emit (BitCodec := value_codec)).
Qed.

Lemma decode_item_eq hp p k x :
  hwf hp -> item_ok (k, x) -> stored hp p (item_code (k, x)) ->
  decode_item (hat hp p) k =
    Some (item_count (k, x), x, hat hp (p + Z.of_nat (length (item_code (k, x))))).
Proof.
  intros Hw Hx Hs. destruct k; cbn in *; unfold item_count; cbn [fst snd item_code];
    rewrite ?Z.sub_0_r.
  - destruct Hx. rewrite (hdecode_bits_eq _ _ x), bits_of_length, Z.mod_small by done. done.
  - by apply (codec_decode (BitCodec := small_codec)).
  - by apply (codec_decode (BitCodec := var_codec)).
  - by apply (codec_decode (BitCodec := svar_codec)).
  - by apply (codec_decode (BitCodec := value_codec)).
Qed.

Definition items_code (l : list (kind * Z)) : list bool := concat (map item_code l).
Definition items_count (l : list (kind * Z)) : Z := foldr (fun i n => item_count i + n) 0 l.

Lemma emit_items_eq l : forall hp,
  hwf hp -> Forall item_ok l -> room hp (length (items_code l)) ->
  emit_items hp l = Some (items_count l, hputs hp (items_code l)).
Proof.
  induction l as [|[k x] l IH]; intros hp Hw Hl Hr; [done|]. inversion Hl; subst.
  cbn [emit_items]. unfold items_code in *. cbn [map concat] in *. rewrite length_app in Hr.
  destruct (room_app hp _ _ Hw Hr (item_code (k, x)) eq_refl) as [Hw' Hr'].
  rewrite emit_item_eq by first [done | eapply room_le; [|done]; lia]. step.
  rewrite IH by done. step. by rewrite hputs_app.
Qed.

Lemma decode_items_eq l hp : forall p,
  hwf hp -> Forall item_ok l -> stored hp p (items_code l) ->
  decode_items (hat hp p) (map fst l)
    = Some (items_count l, map snd l, hat hp (p + Z.of_nat (length (items_code l)))).
Proof.
  induction l as [|[k x] l IH]; intros p Hw Hl Hs.
  - unfold items_code. simpl. by rewrite Z.add_0_r.
  - inversion Hl; subst. unfold items_code in *. cbn [map concat decode_items] in *.
    apply stored_app in Hs as [Hs1 Hs2].
    rewrite (decode_item_eq _ _ _ x) by done. step. rewrite IH by done. step.
    by rewrite length_app, Nat2Z.inj_add, Z.add_assoc.
Qed.

(** ** Properties *)

(** An empty stream over [n] zero bytes, in a struct that was cleared beforehand. *)
Definition fresh (n : nat) : HUFF :=
  _init_HUFF (mkHUFF [] 0 0 0 0 0 0) (Z.of_nat n) (replicate n 0).

Lemma fresh_wf n : Z.of_nat n < 1000000 -> hwf (fresh n).
Proof.
  intros Hn. unfold hwf, fresh, _init_HUFF. cbn [buf ptr bitoffset maski endpos allocsize].
  rewrite uwrap_small by (split; [lia|]; change (2 ^ 31) with 2147483648; lia).
  split_and!; try done; try lia.
  - by apply bytes_replicate.
  - by rewrite length_replicate.
Qed.

(** [C4] Any sequence of numbers, each written with one of the five codes, is read back
    unchanged: writing it succeeds and keeps the stream well formed, seeking back and
    decoding with the same codes yields the same numbers and the same bit count, and the
    decoder stops exactly where the encoder did. *)
Theorem stream_items_roundtrip hp l :
  hwf hp -> Forall item_ok l -> room hp (length (items_code l)) ->
  exists n hp', emit_items hp l = Some (n, hp') /\ hwf hp' /\
    hseek hp' (bitoffset hp) SEEK_SET = (0, hat hp' (bitoffset hp)) /\
    decode_items (hat hp' (bitoffset hp)) (map fst l) = Some (n, map snd l, hp').
Proof.
  intros Hw Hl Hr. pose proof (hputs_spec hp _ Hw Hr) as (Hw' & Hb & Ha & He & _).
  pose proof Hw as (_ & _ & _ & _ & Ho & _).
  do 2 eexists. split; [by apply emit_items_eq|]. split_and!; [done| |].
  - apply hseek_set; [done|]. rewrite He. lia.
  - rewrite decode_items_eq by (done || by apply stored_hputs). by rewrite <- Hb, hat_self.
Qed.

Lemma stream_items_roundtrip_witness :
  exists n hp', emit_items (fresh 40)
      [(KSmall, 3); (KSmall, 4095); (KVar, 70000); (KSvar, 70000); (KBits 7, 99); (KValue, 2 ^ 63)]
    = Some (n, hp') /\ hwf hp' /\ hseek hp' 0 SEEK_SET = (0, hat hp' 0) /\
    decode_items (hat hp' 0) [KSmall; KSmall; KVar; KSvar; KBits 7; KValue]
    = Some (n, [3; 4095; 70000; 70000; 99; 2 ^ 63], hp').
Proof.
  apply (stream_items_roundtrip (fresh 40)
    [(KSmall, 3); (KSmall, 4095); (KVar, 70000); (KSvar, 70000); (KBits 7, 99); (KValue, 2 ^ 63)]).
  - by apply fresh_wf.
  - repeat constructor; simpl; lia.
  - done.
Defined.

(** The sizes of the codes: [hemit_smallbits] writes as many bits as
    [hcalc_smallsize] announces and returns that number, [hemit_varbits] and
    [hemit_valuebits] return the number of bits they write, at most 36 and 72, and
    [hemit_svarbits] returns one less than it writes: the flag bit is not counted. *)
Theorem hemit_sizes hp x :
  hwf hp -> room hp 72 -> 0 <= x < 2 ^ 64 ->
  (x < 2 ^ 16 -> exists hp', hemit_smallbits hp x = Some (hcalc_smallsize x, hp') /\ hwf hp' /\
     bitoffset hp' = bitoffset hp + hcalc_smallsize x) /\
  (x < 2 ^ 32 -> exists n hp', hemit_varbits hp x = Some (n, hp') /\ hwf hp' /\
     bitoffset hp' = bitoffset hp + n /\ 4 <= n <= 36) /\
  (x < 2 ^ 32 -> exists n hp', hemit_svarbits hp x = Some (n, hp') /\ hwf hp' /\
     bitoffset hp' = bitoffset hp + n + 1 /\ 3 <= n <= 36) /\
  (exists n hp', hemit_valuebits hp x = Some (n, hp') /\ hwf hp' /\
     bitoffset hp' = bitoffset hp + n /\ 8 <= n <= 72).
Proof.
  intros Hw Hr Hx.
  assert (Hsmall : forall y, 0 <= y -> Z.of_nat (length (small_code y)) = hcalc_smallsize y /\
                             3 <= Z.of_nat (length (small_code y)) <= 19).
  { intros y Hy. unfold small_code, hcalc_smallsize. code_cases; by code_len. }
  assert (Hvar : forall y, 4 <= Z.of_nat (length (var_code y)) <= 36).
  { intros y. unfold var_code. code_cases; code_len; lia. }
  assert (Hput : forall l, (length l <= 72)%nat -> room hp (length l) /\ hwf (hputs hp l) /\
                           bitoffset (hputs hp l) = bitoffset hp + Z.of_nat (length l)).
  { intros l Hl. assert (room hp (length l)) by (by eapply room_le).
    destruct (hputs_spec hp l) as (? & ? & _); done. }
  split_and!.
  - intros Hs. destruct (Hsmall x) as [Hn ?]; [lia|]. destruct (Hput (small_code x)) as (? & ? & ?); [lia|].
    rewrite emit_small, Hn by (done || lia). eexists. rewrite <- Hn. done.
  - intros Hs. pose proof (Hvar x). destruct (Hput (var_code x)) as (? & ? & ?); [lia|].
    rewrite emit_var by (done || lia). eauto 10.
  - intros Hs. assert (4 <= Z.of_nat (length (svar_code x)) <= 37).
    { unfold svar_code. destruct (x <? 2 ^ 16); cbn [length]; [destruct (Hsmall x)|pose proof (Hvar x)]; lia. }
    destruct (Hput (svar_code x)) as (? & ? & ?); [lia|].
    rewrite emit_svar by (done || lia). do 2 eexists. split; [done|]. unfold svar_count. split_and!; try done; lia.
  - assert (Hlen : Z.of_nat (length (value_code x)) =
      Z.of_nat (length (var_code (x mod 2 ^ 32))) + Z.of_nat (length (var_code (x / 2 ^ 32))))
      by (unfold value_code; rewrite length_app; lia).
    pose proof (Hvar (x mod 2 ^ 32)). pose proof (Hvar (x / 2 ^ 32)).
    destruct (Hput (value_code x)) as (? & ? & ?); [lia|].
    rewrite emit_value by done. do 2 eexists. split; [done|]. split_and!; try done; lia.
Qed.


Lemma hemit_sizes_witness :
  (300 < 2 ^ 16 -> exists hp', hemit_smallbits (fresh 10) 300 = Some (hcalc_smallsize 300, hp') /\
     hwf hp' /\ bitoffset hp' = bitoffset (fresh 10) + hcalc_smallsize 300) /\
  (300 < 2 ^ 32 -> exists n hp', hemit_varbits (fresh 10) 300 = Some (n, hp') /\ hwf hp' /\
     bitoffset hp' = bitoffset (fresh 10) + n /\ 4 <= n <= 36) /\
  (300 < 2 ^ 32 -> exists n hp', hemit_svarbits (fresh 10) 300 = Some (n, hp') /\ hwf hp' /\
     bitoffset hp' = bitoffset (fresh 10) + n + 1 /\ 3 <= n <= 36) /\
  (exists n hp', hemit_valuebits (fresh 10) 300 = Some (n, hp') /\ hwf hp' /\
     bitoffset hp' = bitoffset (fresh 10) + n /\ 8 <= n <= 72).
Proof. apply (hemit_sizes (fresh 10) 300); [by apply fresh_wf|done|lia]. Defined.

(** [hputbit] on every branch.  Before the last bit of the buffer it stores the bit,
    touches no other bit and advances; on the last bit it still stores the bit but
    reports an error and stays, so that a buffer of [n] bytes takes [8 * n - 1] bits.
    The stream stays well formed either way, and [hgetbit] reads the bit back. *)
Theorem hputbit_spec hp b :
  hwf hp -> bitoffset hp < 8 * allocsize hp ->
  exists e hp', hputbit hp b = Some (e, hp') /\ hwf hp' /\
    e = (if bitoffset hp + 1 <? 8 * allocsize hp then 0 else -1) /\
    bitoffset hp' = (if e =? 0 then bitoffset hp + 1 else bitoffset hp) /\
    endpos hp' = Z.max (endpos hp) (bitoffset hp + 1) /\
    (forall i, 0 <= i -> hbit hp' i = if i =? bitoffset hp then truth b else hbit hp i) /\
    hgetbit (hat hp' (bitoffset hp)) = Some (c_bool (truth b), hat hp' (bitoffset hp + 1)).
Proof.
  intros Hw Hr. pose proof Hw as (Hp & Hm & Hb & Hl & Ho & He & Ha).
  assert (Hg : forall hp', hwf hp' -> endpos hp' = Z.max (endpos hp) (bitoffset hp + 1) ->
    (forall i, 0 <= i -> hbit hp' i = if i =? bitoffset hp then truth b else hbit hp i) ->
    hgetbit (hat hp' (bitoffset hp)) = Some (c_bool (truth b), hat hp' (bitoffset hp + 1))).
  { intros hp' Hw' He' Hi. rewrite hgetbit_eq; [|apply hat_wf; [done|lia]|simpl; lia].
    change (hbit (hat hp' (bitoffset hp)) ?i) with (hbit hp' i). cbn [bitoffset hat].
    by rewrite Hi, Z.eqb_refl by lia. }
  assert (Hi : forall i, 0 <= i -> bit (bit_upd (buf hp) (bitoffset hp) (truth b)) i =
                  if i =? bitoffset hp then truth b else hbit hp i).
  { intros i Hi. unfold hbit. apply bit_bit_upd; lia. }
  destruct (Z.ltb_spec (bitoffset hp + 1) (8 * allocsize hp)) as [Hlt|Hge].
  - rewrite hputbit_eq by (done || unfold room; lia). do 2 eexists. split; [done|].
    assert (hwf (hput1 hp (truth b))) by (apply hput1_wf; done || unfold room; lia).
    split_and!; try done. by apply Hg.
  - rewrite hputbit_last by (done || lia). do 2 eexists. split; [done|].
    match goal with |- hwf ?h /\ _ => assert (hwf h) end.
    { stream; simpl; try done; try lia. by apply bit_upd_bytes; [lia|]. }
    split_and!; try done; [simpl; lia|]. apply Hg; [done|simpl; lia|done].
Qed.

Lemma hputbit_spec_witness :
  exists e hp', hputbit (fresh 1) 1 = Some (e, hp') /\ hwf hp' /\
    e = (if 0 + 1 <? 8 * 1 then 0 else -1) /\
    bitoffset hp' = (if e =? 0 then 0 + 1 else 0) /\
    endpos hp' = Z.max 0 (0 + 1) /\
    (forall i, 0 <= i -> hbit hp' i = if i =? 0 then truth 1 else hbit (fresh 1) i) /\
    hgetbit (hat hp' 0) = Some (c_bool (truth 1), hat hp' (0 + 1)).
Proof. apply (hputbit_spec (fresh 1) 1); [by apply fresh_wf|done]. Defined.

(** [hwrite] emits the low bit first and [hread] puts the first bit it reads at the
    top, so a value written with one and read with the other comes back mirrored, as
    [huff_reversebits] computes it; mirroring is an involution. *)
Theorem hwrite_hread_mirror hp x n :
  hwf hp -> 0 <= n <= 64 -> 0 <= x < 2 ^ n -> bitoffset hp + n < 8 * allocsize hp ->
  exists hp' r, hwrite x n hp = Some (n, hp') /\ hwf hp' /\
    hread n (hat hp' (bitoffset hp)) = Some (r, n, hp') /\
    huff_reversebits x n = Some r /\ huff_reversebits r n = Some x /\
    (forall i, 0 <= i < n -> Z.testbit r i = Z.testbit x (n - 1 - i)).
Proof.
  intros Hw Hn Hx Hr. set (k := Z.to_nat n). assert (Hk : n = Z.of_nat k) by lia.
  assert (Hroom : room hp k) by (unfold room; lia).
  assert (Hroom' : room hp (length (bits_of k x))) by by rewrite bits_of_length.
  pose proof (hputs_spec hp _ Hw Hroom') as (Hw' & Hb & Ha & He & _). rewrite bits_of_length in Hb.
  destruct (huff_reversebits_eq x n Hn) as (r & Hrev & Hrr & Ht).
  destruct (huff_reversebits_eq r n Hn) as (x' & Hrev' & Hxx & Ht').
  exists (hputs hp (bits_of k x)), r. split_and!; [|done| |done| |].
  - rewrite Hk. by apply hwrite_eq.
  - rewrite (msb_val_bits_of x n Hn) in Hrev. fold k in Hrev. injection Hrev as <-.
    pose proof (hread_eq (hputs hp (bits_of k x)) (bitoffset hp) (bits_of k x) Hw'
      (stored_hputs _ _ Hw Hroom')) as Hread.
    rewrite bits_of_length in Hread. rewrite Hk, Hread by lia. by rewrite <- Hb, hat_self.
  - rewrite Hrev'. f_equal. apply Z.bits_inj'. intros i Hi. rewrite Ht' by done.
    destruct (Z.ltb_spec i n); cbn [andb].
    + rewrite Ht by lia. destruct (Z.ltb_spec (n - 1 - i) n); [|lia]. cbn [andb]. f_equal. lia.
    + symmetry. by apply (testbit_small x n).
  - intros i Hi. rewrite Ht by lia. by destruct (Z.ltb_spec i n); [|lia].
Qed.

Lemma hwrite_hread_mirror_witness :
  exists hp' r, hwrite 0x1B5 9 (fresh 2) = Some (9, hp') /\ hwf hp' /\
    hread 9 (hat hp' 0) = Some (r, 9, hp') /\
    huff_reversebits 0x1B5 9 = Some r /\ huff_reversebits r 9 = Some 0x1B5 /\
    (forall i, 0 <= i < 9 -> Z.testbit r i = Z.testbit 0x1B5 (9 - 1 - i)).
Proof. apply (hwrite_hread_mirror (fresh 2) 0x1B5 9); [by apply fresh_wf|done..]. Defined.

(** Byte copies at a byte boundary: [hmemcpy] into the stream followed by a seek back
    and [hmemcpy] out of it returns the same bytes, up to the very end of the buffer; off a
    boundary, or beyond the buffer, it reports an error and changes nothing. *)
Theorem hmemcpy_roundtrip hp s d :
  hwf hp -> bytes s -> length d = length s -> Z.of_nat (length s) < 2 ^ 28 ->
  let n := Z.of_nat (length s) in
  (bitoffset hp mod 8 = 0 -> bitoffset hp / 8 + n <= allocsize hp ->
   exists hp', hmemcpy None (Some s) hp n = Some (n, None, hp') /\ hwf hp' /\
     bitoffset hp' = bitoffset hp + 8 * n /\
     hmemcpy (Some d) None (hat hp' (bitoffset hp)) n = Some (n, Some s, hp')) /\
  (bitoffset hp mod 8 <> 0 \/ allocsize hp < bitoffset hp / 8 + n ->
   hmemcpy None (Some s) hp n = Some (-1, None, hp) /\
   hmemcpy (Some d) None hp n = Some (-1, Some d, hp)).
Proof.
  intros Hw Hs Hd Hlen n. split.
  - intros Hal Hfit. pose proof (hput_bytes_wf hp s Hw Hs Hal Hfit) as Hw'.
    pose proof Hw as (Hp & Hm & Hb & Hl & Ho & He & Ha).
    exists (hput_bytes hp s). split_and!; [by apply hmemcpy_put|done|done|].
    rewrite hmemcpy_get; [|apply hat_wf; [done|simpl; lia]|done|lia|simpl; lia].
    rewrite hat_hat. cbn [bitoffset hat]. do 2 f_equal.
    + f_equal. f_equal. unfold n. rewrite Nat2Z.id, <- Hp, (drop_ge d), app_nil_r by lia.
      cbn [buf hat hput_bytes]. rewrite drop_app_length' by (rewrite length_take; dmlia).
      by rewrite take_app_length.
    + change (bitoffset hp + 8 * n) with (bitoffset (hput_bytes hp s)). by apply hat_self.
  - intros Hbad. pose proof Hw as (Hp & Hm & Hb & Hl & Ho & He & Ha).
    unfold hmemcpy. rewrite land7, shiftr3, u32_small by (unfold n in *; dmlia).
    replace (_ || _) with true; [done|]. symmetry. apply orb_true_iff.
    destruct Hbad as [Hbad|Hbad]; [left|right; apply Z.ltb_lt; done].
    unfold truth. by destruct (Z.eqb_spec (bitoffset hp mod 8) 0).
Qed.

Lemma hmemcpy_roundtrip_witness :
  (bitoffset (fresh 3) mod 8 = 0 -> bitoffset (fresh 3) / 8 + 3 <= allocsize (fresh 3) ->
   exists hp', hmemcpy None (Some [7; 8; 9]) (fresh 3) 3 = Some (3, None, hp') /\ hwf hp' /\
     bitoffset hp' = bitoffset (fresh 3) + 8 * 3 /\
     hmemcpy (Some [0; 0; 0]) None (hat hp' (bitoffset (fresh 3))) 3 = Some (3, Some [7; 8; 9], hp')) /\
  (bitoffset (fresh 3) mod 8 <> 0 \/ allocsize (fresh 3) < bitoffset (fresh 3) / 8 + 3 ->
   hmemcpy None (Some [7; 8; 9]) (fresh 3) 3 = Some (-1, None, fresh 3) /\
   hmemcpy (Some [0; 0; 0]) None (fresh 3) 3 = Some (-1, Some [0; 0; 0], fresh 3)).
Proof.
  apply (hmemcpy_roundtrip (fresh 3) [7; 8; 9] [0; 0; 0]); [by apply fresh_wf|repeat constructor; lia|done..].
Defined.

(** Codes and their bit strings: printing an [n]-bit code and parsing the string
    gives the code back, and parsing a string of ['0'] and ['1'] and printing the result
    gives the string back, for up to 31 characters. *)
Theorem huff_str_roundtrip n c l :
  (1 <= n <= 31)%nat -> 0 <= c < 2 ^ Z.of_nat n -> length l = n ->
  (exists s, huff_str c (Z.of_nat n) = Some s /\ huff_convstr s = Some c) /\
  (exists c', huff_convstr (map bit_char l) = Some c' /\
     huff_str c' (Z.of_nat n) = Some (map bit_char l)).
Proof.
  intros Hn Hc Hl.
  assert (Hchar : forall (l : list bool) k b, l !! k = Some b ->
            negb (znth (map bit_char l) (Z.of_nat k) =? 48) = b).
  { intros l0 k b Hk. unfold znth, aget. destruct (Z.leb_spec 0 (Z.of_nat k)); [|lia].
    rewrite Nat2Z.id, list_lookup_fmap, Hk. by destruct b. }
  split.
  - rewrite huff_str_eq by lia. eexists. split; [done|].
    destruct (huff_convstr_eq (map bit_char (bits_of n c))) as (c' & -> & Hc' & Ht);
      rewrite ?length_map, bits_of_length in *; [done|].
    f_equal. apply Z.bits_inj'. intros i Hi. destruct (Z.lt_ge_cases i (Z.of_nat n)).
    + rewrite <- (Z2Nat.id i) by lia. rewrite Ht by lia.
      rewrite (Hchar _ _ _ (bits_of_get n c (Z.to_nat i) ltac:(lia))). done.
    + by rewrite !(testbit_small _ (Z.of_nat n)).
  - destruct (huff_convstr_eq (map bit_char l)) as (c' & E & Hc' & Ht);
      [by rewrite length_map, Hl|]. rewrite length_map, Hl in Ht.
    exists c'. split; [done|]. rewrite huff_str_eq by lia. f_equal. f_equal.
    apply list_eq_same_length with n; rewrite ?bits_of_length; [done..|].
    intros k x y Hk Hx Hy. rewrite bits_of_get in Hx by done. injection Hx as <-.
    rewrite Ht by done. by apply Hchar.
Qed.

Lemma huff_str_roundtrip_witness :
  (exists s, huff_str 11 4 = Some s /\ huff_convstr s = Some 11) /\
  (exists c', huff_convstr (map bit_char [true; false; false; true]) = Some c' /\
     huff_str c' 4 = Some (map bit_char [true; false; false; true])).
Proof. apply (huff_str_roundtrip 4 11 [true; false; false; true]); (done || lia). Defined.

(** [hcalc_bitsize] is the number of bits of the binary notation of a 64-bit
    number: the least [n > 0] such that the number is below [2 ^ n]. *)
Theorem hcalc_bitsize_least x :
  0 <= x < 2 ^ 64 ->
  1 <= hcalc_bitsize x <= 64 /\ x < 2 ^ hcalc_bitsize x /\
  forall n, 0 < n -> x < 2 ^ n -> hcalc_bitsize x <= n.
Proof.
  intros Hx. unfold hcalc_bitsize. destruct (Z.eqb_spec x 0) as [->|Hne]; [split_and!; done || lia|].
  assert (Hl : Z.log2 x < 64) by (apply Z.log2_lt_pow2; lia).
  change (2 ^ 63) with (2 ^ (Z.of_nat 64 - 1)). change (for_ret 64 0) with (for_ret (S := Z) (R := Z) 64 (64 - Z.of_nat 64)).
  rewrite hcalc_bitsize_loop by (done || lia).
  pose proof (Z.log2_nonneg x). pose proof (Z.log2_spec x ltac:(lia)) as [Hlo Hhi]. split_and!; try lia.
  intros n Hn Hxn. apply Z.log2_lt_pow2 in Hxn; lia.
Qed.

Lemma hcalc_bitsize_least_witness :
  1 <= hcalc_bitsize 1000 <= 64 /\ 1000 < 2 ^ hcalc_bitsize 1000 /\
  forall n, 0 < n -> 1000 < 2 ^ n -> hcalc_bitsize 1000 <= n.
Proof. apply (hcalc_bitsize_least 1000). lia. Defined.

(** [hemit_longbits] shifts the [int] 1 by up to 63: undefined behaviour on every call. *)
Lemma hemit_longbits_undefined hp val :
  hwf hp -> room hp 64 -> hemit_longbits hp val = None.
Proof.
  intros Hw Hr. unfold hemit_longbits. change 64%nat with (32 + 32)%nat.
  match goal with |- context [for_loopM _ 0 ?b hp] => set (body := b) end.
  assert (H : forall n, (n <= 32)%nat -> exists hp', for_loopM n 0 body hp = Some hp').
  { intros n Hn.
    assert (H : exists hp', for_loopM n 0 body hp = Some hp' /\ hwf hp' /\ room hp' (64 - n)).
    { induction n as [|n IH]; [by exists hp|]. destruct IH as (hp' & Hrun & Hw' & Hr'); [lia|].
      rewrite for_loopM_snoc, Hrun. step. unfold body.
      destruct (int_shl1_eq (0 + Z.of_nat n)) as (m & -> & _); [lia|]. step.
      assert (room hp' 1) by (eapply room_le; [|done]; lia).
      rewrite hputbit_eq by done. step. eexists. split; [done|].
      split; [by apply hput1_wf|]. apply room_hput1. eapply room_le; [|exact Hr']. lia. }
    destruct H as (hp' & H & _). eauto. }
  destruct (H 32%nat (le_n _)) as (hp' & Hrun).
  rewrite for_loopM_app, Hrun. done.
Qed.
