(* ===== verification/Kraft.v ===== *)
(** * Code lengths: the inequality of Kraft and the greedy algorithm of Huffman

    The mathematics behind [huff_init], on lists of weights and lengths and apart from the
    code: joining the two smallest weights until one is left costs no more than any assignment
    of lengths that satisfies the inequality of Kraft, and the lengths of a prefix code
    satisfy it. *)
From Stdlib Require Import ZArith Lia.
From stdpp Require Import base list numbers option.
From S2P Require Import Prelude.
Open Scope Z_scope.

(** ** The inequality *)

Definition ksum (L : nat) (ls : list nat) : Z := foldr (fun l s => 2 ^ Z.of_nat (L - l) + s) 0 ls.
Definition kraft (ls : list nat) : Prop := exists L, Forall (fun l => l <= L)%nat ls /\ ksum L ls <= 2 ^ Z.of_nat L.

#[export] Instance ksum_perm L : Proper ((≡ₚ) ==> (=)) (ksum L).
Proof. intros ls ls'. induction 1; cbn [ksum foldr] in *; unfold ksum in *; lia. Qed.

Lemma ksum_app L l1 l2 : ksum L (l1 ++ l2) = ksum L l1 + ksum L l2.
Proof. induction l1 as [|l l1 IH]; [done|]. cbn [app ksum foldr] in *. unfold ksum in *. lia. Qed.

Lemma pow2_S n : 2 ^ Z.of_nat (S n) = 2 * 2 ^ Z.of_nat n.
Proof. rewrite Nat2Z.inj_succ, Z.pow_succ_r by lia. done. Qed.

Lemma ksum_S L ls : Forall (fun l => l <= L)%nat ls -> ksum (S L) ls = 2 * ksum L ls.
Proof.
  induction 1 as [|l ls Hl _ IH]; [done|]. cbn [ksum foldr] in *. unfold ksum in *.
  replace (S L - l)%nat with (S (L - l)) by lia. rewrite pow2_S, IH. lia.
Qed.

(** The bound [L] does not matter. *)
Lemma kraft_at ls L : kraft ls -> Forall (fun l => l <= L)%nat ls -> ksum L ls <= 2 ^ Z.of_nat L.
Proof.
  intros (L0 & H0 & HL0) HL.
  assert (Hup : forall k M, Forall (fun l => l <= M)%nat ls -> ksum (k + M) ls = 2 ^ Z.of_nat k * ksum M ls).
  { induction k as [|k IH]; intros M HM; [cbn [Nat.add]; lia|]. cbn [Nat.add]. rewrite ksum_S, IH, pow2_S by (done || (eapply list.Forall_impl; [exact HM|cbv beta; lia])). lia. }
  destruct (Nat.le_ge_cases L0 L) as [Hle|Hle].
  - replace L with ((L - L0) + L0)%nat by lia. rewrite Hup, Nat2Z.inj_add, Z.pow_add_r by (done || lia). nia.
  - replace L0 with ((L0 - L) + L)%nat in HL0 by lia. rewrite Hup, Nat2Z.inj_add, Z.pow_add_r in HL0 by (done || lia).
    assert (0 < 2 ^ Z.of_nat (L0 - L)) by lia. nia.
Qed.

Lemma kraft_perm ls ls' : ls ≡ₚ ls' -> kraft ls -> kraft ls'.
Proof. intros Hp (L & HL & Hk). exists L. by rewrite <- Hp. Qed.

(** ** Prefix codes *)

Definition prefix_free (cs : list (list bool)) : Prop :=
  forall i j x y, cs !! i = Some x -> cs !! j = Some y -> x `prefix_of` y -> i = j.

(** The codes that start with [b], without that bit. *)
Definition tails (b : bool) (cs : list (list bool)) : list (list bool) :=
  omap (fun c => match c with x :: c => if Bool.eqb x b then Some c else None | [] => None end) cs.

Lemma prefix_free_cons c cs :
  prefix_free (c :: cs) <-> prefix_free cs /\ Forall (fun d => ~ c `prefix_of` d /\ ~ d `prefix_of` c) cs.
Proof.
  split.
  - intros H. split.
    + intros i j x y Hi Hj Hp. specialize (H (S i) (S j) x y Hi Hj Hp). lia.
    + apply list.Forall_lookup. intros i d Hi. split; intros Hp; [specialize (H 0%nat (S i) c d eq_refl Hi Hp)|specialize (H (S i) 0%nat d c Hi eq_refl Hp)]; lia.
  - intros [Hf Hc] [|i] [|j] x y Hi Hj Hp; cbn in Hi, Hj.
    + done.
    + injection Hi as ->. apply (Forall_lookup_1 _ _ _ _ Hc) in Hj. tauto.
    + injection Hj as ->. apply (Forall_lookup_1 _ _ _ _ Hc) in Hi. tauto.
    + f_equal. by eapply Hf.
Qed.

Lemma tails_free b cs : prefix_free cs -> prefix_free (tails b cs).
Proof.
  induction cs as [|c cs IH]; intros H; [intros i j x y Hi; unfold tails in Hi; cbn [omap list_omap] in Hi; by rewrite lookup_nil in Hi|].
  apply prefix_free_cons in H as [Hf Hc]. specialize (IH Hf). unfold tails in *. cbn [omap list_omap].
  destruct c as [|x c]; [done|]. destruct (Bool.eqb x b) eqn:E; [|done]. apply Bool.eqb_prop in E as ->.
  apply prefix_free_cons. split; [done|]. clear IH Hf. induction Hc as [|d cs [H1 H2] _ IH]; cbn [omap list_omap]; [constructor|].
  destruct d as [|y d]; [done|]. destruct (Bool.eqb y b) eqn:E; [|done]. apply Bool.eqb_prop in E as ->.
  constructor; [|done]. split; intros Hp; [apply H1|apply H2]; by apply prefix_cons.
Qed.

Lemma ksum_tails L cs : [] ∉ cs ->
  ksum (S L) (map length cs) = ksum L (map length (tails false cs)) + ksum L (map length (tails true cs)).
Proof.
  induction cs as [|c cs IH]; intros Hn; [done|]. apply not_elem_of_cons in Hn as [Hc Hn]. specialize (IH Hn).
  unfold tails in *. destruct c as [|[] c]; [done|..]; cbn [omap list_omap map ksum foldr length Bool.eqb Nat.sub] in *; unfold ksum in *; lia.
Qed.

Lemma tails_length b cs L : Forall (fun c : list bool => length c <= S L)%nat cs -> Forall (fun c : list bool => length c <= L)%nat (tails b cs).
Proof.
  induction 1 as [|c cs Hc _ IH]; [constructor|]. unfold tails in *. cbn [omap list_omap].
  destruct c as [|x c]; [done|]. destruct (Bool.eqb x b); [|done]. constructor; [cbn in Hc; lia|done].
Qed.

Lemma prefix_free_kraft cs : prefix_free cs -> kraft (map length cs).
Proof.
  intros Hf. set (L := foldr (fun c n => Nat.max (length c) n) O cs).
  assert (HL : Forall (fun c : list bool => length c <= L)%nat cs).
  { subst L. clear. induction cs as [|c cs IH]; [constructor|]. cbn [foldr]. constructor; [lia|].
    eapply list.Forall_impl; [exact IH|cbv beta; lia]. }
  exists L. split; [by apply List.Forall_map|]. clearbody L. revert cs Hf HL. induction L as [|L IH]; intros cs Hf HL.
  - assert (Hall : Forall (fun c => c = []) cs) by (eapply list.Forall_impl; [exact HL|]; intros [|? ?]; cbn; [done|lia]).
    destruct cs as [|c [|d cs]]; [done|by rewrite (list.Forall_singleton _ _) in Hall; subst c|]. rewrite !list.Forall_cons in Hall. destruct Hall as (-> & -> & _).
    pose proof (Hf 0%nat 1%nat [] [] eq_refl eq_refl (prefix_nil _)). lia.
  - destruct (decide ([] ∈ cs)) as [Hin|Hnin].
    + apply list_elem_of_lookup in Hin as [i Hi]. destruct cs as [|c [|d cs]].
      * cbn. lia.
      * destruct i; [|done]. injection Hi as ->. unfold ksum. cbn [map foldr length]. rewrite Nat.sub_0_r. lia.
      * pose proof (Hf i 0%nat [] c Hi eq_refl (prefix_nil _)). pose proof (Hf i 1%nat [] d Hi eq_refl (prefix_nil _)). lia.
    + rewrite ksum_tails, pow2_S by done.
      pose proof (IH (tails false cs) (tails_free _ _ Hf) (tails_length _ _ _ HL)).
      pose proof (IH (tails true cs) (tails_free _ _ Hf) (tails_length _ _ _ HL)). lia.
Qed.

(** ** Weights with lengths *)

Definition cost (wl : list (Z * nat)) : Z := foldr (fun p s => p.1 * Z.of_nat p.2 + s) 0 wl.

#[export] Instance cost_perm : Proper ((≡ₚ) ==> (=)) cost.
Proof. intros l l'. induction 1; cbn [cost foldr] in *; unfold cost in *; lia. Qed.

Definition lengths (wl : list (Z * nat)) : list nat := map snd wl.
Definition wts (wl : list (Z * nat)) : list Z := map fst wl.

#[export] Instance lengths_perm : Proper ((≡ₚ) ==> (≡ₚ)) lengths.
Proof. intros l l' H. unfold lengths. by apply Permutation_map. Qed.
#[export] Instance wts_perm : Proper ((≡ₚ) ==> (≡ₚ)) wts.
Proof. intros l l' H. unfold wts. by apply Permutation_map. Qed.
#[export] Instance kraft_proper : Proper ((≡ₚ) ==> iff) kraft.
Proof. intros l l' H. split; apply kraft_perm; done. Qed.

(** [wl'] carries the same weights, satisfies the inequality and costs no more. *)
Definition better (wl wl' : list (Z * nat)) : Prop := wts wl' ≡ₚ wts wl /\ kraft (lengths wl') /\ cost wl' <= cost wl.

#[export] Instance better_trans : Transitive better.
Proof. intros a b c (H1 & H2 & H3) (H4 & H5 & H6). split_and!; [by rewrite H4|done|lia]. Qed.

(** The longest length can be taken to occur twice: alone it could be shorter. *)
Lemma two_longest wl : (2 <= length wl)%nat -> Forall (fun p => 0 <= p.1) wl -> kraft (lengths wl) ->
  exists x y L rest, better wl ((x, L) :: (y, L) :: rest) /\ Forall (fun p => p.2 <= L)%nat rest.
Proof.
  remember (sum_list_with snd wl) as n eqn:En. revert wl En. induction (lt_wf n) as [n _ IH]. intros wl -> H2 H0 Hk.
  assert (Hmax : exists x L rest, wl ≡ₚ (x, L) :: rest /\ Forall (fun p => p.2 <= L)%nat rest).
  { destruct wl as [|p wl]; [cbn in H2; lia|]. clear. revert p. induction wl as [|q wl IHw]; intros p.
    - exists p.1, p.2, []. destruct p. split; [done|constructor].
    - destruct (Nat.le_ge_cases p.2 q.2) as [Hpq|Hpq].
      + destruct (IHw q) as (x & L & rest & Hp & Hr). exists x, L, (p :: rest). split; [by rewrite Hp, perm_swap|].
        constructor; [|done]. assert (q.2 <= L)%nat; [|lia].
        assert (Hin : q ∈ (x, L) :: rest) by (rewrite <- Hp; constructor).
        apply elem_of_cons in Hin as [->|Hin]; [done|]. rewrite list.Forall_forall in Hr. by apply Hr.
      + destruct (IHw p) as (x & L & rest & Hp & Hr). exists x, L, (q :: rest). split; [by rewrite perm_swap, Hp, perm_swap|].
        constructor; [|done]. assert (p.2 <= L)%nat; [|lia].
        assert (Hin : p ∈ (x, L) :: rest) by (rewrite <- Hp; constructor).
        apply elem_of_cons in Hin as [->|Hin]; [done|]. rewrite list.Forall_forall in Hr. by apply Hr. }
  destruct Hmax as (x & L & rest & Hp & Hr).
  destruct (decide (Exists (fun p => p.2 = L) rest)) as [Hex|Hnex].
  - apply list.Exists_exists in Hex as ([y L'] & Hin & <-). apply elem_of_Permutation in Hin as [rest' Hp'].
    exists x, y, L', rest'. cbn in *. rewrite Hp' in Hr. apply list.Forall_cons in Hr as [_ Hr]. split; [|done].
    assert (E : wl ≡ₚ (x, L') :: (y, L') :: rest') by (by rewrite Hp, Hp'). split_and!; [by rewrite E|by rewrite <- E|by rewrite E].
  - assert (Hlt : Forall (fun p => p.2 < L)%nat rest).
    { apply list.Forall_forall. intros p Hin. rewrite list.Forall_forall in Hr. specialize (Hr p Hin).
      destruct (decide (p.2 = L)) as [E|E]; [|lia]. destruct Hnex. apply list.Exists_exists. eauto. }
    assert (HL : (1 <= L)%nat).
    { destruct rest as [|q rest]; [apply Permutation_length in Hp; cbn in Hp; lia|]. rewrite list.Forall_cons in Hlt. lia. }
    assert (Hx : 0 <= x). { rewrite Hp in H0. rewrite list.Forall_cons in H0. apply H0. }
    assert (Hb : better wl ((x, (L - 1)%nat) :: rest)).
    { split_and!.
      - rewrite Hp. done.
      - rewrite Hp in Hk. change (kraft (L :: lengths rest)) in Hk. change (kraft ((L - 1)%nat :: lengths rest)).
        assert (HrL : Forall (fun l => l <= L - 1)%nat (lengths rest)).
        { apply List.Forall_map. eapply list.Forall_impl; [exact Hlt|]. cbv beta. lia. }
        apply (kraft_at _ L) in Hk; [|constructor; [lia|eapply list.Forall_impl; [exact HrL|cbv beta; lia]]].
        exists (L - 1)%nat. split; [constructor; [lia|done]|].
        assert (Eq : ksum (S (L - 1)) (lengths rest) = 2 * ksum (L - 1) (lengths rest)) by (by apply ksum_S).
        replace (S (L - 1)) with L in Eq by lia. pose proof (pow2_S (L - 1)) as Ep. replace (S (L - 1)) with L in Ep by lia.
        cbn [ksum foldr] in Hk |- *. unfold ksum in *. rewrite !Nat.sub_diag in *. change (2 ^ Z.of_nat 0) with 1 in *. lia.
      - rewrite Hp. cbn [cost foldr]. unfold cost. cbn [fst snd]. nia. }
    destruct (IH (sum_list_with snd ((x, (L - 1)%nat) :: rest))) with (wl := (x, (L - 1)%nat) :: rest) as (x' & y' & L' & rest' & Hb' & Hr').
    + assert (E : sum_list_with snd wl = sum_list_with snd ((x, L) :: rest)) by (by rewrite Hp). rewrite E. cbn. lia.
    + done.
    + apply Permutation_length in Hp. cbn in *. lia.
    + rewrite Hp in H0. rewrite list.Forall_cons in *. cbn in *. tauto.
    + apply Hb.
    + exists x', y', L', rest'. split; [|done]. by etrans.
Qed.

(** A weight [a] below all others can be given the longest length, the one that [x] has. *)
Lemma place a x L rest l : Forall (fun p => p.2 <= L)%nat rest -> x :: wts rest ≡ₚ a :: l -> Forall (fun z => a <= z) (x :: wts rest) ->
  exists rest', l ≡ₚ wts rest' /\ L :: lengths rest' ≡ₚ L :: lengths rest /\
    cost ((a, L) :: rest') <= cost ((x, L) :: rest) /\ Forall (fun p => p.2 <= L)%nat rest'.
Proof.
  intros HL Hp Hle. assert (Ha : a ∈ x :: wts rest) by (rewrite Hp; constructor).
  apply elem_of_cons in Ha as [<-|Ha].
  { exists rest. apply (inj (cons a)) in Hp. split_and!; [done|done|lia|done]. }
  unfold wts in Ha. apply list_elem_of_fmap in Ha as ([a' la] & -> & Hin). cbn [fst] in *.
  apply elem_of_Permutation in Hin as [rest' Hr]. exists ((x, la) :: rest').
  rewrite Hr in HL, Hp. apply list.Forall_cons in HL as [Hla HL]. cbn [snd] in Hla.
  apply list.Forall_cons in Hle as [Hax _]. split_and!.
  - cbn [wts map fst] in *. rewrite perm_swap in Hp. apply (inj (cons a')) in Hp. by rewrite <- Hp.
  - rewrite Hr. done.
  - rewrite Hr. cbn [cost foldr fst snd]. nia.
  - constructor; done.
Qed.

(** ** The greedy algorithm: the sum of the joined weights *)

Inductive greedy : list Z -> Z -> Prop :=
  | greedy_one w : greedy [w] 0
  | greedy_join a b l ws c : ws ≡ₚ a :: b :: l -> Forall (fun z => a <= z) (b :: l) -> Forall (fun z => b <= z) l ->
      greedy (a + b :: l) c -> greedy ws (a + b + c).

Lemma greedy_perm ws ws' c : ws ≡ₚ ws' -> greedy ws c -> greedy ws' c.
Proof.
  intros Hp Hg. destruct Hg as [w|a b l ws c Hws Ha Hb Hg].
  - apply Permutation_singleton_l in Hp. subst ws'. constructor.
  - by apply greedy_join with l; [rewrite <- Hp| | |].
Qed.

(** The last join undone: the two longest lengths belong to the two smallest weights. *)
Lemma unjoin a b l wl : 0 <= a -> Forall (fun z => a <= z) (b :: l) -> Forall (fun z => b <= z) l ->
  wts wl ≡ₚ a :: b :: l -> kraft (lengths wl) ->
  exists wl', wts wl' ≡ₚ a + b :: l /\ kraft (lengths wl') /\ cost wl' + (a + b) <= cost wl.
Proof.
  intros H0 Ha Hb Hw Hk.
  assert (Hnn : Forall (fun z => 0 <= z) (a :: b :: l)) by (constructor; [done|eapply list.Forall_impl; [exact Ha|cbv beta; lia]]).
  destruct (two_longest wl) as (x & y & L & rest & (Hw1 & Hk1 & Hc1) & Hr).
  { apply Permutation_length in Hw. unfold wts in Hw. rewrite length_map in Hw. cbn in Hw. lia. }
  { rewrite <- Hw in Hnn. unfold wts in Hnn. rewrite List.Forall_map in Hnn. done. }
  { done. }
  rewrite Hw in Hw1.
  destruct (place a x L ((y, L) :: rest) (b :: l)) as (rest1 & Hw2 & Hl2 & Hc2 & Hr2).
  { constructor; [done|done]. }
  { exact Hw1. }
  { change (Forall (fun z => a <= z) (wts ((x, L) :: (y, L) :: rest))). rewrite Hw1. constructor; [lia|done]. }
  assert (HyL : exists y2 rest2, rest1 ≡ₚ (y2, L) :: rest2).
  { apply (inj (cons L)) in Hl2. assert (Hin : L ∈ lengths rest1) by (rewrite Hl2; constructor).
    apply list_elem_of_fmap in Hin as ([y2 L'] & -> & Hin). apply elem_of_Permutation in Hin as [rest2 ?]. by exists y2, rest2. }
  destruct HyL as (y2 & rest2 & Hp2). rewrite Hp2 in Hw2, Hl2, Hc2, Hr2. apply list.Forall_cons in Hr2 as [_ Hr2].
  destruct (place b y2 L rest2 l) as (rest3 & Hw3 & Hl3 & Hc3 & Hr3).
  { done. }
  { by rewrite Hw2. }
  { change (Forall (fun z => b <= z) (wts ((y2, L) :: rest2))). rewrite <- Hw2. constructor; [lia|done]. }
  assert (Hk3 : kraft (L :: L :: lengths rest3)).
  { rewrite Hl3. change (kraft (L :: lengths ((y2, L) :: rest2))). rewrite Hl2. exact Hk1. }
  assert (Hr3' : Forall (fun k => k <= L)%nat (lengths rest3)) by (by apply List.Forall_map).
  apply (kraft_at _ L) in Hk3; [|by repeat constructor]. cbn [ksum foldr] in Hk3. rewrite Nat.sub_diag in Hk3. change (2 ^ Z.of_nat 0) with 1 in Hk3.
  destruct L as [|L].
  { exfalso. change (2 ^ Z.of_nat 0) with 1 in Hk3. assert (0 <= foldr (fun l s => 2 ^ Z.of_nat (0 - l) + s) 0 (lengths rest3)); [|lia].
    clear. induction (lengths rest3); cbn [foldr]; [lia|]. assert (0 < 2 ^ Z.of_nat (0 - a)) by lia. lia. }
  exists ((a + b, L) :: rest3). split_and!.
  - change (wts ((a + b, L) :: rest3)) with (a + b :: wts rest3). by rewrite Hw3.
  - exists (S L). split; [constructor; [cbn; lia|done]|]. cbn [lengths map snd ksum foldr].
    replace (S L - L)%nat with 1%nat by lia. change (2 ^ Z.of_nat 1) with 2. unfold lengths in Hk3. lia.
  - cbn [cost foldr fst snd] in *. unfold cost in *. nia.
Qed.

Lemma greedy_optimal ws c : greedy ws c -> Forall (fun z => 0 <= z) ws ->
  forall wl, wts wl ≡ₚ ws -> kraft (lengths wl) -> c <= cost wl.
Proof.
  induction 1 as [w|a b l ws c Hws Ha Hb Hg IH]; intros H0 wl Hwl Hk.
  - rewrite list.Forall_cons in H0. destruct H0 as [H0 _]. symmetry in Hwl. apply Permutation_singleton_l in Hwl.
    destruct wl as [|[x n] [|]]; [done| |done]. injection Hwl as ->. cbn. lia.
  - rewrite Hws in H0, Hwl. apply list.Forall_cons in H0 as [H0 H0']. apply list.Forall_cons in H0' as [H1 H2].
    destruct (unjoin a b l wl) as (wl' & Hw' & Hk' & Hc'); [done..|].
    specialize (IH ltac:(constructor; [lia|done]) wl' Hw' Hk'). lia.
Qed.
