(* ===== verification/Huffman.v ===== *)
(** * huffstream.c: Huffman codes

    [huff_create] counts on an array [items] with frequencies: the two rarest entries of a
    heap are joined until one is left, [preds] leads from a child to its parent and
    [revtree] from a parent to its children; from these come the tree for the decoder and the
    code of every item.  The heap reads the frequencies through a pointer to the array that
    [huff_init] extends while it runs, so the array is part of the heap's state.  A [double]
    that only adds up integers is a [Z].  Not modelled: the printing, and the functions from
    [huffnumbers_init] on, which put such codes into a file.

    The lemmas here show that the sort ends with the rarest entries last, and that [huff_init]
    returns the arrays of one tree over the items that occur, built by greedy joins.  What
    follows for the codes is in HuffmanCode. *)
From Stdlib Require Import ZArith Lia.
From stdpp Require Import base list numbers option sorting.
From S2P Require Import Prelude Bits HuffStream Kraft.
Open Scope Z_scope.

(** ** The heap: indices, those of the smallest frequencies last *)

(** huffstream.c:578-578 [struct huffheap] [heap_h] holds the first [n] entries of [h], [heap_bytes] is
    the size of the block that [h] points to. *)
Record huffheap := mkHeap { heap_f : list Z; heap_h : list Z; heap_s : Z; heap_cs : Z; heap_bytes : Z }.

(** huffstream.c:579-589 [huff_heap_create] *)
Definition huff_heap_create (s : Z) (f : list Z) : huffheap := mkHeap f [] s s (4 * s).

Definition swap_at (a : list Z) (i j : Z) : option (list Z) :=
  x ← aget a i; y ← aget a j; a ← aset a i y; aset a j x.

(** huffstream.c:602-613 [huff_heap_sort] The loop. *)
Fixpoint gnome (fuel : nat) (f a : list Z) (i j : Z) : option (list Z) :=
  match fuel with
  | O => None
  | S fuel =>
      if i <? Z.of_nat (length a) then
        x ← aget a (i - 1); y ← aget a i;
        fx ← aget f x; fy ← aget f y;
        if fy <=? fx then gnome fuel f a j (j + 1)
        else
          a ← swap_at a (i - 1) i;
          let i := i - 1 in
          if i =? 0 then gnome fuel f a j (j + 1) else gnome fuel f a i j
      else Some a
  end.

(** huffstream.c:598-614 [huff_heap_sort] *)
Definition huff_heap_sort (heap : huffheap) : option huffheap :=
  let n := length (heap_h heap) in
  a ← gnome (S (n * n)) (heap_f heap) (heap_h heap) 1 2;
  Some (mkHeap (heap_f heap) a (heap_s heap) (heap_cs heap) (heap_bytes heap)).

(** huffstream.c:617-627 [huff_heap_add] The size that [realloc] gets counts entries where it should
    count bytes. *)
Definition huff_heap_add (heap : huffheap) (ind : Z) : option huffheap :=
  let n := Z.of_nat (length (heap_h heap)) in
  let '(s, size) := if heap_s heap <? n + 1 then (heap_s heap + heap_cs heap, heap_s heap + heap_cs heap)
                    else (heap_s heap, heap_bytes heap) in
  if 4 * (n + 1) <=? size then
    huff_heap_sort (mkHeap (heap_f heap) (heap_h heap ++ [ind]) s (heap_cs heap) size)
  else None.

(** huffstream.c:629-634 [huff_heap_remove] *)
Definition huff_heap_remove (heap : huffheap) : Z * huffheap :=
  match last (heap_h heap) with
  | Some ind => (ind, mkHeap (heap_f heap) (take (length (heap_h heap) - 1) (heap_h heap)) (heap_s heap) (heap_cs heap) (heap_bytes heap))
  | None => (-1, heap)
  end.

(** ** The tree *)

(** huffstream.c:214-215 [struct huffitem] The fields of [code] carry the prefix [code_]. *)
Record huffitem := mkItem { code_numbits : Z; code_bits : Z; code_patlen : Z; freq : Z; pattern : list Z }.

(** huffstream.c:218-223 [struct huffcode] *)
Record huffcode := mkCode { totalbits : Z; totalbytes : Z; freqsum : Z; numitems : Z; maxbits : Z; numnodes : Z;
  depth : Z; code_allocsize : Z; tree : list Z }.

(** The local variables of [huff_init]. *)
Record building := mkBuild { b_heap : huffheap; b_preds : list Z; b_revtree : list Z; b_depth : Z; b_extf : Z }.

(** huffstream.c:668-683 [huff_init] One round: the two smallest frequencies are joined. *)
Definition join (b : building) : option building :=
  let '(r1, heap) := huff_heap_remove (b_heap b) in
  let '(r2, heap) := huff_heap_remove heap in
  let extf := b_extf b in
  f1 ← aget (heap_f heap) r1; f2 ← aget (heap_f heap) r2;
  efreqs ← aset (heap_f heap) extf (u32 (f1 + f2));
  let heap := mkHeap efreqs (heap_h heap) (heap_s heap) (heap_cs heap) (heap_bytes heap) in
  revtree ← aset (b_revtree b) (b_depth b * 2 + 1) r1;
  revtree ← aset revtree (b_depth b * 2 + 0) r2;
  heap ← huff_heap_add heap extf;
  preds ← aset (b_preds b) r1 extf;
  preds ← aset preds r2 (- extf);
  Some (mkBuild heap preds revtree (b_depth b + 1) (extf + 1)).

(** huffstream.c:667-683 [huff_init] *)
Fixpoint join_loop (fuel : nat) (b : building) : option building :=
  match fuel with
  | O => None
  | S fuel =>
      if (1 <? length (heap_h (b_heap b)))%nat then b ← join b; join_loop fuel b else Some b
  end.

(** huffstream.c:657-663 [huff_init] The items that occur go into the heap. *)
Definition fill_heap (efreqs : list Z) (items : list huffitem) (numitems : Z) : option (huffheap * Z) :=
  for_loopM (Z.to_nat numitems) 0 (fun i '(heap, freqsum) =>
    e ← aget efreqs i;
    if 0 <? e then
      item ← aget items i;
      heap ← huff_heap_add heap i;
      Some (heap, freqsum + freq item)
    else Some (heap, freqsum)) (huff_heap_create (2 * numitems) efreqs, 0).

(** huffstream.c:636-690 [huff_init] The inner [None] is the return value 0. *)
Definition huff_init (items : list huffitem) (numitems : Z) : option (option (Z * Z * list Z * list Z)) :=
  if numitems <=? 0 then Some None
  else
    let zeroes := replicate (Z.to_nat (2 * numitems)) 0 in
    efreqs ← for_loopM (Z.to_nat numitems) 0 (fun i efreqs => item ← aget items i; aset efreqs i (freq item)) zeroes;
    '(heap, freqsum) ← fill_heap efreqs items numitems;
    b ← join_loop (S (Z.to_nat numitems)) (mkBuild heap zeroes zeroes 0 numitems);
    let '(r1, heap) := huff_heap_remove (b_heap b) in
    preds ← aset (b_preds b) r1 r1;
    Some (Some (b_extf b, freqsum, preds, b_revtree b)).

(** huffstream.c:706-716 [huff_calc] From an item to the root. *)
Fixpoint climb (fuel : nat) (preds : list Z) (ix pred codebits numbits : Z) : option (Z * Z) :=
  match fuel with
  | O => None
  | S fuel =>
      if negb (pred =? ix) && negb (- pred =? ix) then
        '(codebits, ix) ←
          (if 0 <=? pred then
             if numbits <? 63 then Some (Z.lor codebits (Z.shiftl 1 numbits), pred) else None
           else Some (codebits, - pred));
        pred ← aget preds ix;
        climb fuel preds ix pred codebits (numbits + 1)
      else Some (codebits, numbits)
  end.

(** huffstream.c:692-741 [huff_calc] The result: [maxbits], [*nonzp], [*totalbytesp], [*totalbitsp] and
    the items with their codes. *)
Definition huff_calc (preds : list Z) (items : list huffitem) (numitems : Z) : option (Z * Z * Z * Z * list huffitem) :=
  for_loopM (Z.to_nat numitems) 0 (fun i '(maxbits, nonz, totalbytes, totalbits, items) =>
    item ← aget items i;
    if negb (freq item =? 0) then
      pred ← aget preds i;
      '(codebits, numbits) ← climb (length preds) preds i pred 0 0;
      rev ← huff_reversebits codebits numbits;
      items ← aset items i (mkItem (uwrap 5 numbits) (uwrap 22 (u32 rev)) (code_patlen item) (freq item) (pattern item));
      Some (if maxbits <? numbits then numbits else maxbits, nonz + 1,
            totalbytes + u32 (code_patlen item * freq item), totalbits + u32 (numbits * freq item), items)
    else Some (maxbits, nonz, totalbytes, totalbits, items)) (0, 0, 0, 0, items).

(** huffstream.c:789-790 [huff_create] An entry of the tree: an item, or minus the distance to a node. *)
Definition tree_entry (numitems i child : Z) : Z :=
  if child <? numitems then child else i32 (- u32 ((numitems + i - child) * 2)).

(** huffstream.c:784-793 [huff_create] *)
Definition make_tree (depth extf numitems : Z) (revtree : list Z) : option (list Z) :=
  for_loopM (Z.to_nat depth) 0 (fun n tree =>
    let i := depth - 1 - n in
    c0 ← aget revtree (i * 2 + 0);
    c1 ← aget revtree (i * 2 + 1);
    tree ← aset tree (n * 2) (tree_entry numitems i c0);
    aset tree (n * 2 + 1) (tree_entry numitems i c1)) (replicate (Z.to_nat (2 * extf)) 0).

Definition SIZEOF_HUFFCODE : Z := 48.

(** huffstream.c:769-806 [huff_create] The inner [None] is the null pointer. *)
Definition huff_create (items : list huffitem) (numitems : Z) : option (option (huffcode * list huffitem)) :=
  r ← huff_init items numitems;
  match r with
  | None => Some None
  | Some (extf, freqsum, preds, revtree) =>
      let depth := extf - numitems in
      tree ← make_tree depth extf numitems revtree;
      '(maxbits, nonz, totalbytes, totalbits, items) ← huff_calc preds items numitems;
      Some (Some (mkCode totalbits totalbytes freqsum numitems maxbits nonz depth (SIZEOF_HUFFCODE + 4 * 2 * extf) tree, items))
  end.

(** ** Writing and reading items *)

(** huffstream.c:834-835 [huff_encode] *)
Definition put_code (hp : HUFF) (codebits n : Z) : option HUFF :=
  r ← for_loopM (Z.to_nat n) 0 (fun _ '(codebits, hp) =>
    '(_, hp) ← hputbit hp (Z.land codebits 1); Some (Z.shiftr codebits 1, hp)) (codebits, hp);
  Some r.2.

(** huffstream.c:825-840 [huff_encode] *)
Definition huff_encode (hp : HUFF) (items : list huffitem) (itemis : list Z) (num : Z) : option (Z * HUFF) :=
  for_loopM (Z.to_nat num) 0 (fun i '(count, hp) =>
    ind ← aget itemis i;
    item ← aget items ind;
    hp ← put_code hp (code_bits item) (code_numbits item);
    Some (count + code_numbits item, hp)) (0, hp).

(** What a round of the decoder's outer loop ends with: an item, an error, or the inner loop
    has run out. *)
Inductive found := Item (ind : Z) | Error | Again.

(** huffstream.c:851-873 [huff_decodeitem] The inner loop; [pos] is the place of [tree] in the array. *)
Fixpoint descend (rounds : nat) (hufftree : list Z) (numitems pos : Z) (hp : HUFF) : option (found * HUFF) :=
  match rounds with
  | O => Some (Again, hp)
  | S rounds =>
      '(c, hp) ← hgetbit hp;
      if c <? 0 then Some (Error, hp)
      else
        tmp ← aget hufftree (pos + c);
        if tmp <? 0 then descend rounds hufftree numitems (pos - tmp) hp
        else if numitems <=? tmp then Some (Error, hp)
        else Some (Item tmp, hp)
  end.

(** huffstream.c:842-876 [huff_decodeitem] The inner [None] is the null pointer, the result otherwise the
    index of the item. *)
Fixpoint huff_decodeitem (fuel : nat) (hufftree : list Z) (depth numitems : Z) (hp : HUFF) : option (option Z * HUFF) :=
  match fuel with
  | O => None
  | S fuel =>
      '(r, hp) ← descend (Z.to_nat depth) hufftree numitems 0 hp;
      match r with
      | Item ind => Some (Some ind, hp)
      | Error => Some (None, hp)
      | Again => huff_decodeitem fuel hufftree depth numitems hp
      end
  end.

(** ** The sort: an insertion sort that ends *)

Section sort.
Context (f : list Z).

Definition heavier (x y : Z) : Prop := znth f y <= znth f x.
Definition indexes (a : list Z) : Prop := Forall (fun x => 0 <= x < Z.of_nat (length f)) a.

Lemma get_index a i x : indexes a -> 0 <= i -> a !! Z.to_nat i = Some x -> aget a i = Some x /\ aget f x = Some (znth f x).
Proof.
  intros Ha Hi Hx. split.
  - apply aget_Some. split; [lia|done].
  - apply aget_znth. exact (Forall_lookup_1 _ _ _ _ Ha Hx).
Qed.

Lemma swap_neighbours (l : list Z) y x r :
  swap_at (l ++ y :: x :: r) (Z.of_nat (length l)) (Z.of_nat (length l) + 1) = Some (l ++ x :: y :: r).
Proof.
  assert (H0 : forall z w, aget (l ++ z :: w :: r) (Z.of_nat (length l)) = Some z).
  { intros. apply aget_Some. split; [lia|]. rewrite Nat2Z.id, lookup_app_r, Nat.sub_diag by lia. done. }
  assert (H1 : forall z w, aget (l ++ z :: w :: r) (Z.of_nat (length l) + 1) = Some w).
  { intros. apply aget_Some. split; [lia|]. rewrite lookup_app_r by lia.
    replace (Z.to_nat (Z.of_nat (length l) + 1) - length l)%nat with 1%nat by lia. done. }
  unfold swap_at. rewrite H0. step. rewrite H1. step. unfold aset. rewrite length_app. cbn [length].
  replace ((0 <=? Z.of_nat (length l)) && _) with true by (symmetry; apply andb_true_intro; split; [apply Z.leb_le|apply Z.ltb_lt]; lia).
  step. rewrite length_insert, length_app. cbn [length].
  replace ((0 <=? Z.of_nat (length l) + 1) && _) with true by (symmetry; apply andb_true_intro; split; [apply Z.leb_le|apply Z.ltb_lt]; lia).
  f_equal. rewrite Nat2Z.id, insert_app_r_alt, Nat.sub_diag by lia. cbn [insert list_insert].
  rewrite insert_app_r_alt by lia. replace (Z.to_nat (Z.of_nat (length l) + 1) - length l)%nat with 1%nat by lia. done.
Qed.

(** The entry [x] moves left over the rarer ones, in at most [length p] rounds. *)
Lemma gnome_phase p x q r : indexes (p ++ x :: q ++ r) -> p <> [] ->
  Forall (fun y => znth f y < znth f x) q ->
  exists p1 p2 k, p = p1 ++ p2 /\ Forall (fun y => znth f y < znth f x) p2 /\
    (forall y, last p1 = Some y -> heavier y x) /\ (k <= length p)%nat /\
    let j := Z.of_nat (length p + S (length q)) in
    forall fuel, gnome (k + fuel) f (p ++ x :: q ++ r) (Z.of_nat (length p)) j
      = gnome fuel f (p1 ++ x :: p2 ++ q ++ r) j (j + 1).
Proof.
  revert q. induction p as [|y p IH] using rev_ind; [done|]. intros q Ha _ Hq.
  rewrite <- app_assoc in Ha. cbn [app] in Ha.
  assert (Hround : forall fuel, let j := Z.of_nat (length (p ++ [y]) + S (length q)) in
    gnome (S fuel) f ((p ++ [y]) ++ x :: q ++ r) (Z.of_nat (length (p ++ [y]))) j =
    if znth f x <=? znth f y then gnome fuel f ((p ++ [y]) ++ x :: q ++ r) j (j + 1)
    else if Z.of_nat (length p) =? 0 then gnome fuel f (p ++ x :: y :: q ++ r) j (j + 1)
    else gnome fuel f (p ++ x :: y :: q ++ r) (Z.of_nat (length p)) j).
  { intros fuel j. rewrite <- app_assoc. cbn [gnome app].
    assert (Hl : length (p ++ [y]) = S (length p)) by (rewrite length_app; cbn; lia).
    replace (Z.of_nat (length (p ++ [y])) <? Z.of_nat (length (p ++ y :: x :: q ++ r))) with true
      by (symmetry; apply Z.ltb_lt; rewrite !length_app; cbn [length]; lia).
    replace (Z.of_nat (length (p ++ [y]))) with (Z.of_nat (length p) + 1) by lia.
    replace (Z.of_nat (length p) + 1 - 1) with (Z.of_nat (length p)) by lia.
    assert (E1 : (p ++ y :: x :: q ++ r) !! Z.to_nat (Z.of_nat (length p)) = Some y)
      by (rewrite Nat2Z.id, lookup_app_r, Nat.sub_diag by lia; done).
    assert (E2 : (p ++ y :: x :: q ++ r) !! Z.to_nat (Z.of_nat (length p) + 1) = Some x).
    { rewrite lookup_app_r by lia. replace (Z.to_nat (Z.of_nat (length p) + 1) - length p)%nat with 1%nat by lia. done. }
    destruct (get_index _ (Z.of_nat (length p)) y Ha ltac:(lia) E1) as [-> Fy].
    destruct (get_index _ (Z.of_nat (length p) + 1) x Ha ltac:(lia) E2) as [-> Fx].
    step. step. rewrite Fy. step. rewrite Fx. step. rewrite swap_neighbours. step. done. }
  destruct (Z.leb_spec (znth f x) (znth f y)) as [Hxy|Hxy].
  { exists (p ++ [y]), [], 1%nat. rewrite app_nil_r. split_and!; [done|constructor| |rewrite length_app; cbn; lia|].
    - intros z Hz. rewrite last_snoc in Hz. injection Hz as <-. exact Hxy.
    - intros j fuel. cbn [Nat.add]. rewrite Hround. done. }
  assert (Hq' : Forall (fun z => znth f z < znth f x) (y :: q)) by (constructor; [lia|done]).
  destruct (decide (p = [])) as [->|Hne].
  { exists [], [y], 1%nat. split_and!; [done|repeat constructor; lia|done|done|].
    intros j fuel. cbn [Nat.add]. rewrite Hround. done. }
  destruct (IH (y :: q)) as (p1 & p2 & k & E & Hp2 & Hlast & Hk & Hrun); [|done|done|].
  { unfold indexes in *. cbn [app]. rewrite list.Forall_app, !list.Forall_cons in *. tauto. }
  exists p1, (p2 ++ [y]), (S k). split_and!.
  - rewrite E. by rewrite app_assoc.
  - apply list.Forall_app. split; [done|]. repeat constructor. lia.
  - done.
  - rewrite length_app. cbn. lia.
  - intros j fuel. cbn [Nat.add]. rewrite Hround. replace (Z.of_nat (length p) =? 0) with false by (destruct p; done).
    cbn [app] in Hrun. specialize (Hrun fuel). unfold j. replace (length (p ++ [y]) + S (length q))%nat with (length p + S (length (y :: q)))%nat
      by (rewrite length_app; cbn; lia). rewrite Hrun. f_equal. rewrite <- !app_assoc. done.
Qed.

Lemma insert_sorted p1 x p2 : StronglySorted heavier (p1 ++ p2) -> Forall (fun y => znth f y < znth f x) p2 ->
  (forall y, last p1 = Some y -> heavier y x) -> StronglySorted heavier (p1 ++ x :: p2).
Proof.
  intros Hs Hp2 Hlast. rewrite StronglySorted_app in Hs. destruct Hs as (H12 & H1 & H2).
  assert (H1x : forall y, y ∈ p1 -> heavier y x).
  { destruct p1 as [|z p1 _] using rev_ind; [intros y Hy; inversion Hy|]. specialize (Hlast z (last_snoc _ _)).
    intros y Hy. apply elem_of_app in Hy as [Hy|Hy].
    - rewrite StronglySorted_app in H1. destruct H1 as (H1 & _). specialize (H1 y z Hy ltac:(constructor)). unfold heavier in *. lia.
    - apply list_elem_of_singleton in Hy as ->. done. }
  apply StronglySorted_app. split_and!; [|done|].
  - intros y z Hy Hz. apply elem_of_cons in Hz as [->|Hz]; [by apply H1x|by apply H12].
  - apply StronglySorted_cons. split; [|done]. eapply list.Forall_impl; [exact Hp2|]. cbv beta. unfold heavier. lia.
Qed.

Lemma gnome_sorts r : forall p, p <> [] -> indexes (p ++ r) -> StronglySorted heavier p ->
  exists a, StronglySorted heavier a /\ a ≡ₚ p ++ r /\ forall fuel, (length r * length (p ++ r) < fuel)%nat ->
    gnome fuel f (p ++ r) (Z.of_nat (length p)) (Z.of_nat (length p) + 1) = Some a.
Proof.
  induction r as [|x r IH]; intros p Hne Ha Hs.
  - exists p. rewrite app_nil_r. split_and!; [done|done|]. intros [|fuel] Hf; [lia|]. cbn [gnome]. rewrite Z.ltb_irrefl. done.
  - destruct (gnome_phase p x [] r Ha Hne ltac:(constructor)) as (p1 & p2 & k & -> & Hp2 & Hlast & Hk & Hrun).
    cbv zeta in Hrun. cbn [app length] in Hrun.
    assert (Hperm : p1 ++ x :: p2 ≡ₚ (p1 ++ p2) ++ [x]).
    { rewrite <- app_assoc. apply Permutation_app_head, Permutation_cons_append. }
    destruct (IH (p1 ++ x :: p2)) as (a & Hsa & Hpa & Hr).
    + destruct p1; done.
    + unfold indexes in *. rewrite Hperm, <- app_assoc. done.
    + by apply insert_sorted.
    + exists a. split_and!; [done| |].
      { rewrite Hpa, Hperm, <- app_assoc. done. }
      intros fuel Hf. assert (El : length (p1 ++ x :: p2) = S (length (p1 ++ p2))) by (rewrite Hperm, length_app; cbn; lia).
      assert (El2 : length (p1 ++ x :: p2 ++ r) = length ((p1 ++ p2) ++ x :: r)) by (repeat (rewrite ?length_app; cbn [length]); lia).
      replace fuel with (k + (fuel - k))%nat by (rewrite !length_app in *; cbn [length] in *; nia).
      replace (Z.of_nat (length (p1 ++ p2)) + 1) with (Z.of_nat (length (p1 ++ p2) + 1)) by lia.
      rewrite Hrun. specialize (Hr (fuel - k)%nat). rewrite <- app_assoc in Hr. cbn [app] in Hr.
      replace (length (p1 ++ p2) + 1)%nat with (length (p1 ++ x :: p2)) by lia. apply Hr.
      rewrite El2. rewrite !length_app in *. cbn [length] in *. nia.
Qed.

(** The loop ends within the square of the length, with the rarest entries last. *)
Lemma gnome_total a : indexes a -> exists a', StronglySorted heavier a' /\ a' ≡ₚ a /\ gnome (S (length a * length a)) f a 1 2 = Some a'.
Proof.
  intros Ha. destruct a as [|x a]; [exists []; repeat split; constructor|].
  destruct (gnome_sorts a [x]) as (a' & Hs & Hp & Hr); [done|done|repeat constructor|].
  exists a'. split_and!; [done|done|]. apply Hr. cbn. nia.
Qed.
End sort.

(** ** The heap *)

Definition heap_ok (heap : huffheap) (numitems : Z) : Prop :=
  Z.of_nat (length (heap_f heap)) = 2 * numitems /\ heap_s heap = 2 * numitems /\ heap_bytes heap = 8 * numitems /\
  indexes (heap_f heap) (heap_h heap) /\ StronglySorted (heavier (heap_f heap)) (heap_h heap).

Lemma heap_add_eq heap numitems ind : heap_ok heap numitems -> 0 <= ind < 2 * numitems ->
  Z.of_nat (length (heap_h heap)) < 2 * numitems ->
  exists h, huff_heap_add heap ind = Some (mkHeap (heap_f heap) h (heap_s heap) (heap_cs heap) (heap_bytes heap)) /\
    h ≡ₚ ind :: heap_h heap /\ heap_ok (mkHeap (heap_f heap) h (heap_s heap) (heap_cs heap) (heap_bytes heap)) numitems.
Proof.
  intros (Hf & Hs & Hb & Hi & Hsort) Hind Hlen.
  assert (Hi' : indexes (heap_f heap) (heap_h heap ++ [ind])).
  { unfold indexes in *. apply list.Forall_app. split; [done|]. repeat constructor; lia. }
  destruct (gnome_total _ _ Hi') as (h & Hsh & Hph & Hrun). exists h. split_and!.
  - unfold huff_heap_add. replace (heap_s heap <? _) with false by (symmetry; apply Z.ltb_ge; lia).
    replace (_ <=? heap_bytes heap) with true by (symmetry; apply Z.leb_le; lia).
    unfold huff_heap_sort. cbn [heap_f heap_h heap_s heap_cs heap_bytes]. rewrite Hrun. step. done.
  - rewrite Hph. symmetry. apply Permutation_cons_append.
  - split_and!; cbn [heap_f heap_h heap_s heap_cs heap_bytes]; [done|done|done| |done]. unfold indexes in *. by rewrite Hph.
Qed.

Lemma heap_remove_eq heap numitems h r : heap_ok heap numitems -> heap_h heap = h ++ [r] ->
  huff_heap_remove heap = (r, mkHeap (heap_f heap) h (heap_s heap) (heap_cs heap) (heap_bytes heap)) /\
  heap_ok (mkHeap (heap_f heap) h (heap_s heap) (heap_cs heap) (heap_bytes heap)) numitems /\
  0 <= r < 2 * numitems /\ (forall x, x ∈ h -> znth (heap_f heap) r <= znth (heap_f heap) x).
Proof.
  intros (Hf & Hs & Hb & Hi & Hsort) Hh. rewrite Hh in *. unfold indexes in *. apply list.Forall_app in Hi as [Hi1 Hi2].
  apply StronglySorted_app in Hsort as (Hle & Hsort & _). rewrite list.Forall_cons in Hi2. destruct Hi2 as [Hr _].
  repeat split; try (unfold heap_ok; cbn [heap_f heap_h heap_s heap_cs heap_bytes]; first [done|lia]).
  - unfold huff_heap_remove. rewrite Hh, last_snoc, length_app. cbn [length]. rewrite Nat.add_sub, take_app_length. done.
  - intros x Hx. apply (Hle x r Hx). constructor.
Qed.

(** ** The trees that the heap stands for *)

Inductive htree := HLeaf (i : Z) | HNode (e : Z) (t0 t1 : htree).

Definition root (t : htree) : Z := match t with HLeaf i => i | HNode e _ _ => e end.
Fixpoint leaves (t : htree) : list Z := match t with HLeaf i => [i] | HNode _ t0 t1 => leaves t0 ++ leaves t1 end.
(** The indices below the root, and all of them. *)
Fixpoint nodes (t : htree) : list Z := match t with HLeaf i => [i] | HNode e t0 t1 => e :: nodes t0 ++ nodes t1 end.
Definition inner (t : htree) : list Z := match t with HLeaf i => [] | HNode e t0 t1 => nodes t0 ++ nodes t1 end.

(** The arrays hold the tree. *)
Fixpoint built (numitems : Z) (preds revtree : list Z) (t : htree) : Prop :=
  match t with
  | HLeaf i => 0 <= i < numitems
  | HNode e t0 t1 =>
      numitems <= e /\ 0 <= root t0 < e /\ 0 <= root t1 < e /\
      znth revtree ((e - numitems) * 2) = root t0 /\ znth revtree ((e - numitems) * 2 + 1) = root t1 /\
      znth preds (root t0) = - e /\ znth preds (root t1) = e /\
      built numitems preds revtree t0 /\ built numitems preds revtree t1
  end.

Lemma nodes_root t : nodes t = root t :: inner t.
Proof. by destruct t. Qed.

Lemma built_frame numitems preds revtree preds' revtree' t extf :
  built numitems preds revtree t -> Forall (fun e => e < extf) (nodes t) ->
  (forall i, i ∈ inner t -> znth preds' i = znth preds i) ->
  (forall i, 0 <= i < (extf - numitems) * 2 -> znth revtree' i = znth revtree i) ->
  built numitems preds' revtree' t.
Proof.
  intros Hb Hn Hp Hr. induction t as [i|e t0 IH0 t1 IH1]; [done|]. cbn [built nodes inner] in *.
  destruct Hb as (? & ? & ? & E0 & E1 & P0 & P1 & B0 & B1). inversion Hn as [|? ? He Hn']; subst.
  apply list.Forall_app in Hn' as [N0 N1].
  assert (Hin : forall t i, i ∈ inner t -> i ∈ nodes t) by (intros t i Hi; rewrite nodes_root; by right).
  split_and!; try lia.
  - rewrite Hr by lia. done.
  - rewrite Hr by lia. done.
  - rewrite Hp; [done|]. apply elem_of_app. left. rewrite nodes_root. left.
  - rewrite Hp; [done|]. apply elem_of_app. right. rewrite nodes_root. left.
  - apply IH0; [done|done|]. intros i Hi. apply Hp, elem_of_app. left. by apply Hin.
  - apply IH1; [done|done|]. intros i Hi. apply Hp, elem_of_app. right. by apply Hin.
Qed.

(** The frequency of a tree, and what its joins add up to. *)
Section weights.
Context (w : Z -> Z).
Fixpoint weight (t : htree) : Z := match t with HLeaf i => w i | HNode _ t0 t1 => weight t0 + weight t1 end.
Fixpoint joins (t : htree) : Z := match t with HLeaf _ => 0 | HNode _ t0 t1 => joins t0 + joins t1 + (weight t0 + weight t1) end.
End weights.

(** ** Building the tree *)

Section build.
Context (items : list huffitem) (N : Z).

Definition fq (i : Z) : Z := match aget items i with Some item => freq item | None => 0 end.
Definition used : list Z := filter (fun i => 0 < fq i) (seqZ 0 N).
Definition zlen {A} (l : list A) : Z := Z.of_nat (length l).
Definition total (l : list Z) : Z := foldr Z.add 0 l.

(** While the tree is built, the heap holds the roots of a forest that the arrays describe. *)
Record forest (b : building) (ts : list htree) : Prop := {
  forest_heap : heap_ok (b_heap b) N;
  forest_roots : heap_h (b_heap b) = map root ts;
  forest_preds : zlen (b_preds b) = 2 * N;
  forest_revtree : zlen (b_revtree b) = 2 * N;
  forest_depth : b_depth b = b_extf b - N /\ N <= b_extf b;
  forest_count : b_extf b + zlen ts = N + zlen used;
  forest_distinct : NoDup (ts ≫= nodes);
  forest_bound : Forall (fun e => 0 <= e < b_extf b) (ts ≫= nodes);
  forest_last : N < b_extf b -> b_extf b - 1 ∈ ts ≫= nodes;
  forest_built : Forall (built N (b_preds b) (b_revtree b)) ts;
  forest_leaves : ts ≫= leaves ≡ₚ used;
  forest_weights : Forall (fun t => znth (heap_f (b_heap b)) (root t) = u32 (weight fq t)) ts;
  forest_greedy : total (map fq used) < 2 ^ 32 -> forall c, greedy (map (weight fq) ts) c ->
    greedy (map fq used) (c + total (map (joins fq) ts)) }.

Lemma zlen_used : 0 <= N -> zlen used <= N.
Proof.
  intros H. unfold zlen, used. pose proof (length_filter (fun i => 0 < fq i) (seqZ 0 N)) as Hl. rewrite length_seqZ in Hl. lia.
Qed.

Lemma used_elem i : i ∈ used <-> 0 <= i < N /\ 0 < fq i.
Proof. unfold used. rewrite list_elem_of_filter, elem_of_seqZ. split; intros; split; lia. Qed.

Lemma bind_perm {A B} (g : A -> list B) l l' : l ≡ₚ l' -> l ≫= g ≡ₚ l' ≫= g.
Proof. intros H. by rewrite H. Qed.

Lemma total_perm l l' : l ≡ₚ l' -> total l = total l'.
Proof. unfold total. induction 1; cbn; lia. Qed.

Lemma weight_leaves t : weight fq t = total (map fq (leaves t)).
Proof.
  induction t as [i|e t0 IH0 t1 IH1]; [cbn; lia|]. cbn [weight leaves]. rewrite IH0, IH1, map_app. unfold total.
  generalize (map fq (leaves t0)) as l. intros l. induction l; cbn; lia.
Qed.

Lemma total_app l l' : total (l ++ l') = total l + total l'.
Proof. unfold total. induction l; cbn; lia. Qed.

Lemma root_node t : root t ∈ nodes t.
Proof. rewrite nodes_root. left. Qed.

Lemma forest_weight_range b ts t : forest b ts -> (forall i, 0 <= fq i) -> total (map fq used) < 2 ^ 32 -> t ∈ ts -> 0 <= weight fq t < 2 ^ 32.
Proof.
  intros F H0 Ht Hin. apply elem_of_Permutation in Hin as [ts' Hp]. rewrite weight_leaves.
  pose proof (forest_leaves _ _ F) as HL. rewrite (bind_perm _ _ _ Hp) in HL. cbn [mbind list_bind] in HL.
  rewrite <- (total_perm _ _ (Permutation_map fq HL)), map_app, total_app in Ht.
  assert (Hnn : forall l, 0 <= total (map fq l)) by (induction l as [|x l IHl]; cbn; [lia|pose proof (H0 x); unfold total in *; lia]).
  pose proof (Hnn (leaves t)). pose proof (Hnn (ts' ≫= leaves)). lia.
Qed.

Lemma two_last {A} (l : list A) : (2 <= length l)%nat -> exists l0 y x, l = l0 ++ [y; x].
Proof.
  intros H. destruct l as [|x l _] using rev_ind; [cbn in H; lia|]. destruct l as [|y l _] using rev_ind; [cbn in H; lia|].
  exists l, y, x. by rewrite <- app_assoc.
Qed.

Lemma joins_sum_perm ts ts' : ts ≡ₚ ts' -> total (map (joins fq) ts) = total (map (joins fq) ts').
Proof. intros H. by apply total_perm, Permutation_map. Qed.

(** The frequencies in the heap are those of the trees, when nothing overflows. *)
Lemma join_greedy ts0 t2 t1 e (F : list Z) :
  Forall (fun t => 0 <= weight fq t < 2 ^ 32) (ts0 ++ [t2; t1]) ->
  Forall (fun t => znth F (root t) = u32 (weight fq t)) (ts0 ++ [t2; t1]) ->
  (forall x, x ∈ map root (ts0 ++ [t2]) -> znth F (root t1) <= znth F x) ->
  (forall x, x ∈ map root ts0 -> znth F (root t2) <= znth F x) ->
  forall c, greedy (map (weight fq) (HNode e t2 t1 :: ts0)) c ->
    greedy (map (weight fq) (ts0 ++ [t2; t1])) (c + (weight fq t2 + weight fq t1)).
Proof.
  intros Hr HF H1 H2 c Hc. cbn [map weight] in Hc.
  assert (HF' : Forall (fun t => znth F (root t) = weight fq t) (ts0 ++ [t2; t1])).
  { apply list.Forall_forall. intros t Ht. rewrite list.Forall_forall in HF, Hr. rewrite HF by done. apply uwrap_small. by apply Hr. }
  rewrite list.Forall_forall in HF'.
  assert (E1 : znth F (root t1) = weight fq t1) by (apply HF', elem_of_app; right; right; left).
  assert (E2 : znth F (root t2) = weight fq t2) by (apply HF', elem_of_app; right; left).
  replace (c + (weight fq t2 + weight fq t1)) with (weight fq t1 + weight fq t2 + c) by lia.
  apply greedy_join with (map (weight fq) ts0).
  - rewrite map_app. cbn [map]. rewrite Permutation_app_comm. cbn [app]. by rewrite perm_swap.
  - constructor.
    + rewrite <- E1, <- E2. apply H1. rewrite map_app. apply elem_of_app. right. left.
    + apply List.Forall_map, list.Forall_forall. intros t Ht. rewrite <- E1, <- (HF' t) by (apply elem_of_app; by left).
      apply H1. rewrite map_app. apply elem_of_app. left. apply list_elem_of_fmap. eauto.
  - apply List.Forall_map, list.Forall_forall. intros t Ht. rewrite <- E2, <- (HF' t) by (apply elem_of_app; by left).
    apply H2. apply list_elem_of_fmap. eauto.
  - by rewrite (Z.add_comm (weight fq t1)).
Qed.

(** A frequency may be written for an index that is not in the heap. *)
Lemma extend_freq heap e v : heap_ok heap N -> 0 <= e < 2 * N -> (forall x, x ∈ heap_h heap -> x <> e) ->
  heap_ok (mkHeap (zput (heap_f heap) e v) (heap_h heap) (heap_s heap) (heap_cs heap) (heap_bytes heap)) N.
Proof.
  intros (Hf & Hs & Hb & Hi & Hsort) He Hx. unfold heap_ok. cbn [heap_f heap_h heap_s heap_cs heap_bytes]. rewrite zput_length.
  split_and!; try done; [unfold indexes in *; by rewrite zput_length|].
  assert (Hfr : forall x, x ∈ heap_h heap -> znth (zput (heap_f heap) e v) x = znth (heap_f heap) x).
  { intros x Hin. rewrite znth_zput by lia. specialize (Hx x Hin). by destruct (Z.eqb_spec e x). }
  clear -Hsort Hfr. induction Hsort as [|x l Hs IH Hall]; [constructor|]. constructor.
  - apply IH. intros y Hy. apply Hfr. by right.
  - apply list.Forall_forall. intros y Hy. unfold heavier. rewrite !Hfr by (constructor; done).
    rewrite list.Forall_forall in Hall. by apply Hall.
Qed.

(** The arrays after a join, where they change and where they do not. *)
Section joined.
Context (preds revtree : list Z) (t2 t1 : htree) (e : Z).
Context (Hlp : zlen preds = 2 * N) (Hlr : zlen revtree = 2 * N) (He : N <= e < 2 * N) (HN : 0 <= N).
Context (H2 : Forall (fun i => 0 <= i < e) (nodes t2)) (H1 : Forall (fun i => 0 <= i < e) (nodes t1)) (Hnd : NoDup (nodes t2 ++ nodes t1)).

Definition preds' : list Z := zput (zput preds (root t1) e) (root t2) (- e).
Definition revtree' : list Z := zput (zput revtree ((e - N) * 2 + 1) (root t1)) ((e - N) * 2 + 0) (root t2).

Lemma joined_roots : 0 <= root t2 < e /\ 0 <= root t1 < e /\ root t1 <> root t2.
Proof using H2 H1 Hnd.
  rewrite list.Forall_forall in H1. rewrite list.Forall_forall in H2. pose proof (H1 _ (root_node t1)). pose proof (H2 _ (root_node t2)).
  split_and!; try lia. intros E. apply NoDup_app in Hnd as (_ & Hnd' & _). apply (Hnd' (root t2) (root_node t2)). rewrite <- E. apply root_node.
Qed.

Lemma preds_frame i : i <> root t1 -> i <> root t2 -> znth preds' i = znth preds i.
Proof using Hlp He H2 H1 Hnd.
  intros Hi1 Hi2. pose proof joined_roots. unfold preds'. unfold zlen in Hlp. rewrite !znth_zput by (rewrite ?zput_length; lia).
  by destruct (Z.eqb_spec (root t2) i), (Z.eqb_spec (root t1) i).
Qed.

Lemma revtree_frame i : 0 <= i < (e - N) * 2 -> znth revtree' i = znth revtree i.
Proof using Hlr He HN.
  intros Hi. unfold revtree'. unfold zlen in Hlr. rewrite !znth_zput by (rewrite ?zput_length; lia).
  destruct (Z.eqb_spec ((e - N) * 2 + 0) i), (Z.eqb_spec ((e - N) * 2 + 1) i); lia || done.
Qed.

(** A tree all of whose inner nodes differ from the two roots stays as it is. *)
Lemma built_joined t : built N preds revtree t -> Forall (fun i => 0 <= i < e) (nodes t) -> root t1 ∉ inner t -> root t2 ∉ inner t ->
  built N preds' revtree' t.
Proof using Hlp Hlr He H2 H1 Hnd HN.
  intros Hb Hn Ht1 Ht2. eapply built_frame; [exact Hb| | |exact revtree_frame].
  - eapply list.Forall_impl; [exact Hn|]. cbv beta. lia.
  - intros i Hi. apply preds_frame; by intros ->.
Qed.

Lemma built_node : built N preds revtree t2 -> built N preds revtree t1 -> built N preds' revtree' (HNode e t2 t1).
Proof using Hlp Hlr He H2 H1 Hnd HN.
  intros B2 B1. pose proof joined_roots as (R2 & R1 & Hne). pose proof Hnd as Hd. rewrite NoDup_app in Hd. destruct Hd as (N2 & Hd & N1).
  assert (Hin : forall t i, i ∈ inner t -> i ∈ nodes t) by (intros t i Hi; rewrite nodes_root; by right).
  assert (Hroot : forall t, NoDup (nodes t) -> root t ∉ inner t) by (intros t Hn; rewrite nodes_root in Hn; by inversion Hn).
  cbn [built]. split_and!; try lia.
  - unfold revtree', zlen in *. rewrite znth_zput by (rewrite zput_length; lia). by rewrite Z.add_0_r, Z.eqb_refl.
  - unfold revtree', zlen in *. rewrite !znth_zput by (rewrite ?zput_length; lia). rewrite Z.eqb_refl.
    by destruct (Z.eqb_spec ((e - N) * 2 + 0) ((e - N) * 2 + 1)); [lia|].
  - unfold preds', zlen in *. rewrite znth_zput by (rewrite zput_length; lia). by rewrite Z.eqb_refl.
  - unfold preds', zlen in *. rewrite !znth_zput by (rewrite ?zput_length; lia). rewrite Z.eqb_refl.
    by destruct (Z.eqb_spec (root t2) (root t1)).
  - apply built_joined; [done|done| |by apply Hroot]. intros Hi. apply (Hd (root t1)); [by apply Hin|apply root_node].
  - apply built_joined; [done|done|by apply Hroot|]. intros Hi. apply (Hd (root t2)); [apply root_node|by apply Hin].
Qed.
End joined.

Lemma forest_parts b ts0 t2 t1 : 0 <= N -> forest b (ts0 ++ [t2; t1]) ->
  N <= b_extf b < 2 * N /\ Forall (fun e => 0 <= e < b_extf b) (ts0 ≫= nodes) /\
  Forall (fun e => 0 <= e < b_extf b) (nodes t2) /\ Forall (fun e => 0 <= e < b_extf b) (nodes t1) /\
  NoDup ((ts0 ≫= nodes) ++ nodes t2 ++ nodes t1).
Proof.
  intros HN F. destruct (forest_depth _ _ F) as [Hd He]. pose proof (forest_count _ _ F) as Hc. pose proof (zlen_used HN) as Hu.
  unfold zlen in Hc, Hu. rewrite length_app in Hc. cbn [length] in Hc.
  pose proof (forest_distinct _ _ F) as Hnd. pose proof (forest_bound _ _ F) as Hbd.
  rewrite bind_app in Hnd, Hbd. cbn [mbind list_bind] in Hnd, Hbd. rewrite app_nil_r in Hnd, Hbd.
  rewrite !list.Forall_app in Hbd. split; [lia|tauto].
Qed.

Lemma forest_root_bound b ts0 t : Forall (fun e => 0 <= e < b_extf b) (ts0 ≫= nodes) -> t ∈ ts0 -> 0 <= root t < b_extf b.
Proof. intros H Ht. rewrite list.Forall_forall in H. apply H, list_elem_of_bind. exists t. split; [apply root_node|done]. Qed.

(** The state after a join, with the new forest [ts']. *)
Definition joined_heap (heap : huffheap) (t2 t1 : htree) (e : Z) (ts' : list htree) : huffheap :=
  mkHeap (zput (heap_f heap) e (u32 (znth (heap_f heap) (root t1) + znth (heap_f heap) (root t2)))) (map root ts')
    (heap_s heap) (heap_cs heap) (heap_bytes heap).
Definition joined (b : building) (t2 t1 : htree) (ts' : list htree) : building :=
  mkBuild (joined_heap (b_heap b) t2 t1 (b_extf b) ts') (preds' (b_preds b) t2 t1 (b_extf b)) (revtree' (b_revtree b) t2 t1 (b_extf b))
    (b_depth b + 1) (b_extf b + 1).

Lemma join_eq b ts0 t2 t1 : 0 <= N -> forest b (ts0 ++ [t2; t1]) ->
  exists ts', join b = Some (joined b t2 t1 ts') /\ ts' ≡ₚ HNode (b_extf b) t2 t1 :: ts0 /\ heap_ok (b_heap (joined b t2 t1 ts')) N /\
    (forall x, x ∈ map root (ts0 ++ [t2]) -> znth (heap_f (b_heap b)) (root t1) <= znth (heap_f (b_heap b)) x) /\
    (forall x, x ∈ map root ts0 -> znth (heap_f (b_heap b)) (root t2) <= znth (heap_f (b_heap b)) x).
Proof.
  intros HN F. destruct (forest_parts b ts0 t2 t1 HN F) as (Hx & Hbd0 & Hbd2 & Hbd1 & Hnd).
  pose proof (forest_heap _ _ F) as Hok. pose proof (forest_roots _ _ F) as Hh. rewrite map_app in Hh. cbn [map] in Hh.
  destruct (heap_remove_eq (b_heap b) N (map root ts0 ++ [root t2]) (root t1) Hok) as (Hrem1 & Hok1 & Hr1 & Hmin1).
  { rewrite Hh. by rewrite <- app_assoc. }
  destruct (heap_remove_eq _ N (map root ts0) (root t2) Hok1 eq_refl) as (Hrem2 & Hok2 & Hr2 & Hmin2).
  cbn [heap_f heap_h heap_s heap_cs heap_bytes] in Hrem2, Hok2, Hmin2.
  assert (Hlen : Z.of_nat (length (heap_f (b_heap b))) = 2 * N) by apply Hok.
  pose proof (forest_preds _ _ F) as Hlp. pose proof (forest_revtree _ _ F) as Hlr. unfold zlen in Hlp, Hlr.
  destruct (forest_depth _ _ F) as [Hd He]. pose proof (forest_count _ _ F) as Hc. pose proof (zlen_used HN) as Hu.
  unfold zlen in Hc, Hu. rewrite length_app in Hc. cbn [length] in Hc.
  set (v := u32 (znth (heap_f (b_heap b)) (root t1) + znth (heap_f (b_heap b)) (root t2))).
  assert (Hok3 := extend_freq _ (b_extf b) v Hok2 ltac:(lia)). cbn [heap_f heap_h heap_s heap_cs heap_bytes] in Hok3.
  specialize (Hok3 ltac:(intros x Hin; apply list_elem_of_fmap in Hin as (t & -> & Ht); pose proof (forest_root_bound b ts0 t Hbd0 Ht); lia)).
  destruct (heap_add_eq _ N (b_extf b) Hok3) as (h' & Hadd & Hph & Hok4); [lia|cbn [heap_h]; rewrite length_map; lia|].
  cbn [heap_f heap_h heap_s heap_cs heap_bytes] in Hadd, Hph, Hok4.
  change (h' ≡ₚ map root (HNode (b_extf b) t2 t1 :: ts0)) in Hph. apply Permutation_map_inv in Hph as (ts' & -> & Hp).
  exists ts'. split_and!; [|by symmetry|exact Hok4|by rewrite map_app|done].
  unfold join. rewrite Hrem1. cbn beta iota. rewrite Hrem2. cbn beta iota. cbn [heap_f heap_h heap_s heap_cs heap_bytes].
  rewrite !aget_znth by lia. step. step. fold v. rewrite (aset_zput (heap_f (b_heap b))) by lia. step.
  rewrite (aset_zput (b_revtree b)) by lia. step. rewrite (aset_zput (zput (b_revtree b) _ _)) by (rewrite zput_length; lia). step.
  rewrite Hadd. step. rewrite (aset_zput (b_preds b)) by lia. step. rewrite (aset_zput (zput (b_preds b) _ _)) by (rewrite zput_length; lia). step.
  unfold joined, revtree'. rewrite Hd. reflexivity.
Qed.

Lemma joined_built b ts0 t2 t1 : 0 <= N -> forest b (ts0 ++ [t2; t1]) ->
  Forall (built N (preds' (b_preds b) t2 t1 (b_extf b)) (revtree' (b_revtree b) t2 t1 (b_extf b))) (HNode (b_extf b) t2 t1 :: ts0).
Proof.
  intros HN F. destruct (forest_parts b ts0 t2 t1 HN F) as (Hx & Hbd0 & Hbd2 & Hbd1 & Hnd).
  pose proof (forest_preds _ _ F) as Hlp. pose proof (forest_revtree _ _ F) as Hlr. pose proof (forest_built _ _ F) as Hbt.
  apply list.Forall_app in Hbt as [Hbt0 Hbt12]. rewrite !list.Forall_cons in Hbt12. destruct Hbt12 as (Hbt2 & Hbt1 & _).
  rewrite NoDup_app in Hnd. destruct Hnd as (_ & Hd0 & Hnd). constructor; [by apply built_node|].
  apply list.Forall_forall. intros t Ht. rewrite list.Forall_forall in Hbt0. rewrite list.Forall_forall in Hbd0.
  assert (Hin : forall i, i ∈ nodes t -> i ∈ ts0 ≫= nodes) by (intros i Hi; apply list_elem_of_bind; eauto).
  apply built_joined; try done; [by apply Hbt0|apply list.Forall_forall; intros i Hi; by apply Hbd0, Hin|..];
    intros Hi; (eapply Hd0; [apply Hin; rewrite nodes_root; right; exact Hi|]); apply elem_of_app; [right|left]; apply root_node.
Qed.

Lemma joined_weights b ts0 t2 t1 ts' : 0 <= N -> forest b (ts0 ++ [t2; t1]) ->
  Forall (fun t => znth (heap_f (b_heap (joined b t2 t1 ts'))) (root t) = u32 (weight fq t)) (HNode (b_extf b) t2 t1 :: ts0).
Proof.
  intros HN F. destruct (forest_parts b ts0 t2 t1 HN F) as (Hx & Hbd0 & Hbd2 & Hbd1 & Hnd).
  destruct (forest_heap _ _ F) as (Hlen & _). pose proof (forest_weights _ _ F) as Hw.
  apply list.Forall_app in Hw as [Hw0 Hw12]. rewrite !list.Forall_cons in Hw12. destruct Hw12 as (Hw2 & Hw1 & _).
  cbn [joined joined_heap b_heap heap_f]. constructor.
  - cbn [root weight]. rewrite znth_zput by lia. rewrite Z.eqb_refl, Hw1, Hw2. unfold uwrap. rewrite <- Z.add_mod by done. by rewrite Z.add_comm.
  - apply list.Forall_forall. intros t Ht. rewrite list.Forall_forall in Hw0. rewrite znth_zput by lia.
    pose proof (forest_root_bound b ts0 t Hbd0 Ht). destruct (Z.eqb_spec (b_extf b) (root t)); [lia|]. by apply Hw0.
Qed.

(** One round of the loop keeps the forest and makes it smaller by one tree. *)
Lemma join_forest b ts : 0 <= N -> forest b ts -> (forall i, 0 <= fq i) -> (2 <= length ts)%nat ->
  exists b' ts', join b = Some b' /\ forest b' ts' /\ length ts = S (length ts').
Proof.
  intros HN F Hfq H2. destruct (two_last ts H2) as (ts0 & t2 & t1 & ->).
  destruct (forest_parts b ts0 t2 t1 HN F) as (Hx & Hbd0 & Hbd2 & Hbd1 & Hnd). destruct (forest_depth _ _ F) as [Hd He].
  destruct (join_eq b ts0 t2 t1 HN F) as (ts' & Hjoin & Hpts & Hok & Hmin1 & Hmin2). pose proof (forest_count _ _ F) as Hc.
  assert (Hl : length ts' = S (length ts0)) by (apply Permutation_length in Hpts; done). unfold zlen in Hc. rewrite length_app in *. cbn [length] in *.
  assert (Hnodes : ts' ≫= nodes ≡ₚ b_extf b :: (ts0 ≫= nodes) ++ nodes t2 ++ nodes t1).
  { rewrite (bind_perm nodes _ _ Hpts). cbn [mbind list_bind nodes app]. constructor. apply Permutation_app_comm. }
  exists (joined b t2 t1 ts'), ts'. split; [done|]. split; [|lia].
  constructor; cbn [joined b_preds b_revtree b_depth b_extf].
  - exact Hok.
  - done.
  - unfold zlen, preds'. rewrite !zput_length. apply (forest_preds _ _ F).
  - unfold zlen, revtree'. rewrite !zput_length. apply (forest_revtree _ _ F).
  - lia.
  - unfold zlen. lia.
  - rewrite Hnodes. constructor; [|done]. rewrite !elem_of_app. rewrite list.Forall_forall in Hbd0, Hbd1, Hbd2.
    intros [Hin|[Hin|Hin]]; [specialize (Hbd0 _ Hin)|specialize (Hbd2 _ Hin)|specialize (Hbd1 _ Hin)]; lia.
  - rewrite Hnodes. constructor; [lia|]. repeat (apply list.Forall_app; split);
      (eapply list.Forall_impl; [first [exact Hbd0|exact Hbd1|exact Hbd2]|]; cbv beta; lia).
  - intros _. rewrite Hnodes. replace (b_extf b + 1 - 1) with (b_extf b) by lia. left.
  - rewrite Hpts. by apply joined_built.
  - pose proof (forest_leaves _ _ F) as HL. rewrite <- HL, (bind_perm leaves _ _ Hpts), bind_app.
    cbn [mbind list_bind leaves app]. rewrite app_nil_r. apply Permutation_app_comm.
  - rewrite Hpts. by apply joined_weights.
  - intros Ht c Hg. assert (Hr : Forall (fun t => 0 <= weight fq t < 2 ^ 32) (ts0 ++ [t2; t1])).
    { apply list.Forall_forall. intros t Hin. by eapply forest_weight_range. }
    assert (Hg' : greedy (map (weight fq) (HNode (b_extf b) t2 t1 :: ts0)) c) by (by eapply greedy_perm; [apply Permutation_map; exact Hpts|]).
    pose proof (forest_greedy _ _ F Ht _ (join_greedy ts0 t2 t1 (b_extf b) _ Hr (forest_weights _ _ F) Hmin1 Hmin2 c Hg')) as Hfin.
    rewrite (joins_sum_perm _ _ Hpts). rewrite map_app, total_app in Hfin. cbn [map joins total foldr] in *. unfold total in *.
    match type of Hfin with greedy _ ?x => match goal with |- greedy _ ?y => replace y with x by lia; exact Hfin end end.
Qed.

Definition items_ok : Prop := zlen items = N /\ Forall (fun item => 0 <= freq item < 2 ^ 32) items.

Lemma fq_range i : items_ok -> 0 <= fq i < 2 ^ 32.
Proof.
  intros [_ H]. unfold fq. destruct (aget items i) as [item|] eqn:E; [|lia]. apply aget_Some in E as [_ E].
  exact (Forall_lookup_1 _ _ _ _ H E).
Qed.

Lemma fq_item i : items_ok -> 0 <= i < N -> exists item, aget items i = Some item /\ freq item = fq i.
Proof.
  intros [H _] Hi. unfold fq. destruct (aget_range items i) as [item E]; [unfold zlen in H; lia|]. exists item. by rewrite E.
Qed.

Lemma efreqs_eq : items_ok -> 0 <= N ->
  exists efreqs, for_loopM (Z.to_nat N) 0 (fun i efreqs => item ← aget items i; aset efreqs i (freq item)) (replicate (Z.to_nat (2 * N)) 0) = Some efreqs /\
    zlen efreqs = 2 * N /\ forall i, 0 <= i < N -> znth efreqs i = fq i.
Proof.
  intros Hi HN. edestruct (for_loopM_inv (fun k efreqs => zlen efreqs = 2 * N /\ forall i, 0 <= i < k -> znth efreqs i = fq i) (Z.to_nat N) 0)
    as (efreqs & Hrun & Hl & He).
  3: exists efreqs; split; [exact Hrun|]; split; [exact Hl|]; intros i Hi'; apply He; lia.
  - intros k e Hk (Hl & He). destruct (fq_item k Hi) as (item & -> & Hf); [lia|]. step. unfold zlen in *.
    rewrite aset_zput by lia. eexists. split; [reflexivity|]. rewrite zput_length. split; [done|]. intros i Hi'.
    rewrite znth_zput by lia. destruct (Z.eqb_spec k i) as [->|]; [done|]. apply He. lia.
  - split; [|lia]. unfold zlen. rewrite length_replicate. lia.
Qed.

Lemma fill_heap_eq efreqs : items_ok -> 0 <= N -> zlen efreqs = 2 * N -> (forall i, 0 <= i < N -> znth efreqs i = fq i) ->
  exists heap, fill_heap efreqs items N = Some (heap, total (map fq used)) /\ heap_ok heap N /\ heap_f heap = efreqs /\ heap_h heap ≡ₚ used.
Proof.
  intros Hi HN Hl He. unfold fill_heap.
  edestruct (for_loopM_inv (fun k '(heap, sum) => heap_ok heap N /\ heap_f heap = efreqs /\
      heap_h heap ≡ₚ filter (fun i => 0 < fq i) (seqZ 0 k) /\ sum = total (map fq (filter (fun i => 0 < fq i) (seqZ 0 k)))) (Z.to_nat N) 0)
    as ([heap sum] & Hrun & Hok & Hf & Hh & Hs).
  3: { exists heap. rewrite Z.add_0_l, Z2Nat.id in * by lia. fold used in Hh, Hs. rewrite Hrun, Hs. done. }
  - intros k [heap sum] Hk (Hok & Hf & Hh & Hs). unfold zlen in Hl. rewrite aget_znth by lia. step. rewrite He by lia.
    rewrite seqZ_snoc, Z.add_0_l, filter_app by lia. destruct (Z.ltb_spec 0 (fq k)) as [Hpos|Hneg].
    + destruct (fq_item k Hi) as (item & -> & Hfr); [lia|]. step.
      assert (Hlen : Z.of_nat (length (heap_h heap)) < 2 * N).
      { apply Permutation_length in Hh. rewrite Hh. pose proof (length_filter (fun i => 0 < fq i) (seqZ 0 k)) as Hle. rewrite length_seqZ in Hle. lia. }
      destruct (heap_add_eq heap N k Hok ltac:(lia) Hlen) as (h & -> & Hp & Hok'). step. eexists. split; [reflexivity|].
      cbv beta iota. rewrite filter_cons_True, filter_nil by done. split_and!; [done|done| |].
      * cbn [heap_h]. rewrite Hp, Hh. apply Permutation_cons_append.
      * rewrite map_app, total_app, Hs, Hfr. cbn. lia.
    + eexists. split; [reflexivity|]. cbv beta iota. rewrite filter_cons_False, filter_nil, app_nil_r by lia. done.
  - change (seqZ 0 0) with (@nil Z). cbn [heap_f heap_h]. rewrite filter_nil. split_and!; [|done|done|done].
    unfold heap_ok. cbn [huff_heap_create heap_f heap_h heap_s heap_bytes]. unfold zlen in Hl. split_and!; [done|done|lia|constructor|constructor].
Qed.

(** At the start every item that occurs is a tree of its own. *)
Lemma forest_start heap : items_ok -> 0 <= N -> heap_ok heap N -> (forall i, 0 <= i < N -> znth (heap_f heap) i = fq i) -> heap_h heap ≡ₚ used ->
  forest (mkBuild heap (replicate (Z.to_nat (2 * N)) 0) (replicate (Z.to_nat (2 * N)) 0) 0 N) (map HLeaf (heap_h heap)).
Proof.
  intros Hi HN Hok Hf Hh. assert (Hin : forall i, i ∈ heap_h heap -> 0 <= i < N) by (intros i; rewrite Hh, used_elem; tauto).
  assert (Hnodes : map HLeaf (heap_h heap) ≫= nodes = heap_h heap) by (clear; induction (heap_h heap) as [|x l IH]; cbn in *; [done|by f_equal]).
  assert (Hleaves : map HLeaf (heap_h heap) ≫= leaves = heap_h heap) by (clear; induction (heap_h heap) as [|x l IH]; cbn in *; [done|by f_equal]).
  constructor; cbn [b_heap b_preds b_revtree b_depth b_extf]; rewrite ?Hnodes, ?Hleaves; try done; try lia.
  - rewrite map_map. cbn [root]. by rewrite map_id.
  - unfold zlen. rewrite length_replicate. lia.
  - unfold zlen. rewrite length_replicate. lia.
  - unfold zlen. rewrite length_map. apply Permutation_length in Hh. lia.
  - rewrite Hh. unfold used. apply NoDup_filter, NoDup_seqZ.
  - apply list.Forall_forall. done.
  - apply List.Forall_map, list.Forall_forall. intros i Hx. cbn. by apply Hin.
  - apply List.Forall_map, list.Forall_forall. intros i Hx. cbn [root weight]. rewrite Hf by (by apply Hin).
    symmetry. apply uwrap_small. by apply fq_range.
  - intros _ c Hg. rewrite !map_map in *. cbn [weight joins] in *.
    assert (E : total (map (fun _ : Z => 0) (heap_h heap)) = 0) by (clear; induction (heap_h heap); cbn; [done|unfold total in *; lia]).
    rewrite E, Z.add_0_r. eapply greedy_perm; [apply Permutation_map; exact Hh|exact Hg].
Qed.

Lemma join_loop_eq fuel : 0 <= N -> (forall i, 0 <= fq i) -> forall b ts, forest b ts -> (0 < length ts <= fuel)%nat ->
  exists b' t, join_loop fuel b = Some b' /\ forest b' [t].
Proof.
  intros HN Hfq. induction fuel as [|fuel IH]; intros b ts F Hl; [lia|]. cbn [join_loop].
  rewrite (forest_roots _ _ F), length_map. destruct (Nat.ltb_spec 1 (length ts)) as [H1|H1].
  - destruct (join_forest b ts HN F Hfq) as (b' & ts' & -> & F' & Hl'); [lia|]. step. apply (IH b' ts' F'). lia.
  - destruct ts as [|t [|]]; cbn in *; try lia. by exists b, t.
Qed.
(** What [huff_init] returns: the arrays of one tree over the items that occur. *)
Record coded (extf : Z) (preds revtree : list Z) (t : htree) : Prop := {
  coded_preds : zlen preds = 2 * N;
  coded_revtree : zlen revtree = 2 * N;
  coded_extf : extf = N + zlen used - 1;
  coded_distinct : NoDup (nodes t);
  coded_bound : Forall (fun e => 0 <= e < extf) (nodes t);
  coded_built : built N preds revtree t;
  coded_last : N < extf -> root t = extf - 1;
  coded_root : znth preds (root t) = root t;
  coded_leaves : leaves t ≡ₚ used;
  coded_greedy : total (map fq used) < 2 ^ 32 -> greedy (map fq used) (joins fq t) }.

Lemma root_max preds revtree t e : built N preds revtree t -> e ∈ nodes t -> e <= root t.
Proof.
  induction t as [i|r t0 IH0 t1 IH1]; intros Hb He; cbn [nodes root] in *.
  - apply list_elem_of_singleton in He. lia.
  - destruct Hb as (_ & ? & ? & _ & _ & _ & _ & B0 & B1). apply elem_of_cons in He as [->|He]; [lia|].
    apply elem_of_app in He as [He|He]; [specialize (IH0 B0 He)|specialize (IH1 B1 He)]; lia.
Qed.

Lemma huff_init_eq : items_ok -> 0 < N -> used <> [] ->
  exists extf preds revtree t, huff_init items N = Some (Some (extf, total (map fq used), preds, revtree)) /\ coded extf preds revtree t.
Proof.
  intros Hi HN Hu. unfold huff_init. replace (N <=? 0) with false by (symmetry; apply Z.leb_gt; lia).
  destruct (efreqs_eq Hi ltac:(lia)) as (efreqs & -> & Hl & He). step.
  destruct (fill_heap_eq efreqs Hi ltac:(lia) Hl He) as (heap & -> & Hok & <- & Hh). step.
  pose proof (forest_start heap Hi ltac:(lia) Hok He Hh) as F.
  assert (Hfq : forall i, 0 <= fq i) by (intros i; pose proof (fq_range i Hi); lia).
  destruct (join_loop_eq (S (Z.to_nat N)) ltac:(lia) Hfq _ _ F) as (b & t & -> & F').
  { rewrite length_map. pose proof (Permutation_length Hh) as El. pose proof (zlen_used ltac:(lia)) as Hz. unfold zlen in Hz.
    destruct used; [done|]. cbn in *. lia. }
  step. pose proof (forest_heap _ _ F') as Hokb. pose proof (forest_roots _ _ F') as Hr. cbn [map] in Hr.
  destruct (heap_remove_eq (b_heap b) N [] (root t) Hokb Hr) as (-> & _ & Hrr & _). cbn beta iota.
  pose proof (forest_preds _ _ F') as Hp. unfold zlen in Hp. rewrite aset_zput by lia. step.
  pose proof (forest_count _ _ F') as Hc. unfold zlen in Hc. cbn [length] in Hc. destruct (forest_depth _ _ F') as [Hd Hx].
  pose proof (forest_distinct _ _ F') as Hnd. pose proof (forest_bound _ _ F') as Hbd. pose proof (forest_built _ _ F') as Hbt.
  pose proof (forest_leaves _ _ F') as Hlv. pose proof (forest_last _ _ F') as Hlast. pose proof (forest_greedy _ _ F') as Hg.
  cbn [mbind list_bind] in Hnd, Hbd, Hlv, Hlast. rewrite app_nil_r in Hnd, Hbd, Hlv, Hlast. rewrite list.Forall_cons in Hbt. destruct Hbt as [Hbt _].
  eexists _, _, _, t. split; [reflexivity|]. constructor.
  - unfold zlen. rewrite zput_length. exact Hp.
  - apply (forest_revtree _ _ F').
  - unfold zlen. lia.
  - exact Hnd.
  - exact Hbd.
  - eapply built_frame; [exact Hbt| | |done].
    + eapply list.Forall_impl; [exact Hbd|]. cbv beta. intros e He'. exact (proj2 He').
    + intros i Hi'. rewrite znth_zput by lia. destruct (Z.eqb_spec (root t) i) as [<-|]; [|done].
      rewrite nodes_root in Hnd. inversion Hnd; done.
  - intros HNx. specialize (Hlast HNx). pose proof (root_max _ _ _ _ Hbt Hlast). rewrite list.Forall_forall in Hbd.
    pose proof (Hbd _ (root_node t)). cbv beta in *. lia.
  - rewrite znth_zput by lia. by rewrite Z.eqb_refl.
  - exact Hlv.
  - intros Ht. specialize (Hg Ht 0 ltac:(constructor)). cbn in Hg. by rewrite Z.add_0_r in Hg.
Qed.
End build.
