(* ===== verification/HuffmanCode.v ===== *)
(** * huffstream.c: correctness of the Huffman codes

    What [huff_encode] writes [huff_decodeitem] reads, no code is the beginning of another one,
    no prefix code takes fewer bits, and [huff_create] returns for up to 64 items that occur. *)
From Stdlib Require Import ZArith Lia.
From stdpp Require Import base list numbers option sorting.
From S2P Require Import Prelude Bits HuffStream Kraft Huffman.
Open Scope Z_scope.

(** ** From the tree to the codes *)

(** The subtree at the end of a path. *)
Fixpoint sub (t : htree) (path : list bool) {struct path} : option htree :=
  match path with
  | [] => Some t
  | b :: path => match t with HLeaf _ => None | HNode _ t0 t1 => sub (if b : bool then t1 else t0) path end
  end.

Lemma sub_app t p q : sub t (p ++ q) = s ← sub t p; sub s q.
Proof. revert t. induction p as [|b p IH]; intros t; cbn [app sub]; [by rewrite bind_Some|]. destruct t; [done|apply IH]. Qed.

Lemma sub_nodes t p s : sub t p = Some s -> forall e, e ∈ nodes s -> e ∈ nodes t.
Proof.
  revert t. induction p as [|b p IH]; intros t H e He; [by injection H as ->|]. cbn [sub] in H. destruct t as [|r t0 t1]; [done|].
  specialize (IH _ H e He). cbn [nodes]. right. apply elem_of_app. destruct b; [by right|by left].
Qed.

Lemma sub_leaf t i : i ∈ leaves t <-> exists p, sub t p = Some (HLeaf i).
Proof.
  split.
  - induction t as [j|e t0 IH0 t1 IH1]; cbn [leaves]; intros H.
    + apply list_elem_of_singleton in H as ->. by exists [].
    + apply elem_of_app in H as [H|H]; [destruct (IH0 H) as [p Hp]; by exists (false :: p)|destruct (IH1 H) as [p Hp]; by exists (true :: p)].
  - intros [p H]. revert t H. induction p as [|b p IH]; intros t H; [injection H as ->; left|]. cbn [sub] in H.
    destruct t as [|e t0 t1]; [done|]. apply IH in H. cbn [leaves]. apply elem_of_app. destruct b; [by right|by left].
Qed.

Lemma built_sub N preds revtree t p s : built N preds revtree t -> sub t p = Some s -> built N preds revtree s.
Proof.
  revert t. induction p as [|b p IH]; intros t Hb H; [by injection H as ->|]. cbn [sub] in H. destruct t as [|e t0 t1]; [done|].
  cbn [built] in Hb. destruct Hb as (_ & _ & _ & _ & _ & _ & _ & B0 & B1). destruct b; (eapply IH; [|exact H]); done.
Qed.

(** A path is as long as it has nodes above its end. *)
Lemma path_bound N preds revtree t p s : built N preds revtree t -> sub t p = Some s -> N <= root t -> Z.of_nat (length p) <= root t - N + 1.
Proof.
  revert t. induction p as [|b p IH]; intros t Hb H HN; [cbn; lia|]. cbn [sub] in H. destruct t as [|e t0 t1]; [done|].
  cbn [built root] in *. destruct Hb as (H0 & H1 & H2 & _ & _ & _ & _ & B0 & B1). cbn [length].
  set (c := if b then t1 else t0) in *. assert (Hc : 0 <= root c < e /\ built N preds revtree c) by (subst c; destruct b; done).
  destruct (Z.le_gt_cases N (root c)) as [Hle|Hgt].
  - specialize (IH c (proj2 Hc) H Hle). lia.
  - destruct c as [i|e' t0' t1'].
    + destruct p; [cbn; lia|done].
    + destruct Hc as [Hc1 Hc2]. cbn [built root] in *. lia.
Qed.

(** Climbing from the end of a path collects its bits, the last one lowest. *)
Lemma climb_eq N preds revtree t : 0 < N -> built N preds revtree t -> znth preds (root t) = root t -> Forall (fun e => 0 <= e < zlen preds) (nodes t) ->
  forall fuel p q s r, sub t p = Some s ->
    climb fuel preds (root s) (znth preds (root s)) (msb_val q) (Z.of_nat (length q)) = Some r ->
    r = (msb_val (p ++ q), Z.of_nat (length (p ++ q))).
Proof.
  intros HN Hb Hroot Hin. induction fuel as [|fuel IH]; intros p q s r Hs Hrun; [done|]. cbn [climb] in Hrun.
  destruct p as [|b p _] using rev_ind.
  { injection Hs as <-. rewrite Hroot, Z.eqb_refl in Hrun. cbn [negb andb] in Hrun. injection Hrun as <-. done. }
  rewrite sub_app in Hs. destruct (sub t p) as [u|] eqn:Eu; [|done]. rewrite bind_Some in Hs. cbn [sub] in Hs.
  destruct u as [|e t0 t1]; [done|]. injection Hs as Hs. pose proof (built_sub _ _ _ _ _ _ Hb Eu) as Hbu.
  cbn [built] in Hbu. destruct Hbu as (He & Hr0 & Hr1 & _ & _ & P0 & P1 & _ & _).
  assert (Hpred : znth preds (root s) = if b then e else - e) by (subst s; by destruct b).
  assert (Hrs : 0 <= root s < e) by (subst s; by destruct b).
  assert (Hein : 0 <= e < zlen preds).
  { rewrite list.Forall_forall in Hin. apply Hin. apply (sub_nodes _ _ _ Eu). left. }
  rewrite Hpred in Hrun.
  replace (negb _ && negb _) with true in Hrun by (symmetry; destruct b; apply andb_true_intro; split; apply negb_true_iff, Z.eqb_neq; lia).
  destruct b.
  - replace (0 <=? e) with true in Hrun by (symmetry; apply Z.leb_le; lia).
    destruct (Z.of_nat (length q) <? 63); [|done]. rewrite bind_Some in Hrun. cbn beta iota in Hrun.
    rewrite aget_znth in Hrun by (unfold zlen in Hein; lia). rewrite bind_Some in Hrun.
    rewrite lor_shiftl in Hrun by (pose proof (msb_val_range q); lia).
    replace (msb_val q + 2 ^ Z.of_nat (length q) * 1) with (msb_val (true :: q)) in Hrun by (rewrite msb_val_cons; cbn [c_bool]; lia).
    replace (Z.of_nat (length q) + 1) with (Z.of_nat (length (true :: q))) in Hrun by (cbn [length]; lia).
    specialize (IH p (true :: q) _ r Eu Hrun). by rewrite <- app_assoc.
  - replace (0 <=? - e) with false in Hrun by (symmetry; apply Z.leb_gt; lia). rewrite bind_Some in Hrun. cbn beta iota in Hrun.
    rewrite Z.opp_involutive in Hrun.
    rewrite aget_znth in Hrun by (unfold zlen in Hein; lia). rewrite bind_Some in Hrun.
    replace (msb_val q) with (msb_val (false :: q)) in Hrun by (rewrite msb_val_cons; cbn [c_bool]; lia).
    replace (Z.of_nat (length q) + 1) with (Z.of_nat (length (false :: q))) in Hrun by (cbn [length]; lia).
    specialize (IH p (false :: q) _ r Eu Hrun). by rewrite <- app_assoc.
Qed.

(** The reversed bits of a path are its bits from the root on. *)
Lemma reversed_path p : (length p <= 64)%nat -> exists r, huff_reversebits (msb_val p) (Z.of_nat (length p)) = Some r /\
  0 <= r < 2 ^ Z.of_nat (length p) /\ bits_of (length p) r = p.
Proof.
  intros Hl. destruct (huff_reversebits_eq (msb_val p) (Z.of_nat (length p))) as (r & -> & Hr & Ht); [lia|].
  exists r. split; [done|]. split.
  - split; [lia|]. apply testbit_bound; [lia|lia|]. intros i Hi. rewrite Ht by lia. destruct (Z.ltb_spec i (Z.of_nat (length p))); [lia|done].
  - apply list_eq. intros k. destruct (Nat.lt_ge_cases k (length p)) as [Hk|Hk].
    + rewrite bits_of_get, Ht by lia. rewrite msb_val_testbit by lia.
      replace (Z.to_nat _) with k by lia. destruct (p !! k) as [b|] eqn:E; [|apply lookup_ge_None in E; lia].
      destruct (Z.ltb_spec (Z.of_nat k) (Z.of_nat (length p))); [|lia].
      by destruct (Z.ltb_spec (Z.of_nat (length p) - 1 - Z.of_nat k) (Z.of_nat (length p))); [|lia].
    + rewrite !lookup_ge_None_2; [done|lia|]. rewrite bits_of_length. lia.
Qed.

Lemma for_loopM_pres {S} (P : Z -> S -> Prop) n i body (s s' : S) :
  (forall j t t', i <= j < i + Z.of_nat n -> P j t -> body j t = Some t' -> P (j + 1) t') ->
  P i s -> for_loopM n i body s = Some s' -> P (i + Z.of_nat n) s'.
Proof.
  revert i s. induction n as [|n IH]; intros i s Hb Hs Hrun.
  - injection Hrun as <-. by rewrite Z.add_0_r.
  - rewrite for_loopM_S in Hrun. destruct (body i s) as [t|] eqn:E; [|done]. rewrite bind_Some in Hrun.
    replace (i + Z.of_nat (Datatypes.S n)) with (i + 1 + Z.of_nat n) by lia. apply (IH (i + 1) t); [|eapply Hb; [|done|done]; lia|done].
    intros j u u' Hj. apply Hb. lia.
Qed.

Section calc.
Context (items : list huffitem) (N : Z) (extf : Z) (preds revtree : list Z) (t : htree).
Context (Hitems : items_ok items N) (HN : 0 < N) (C : coded items N extf preds revtree t).

(** The code of an item is the path of its leaf, as far as its fields can hold it. *)
Definition has_code (item : huffitem) (p : list bool) : Prop :=
  code_numbits item = Z.of_nat (length p) /\ bits_of (length p) (code_bits item) = p.

Lemma calc_bound : Forall (fun e => 0 <= e < zlen preds) (nodes t).
Proof using C HN.
  eapply list.Forall_impl; [exact (coded_bound _ _ _ _ _ _ C)|]. cbv beta. intros e He.
  rewrite (coded_preds _ _ _ _ _ _ C). pose proof (coded_extf _ _ _ _ _ _ C). pose proof (zlen_used items N). lia.
Qed.

Lemma sub_unique p q i : sub t p = Some (HLeaf i) -> sub t q = Some (HLeaf i) -> p = q.
Proof using C.
  pose proof (coded_distinct _ _ _ _ _ _ C) as Hnd. clear C. revert q Hnd. induction p as [|b p IH] in t |- *; intros q Hnd Hp Hq.
  - injection Hp as ->. by destruct q.
  - destruct t as [|e t0 t1]; [done|]. destruct q as [|c q]; [done|]. cbn [sub nodes] in *.
    apply NoDup_cons in Hnd as [_ Hnd]. rewrite NoDup_app in Hnd. destruct Hnd as (N0 & Hd & N1).
    assert (Hi : forall u path, sub u path = Some (HLeaf i) -> i ∈ nodes u) by (intros u path Hu; apply (sub_nodes _ _ _ Hu); left).
    destruct b, c.
    + f_equal. by apply (IH t1).
    + destruct (Hd i); by eapply Hi.
    + destruct (Hd i); by eapply Hi.
    + f_equal. by apply (IH t0).
Qed.

Lemma leaf_used i p : sub t p = Some (HLeaf i) -> 0 <= i < N /\ 0 < fq items i.
Proof using C.
  intros Hp. rewrite <- used_elem, <- (coded_leaves _ _ _ _ _ _ C). apply sub_leaf. eauto.
Qed.

(** After the items below [k]: they carry their codes, and [maxbits] bounds the lengths. *)
Definition calc_done (k : Z) (st : Z * Z * Z * Z * list huffitem) : Prop :=
  let '(maxbits, _, _, _, its) := st in zlen its = N /\
  (forall i, k <= i < N -> aget its i = aget items i) /\
  forall i p, i < k -> sub t p = Some (HLeaf i) -> Z.of_nat (length p) <= maxbits /\
    (maxbits <= 22 -> exists item, aget its i = Some item /\ has_code item p).

Lemma calc_item k p mb nz tby tbi nz' tby' tbi' its item r : 0 <= k < N -> sub t p = Some (HLeaf k) -> calc_done k (mb, nz, tby, tbi, its) ->
  huff_reversebits (msb_val p) (Z.of_nat (length p)) = Some r ->
  calc_done (k + 1) (if mb <? Z.of_nat (length p) then Z.of_nat (length p) else mb, nz', tby', tbi',
    zput its k (mkItem (uwrap 5 (Z.of_nat (length p))) (uwrap 22 (u32 r)) (code_patlen item) (freq item) (pattern item))).
Proof using Hitems HN C.
  intros Hk Hp (Hl & Hsame & Hdone) Er. unfold calc_done, zlen in *. rewrite zput_length.
  set (mb' := if mb <? _ then _ else mb). assert (Hmb' : Z.of_nat (length p) <= mb' /\ mb <= mb') by (subst mb'; destruct (Z.ltb_spec mb (Z.of_nat (length p))); lia).
  clearbody mb'. split_and!; [done| |].
  - intros i Hi. rewrite aget_zput by lia. destruct (Z.eqb_spec k i); [lia|]. apply Hsame. lia.
  - intros i p' Hi Hp'. rewrite aget_zput by lia. destruct (Z.eqb_spec k i) as [<-|Hne].
    + rewrite (sub_unique p' p k Hp' Hp). split; [lia|]. intros Hmb.
      destruct (reversed_path p) as (r' & Er' & Hr' & Hbits); [lia|]. assert (r = r') as <- by congruence.
      eexists. split; [reflexivity|].
      assert (2 ^ Z.of_nat (length p) <= 2 ^ 22) by (apply Z.pow_le_mono_r; lia).
      split; cbn [code_numbits code_bits]; [apply uwrap_small; change (2 ^ 5) with 32; lia|].
      rewrite (uwrap_small 32 r), (uwrap_small 22 r) by lia. exact Hbits.
    + destruct (Hdone i p' ltac:(lia) Hp') as [H1 H2]. split; [lia|]. intros Hmb. apply H2. lia.
Qed.

Lemma huff_calc_codes maxbits nonz tbytes tbits items' :
  huff_calc preds items N = Some (maxbits, nonz, tbytes, tbits, items') ->
  zlen items' = N /\
  forall i p, sub t p = Some (HLeaf i) -> Z.of_nat (length p) <= maxbits /\
    (maxbits <= 22 -> exists item, aget items' i = Some item /\ has_code item p).
Proof using Hitems HN C.
  intros Hrun. assert (HP : calc_done (0 + Z.of_nat (Z.to_nat N)) (maxbits, nonz, tbytes, tbits, items')).
  { eapply (for_loopM_pres calc_done); [| |exact Hrun].
    - intros k [[[[mb nz] tby] tbi] its] s' Hk Hd Hb. pose proof Hd as (Hl & Hsame & Hdone).
      destruct (fq_item items N k Hitems ltac:(lia)) as (item & Hget & Hf). rewrite Hsame, Hget, bind_Some in Hb by lia.
      destruct (Z.eqb_spec (freq item) 0) as [E0|E0]; cbn [negb] in Hb.
      + injection Hb as <-. split_and!; [done|intros i Hi; apply Hsame; lia|].
        intros i p Hi Hp. apply Hdone; [|done]. destruct (Z.eq_dec i k) as [->|]; [|lia]. pose proof (leaf_used k p Hp). lia.
      + pose proof (coded_preds _ _ _ _ _ _ C) as Hlp.
        assert (Hin : k ∈ leaves t) by (rewrite (coded_leaves _ _ _ _ _ _ C), used_elem; pose proof (fq_range items N k Hitems); lia).
        apply sub_leaf in Hin as [p Hp]. unfold zlen in Hlp. rewrite aget_znth, bind_Some in Hb by lia.
        destruct (climb _ _ _ _ _ _) as [r|] eqn:Er; [|done].
        apply (climb_eq N preds revtree t HN (coded_built _ _ _ _ _ _ C) (coded_root _ _ _ _ _ _ C) calc_bound _ p [] (HLeaf k) r Hp) in Er.
        rewrite app_nil_r in Er. subst r. rewrite bind_Some in Hb. cbn beta iota in Hb.
        destruct (huff_reversebits _ _) as [r|] eqn:Er; [|done]. rewrite bind_Some in Hb.
        unfold zlen in Hl. rewrite aset_zput, bind_Some in Hb by lia. injection Hb as <-. eapply calc_item; [lia|done|exact Hd|done].
    - split_and!; [apply Hitems|done|]. intros i p Hi Hp. pose proof (leaf_used i p Hp). lia. }
  destruct HP as (Hl & _ & HP). split; [done|]. intros i p Hp. apply HP; [|done]. pose proof (leaf_used i p Hp). lia.
Qed.
(** ** The tree of the decoder *)

Definition fits : Prop := N < 2 ^ 29.

Lemma root_entry (e : Z) (c : htree) : fits -> N <= e < 2 * N -> 0 <= root c < e -> built N preds revtree c ->
  tree_entry N (e - N) (root c) = match c with HLeaf i => i | HNode r _ _ => - (2 * (e - r)) end.
Proof using HN.
  intros Hf He Hr Hb. unfold tree_entry. destruct c as [i|r c0 c1]; cbn [root built] in *.
  - destruct (Z.ltb_spec i N); [done|lia].
  - destruct (Z.ltb_spec r N); [lia|]. unfold fits in Hf. rewrite uwrap_small by lia. rewrite swrap_small by lia. lia.
Qed.

Lemma make_tree_eq : fits -> exists tr, make_tree (extf - N) extf N revtree = Some tr /\ zlen tr = 2 * extf /\
  forall e, N <= e < extf ->
    aget tr (2 * (extf - 1 - e)) = Some (tree_entry N (e - N) (znth revtree ((e - N) * 2))) /\
    aget tr (2 * (extf - 1 - e) + 1) = Some (tree_entry N (e - N) (znth revtree ((e - N) * 2 + 1))).
Proof using HN C Hitems.
  intros Hf. pose proof (coded_extf _ _ _ _ _ _ C) as Hx. pose proof (coded_revtree _ _ _ _ _ _ C) as Hlr.
  assert (Hu : 0 <= zlen (used items N) <= N) by (pose proof (zlen_used items N); unfold zlen in *; lia).
  unfold make_tree. edestruct (for_loopM_inv (fun n tr => zlen tr = 2 * extf /\ forall e, N <= e < extf -> extf - 1 - e < n ->
    aget tr (2 * (extf - 1 - e)) = Some (tree_entry N (e - N) (znth revtree ((e - N) * 2))) /\
    aget tr (2 * (extf - 1 - e) + 1) = Some (tree_entry N (e - N) (znth revtree ((e - N) * 2 + 1)))) (Z.to_nat (extf - N)) 0)
    as (tr & Hrun & Hl & Htr).
  3: { exists tr. split; [exact Hrun|]. split; [done|]. intros e He. apply Htr; lia. }
  - intros n tr Hn (Hl & Htr). unfold zlen in *.
    rewrite !aget_znth by lia. step. step. rewrite aset_zput by lia. step. rewrite aset_zput by (rewrite zput_length; lia).
    eexists. split; [reflexivity|]. rewrite !zput_length. split; [done|]. intros e He Hlt.
    rewrite !aget_zput by (rewrite ?zput_length; lia).
    destruct (Z.eqb_spec (n * 2 + 1) (2 * (extf - 1 - e))); [lia|].
    destruct (Z.eqb_spec (n * 2) (2 * (extf - 1 - e) + 1)); [lia|].
    destruct (Z.eqb_spec (n * 2) (2 * (extf - 1 - e))).
    + destruct (Z.eqb_spec (n * 2 + 1) (2 * (extf - 1 - e) + 1)); [|lia].
      replace (extf - N - 1 - n) with (e - N) by lia. rewrite Z.add_0_r. done.
    + destruct (Z.eqb_spec (n * 2 + 1) (2 * (extf - 1 - e) + 1)); [lia|]. apply Htr; lia.
  - split; [|intros; lia]. unfold zlen in *. rewrite length_replicate. lia.
Qed.

(** From the node [e] the decoder follows the path to a leaf. *)
Lemma descend_eq tr hp : fits -> hwf hp -> 
  (forall e, N <= e < extf ->
    aget tr (2 * (extf - 1 - e)) = Some (tree_entry N (e - N) (znth revtree ((e - N) * 2))) /\
    aget tr (2 * (extf - 1 - e) + 1) = Some (tree_entry N (e - N) (znth revtree ((e - N) * 2 + 1)))) ->
  forall rounds path s i pos, built N preds revtree s -> N <= root s < extf -> sub s path = Some (HLeaf i) ->
    (length path <= rounds)%nat -> stored hp pos path ->
    descend rounds tr N (2 * (extf - 1 - root s)) (hat hp pos) = Some (Item i, hat hp (pos + Z.of_nat (length path))).
Proof using HN C Hitems.
  intros Hf Hw Htr. pose proof (coded_extf _ _ _ _ _ _ C) as Hx. pose proof (zlen_used items N) as Hu. unfold zlen in *.
  induction rounds as [|rounds IH]; intros path s i pos Hb Hs Hp Hl Hst.
  - destruct path; [|cbn in Hl; lia]. injection Hp as ->. cbn in *. lia.
  - destruct path as [|b path]; [injection Hp as ->; cbn in *; lia|]. cbn [sub] in Hp. destruct s as [|e t0 t1]; [done|].
    cbn [root built] in *. destruct Hb as (He & H0 & H1 & R0 & R1 & _ & _ & B0 & B1).
    destruct (hgetbit_stored hp pos b path Hw Hst) as [Hget Hst']. cbn [descend]. rewrite Hget. step.
    replace (c_bool b <? 0) with false by (by destruct b).
    set (c := if b then t1 else t0) in *.
    assert (Hc : 0 <= root c < e /\ built N preds revtree c /\
      aget tr (2 * (extf - 1 - e) + c_bool b) = Some (tree_entry N (e - N) (root c))).
    { destruct (Htr e Hs) as [T0 T1]. subst c. destruct b; cbn [c_bool]; rewrite ?Z.add_0_r.
      - rewrite T1, R1. done.
      - rewrite T0, R0. done. }
    destruct Hc as (Hrc & Hbc & ->). step. rewrite root_entry by (done || lia).
    destruct c as [j|r c0 c1].
    + destruct path; [|done]. injection Hp as ->. cbn [built] in Hbc. destruct (Z.ltb_spec i 0); [lia|]. destruct (Z.leb_spec N i); [lia|].
      done.
    + cbn [root] in Hrc. pose proof Hbc as (Hr & _). destruct (Z.ltb_spec (- (2 * (e - r))) 0); [|lia].
      replace (2 * (extf - 1 - e) - - (2 * (e - r))) with (2 * (extf - 1 - root (HNode r c0 c1))) by (cbn [root]; lia).
      rewrite (IH path (HNode r c0 c1) i (pos + 1) Hbc) by (cbn [root length] in *; done || lia).
      do 3 f_equal. cbn [length]. lia.
Qed.
End calc.

(** ** Whole codes *)

(** The bits that [huff_encode] writes for an item. *)
Definition code_of (items : list huffitem) (i : Z) : list bool :=
  match aget items i with Some item => bits_of (Z.to_nat (code_numbits item)) (code_bits item) | None => [] end.

Lemma put_code_eq hp c n : hwf hp -> room hp n -> put_code hp c (Z.of_nat n) = Some (hputs hp (bits_of n c)).
Proof.
  intros Hw Hr. unfold put_code. rewrite Nat2Z.id.
  match goal with |- context [for_loopM n 0 ?b _] => set (body := b) end.
  assert (H : forall i, for_loopM n i body (c, hp) = Some (Z.shiftr c (Z.of_nat n), hputs hp (bits_of n c))); [|by rewrite H].
  revert c hp Hw Hr. induction n as [|n IH]; intros c hp Hw Hr i.
  - change (for_loopM 0 i body (c, hp)) with (Some (c, hp)). by rewrite Z.shiftr_0_r.
  - rewrite for_loopM_S. assert (Hr1 : room hp 1) by (eapply room_le; [|done]; lia).
    replace (body i (c, hp)) with (Some (Z.shiftr c 1, hput1 hp (Z.testbit c 0)))
      by (unfold body; rewrite hputbit_eq by done; rewrite bind_Some; by rewrite land1_truth).
    step. rewrite IH by first [by apply hput1_wf | by apply room_hput1].
    rewrite bits_of_cons, Z.shiftr_shiftr by lia. by replace (1 + Z.of_nat n) with (Z.of_nat (S n)) by lia.
Qed.

Lemma huff_encode_eq items l : forall hp, hwf hp ->
  Forall (fun i => exists item, aget items i = Some item /\ 0 <= code_numbits item) l ->
  room hp (length (concat (map (code_of items) l))) ->
  huff_encode hp items l (Z.of_nat (length l)) = Some (Z.of_nat (length (concat (map (code_of items) l))), hputs hp (concat (map (code_of items) l))).
Proof.
  intros hp Hw Hl Hr. unfold huff_encode. rewrite Nat2Z.id.
  assert (H : forall pre k, for_loopM (length l) (Z.of_nat (length pre)) (fun i '(count, hp) => ind ← aget (pre ++ l) i; item ← aget items ind;
      hp ← put_code hp (code_bits item) (code_numbits item); Some (count + code_numbits item, hp)) (k, hp)
    = Some (k + Z.of_nat (length (concat (map (code_of items) l))), hputs hp (concat (map (code_of items) l)))); [|exact (H [] 0)].
  revert hp Hw Hr. induction Hl as [|i l (item & Hi & Hn) _ IH]; intros hp Hw Hr pre k; [cbn; by rewrite Z.add_0_r|].
  cbn [length map concat] in *. rewrite for_loopM_S. rewrite length_app in Hr.
  assert (Ei : aget (pre ++ i :: l) (Z.of_nat (length pre)) = Some i).
  { apply aget_Some. split; [lia|]. rewrite Nat2Z.id, lookup_app_r, Nat.sub_diag by lia. done. }
  rewrite Ei. step. rewrite Hi. step.
  assert (Ec : code_of items i = bits_of (Z.to_nat (code_numbits item)) (code_bits item)) by (unfold code_of; by rewrite Hi).
  rewrite Ec in Hr |- *. rewrite bits_of_length in Hr. destruct (room_app hp _ _ Hw Hr (bits_of (Z.to_nat (code_numbits item)) (code_bits item))) as [Hw2 Hr2]; [apply bits_of_length|].
  assert (Hr1 : room hp (Z.to_nat (code_numbits item))) by (eapply room_le; [|exact Hr]; lia).
  rewrite <- (Z2Nat.id (code_numbits item)) at 1 by done. rewrite put_code_eq by done. step. step.
  specialize (IH _ Hw2 Hr2 (pre ++ [i]) (k + code_numbits item)).
  rewrite <- app_assoc in IH. cbn [app] in IH. rewrite length_app in IH. cbn [length] in IH.
  replace (Z.of_nat (length pre) + 1) with (Z.of_nat (length pre + 1)) by lia. rewrite IH.
  rewrite length_app, bits_of_length, hputs_app. do 2 f_equal. lia.
Qed.

(** What a call of [huff_create] that returns has built. *)
Record created (items : list huffitem) (N : Z) (huff : huffcode) (items' : list huffitem) (extf : Z) (preds revtree : list Z) (t : htree) : Prop := {
  created_coded : coded items N extf preds revtree t;
  created_depth : depth huff = extf - N;
  created_numitems : numitems huff = N;
  created_freqsum : freqsum huff = total (map (fq items) (used items N));
  created_tree : forall e, N <= e < extf ->
    aget (tree huff) (2 * (extf - 1 - e)) = Some (tree_entry N (e - N) (znth revtree ((e - N) * 2))) /\
    aget (tree huff) (2 * (extf - 1 - e) + 1) = Some (tree_entry N (e - N) (znth revtree ((e - N) * 2 + 1)));
  created_codes : forall i p, sub t p = Some (HLeaf i) -> Z.of_nat (length p) <= maxbits huff /\
    (maxbits huff <= 22 -> exists item, aget items' i = Some item /\ has_code item p) }.

Lemma create_inv items N huff items' : items_ok items N -> 0 < N < 2 ^ 29 -> used items N <> [] ->
  huff_create items N = Some (Some (huff, items')) ->
  exists extf preds revtree t, created items N huff items' extf preds revtree t.
Proof.
  intros Hi [HN Hf] Hu Hrun. destruct (huff_init_eq items N Hi HN Hu) as (extf & preds & revtree & t & Hinit & C).
  unfold huff_create in Hrun. rewrite Hinit, bind_Some in Hrun. cbn beta iota in Hrun.
  destruct (make_tree_eq items N extf preds revtree t Hi HN C Hf) as (tr & Htr & _ & Hentries). rewrite Htr, bind_Some in Hrun.
  destruct (huff_calc preds items N) as [[[[[mb nz] tby] tbi] its]|] eqn:Ecalc; [|done]. rewrite bind_Some in Hrun. cbn beta iota in Hrun.
  injection Hrun as <- <-. destruct (huff_calc_codes items N extf preds revtree t Hi HN C _ _ _ _ _ Ecalc) as [_ Hcodes].
  exists extf, preds, revtree, t. constructor; cbn [depth numitems freqsum tree maxbits]; done.
Qed.

Section codes.
Context (items : list huffitem) (N : Z) (huff : huffcode) (items' : list huffitem).
Context (Hitems : items_ok items N) (HN : 0 < N < 2 ^ 29) (Hcreate : huff_create items N = Some (Some (huff, items'))) (Hmax : maxbits huff <= 22).

Lemma code_path extf preds revtree t i p : created items N huff items' extf preds revtree t -> sub t p = Some (HLeaf i) ->
  code_of items' i = p /\ exists item, aget items' i = Some item /\ 0 <= code_numbits item.
Proof using Hmax.
  intros K Hp. destruct (created_codes _ _ _ _ _ _ _ _ K i p Hp) as [_ Hc]. destruct (Hc Hmax) as (item & Hget & Hn & Hb).
  split; [|exists item; split; [done|lia]]. unfold code_of. rewrite Hget, Hn, Nat2Z.id. exact Hb.
Qed.

Lemma used_path extf preds revtree t i : created items N huff items' extf preds revtree t -> i ∈ used items N -> exists p, sub t p = Some (HLeaf i).
Proof using.
  intros K Hin. apply sub_leaf. rewrite (coded_leaves _ _ _ _ _ _ (created_coded _ _ _ _ _ _ _ _ K)). done.
Qed.

Lemma decodeitem_eq extf preds revtree t hp pos i : created items N huff items' extf preds revtree t -> (2 <= length (used items N))%nat ->
  i ∈ used items N -> hwf hp -> stored hp pos (code_of items' i) ->
  huff_decodeitem 1 (tree huff) (depth huff) (numitems huff) (hat hp pos) = Some (Some i, hat hp (pos + Z.of_nat (length (code_of items' i)))).
Proof using Hmax Hitems HN.
  intros K Hlen Hin Hw Hst. pose proof (created_coded _ _ _ _ _ _ _ _ K) as C.
  destruct (used_path _ _ _ _ _ K Hin) as [p Hp]. destruct (code_path _ _ _ _ _ _ K Hp) as [E _]. rewrite E in *.
  pose proof (coded_extf _ _ _ _ _ _ C) as Hx. unfold zlen in Hx.
  pose proof (coded_last _ _ _ _ _ _ C ltac:(lia)) as Hroot.
  pose proof (path_bound _ _ _ _ _ _ (coded_built _ _ _ _ _ _ C) Hp ltac:(lia)) as Hpl.
  cbn [huff_decodeitem]. rewrite (created_depth _ _ _ _ _ _ _ _ K), (created_numitems _ _ _ _ _ _ _ _ K).
  pose proof (descend_eq items N extf preds revtree t Hitems (proj1 HN) C (tree huff) hp (proj2 HN) Hw (created_tree _ _ _ _ _ _ _ _ K)
    (Z.to_nat (extf - N)) p t i pos (coded_built _ _ _ _ _ _ C) ltac:(lia) Hp ltac:(lia) Hst) as Hd.
  rewrite Hroot in Hd. replace (2 * (extf - 1 - (extf - 1))) with 0 in Hd by lia. rewrite Hd. step. done.
Qed.
End codes.

Fixpoint read_items (n : nat) (huff : huffcode) (hp : HUFF) : option (list Z * HUFF) :=
  match n with
  | O => Some ([], hp)
  | S n =>
      '(r, hp) ← huff_decodeitem 1 (tree huff) (depth huff) (numitems huff) hp; i ← r;
      '(l, hp) ← read_items n huff hp; Some (i :: l, hp)
  end.

Lemma read_items_eq items N huff items' extf preds revtree t hp l : items_ok items N -> 0 < N < 2 ^ 29 -> maxbits huff <= 22 ->
  created items N huff items' extf preds revtree t -> (2 <= length (used items N))%nat -> hwf hp -> Forall (fun i => i ∈ used items N) l ->
  forall pos, stored hp pos (concat (map (code_of items') l)) ->
  read_items (length l) huff (hat hp pos) = Some (l, hat hp (pos + Z.of_nat (length (concat (map (code_of items') l))))).
Proof.
  intros Hi HN Hmax K H2 Hw Hl. induction Hl as [|i l Hin _ IH]; intros pos Hst.
  - cbn. by rewrite Z.add_0_r.
  - cbn [map concat length read_items] in *. apply stored_app in Hst as [Hs1 Hs2].
    rewrite (decodeitem_eq items N huff items' Hi HN Hmax extf preds revtree t hp pos i K H2 Hin Hw Hs1). step. step.
    rewrite (IH _ Hs2). step. rewrite length_app. do 3 f_equal. lia.
Qed.

(** [C6] A Huffman code of [huff_create] is read back: when at least two items occur and no code
    is longer than the 22 bits of its field, what [huff_encode] writes for a list of items,
    [huff_decodeitem] reads as the same items, one call for each, and ends where the encoder
    stopped. *)
Theorem huff_code_roundtrip items N huff items' hp l :
  items_ok items N -> 0 < N < 2 ^ 29 -> (2 <= length (used items N))%nat ->
  huff_create items N = Some (Some (huff, items')) -> maxbits huff <= 22 ->
  Forall (fun i => i ∈ used items N) l -> hwf hp -> room hp (length (concat (map (code_of items') l))) ->
  exists n hp', huff_encode hp items' l (Z.of_nat (length l)) = Some (n, hp') /\ hwf hp' /\
    hseek hp' (bitoffset hp) SEEK_SET = (0, hat hp' (bitoffset hp)) /\
    read_items (length l) huff (hat hp' (bitoffset hp)) = Some (l, hp').
Proof.
  intros Hi HN H2 Hc Hmax Hl Hw Hr. destruct (create_inv items N huff items' Hi HN) as (extf & preds & revtree & t & K); [intros E; rewrite E in H2; cbn in H2; lia|done|].
  set (bits := concat (map (code_of items') l)) in *.
  destruct (hputs_spec hp bits Hw Hr) as (Hw' & Hb & Ha & He & _). pose proof Hw as (_ & _ & _ & _ & Ho & _).
  exists (Z.of_nat (length bits)), (hputs hp bits). split_and!.
  - apply huff_encode_eq; [done| |done]. eapply list.Forall_impl; [exact Hl|]. cbv beta. intros i Hin.
    destruct (used_path _ _ _ _ _ _ _ _ _ K Hin) as [p Hp]. apply (code_path _ _ _ _ Hmax _ _ _ _ _ _ K Hp).
  - done.
  - apply hseek_set; [done|]. rewrite He. lia.
  - rewrite (read_items_eq items N huff items' extf preds revtree t _ l Hi HN Hmax K H2 Hw' Hl) by (by apply stored_hputs).
    fold bits. by rewrite <- Hb, hat_self.
Qed.

Lemma code_demo_ok : items_ok (map (fun w => mkItem 0 0 8 w []) [5; 0; 9; 12]) 4 /\ used (map (fun w => mkItem 0 0 8 w []) [5; 0; 9; 12]) 4 = [0; 2; 3].
Proof. split; [split; [reflexivity|repeat constructor; cbn; lia]|reflexivity]. Qed.

Lemma huff_code_roundtrip_witness :
  let items := map (fun w => mkItem 0 0 8 w []) [5; 0; 9; 12] in
  exists huff items', huff_create items 4 = Some (Some (huff, items')) /\ maxbits huff = 2 /\
    exists n hp', huff_encode (fresh 40) items' [0; 3; 2; 2] 4 = Some (n, hp') /\ hwf hp' /\
      hseek hp' 0 SEEK_SET = (0, hat hp' 0) /\ read_items 4 huff (hat hp' 0) = Some ([0; 3; 2; 2], hp').
Proof.
  eexists _, _. split; [vm_compute; reflexivity|]. split; [reflexivity|].
  destruct code_demo_ok as [Hok Hused].
  apply (huff_code_roundtrip (map (fun w => mkItem 0 0 8 w []) [5; 0; 9; 12]) 4 _ _ (fresh 40) [0; 3; 2; 2] Hok).
  - lia.
  - rewrite Hused. cbn. lia.
  - vm_compute. reflexivity.
  - cbn. lia.
  - rewrite Hused. repeat constructor.
  - by apply fresh_wf.
  - unfold room. vm_compute. reflexivity.
Defined.

Lemma code_unique items N huff items' extf preds revtree t i j p q : items_ok items N ->
  created items N huff items' extf preds revtree t -> sub t p = Some (HLeaf i) -> sub t q = Some (HLeaf j) -> p `prefix_of` q -> i = j.
Proof.
  intros Hi K Hp Hq [r ->]. rewrite sub_app, Hp, bind_Some in Hq. destruct r; [|done]. by injection Hq.
Qed.

(** No code of [huff_create] is the beginning of another one. *)
Lemma created_prefix_free items N huff items' i j :
  items_ok items N -> 0 < N < 2 ^ 29 -> huff_create items N = Some (Some (huff, items')) -> maxbits huff <= 22 ->
  i ∈ used items N -> j ∈ used items N -> code_of items' i `prefix_of` code_of items' j -> i = j.
Proof.
  intros Hi HN Hc Hmax Hin Hjn Hp.
  destruct (create_inv items N huff items' Hi HN) as (extf & preds & revtree & t & K); [by intros E; rewrite E in Hin; inversion Hin|done|].
  destruct (used_path _ _ _ _ _ _ _ _ _ K Hin) as [p Ep]. destruct (used_path _ _ _ _ _ _ _ _ _ K Hjn) as [q Eq].
  destruct (code_path _ _ _ _ Hmax _ _ _ _ _ _ K Ep) as [Ei _]. destruct (code_path _ _ _ _ Hmax _ _ _ _ _ _ K Eq) as [Ej _].
  rewrite Ei, Ej in Hp. by eapply code_unique.
Qed.

Lemma used_NoDup items N : NoDup (used items N).
Proof. unfold used. apply NoDup_filter, NoDup_seqZ. Qed.

(** The joined weights are the bits that the items take. *)
Lemma joins_lengths w t (cd : Z -> list bool) k : (forall i p, sub t p = Some (HLeaf i) -> Z.of_nat (length (cd i)) = k + Z.of_nat (length p)) ->
  total (map (fun i => w i * Z.of_nat (length (cd i))) (leaves t)) = joins w t + k * weight w t.
Proof.
  revert k. induction t as [i|e t0 IH0 t1 IH1]; intros k H; cbn [leaves map joins weight].
  - specialize (H i [] eq_refl). cbn in *. rewrite H. lia.
  - rewrite map_app, total_app, (IH0 (k + 1)), (IH1 (k + 1)).
    + lia.
    + intros i p Hp. rewrite (H i (true :: p) Hp). cbn [length]. lia.
    + intros i p Hp. rewrite (H i (false :: p) Hp). cbn [length]. lia.
Qed.

Lemma cost_total (w : Z -> Z) (cd : Z -> list bool) l :
  cost (map (fun i => (w i, length (cd i))) l) = total (map (fun i => w i * Z.of_nat (length (cd i))) l).
Proof. unfold cost, total. induction l; cbn; [done|lia]. Qed.

(** [C8] The code is optimal.  Whenever [huff_create] succeeds on fewer than 2^29 items, of which
    at least one occurs, the frequencies add up to less than 2^32 and the longest code has at
    most 22 bits, no code is the beginning of another one, and no code with that
    property takes fewer bits for the items that occur. *)
Theorem huff_create_optimal items N huff items' :
  items_ok items N -> 0 < N < 2 ^ 29 -> used items N <> [] -> total (map (fq items) (used items N)) < 2 ^ 32 ->
  huff_create items N = Some (Some (huff, items')) -> maxbits huff <= 22 ->
  prefix_free (map (code_of items') (used items N)) /\
  forall codes : Z -> list bool, prefix_free (map codes (used items N)) ->
    total (map (fun i => fq items i * Z.of_nat (length (code_of items' i))) (used items N)) <=
    total (map (fun i => fq items i * Z.of_nat (length (codes i))) (used items N)).
Proof.
  intros Hi HN Hu Hsum Hc Hmax. split.
  { intros a b x y Hx Hy Hp. rewrite list_lookup_fmap in Hx, Hy. apply fmap_Some in Hx as (i & Ei & ->). apply fmap_Some in Hy as (j & Ej & ->).
    assert (i = j) as -> by (eapply created_prefix_free; [exact Hi|exact HN|exact Hc|exact Hmax| | |exact Hp]; by eapply list_elem_of_lookup_2).
    eapply NoDup_lookup; [apply used_NoDup|done|done]. }
  intros codes Hpf.
  destruct (create_inv items N huff items' Hi HN Hu Hc) as (extf & preds & revtree & t & K).
  pose proof (created_coded _ _ _ _ _ _ _ _ K) as C.
  pose proof (coded_greedy _ _ _ _ _ _ C Hsum) as Hg.
  assert (E : total (map (fun i => fq items i * Z.of_nat (length (code_of items' i))) (used items N)) = joins (fq items) t).
  { rewrite <- (total_perm _ _ (Permutation_map _ (coded_leaves _ _ _ _ _ _ C))). rewrite (joins_lengths _ _ _ 0); [lia|].
    intros i p Hp. destruct (code_path _ _ _ _ Hmax _ _ _ _ _ _ K Hp) as [-> _]. lia. }
  rewrite E, <- cost_total. eapply greedy_optimal; [exact Hg| | |].
  - apply List.Forall_map, list.Forall_forall. intros i _. pose proof (fq_range items N i Hi). lia.
  - unfold wts. rewrite map_map. done.
  - apply prefix_free_kraft in Hpf. unfold lengths. rewrite map_map in *. exact Hpf.
Qed.

Lemma huff_create_optimal_witness :
  let items := map (fun w => mkItem 0 0 8 w []) [5; 0; 9; 12] in
  exists huff items', huff_create items 4 = Some (Some (huff, items')) /\
    prefix_free (map (code_of items') [0; 2; 3]) /\
    forall codes : Z -> list bool, prefix_free (map codes [0; 2; 3]) ->
      total (map (fun i => fq items i * Z.of_nat (length (code_of items' i))) [0; 2; 3]) <=
      total (map (fun i => fq items i * Z.of_nat (length (codes i))) [0; 2; 3]).
Proof.
  eexists _, _. split; [vm_compute; reflexivity|]. destruct code_demo_ok as [Hok Hused]. rewrite <- Hused.
  eapply (huff_create_optimal (map (fun w => mkItem 0 0 8 w []) [5; 0; 9; 12]) 4); [exact Hok|lia|by rewrite Hused|rewrite Hused; vm_compute; reflexivity|vm_compute; reflexivity|vm_compute; discriminate].
Defined.

(** ** The code is found, and the two inputs that go wrong *)

Lemma climb_total N preds revtree t : 0 < N -> built N preds revtree t -> znth preds (root t) = root t -> Forall (fun e => 0 <= e < zlen preds) (nodes t) ->
  forall fuel p q s, sub t p = Some s -> (length p < fuel)%nat -> (length (p ++ q) <= 63)%nat ->
    is_Some (climb fuel preds (root s) (znth preds (root s)) (msb_val q) (Z.of_nat (length q))).
Proof.
  intros HN Hb Hroot Hin. induction fuel as [|fuel IH]; intros p q s Hs Hfuel Hlen; [lia|]. cbn [climb].
  destruct p as [|b p _] using rev_ind.
  { injection Hs as <-. rewrite Hroot, Z.eqb_refl. cbn [negb andb]. eauto. }
  rewrite sub_app in Hs. destruct (sub t p) as [u|] eqn:Eu; [|done]. rewrite bind_Some in Hs. cbn [sub] in Hs.
  destruct u as [|e t0 t1]; [done|]. injection Hs as Hs. pose proof (built_sub _ _ _ _ _ _ Hb Eu) as Hbu.
  cbn [built] in Hbu. destruct Hbu as (He & Hr0 & Hr1 & _ & _ & P0 & P1 & _ & _).
  assert (Hpred : znth preds (root s) = if b then e else - e) by (subst s; by destruct b).
  assert (Hein : 0 <= e < zlen preds).
  { rewrite list.Forall_forall in Hin. apply Hin. apply (sub_nodes _ _ _ Eu). left. }
  rewrite !length_app in *. cbn [length] in *. rewrite Hpred.
  destruct (negb _ && negb _); [|eauto]. specialize (IH p (b :: q) _ Eu ltac:(lia) ltac:(rewrite length_app; cbn [length]; lia)).
  cbn [length] in IH. unfold zlen in Hein. destruct b.
  - replace (0 <=? e) with true by (symmetry; apply Z.leb_le; lia).
    replace (Z.of_nat (length q) <? 63) with true by (symmetry; apply Z.ltb_lt; lia). step. rewrite aget_znth by lia. step.
    rewrite lor_shiftl by (pose proof (msb_val_range q); lia).
    replace (msb_val q + 2 ^ Z.of_nat (length q) * 1) with (msb_val (true :: q)) by (rewrite msb_val_cons; cbn [c_bool]; lia).
    replace (Z.of_nat (length q) + 1) with (Z.of_nat (S (length q))) by lia. exact IH.
  - replace (0 <=? - e) with false by (symmetry; apply Z.leb_gt; lia). step. rewrite Z.opp_involutive, aget_znth by lia. step.
    replace (msb_val q) with (msb_val (false :: q)) by (rewrite msb_val_cons; cbn [c_bool]; lia).
    replace (Z.of_nat (length q) + 1) with (Z.of_nat (S (length q))) by lia. exact IH.
Qed.

Lemma path_length_bound items N extf preds revtree t i p : 0 < N -> coded items N extf preds revtree t -> sub t p = Some (HLeaf i) ->
  zlen p <= zlen (used items N) - 1.
Proof.
  intros HN C Hp. pose proof (coded_extf _ _ _ _ _ _ C) as Hx.
  destruct (Z.lt_ge_cases N extf) as [Hlt|Hge].
  - pose proof (coded_last _ _ _ _ _ _ C Hlt) as Hroot.
    pose proof (path_bound _ _ _ _ _ _ (coded_built _ _ _ _ _ _ C) Hp ltac:(lia)) as Hpl. unfold zlen in *. lia.
  - destruct t as [j|e t0 t1].
    + destruct p; [|done]. pose proof (coded_leaves _ _ _ _ _ _ C) as Hl. apply Permutation_length in Hl. unfold zlen in *. cbn in *. lia.
    + pose proof (coded_bound _ _ _ _ _ _ C) as Hb. pose proof (coded_built _ _ _ _ _ _ C) as Hbt. cbn [built] in Hbt.
      rewrite list.Forall_forall in Hb. specialize (Hb e ltac:(left)). lia.
Qed.

Lemma huff_calc_total items N extf preds revtree t : items_ok items N -> 0 < N -> coded items N extf preds revtree t ->
  (length (used items N) <= 64)%nat -> is_Some (huff_calc preds items N).
Proof.
  intros Hi HN C Hu. unfold huff_calc.
  edestruct (for_loopM_inv (fun k (st : Z * Z * Z * Z * list huffitem) => zlen st.2 = N /\ forall i, k <= i < N -> aget st.2 i = aget items i) (Z.to_nat N) 0)
    as (r & Hrun & _); [| |rewrite Hrun; eauto].
  - intros k [[[[mb nz] tby] tbi] its] Hk (Hl & Hsame). cbn [snd] in *. destruct (fq_item items N k Hi ltac:(lia)) as (item & Hget & Hf).
    rewrite Hsame, Hget by lia. step. destruct (Z.eqb_spec (freq item) 0) as [E0|E0]; cbn [negb].
    { eexists. split; [reflexivity|]. split; [done|intros i Hi'; apply Hsame; lia]. }
    assert (Hin : k ∈ leaves t) by (rewrite (coded_leaves _ _ _ _ _ _ C), used_elem; pose proof (fq_range items N k Hi); lia).
    apply sub_leaf in Hin as [p Hp]. pose proof (path_length_bound _ _ _ _ _ _ _ _ HN C Hp) as Hpl.
    pose proof (coded_preds _ _ _ _ _ _ C) as Hlp. pose proof (calc_bound items N extf preds revtree t HN C) as Hbd.
    pose proof (zlen_used items N ltac:(lia)) as Hz. unfold zlen in Hlp, Hpl, Hz, Hl.
    rewrite aget_znth by lia. step.
    destruct (climb_total N preds revtree t HN (coded_built _ _ _ _ _ _ C) (coded_root _ _ _ _ _ _ C) Hbd (length preds) p [] (HLeaf k) Hp) as [r Hr].
    { lia. }
    { rewrite app_nil_r. lia. }
    pose proof (climb_eq N preds revtree t HN (coded_built _ _ _ _ _ _ C) (coded_root _ _ _ _ _ _ C) Hbd _ p [] (HLeaf k) r Hp Hr) as E.
    change (msb_val []) with 0 in Hr. change (Z.of_nat (@length bool [])) with 0 in Hr. cbn [root] in Hr. rewrite Hr. step.
    rewrite app_nil_r in E. subst r. destruct (reversed_path p) as (rev & Erev & _); [lia|]. rewrite Erev. step.
    rewrite aset_zput by lia. step. eexists. split; [reflexivity|]. cbn [snd]. unfold zlen. rewrite zput_length. split; [done|].
    intros i Hi'. rewrite (aget_zput) by lia. destruct (Z.eqb_spec k i); [lia|]. apply Hsame. lia.
  - split; [apply Hi|done].
Qed.

(** [C36] [huff_create] returns a code whenever an item occurs and at most 64 items do: the sort of
    the heap, the joins and the climbs to the root all end. *)
Theorem huff_create_total items N :
  items_ok items N -> 0 < N < 2 ^ 29 -> used items N <> [] -> (length (used items N) <= 64)%nat ->
  exists huff items', huff_create items N = Some (Some (huff, items')) /\ numitems huff = N /\
    depth huff = Z.of_nat (length (used items N)) - 1 /\ freqsum huff = total (map (fq items) (used items N)).
Proof.
  intros Hi [HN Hf] Hu H64. destruct (huff_init_eq items N Hi HN Hu) as (extf & preds & revtree & t & Hinit & C).
  unfold huff_create. rewrite Hinit. step.
  destruct (make_tree_eq items N extf preds revtree t Hi HN C Hf) as (tr & Htr & _ & _). rewrite Htr. step.
  destruct (huff_calc_total items N extf preds revtree t Hi HN C H64) as [[[[[mb nz] tby] tbi] its] ->]. step.
  eexists _, _. split; [reflexivity|]. cbn [numitems depth freqsum]. pose proof (coded_extf _ _ _ _ _ _ C) as Hx. unfold zlen in Hx.
  split_and!; [done|lia|done].
Qed.

Lemma huff_create_total_witness :
  let items := map (fun w => mkItem 0 0 8 w []) [5; 0; 9; 12] in
  used items 4 = [0; 2; 3] /\ exists huff items', huff_create items 4 = Some (Some (huff, items')) /\ numitems huff = 4 /\
    depth huff = Z.of_nat (length (used items 4)) - 1 /\ freqsum huff = total (map (fq items) (used items 4)).
Proof.
  destruct code_demo_ok as [Hok Hused]. split; [exact Hused|].
  apply (huff_create_total (map (fun w => mkItem 0 0 8 w []) [5; 0; 9; 12]) 4); [exact Hok|lia|by rewrite Hused|rewrite Hused; cbn; lia].
Defined.

(** With a single item the tree is empty and the decoder runs forever without reading. *)
Lemma single_item_hangs items N huff items' :
  items_ok items N -> 0 < N < 2 ^ 29 -> length (used items N) = 1%nat -> huff_create items N = Some (Some (huff, items')) ->
  forall fuel hp, huff_decodeitem fuel (tree huff) (depth huff) (numitems huff) hp = None.
Proof.
  intros Hi HN H1 Hc. destruct (create_inv items N huff items' Hi HN) as (extf & preds & revtree & t & K); [by intros E; rewrite E in H1|done|].
  pose proof (coded_extf _ _ _ _ _ _ (created_coded _ _ _ _ _ _ _ _ K)) as Hx. unfold zlen in Hx. rewrite H1 in Hx.
  induction fuel as [|fuel IH]; intros hp; [done|]. cbn [huff_decodeitem]. rewrite (created_depth _ _ _ _ _ _ _ _ K) at 1.
  replace (Z.to_nat (extf - N)) with O by lia. cbn [descend]. step. apply IH.
Qed.

(** When no item occurs, the last element of an empty heap is used as an index. *)
Example no_item_undefined : huff_create (map (fun w => mkItem 0 0 8 w []) [0; 0; 0]) 3 = None.
Proof. vm_compute. reflexivity. Qed.

(** Codes longer than 22 bits lose their last bits, without a message up to 32: with the
    frequencies of Fibonacci the rarest of 25 items comes back as another one. *)
Example long_code_truncated :
  let fib := foldl (fun l _ => match l with a :: b :: _ => a + b :: l | _ => l end) [1; 1] (seq 0 23) in
  (r ← huff_create (map (fun w => mkItem 0 0 8 w []) (reverse fib)) 25; '(huff, items) ← r;
   '(_, hp) ← huff_encode (fresh 40) items [0] 1;
   '(r, _) ← huff_decodeitem 1 (tree huff) (depth huff) 25 (hrewind hp).2; Some (maxbits huff, r)) = Some (24, Some 2).
Proof. vm_compute. reflexivity. Qed.
