(* ===== verification/BoyerMoore.v ===== *)
(** * huffstream.c: searching for a pattern

    [boyer_moore] compares the pattern from its end and shifts it by two tables: how far the
    last occurrence of a character is from the end, and how far the pattern has to move after
    a mismatch so that what was read still fits.  The theorem: it returns the first occurrence
    and the null pointer when there is none, so no shift is too long.  A pointer into the
    string is an index. *)
From Stdlib Require Import ZArith Lia.
From stdpp Require Import base list numbers option.
From S2P Require Import Prelude Bits.
Open Scope Z_scope.

(** huffstream.c:1226-1226 [ALPHABET_LEN] *)
Definition ALPHABET_LEN : Z := 256.

(** huffstream.c:1230-1237 [make_delta1] *)
Definition make_delta1 (delta1 pat : list Z) (patlen : Z) : option (list Z) :=
  delta1 ← for_loopM (Z.to_nat ALPHABET_LEN) 0 (fun i delta1 => aset delta1 i patlen) delta1;
  for_loopM (Z.to_nat (patlen - 1)) 0 (fun i delta1 => c ← aget pat i; aset delta1 c (patlen - 1 - i)) delta1.

(** huffstream.c:1239-1246 [is_prefix] *)
Definition is_prefix (word : list Z) (wordlen pos : Z) : option Z :=
  let suffixlen := wordlen - pos in
  r ← for_ret (Z.to_nat suffixlen) 0 (fun i _ =>
    a ← aget word i; b ← aget word (pos + i);
    if negb (a =? b) then Some (inr 0) else Some (inl tt)) tt;
  Some (match r with inl _ => 1 | inr r => r end).

(** huffstream.c:1251-1252 [suffix_length] The loop. *)
Fixpoint suffix_loop (fuel : nat) (word : list Z) (wordlen pos i : Z) : option Z :=
  match fuel with
  | O => None
  | S fuel =>
      a ← aget word (pos - i); b ← aget word (wordlen - 1 - i);
      if (a =? b) && (i <? pos) then suffix_loop fuel word wordlen pos (i + 1) else Some i
  end.

(** huffstream.c:1248-1254 [suffix_length] *)
Definition suffix_length (word : list Z) (wordlen pos : Z) : option Z :=
  suffix_loop (S (Z.to_nat pos)) word wordlen pos 0.

(** huffstream.c:1258-1264 [make_delta2] The first loop. *)
Definition prefix_shifts (delta2 pat : list Z) (patlen : Z) : option (list Z) :=
  r ← for_loopM (Z.to_nat patlen) 0 (fun k '(last_prefix_index, delta2) =>
    let p := patlen - 1 - k in
    b ← is_prefix pat patlen (p + 1);
    let last_prefix_index := if truth b then p + 1 else last_prefix_index in
    delta2 ← aset delta2 p (last_prefix_index + (patlen - 1 - p));
    Some (last_prefix_index, delta2)) (patlen - 1, delta2);
  Some r.2.

(** huffstream.c:1265-1270 [make_delta2] The second loop. *)
Definition suffix_shifts (delta2 pat : list Z) (patlen : Z) : option (list Z) :=
  for_loopM (Z.to_nat (patlen - 1)) 0 (fun p delta2 =>
    slen ← suffix_length pat patlen p;
    a ← aget pat (p - slen); b ← aget pat (patlen - 1 - slen);
    if negb (a =? b) then aset delta2 (patlen - 1 - slen) (patlen - 1 - p + slen) else Some delta2) delta2.

(** huffstream.c:1256-1271 [make_delta2] *)
Definition make_delta2 (delta2 pat : list Z) (patlen : Z) : option (list Z) :=
  delta2 ← prefix_shifts delta2 pat patlen; suffix_shifts delta2 pat patlen.

(** huffstream.c:1286-1287 [boyer_moore] Comparing from the end; the result is [i] and [j]. *)
Fixpoint compare_back (fuel : nat) (string pat : list Z) (i j : Z) : option (Z * Z) :=
  match fuel with
  | O => None
  | S fuel =>
      if 0 <=? j then
        a ← aget string i; b ← aget pat j;
        if a =? b then compare_back fuel string pat (i - 1) (j - 1) else Some (i, j)
      else Some (i, j)
  end.

(** huffstream.c:1283-1291 [boyer_moore] The index [i] is an int32 in the code; here it does not wrap, which only
    differs for strings of about 2^31 bytes. *)
Fixpoint scan (fuel : nat) (string : list Z) (stringlen : Z) (pat : list Z) (patlen : Z) (delta1 delta2 : list Z) (i : Z) : option (option Z) :=
  match fuel with
  | O => None
  | S fuel =>
      if i <? stringlen then
        '(i, j) ← compare_back (S (Z.to_nat patlen)) string pat i (patlen - 1);
        if j <? 0 then Some (Some (i + 1))
        else
          c ← aget string i; d1 ← aget delta1 c; d2 ← aget delta2 j;
          scan fuel string stringlen pat patlen delta1 delta2 (i + (if d1 <? d2 then d2 else d1))
      else Some None
  end.

Definition DELTA2_LEN : Z := 8192.

(** huffstream.c:1273-1293 [boyer_moore] The inner [None] is the null pointer; the two tables start
    with unspecified contents. *)
Definition boyer_moore (string : list Z) (stringlen : Z) (pat : list Z) (patlen : Z) (delta1 delta2 : list Z) : option (option Z) :=
  if DELTA2_LEN <? patlen then Some None
  else
    delta1 ← make_delta1 delta1 pat patlen;
    delta2 ← make_delta2 delta2 pat patlen;
    if patlen =? 0 then Some (Some 0)
    else scan (S (Z.to_nat stringlen)) string stringlen pat patlen delta1 delta2 (patlen - 1).

Example search_demo : boyer_moore [7; 1; 2; 1; 2; 1; 3; 9] 8 [1; 2; 1; 3] 4 (replicate 256 0) (replicate 16 0) = Some (Some 3).
Proof. vm_compute. reflexivity. Qed.

(** ** The tables *)

Section tables.
Context (pat : list Z) (m : Z).
Context (Hm : Z.of_nat (length pat) = m) (Hpos : 0 < m) (Hbytes : bytes pat).

Lemma pat_get i : 0 <= i < m -> aget pat i = Some (znth pat i).
Proof using Hm. intros. apply aget_znth. lia. Qed.

Lemma make_delta1_eq delta1 : Z.of_nat (length delta1) = 256 ->
  exists d1, make_delta1 delta1 pat m = Some d1 /\ Z.of_nat (length d1) = 256 /\
    (forall c, 0 <= c < 256 -> 1 <= znth d1 c <= m) /\
    (forall k, 0 <= k < m - 1 -> znth d1 (znth pat k) <= m - 1 - k).
Proof using Hm Hpos Hbytes.
  intros Hl. unfold make_delta1.
  destruct (for_loopM_inv (fun k d => Z.of_nat (length d) = 256 /\ forall c, 0 <= c < k -> znth d c = m) (Z.to_nat ALPHABET_LEN) 0
    (fun i delta1 => aset delta1 i m) delta1) as (d & -> & Hld & Hd).
  { intros k d Hk (Hld & Hd). change (0 + Z.of_nat (Z.to_nat ALPHABET_LEN)) with 256 in Hk. rewrite aset_zput by lia. eexists. split; [reflexivity|].
    rewrite zput_length. split; [done|]. intros c Hc. rewrite znth_zput by lia. destruct (Z.eqb_spec k c); [done|]. apply Hd. lia. }
  { split; [done|lia]. }
  step. change (0 + Z.of_nat (Z.to_nat ALPHABET_LEN)) with 256 in Hd.
  destruct (for_loopM_inv (fun k d => Z.of_nat (length d) = 256 /\ (forall c, 0 <= c < 256 -> 1 <= znth d c <= m) /\
      (forall i, 0 <= i < k -> znth d (znth pat i) <= m - 1 - i)) (Z.to_nat (m - 1)) 0
    (fun i delta1 => c ← aget pat i; aset delta1 c (m - 1 - i)) d) as (d1 & Hrun & Hl1 & Hr1 & Hd1).
  { intros k d' Hk (Hl' & Hr' & Hd'). rewrite pat_get by lia. step.
    assert (Hc : 0 <= znth pat k < 256) by (apply Forall_znth; [lia|exact Hbytes]). rewrite aset_zput by lia.
    eexists. split; [reflexivity|]. rewrite zput_length. split_and!; [done| |].
    - intros c Hcr. rewrite znth_zput by lia. destruct (Z.eqb_spec (znth pat k) c); [lia|]. by apply Hr'.
    - intros i Hi. rewrite znth_zput by lia. destruct (Z.eqb_spec (znth pat k) (znth pat i)); [lia|]. apply Hd'.
      destruct (Z.eq_dec i k) as [->|]; [done|lia]. }
  { split_and!; [done| |lia]. intros c Hc. rewrite Hd by lia. lia. }
  exists d1. split; [exact Hrun|]. split_and!; [done|done|]. intros k Hk. apply Hd1. lia.
Qed.

Lemma is_prefix_eq pos : 0 < pos <= m ->
  exists r, is_prefix pat m pos = Some r /\ (truth r = true <-> forall i, 0 <= i < m - pos -> znth pat i = znth pat (pos + i)).
Proof using Hm.
  intros Hp. unfold is_prefix.
  match goal with |- context [for_ret _ 0 ?b tt] => set (body := b) end.
  assert (H : forall n k, 0 <= k -> k + Z.of_nat n = m - pos -> exists r, for_ret n k body tt = Some r /\
    match r with inl _ => forall i, k <= i < m - pos -> znth pat i = znth pat (pos + i)
      | inr v => v = 0 /\ exists i, k <= i < m - pos /\ znth pat i <> znth pat (pos + i) end).
  { induction n as [|n IH]; intros k Hk Hn.
    - exists (inl tt). split; [done|]. lia.
    - rewrite for_ret_S. assert (Hb : body k tt = if negb (znth pat k =? znth pat (pos + k)) then Some (inr 0) else Some (inl tt)).
      { unfold body. rewrite !pat_get by lia. done. }
      rewrite Hb. destruct (Z.eqb_spec (znth pat k) (znth pat (pos + k))) as [E|E]; cbn [negb]; step.
      + destruct (IH (k + 1)) as (r & -> & Hr); [lia|lia|]. exists r. split; [done|]. destruct r.
        * intros i Hi. destruct (Z.eq_dec i k) as [->|]; [done|]. apply Hr. lia.
        * destruct Hr as (-> & i & Hi & Hne). split; [done|]. exists i. split; [lia|done].
      + exists (inr 0). split; [done|]. split; [done|]. exists k. split; [lia|done]. }
  destruct (H (Z.to_nat (m - pos)) 0) as (r & -> & Hr); [lia|lia|]. step. eexists. split; [reflexivity|]. destruct r as [u|v].
  - split; [intros _; exact Hr|done].
  - destruct Hr as (-> & i & Hi & Hne). split; [done|]. intros Hall. destruct Hne. by apply Hall.
Qed.

Lemma suffix_length_eq p : 0 <= p < m - 1 ->
  exists s, suffix_length pat m p = Some s /\ 0 <= s <= p /\
    (forall i, 0 <= i < s -> znth pat (p - i) = znth pat (m - 1 - i)) /\
    (znth pat (p - s) <> znth pat (m - 1 - s) \/ s = p).
Proof using Hm.
  intros Hp. unfold suffix_length.
  assert (H : forall fuel i, 0 <= i <= p -> p - i < Z.of_nat fuel -> (forall k, 0 <= k < i -> znth pat (p - k) = znth pat (m - 1 - k)) ->
    exists s, suffix_loop fuel pat m p i = Some s /\ 0 <= s <= p /\ (forall k, 0 <= k < s -> znth pat (p - k) = znth pat (m - 1 - k)) /\
      (znth pat (p - s) <> znth pat (m - 1 - s) \/ s = p)).
  { induction fuel as [|fuel IH]; intros i Hi Hf Hk; [lia|]. cbn [suffix_loop]. rewrite !pat_get by lia. step. step.
    destruct (Z.eqb_spec (znth pat (p - i)) (znth pat (m - 1 - i))) as [E|E]; cbn [andb].
    - destruct (Z.ltb_spec i p).
      + apply IH; [lia|lia|]. intros k Hkr. destruct (Z.eq_dec k i) as [->|]; [done|]. apply Hk. lia.
      + exists i. split_and!; [done|lia|lia|done|]. right. lia.
    - exists i. split_and!; [done|lia|lia|done|]. by left. }
  apply H; lia.
Qed.

(** After a mismatch at [j] a shift by [d] is still possible. *)
Definition possible (j d : Z) : Prop :=
  (forall q, j < q < m -> 0 <= q - d -> znth pat (q - d) = znth pat q) /\ (0 <= j - d -> znth pat (j - d) <> znth pat j).

(** The table for [j] moves on, but not past a shift that is possible. *)
Definition shift_ok (p j v : Z) : Prop :=
  m - j <= v /\ forall d, 1 <= d -> possible j d -> (j - d < 0 \/ m - 1 - d < p) -> v <= m - 1 - j + d.

Lemma prefix_shifts_eq delta2 : m <= Z.of_nat (length delta2) ->
  exists d2, prefix_shifts delta2 pat m = Some d2 /\ length d2 = length delta2 /\
    forall j, 0 <= j < m -> shift_ok 0 j (znth d2 j).
Proof using Hm Hpos.
  intros Hl. unfold prefix_shifts.
  match goal with |- context [for_loopM ?n 0 ?body ?s0] => destruct (for_loopM_inv (fun k '(last, d) => length d = length delta2 /\
      (k = 0 \/ m - k < last <= m /\ forall d, m - k < d <= m -> (forall i, 0 <= i < m - d -> znth pat i = znth pat (d + i)) -> last <= d) /\
      (forall j, m - k <= j < m -> shift_ok 0 j (znth d j))) n 0 body s0) as ([last d2] & Hrun & Hld & _ & Hd) end.
  { intros k [last d] Hk (Hld & Hlast & Hd). cbv zeta. destruct (is_prefix_eq (m - 1 - k + 1)) as (r & -> & Hr); [lia|]. step.
    set (last' := if truth r then m - 1 - k + 1 else last). rewrite aset_zput by lia. step.
    assert (Hlast' : m - k - 1 < last' <= m /\ forall d, m - k <= d <= m -> (forall i, 0 <= i < m - d -> znth pat i = znth pat (d + i)) -> last' <= d).
    { subst last'. destruct (truth r) eqn:Er.
      - split; [lia|]. intros d' Hd' _. lia.
      - destruct Hlast as [->|[Hb Hall]].
        + exfalso. assert (false = true); [|done]. apply Hr. intros i Hi. lia.
        + split; [lia|]. intros d' Hd' Hpre. destruct (Z.eq_dec d' (m - k)) as [->|]; [|apply Hall; [lia|done]].
          exfalso. assert (false = true); [|done]. apply Hr. intros i Hi. replace (m - 1 - k + 1 + i) with (m - k + i) by lia. apply Hpre. lia. }
    clearbody last'. eexists. split; [reflexivity|]. cbv beta iota. rewrite zput_length. split_and!; [done| |].
    - right. split; [lia|]. intros d' Hd' Hpre. apply Hlast'; [lia|done].
    - intros j Hj. rewrite znth_zput by lia. destruct (Z.eqb_spec (m - 1 - k) j) as [<-|]; [|apply Hd; lia].
      split; [lia|]. intros d' H1 [Hp _] Hcase. destruct Hcase as [Hcase|Hcase]; [|lia].
      destruct (Z.le_gt_cases d' m) as [Hle|]; [|lia]. enough (last' <= d') by lia. apply Hlast'; [lia|].
      intros i Hi. rewrite <- (Hp (d' + i)) by lia. f_equal. lia. }
  { split_and!; [done|by left|lia]. }
  rewrite Hrun. step. exists d2. split_and!; [done|done|]. intros j Hj. apply Hd. lia.
Qed.

Lemma suffix_shifts_eq delta2 : m <= Z.of_nat (length delta2) -> (forall j, 0 <= j < m -> shift_ok 0 j (znth delta2 j)) ->
  exists d2, suffix_shifts delta2 pat m = Some d2 /\ length d2 = length delta2 /\ forall j, 0 <= j < m -> shift_ok (m - 1) j (znth d2 j).
Proof using Hm Hpos.
  intros Hl H0. unfold suffix_shifts.
  destruct (for_loopM_inv (fun p d => length d = length delta2 /\ forall j, 0 <= j < m -> shift_ok p j (znth d j)) (Z.to_nat (m - 1)) 0
    (fun p delta2 => slen ← suffix_length pat m p; a ← aget pat (p - slen); b ← aget pat (m - 1 - slen);
      if negb (a =? b) then aset delta2 (m - 1 - slen) (m - 1 - p + slen) else Some delta2) delta2) as (d2 & Hrun & Hld & Hd).
  { intros p d Hp (Hld & Hd). destruct (suffix_length_eq p) as (s & -> & Hs & Heq & Hstop); [lia|]. step. rewrite !pat_get by lia. step. step.
    (* the possible shift that this round is about *)
    assert (Hnew : forall j d', 0 <= j < m -> 1 <= d' -> possible j d' -> 0 <= j - d' -> m - 1 - d' = p ->
      s = m - 1 - j /\ znth pat (p - s) <> znth pat (m - 1 - s)).
    { intros j d' Hj H1 [Hq Hjd] Hge <-. assert (s = m - 1 - j).
      { destruct (Z.lt_trichotomy s (m - 1 - j)) as [Hlt|[|Hgt]]; [|done|].
        - destruct Hstop as [Hne|]; [|lia]. destruct Hne. replace (m - 1 - d' - s) with (m - 1 - s - d') by lia. apply Hq; lia.
        - destruct (Hjd Hge). replace (j - d') with (m - 1 - d' - (m - 1 - j)) by lia. rewrite Heq by lia. f_equal. lia. }
      subst s. split; [done|]. replace (m - 1 - d' - (m - 1 - j)) with (j - d') by lia. replace (m - 1 - (m - 1 - j)) with j by lia. by apply Hjd. }
    destruct (Z.eqb_spec (znth pat (p - s)) (znth pat (m - 1 - s))) as [E|E]; cbn [negb].
    - exists d. split_and!; [done|done|]. intros j Hj. destruct (Hd j Hj) as [Hlo Hhi]. split; [done|]. intros d' H1 Hpo Hcase.
      destruct (Z.eq_dec (m - 1 - d') p) as [Ep|]; [|apply Hhi; [done|done|lia]].
      destruct (Z.lt_ge_cases (j - d') 0); [apply Hhi; [done|done|by left]|]. destruct (Hnew j d' Hj H1 Hpo ltac:(lia) Ep) as [_ Hne]. done.
    - rewrite aset_zput by lia. eexists. split; [reflexivity|]. rewrite zput_length. split; [done|]. intros j Hj. rewrite znth_zput by lia.
      destruct (Hd j Hj) as [Hlo Hhi]. destruct (Z.eqb_spec (m - 1 - s) j) as [<-|Hne].
      + split; [lia|]. intros d' H1 Hpo Hcase. lia.
      + split; [done|]. intros d' H1 Hpo Hcase. destruct (Z.eq_dec (m - 1 - d') p) as [Ep|]; [|apply Hhi; [done|done|lia]].
        destruct (Z.lt_ge_cases (j - d') 0); [apply Hhi; [done|done|by left]|]. destruct (Hnew j d' Hj H1 Hpo ltac:(lia) Ep) as [-> _]. lia. }
  { split; [done|exact H0]. }
  exists d2. rewrite Hrun. split_and!; [done|done|]. intros j Hj. replace (m - 1) with (0 + Z.of_nat (Z.to_nat (m - 1))) by lia. by apply Hd.
Qed.

Lemma make_delta2_eq delta2 : m <= Z.of_nat (length delta2) ->
  exists d2, make_delta2 delta2 pat m = Some d2 /\ length d2 = length delta2 /\
    forall j, 0 <= j < m -> m - j <= znth d2 j /\ forall d, 1 <= d -> possible j d -> znth d2 j <= m - 1 - j + d.
Proof using Hm Hpos.
  intros Hl. unfold make_delta2. destruct (prefix_shifts_eq delta2 Hl) as (d & -> & Hld & Hd). step.
  destruct (suffix_shifts_eq d ltac:(lia) Hd) as (d2 & -> & Hl2 & Hd2). exists d2. split_and!; [done|lia|].
  intros j Hj. destruct (Hd2 j Hj) as [Hlo Hhi]. split; [done|]. intros d' H1 Hpo. apply Hhi; [done|done|].
  destruct (Z.lt_ge_cases (j - d') 0); [by left|right; lia].
Qed.
End tables.

(** ** The search *)

(** [pat] stands in [string] from [k] on. *)
Definition occurs (string pat : list Z) (k : Z) : Prop :=
  0 <= k /\ k + Z.of_nat (length pat) <= Z.of_nat (length string) /\
  forall q, 0 <= q < Z.of_nat (length pat) -> znth string (k + q) = znth pat q.

(** The result is the first occurrence. *)
Definition first_occurrence (string pat : list Z) (r : option Z) : Prop :=
  match r with
  | Some k => occurs string pat k /\ forall k', occurs string pat k' -> k <= k'
  | None => forall k, ~ occurs string pat k
  end.

Lemma compare_back_eq string pat m e : Z.of_nat (length pat) = m -> m - 1 <= e < Z.of_nat (length string) ->
  forall fuel j, -1 <= j < m -> j + 1 < Z.of_nat fuel -> (forall q, j < q < m -> znth string (e - (m - 1 - q)) = znth pat q) ->
  exists j', compare_back fuel string pat (e - (m - 1 - j)) j = Some (e - (m - 1 - j'), j') /\ -1 <= j' < m /\
    (forall q, j' < q < m -> znth string (e - (m - 1 - q)) = znth pat q) /\
    (0 <= j' -> znth string (e - (m - 1 - j')) <> znth pat j').
Proof.
  intros Hm He. induction fuel as [|fuel IH]; intros j Hj Hf Hall; [lia|]. cbn [compare_back].
  destruct (Z.leb_spec 0 j) as [H0|H0].
  - rewrite !aget_znth by lia. step. step. destruct (Z.eqb_spec (znth string (e - (m - 1 - j))) (znth pat j)) as [E|E].
    + replace (e - (m - 1 - j) - 1) with (e - (m - 1 - (j - 1))) by lia. apply IH; [lia|lia|].
      intros q Hq. destruct (Z.eq_dec q j) as [->|]; [done|]. apply Hall. lia.
    + exists j. split_and!; [done|lia|lia|done|done].
  - exists j. split_and!; [done|lia|lia|done|lia].
Qed.

Section search.
Context (string pat : list Z) (n m : Z) (delta1 delta2 : list Z).
Context (Hn : Z.of_nat (length string) = n) (Hm : Z.of_nat (length pat) = m) (Hpos : 0 < m) (Hbytes : bytes string).
Context (Hl1 : Z.of_nat (length delta1) = 256) (H1 : forall c, 0 <= c < 256 -> 1 <= znth delta1 c <= m)
  (H1' : forall k, 0 <= k < m - 1 -> znth delta1 (znth pat k) <= m - 1 - k).
Context (Hl2 : m <= Z.of_nat (length delta2))
  (H2 : forall j, 0 <= j < m -> m - j <= znth delta2 j /\ forall d, 1 <= d -> possible pat m j d -> znth delta2 j <= m - 1 - j + d).

(** After a mismatch at [j] the end of the pattern moves on, but not past an occurrence. *)
Lemma shift_sound e j : m - 1 <= e < n -> 0 <= j < m ->
  (forall q, j < q < m -> znth string (e - (m - 1 - q)) = znth pat q) -> znth string (e - (m - 1 - j)) <> znth pat j ->
  let i := e - (m - 1 - j) in
  let i' := i + Z.max (znth delta1 (znth string i)) (znth delta2 j) in
  e < i' /\ forall k, occurs string pat k -> e <= k + m - 1 -> i' <= k + m - 1.
Proof using Hn Hm Hpos Hbytes H1 H1' H2.
  intros He Hj Hmatch Hmis i i'. destruct (H2 j Hj) as [Hlo Hhi]. split; [lia|]. intros k (Hk0 & Hk1 & Hk) Hek. rewrite Hm in *.
  destruct (Z.eq_dec e (k + m - 1)) as [E|Hne].
  { destruct Hmis. rewrite <- (Hk j) by lia. f_equal. lia. }
  assert (Hd2 : znth delta2 j <= m - 1 - j + (k + m - 1 - e)).
  { apply Hhi; [lia|]. split.
    - intros q Hq Hge. rewrite <- (Hk (q - (k + m - 1 - e))), <- Hmatch by lia. f_equal. lia.
    - intros Hge Heq. apply Hmis. rewrite <- Heq, <- (Hk (j - (k + m - 1 - e))) by lia. f_equal. lia. }
  assert (Hc : 0 <= znth string i < 256) by (apply Forall_znth; [lia|exact Hbytes]).
  assert (Hd1 : znth delta1 (znth string i) <= k + m - 1 - i).
  { destruct (Z.le_gt_cases k i) as [Hki|Hki].
    - replace (znth string i) with (znth pat (i - k)) by (rewrite <- (Hk (i - k)) by lia; f_equal; lia).
      pose proof (H1' (i - k) ltac:(lia)). lia.
    - specialize (H1 _ Hc). lia. }
  lia.
Qed.

Lemma scan_eq fuel : forall i, m - 1 <= i -> Z.max 0 (n - i) < Z.of_nat fuel -> (forall k, occurs string pat k -> i <= k + m - 1) ->
  exists r, scan fuel string n pat m delta1 delta2 i = Some r /\ first_occurrence string pat r.
Proof using Hn Hm Hpos Hbytes H1 H1' H2 Hl1 Hl2.
  induction fuel as [|fuel IH]; intros i Hi Hf Hnone.
  - lia.
  - cbn [scan]. destruct (Z.ltb_spec i n) as [Hin|Hin].
    + destruct (compare_back_eq string pat m i Hm ltac:(lia) (S (Z.to_nat m)) (m - 1)) as (j & Hrun & Hj & Hmatch & Hmis); [lia|lia|lia|].
      replace (i - (m - 1 - (m - 1))) with i in Hrun by lia. rewrite Hrun. step.
      destruct (Z.ltb_spec j 0) as [Hneg|Hpos'].
      * eexists. split; [reflexivity|]. split.
        -- split_and!; [lia|lia|]. intros q Hq. rewrite <- (Hmatch q) by lia. f_equal. lia.
        -- intros k' Hk'. specialize (Hnone k' Hk'). lia.
      * assert (Hc : 0 <= znth string (i - (m - 1 - j)) < 256) by (apply Forall_znth; [lia|exact Hbytes]).
        rewrite (aget_znth string) by lia. step. rewrite (aget_znth delta1) by lia. step. rewrite (aget_znth delta2) by lia. step.
        destruct (shift_sound i j ltac:(lia) ltac:(lia) Hmatch (Hmis Hpos')) as [Hgt Hle].
        replace (if _ <? _ then _ else _) with (Z.max (znth delta1 (znth string (i - (m - 1 - j)))) (znth delta2 j))
          by (destruct (Z.ltb_spec (znth delta1 (znth string (i - (m - 1 - j)))) (znth delta2 j)); lia).
        apply IH; [lia|lia|]. intros k Hk. apply Hle; [done|by apply Hnone].
    + exists None. split; [done|]. intros k Hk. specialize (Hnone k Hk). destruct Hk as (? & ? & _). lia.
Qed.
End search.

(** [C37] [boyer_moore] returns, for every string whose length stays so far below 2^31 that its
    index, an int32 in the code, does not overflow, every pattern of at most 8192 bytes, and
    whatever its tables held before: the first occurrence of the pattern, or the null pointer
    when it does not occur. *)
Theorem boyer_moore_first string pat delta1 delta2 :
  bytes string -> bytes pat -> Z.of_nat (length pat) <= DELTA2_LEN ->
  Z.of_nat (length delta1) = ALPHABET_LEN -> Z.of_nat (length delta2) = DELTA2_LEN ->
  exists r, boyer_moore string (Z.of_nat (length string)) pat (Z.of_nat (length pat)) delta1 delta2 = Some r /\ first_occurrence string pat r.
Proof.
  intros Hs Hp Hlen Hl1 Hl2. unfold boyer_moore. destruct (Z.ltb_spec DELTA2_LEN (Z.of_nat (length pat))); [lia|].
  destruct (Z.eq_dec (Z.of_nat (length pat)) 0) as [E0|Hne].
  - destruct pat; [|cbn in E0; lia]. exists (Some 0). split; [|split; [split_and!; cbn; lia|by intros k (? & _)]].
    destruct (for_loopM_inv (fun k (d : list Z) => Z.of_nat (length d) = 256) (Z.to_nat ALPHABET_LEN) 0 (fun i delta1 => aset delta1 i 0) delta1) as (d & Hd & _).
    + intros k d Hk Hd. change (0 + Z.of_nat (Z.to_nat ALPHABET_LEN)) with 256 in Hk. rewrite aset_zput by lia. eexists. split; [reflexivity|]. by rewrite zput_length.
    + done.
    + unfold make_delta1. cbn [length] in *. change (Z.of_nat 0) with 0 in *. rewrite Hd. done.
  - destruct (make_delta1_eq pat _ eq_refl ltac:(lia) Hp delta1 Hl1) as (d1 & -> & Hld1 & H1 & H1'). step.
    destruct (make_delta2_eq pat _ eq_refl ltac:(lia) delta2 ltac:(lia)) as (d2 & -> & Hld2 & H2). step.
    destruct (Z.eqb_spec (Z.of_nat (length pat)) 0); [lia|].
    destruct (Z.le_gt_cases (Z.of_nat (length string)) (Z.of_nat (length pat) - 1)) as [Hshort|Hlong].
    + exists None. split; [cbn [scan]; by destruct (Z.ltb_spec (Z.of_nat (length pat) - 1) (Z.of_nat (length string))); [lia|]|].
      intros k (? & ? & _). lia.
    + apply (scan_eq string pat _ _ d1 d2 eq_refl eq_refl ltac:(lia) Hs Hld1 H1 H1' ltac:(lia) H2); [lia|lia|].
      intros k (? & _). lia.
Qed.

Lemma boyer_moore_first_witness :
  exists r, boyer_moore [7; 1; 2; 1; 2; 1; 3; 9] 8 [1; 2; 1; 3] 4 (replicate 256 0) (replicate (Z.to_nat DELTA2_LEN) 0) = Some r /\
    first_occurrence [7; 1; 2; 1; 2; 1; 3; 9] [1; 2; 1; 3] r.
Proof.
  apply (boyer_moore_first [7; 1; 2; 1; 2; 1; 3; 9] [1; 2; 1; 3] (replicate 256 0) (replicate (Z.to_nat DELTA2_LEN) 0)).
  - repeat constructor; lia.
  - repeat constructor; lia.
  - unfold DELTA2_LEN. cbn. lia.
  - by rewrite length_replicate.
  - rewrite length_replicate. unfold DELTA2_LEN. lia.
Defined.

(** A longer pattern is not looked for at all. *)
Lemma long_pattern_not_found string pat delta1 delta2 : DELTA2_LEN < Z.of_nat (length pat) ->
  boyer_moore string (Z.of_nat (length string)) pat (Z.of_nat (length pat)) delta1 delta2 = Some None.
Proof. intros H. unfold boyer_moore. by destruct (Z.ltb_spec DELTA2_LEN (Z.of_nat (length pat))); [|lia]. Qed.
