(* ===== verification/Merkle.v ===== *)
(** * merkle.c: hash trees over blocks of data

    A tree is an array of nodes: node 1 is the root, the children of node i are 2i and 2i+1,
    and the leaves, one for each block, begin at 2^(height-1).  A node with two children has
    the hash of their hashes, one with a left child alone has the same hash as the child.

    The array is what [malloc] returns, so a pointer in it may be uninitialised ([Uninit]);
    using such a pointer, or reading behind the end of a block, gives [None].  The hash
    function is a field of the tree, as in the code.  The code keeps the pointers to the
    caller's blocks; only what they hold when they are hashed matters, and is in the model.

    Building gives every node the hash of the reference [ref]; changing a block gives the tree
    that would have been built from the changed blocks; comparing two trees finds the first
    block that differs, or else the hash function has a collision. *)
From Stdlib Require Import ZArith Lia.
From stdpp Require Import base list numbers option.
From S2P Require Import Prelude.
Open Scope Z_scope.

(** A pointer that is not initialised, null, or points to bytes. *)
Inductive cell := Uninit | Null | Ptr (b : list Z).

(** merkle.c:7-7 [merkle_tree_node] *)
Record merkle_tree_node := mkNode { hash : cell; data : cell }.

(** merkle.c:8-17 [merkle_tree] *)
Record merkle_tree := mkTree {
  n : Z; tree_height : Z; hash_size : Z; data_block_size : Z; data_blocks : Z;
  hash_function : list Z -> list Z; nodes : list merkle_tree_node }.

#[export] Instance eta_merkle_tree : Eta merkle_tree := fun t =>
  mkTree (n t) (tree_height t) (hash_size t) (data_block_size t) (data_blocks t) (hash_function t) (nodes t).

(** [1 << k] for an int. *)
Definition shl1 (k : Z) : option Z := if (0 <=? k) && (k <? 31) then Some (2 ^ k) else None.

(** Whether a pointer is not null. *)
Definition present (c : cell) : option bool := match c with Uninit => None | Null => Some false | Ptr _ => Some true end.

(** The first [len] bytes that a pointer points to. *)
Definition read (c : cell) (len : Z) : option (list Z) :=
  match c with Ptr b => if len <=? Z.of_nat (length b) then Some (take (Z.to_nat len) b) else None | _ => None end.

(** Whether node [i] is there and has a hash. *)
Definition hashed (mt : merkle_tree) (i : Z) : option bool :=
  if i <=? n mt then nd ← aget (nodes mt) i; present (hash nd) else Some false.

(** The hash [h] is written to node [i], after a look at whether it already has memory for it. *)
Definition put_hash (mt : merkle_tree) (i : Z) (h : list Z) : option merkle_tree :=
  nd ← aget (nodes mt) i;
  _ ← present (hash nd);
  nodes' ← aset (nodes mt) i (mkNode (Ptr h) (data nd));
  Some (mt.[nodes <- nodes']).

(** merkle.c:106-139 [hash_node] *)
Definition hash_node (mt : merkle_tree) (i : Z) : option (Z * merkle_tree) :=
  top ← shl1 (tree_height mt);
  if top - 1 <? i then Some (-1, mt)
  else
    leaf_start ← shl1 (tree_height mt - 1);
    if i <? leaf_start then
      both ← (if 2 * i + 1 <=? n mt then l ← hashed mt (2 * i); if (l : bool) then hashed mt (2 * i + 1) else Some false else Some false);
      if (both : bool) then
        l ← aget (nodes mt) (2 * i); r ← aget (nodes mt) (2 * i + 1);
        hl ← read (hash l) (hash_size mt); hr ← read (hash r) (hash_size mt);
        mt ← put_hash mt i (hash_function mt (hl ++ hr));
        Some (0, mt)
      else
        left ← hashed mt (2 * i);
        if (left : bool) then
          l ← aget (nodes mt) (2 * i);
          hl ← read (hash l) (hash_size mt);
          mt ← put_hash mt i hl;
          Some (0, mt)
        else Some (0, mt)
    else
      nd ← aget (nodes mt) i;
      p ← present (data nd);
      if (p : bool) then
        d ← read (data nd) (data_block_size mt);
        mt ← put_hash mt i (hash_function mt d);
        Some (0, mt)
      else Some (-1, mt).

(** merkle.c:37-42 [build_tree] A leaf gets its block and its hash. *)
Definition build_leaf (leaf_start : Z) (blocks : list cell) (i : Z) (mt : merkle_tree) : option (Z * merkle_tree) :=
  b ← aget blocks (i - leaf_start);
  nodes' ← aset (nodes mt) i (mkNode Null b);
  hash_node (mt.[nodes <- nodes']) i.

(** merkle.c:43-47 [build_tree] *)
Definition build_inner (i : Z) (mt : merkle_tree) : option (Z * merkle_tree) :=
  nd ← aget (nodes mt) i;
  nodes' ← aset (nodes mt) i (mkNode Null (data nd));
  hash_node (mt.[nodes <- nodes']) i.

(** One round of a loop that leaves with -1. *)
Definition round (f : merkle_tree -> option (Z * merkle_tree)) (mt : merkle_tree) : option (merkle_tree + Z * merkle_tree) :=
  '(r, mt) ← f mt;
  Some (if r =? -1 then inr (-1, mt) else inl mt).

(** merkle.c:29-49 [build_tree] *)
Definition build_tree (mt : merkle_tree) (blocks : list cell) : option (Z * merkle_tree) :=
  leaf_start ← shl1 (tree_height mt - 1);
  if leaf_start <? data_blocks mt then Some (-1, mt)
  else
    let last := leaf_start + data_blocks mt - 1 in
    let mt := mkTree last (tree_height mt) (hash_size mt) (data_block_size mt) (data_blocks mt) (hash_function mt) (replicate (Z.to_nat (last + 1)) (mkNode Uninit Uninit)) in
    r ← for_ret (Z.to_nat (last + 1 - leaf_start)) leaf_start (fun i => round (build_leaf leaf_start blocks i)) mt;
    match r with
    | inr r => Some r
    | inl mt =>
        r ← for_ret (Z.to_nat (leaf_start - 1)) 0 (fun k => round (build_inner (leaf_start - 1 - k))) mt;
        Some (match r with inr r => r | inl mt => (0, mt) end)
    end.

(** merkle.c:55-74 [tree_cmp] *)
Fixpoint tree_cmp (fuel : nat) (a b : merkle_tree) (i : Z) : option Z :=
  match fuel with
  | O => None
  | S fuel =>
      top ← shl1 (tree_height a);
      if top - 1 <? i then Some (-1)
      else
        x ← aget (nodes a) i; y ← aget (nodes b) i;
        hx ← read (hash x) (hash_size a); hy ← read (hash y) (hash_size a);
        if bool_decide (hx = hy) then Some 0
        else if top - 1 <? 2 * i then leaf_start ← shl1 (tree_height a - 1); Some (i - leaf_start + 1)
        else
          cmp ← tree_cmp fuel a b (2 * i);
          if cmp =? 0 then tree_cmp fuel a b (2 * i + 1) else Some cmp
  end.

(** merkle.c:88-91 [set_tree_data] The nodes above a changed leaf. *)
Fixpoint rehash (fuel : nat) (mt : merkle_tree) (i : Z) : option (Z * merkle_tree) :=
  match fuel with
  | O => None
  | S fuel =>
      if 0 <? i then
        '(r, mt) ← hash_node mt i;
        if r =? -1 then Some (-1, mt) else rehash fuel mt (i / 2)
      else Some (0, mt)
  end.

(** merkle.c:78-92 [set_tree_data] *)
Definition set_tree_data (mt : merkle_tree) (block_num : Z) (block : cell) : option (Z * merkle_tree) :=
  if data_blocks mt <? block_num then Some (-1, mt)
  else
    leaf_start ← shl1 (tree_height mt - 1);
    let i := leaf_start + block_num - 1 in
    nd ← aget (nodes mt) i;
    _ ← present (data nd);
    nodes' ← aset (nodes mt) i (mkNode (hash nd) block);
    '(r, mt) ← hash_node (mt.[nodes <- nodes']) i;
    if r =? -1 then Some (-1, mt) else rehash (Z.to_nat (tree_height mt)) mt (i / 2).

(** ** The reference *)

(** The hash of two children, of a left child alone, of none. *)
Definition join (H : list Z -> list Z) (l r : option (list Z)) : option (list Z) :=
  match l, r with Some x, Some y => Some (H (x ++ y)) | Some x, None => Some x | None, _ => None end.

(** The hash of the tree with [2 ^ k] leaves over the first blocks of [ds]. *)
Fixpoint ref (H : list Z -> list Z) (k : nat) (ds : list (list Z)) : option (list Z) :=
  match k with
  | O => H <$> head ds
  | S k => join H (ref H k ds) (ref H k (drop (2 ^ k) ds))
  end.

(** What is hashed in that tree: its blocks and the pairs of hashes of children. *)
Fixpoint inputs (H : list Z -> list Z) (k : nat) (ds : list (list Z)) : list (list Z) :=
  match k with
  | O => take 1 ds
  | S k => inputs H k ds ++ inputs H k (drop (2 ^ k) ds) ++
      match ref H k ds, ref H k (drop (2 ^ k) ds) with Some x, Some y => [x ++ y] | _, _ => [] end
  end.

(** An input of one tree and a different one of another with the same hash. *)
Definition collision (H : list Z -> list Z) (k : nat) (ds es : list (list Z)) : Prop :=
  exists x y, x ∈ inputs H k ds /\ y ∈ inputs H k es /\ x <> y /\ H x = H y.

Lemma pow2_nat k : 0 <= k -> Z.to_nat (2 ^ k) = (2 ^ Z.to_nat k)%nat.
Proof. intros Hk. apply Nat2Z.inj. rewrite Z2Nat.id by (apply Z.pow_nonneg; lia). rewrite Nat2Z.inj_pow, Z2Nat.id by lia. done. Qed.

Lemma head_drop {A} k : forall l : list A, head (drop k l) = l !! k.
Proof. induction k as [|k IH]; intros [|x l]; try done. apply IH. Qed.

Section tree.
Context (h hs bs : Z) (H : list Z -> list Z) (Hh : 1 <= h <= 30) (Hlen : forall x, Z.of_nat (length (H x)) = hs).

Abbreviation ref := (ref H) (only parsing).
Abbreviation join := (join H) (only parsing).
Abbreviation inputs := (inputs H) (only parsing).
Abbreviation collision := (collision H) (only parsing).

Lemma ref_nil k : ref k [] = None.
Proof using. induction k as [|k IH]; cbn; [done|]. by rewrite drop_nil, IH. Qed.

Lemma ref_some k ds : ds <> [] -> exists x, ref k ds = Some x /\ Z.of_nat (length x) = hs.
Proof using Hlen.
  intros Hds. revert ds Hds. induction k as [|k IH]; intros ds Hds; cbn.
  - destruct ds as [|d ds]; [done|]. exists (H d). done.
  - destruct (IH ds Hds) as (x & -> & Hx). destruct (ref k (drop (2 ^ k) ds)) as [y|]; cbn; [by exists (H (x ++ y))|by exists x].
Qed.

Lemma ref_none k ds : ref k ds = None -> ds = [].
Proof using Hlen. intros E. destruct ds as [|d ds]; [done|]. destruct (ref_some k (d :: ds)) as (x & E2 & _); [done|]. congruence. Qed.

(** Only the blocks under the root count. *)
Lemma ref_ext k : forall a b, take (2 ^ k) a = take (2 ^ k) b -> ref k a = ref k b.
Proof using.
  induction k as [|k IH]; intros a b E; cbn.
  - destruct a, b; cbn in E; [done|discriminate|discriminate|by injection E as ->].
  - cbn in E. f_equal; apply IH.
    + apply (f_equal (take (2 ^ k))) in E. rewrite !take_take in E. by replace ((2 ^ k) `min` (2 ^ k + (2 ^ k + 0)))%nat with (2 ^ k)%nat in E by lia.
    + apply (f_equal (drop (2 ^ k))) in E. rewrite !skipn_firstn_comm in E. by replace (2 ^ k + (2 ^ k + 0) - 2 ^ k)%nat with (2 ^ k)%nat in E by lia.
Qed.

Lemma collision_left k a b : collision k a b -> collision (S k) a b.
Proof using. intros (x & y & Hx & Hy & Hne). exists x, y. split; [|split; [|exact Hne]]; cbn; apply elem_of_app; by left. Qed.

Lemma collision_right k a b : collision k (drop (2 ^ k) a) (drop (2 ^ k) b) -> collision (S k) a b.
Proof using. intros (x & y & Hx & Hy & Hne). exists x, y. split; [|split; [|exact Hne]]; cbn; apply elem_of_app; right; apply elem_of_app; by left. Qed.

(** Equal hashes: equal blocks, or a collision between inputs of the two trees. *)
Lemma ref_inj k : forall a b, length a = length b -> ref k a = ref k b -> take (2 ^ k) a = take (2 ^ k) b \/ collision k a b.
Proof using Hlen.
  induction k as [|k IH]; intros a b Hl E; cbn in E.
  - destruct a as [|x a], b as [|y b]; cbn in Hl, E; [by left|lia|lia|]. injection E as E. destruct (decide (x = y)) as [-> | Hne]; [by left|right; exists x, y].
    split_and!; [by apply list_elem_of_here|by apply list_elem_of_here|done|done].
  - assert (Hl2 : length (drop (2 ^ k) a) = length (drop (2 ^ k) b)) by (rewrite !length_drop; lia).
    assert (Hsplit : ref k a = ref k b /\ ref k (drop (2 ^ k) a) = ref k (drop (2 ^ k) b) \/ collision (S k) a b).
    { destruct a as [|x a]; [destruct b; [left; by rewrite !drop_nil|cbn in Hl; lia]|]. destruct b as [|y b]; [cbn in Hl; lia|].
      destruct (ref_some k (x :: a)) as (u & Eu & Lu); [done|]. destruct (ref_some k (y :: b)) as (v & Ev & Lv); [done|]. rewrite Eu, Ev in E |- *.
      destruct (ref k (drop _ (x :: a))) as [u'|] eqn:Eu'; destruct (ref k (drop _ (y :: b))) as [v'|] eqn:Ev'; cbn in E.
      - injection E as E. destruct (decide (u ++ u' = v ++ v')) as [Ec|Hne].
        + apply app_inj_1 in Ec as [-> ->]; [|lia]. by left.
        + right. exists (u ++ u'), (v ++ v'). cbn [Merkle.inputs]. rewrite Eu, Ev, Eu', Ev'. split_and!; [| |done|done]; apply elem_of_app; right; apply elem_of_app; right; by apply list_elem_of_here.
      - apply ref_none in Ev'. rewrite Ev' in Hl2. destruct (drop _ (x :: a)) eqn:Ed; [by rewrite ref_nil in Eu'|cbn in Hl2; lia].
      - apply ref_none in Eu'. rewrite Eu' in Hl2. destruct (drop _ (y :: b)) eqn:Ed; [by rewrite ref_nil in Ev'|cbn in Hl2; lia].
      - injection E as ->. by left. }
    destruct Hsplit as [[E1 E2]|]; [|by right].
    destruct (IH _ _ Hl E1) as [T1|C]; [|right; exact (collision_left _ _ _ C)]. destruct (IH _ _ Hl2 E2) as [T2|C]; [|right; exact (collision_right _ _ _ C)]. left.
    replace (2 ^ S k)%nat with (2 ^ k + 2 ^ k)%nat by (cbn; lia). by rewrite <- !take_take_drop, T1, T2.
Qed.

(** ** The nodes *)

Definition L : Z := 2 ^ (h - 1).

Lemma L_pos : 1 <= L.
Proof using Hh. unfold L. pose proof (Z.pow_pos_nonneg 2 (h - 1)). lia. Qed.

Lemma shl_leaf : shl1 (h - 1) = Some L.
Proof using Hh. unfold shl1. destruct (Z.leb_spec 0 (h - 1)); [|lia]. destruct (Z.ltb_spec (h - 1) 31); [done|lia]. Qed.

Lemma shl_top : shl1 h = Some (2 * L).
Proof using Hh.
  unfold shl1. destruct (Z.leb_spec 0 h); [|lia]. destruct (Z.ltb_spec h 31); [|lia]. cbn [andb]. unfold L. by rewrite <- Z.pow_succ_r, Z.sub_1_r, Z.succ_pred by lia.
Qed.

(** The number of blocks of half of the leaves under node [i], and the first block under it. *)
Definition level (i : Z) : Z := h - 1 - Z.log2 i.
Definition first (i : Z) : Z := (i - 2 ^ Z.log2 i) * 2 ^ level i.
Definition node_ref (ds : list (list Z)) (i : Z) : option (list Z) := ref (Z.to_nat (level i)) (drop (Z.to_nat (first i)) ds).

Lemma log2_range i : 1 <= i < 2 * L -> 0 <= Z.log2 i <= h - 1 /\ 2 ^ Z.log2 i <= i < 2 * 2 ^ Z.log2 i.
Proof using Hh.
  intros Hi. pose proof (Z.log2_spec i ltac:(lia)) as E. rewrite Z.pow_succ_r in E by apply Z.log2_nonneg. split; [|lia]. split; [apply Z.log2_nonneg|].
  assert (Z.log2 i < h); [|lia]. apply Z.log2_lt_pow2; [lia|]. replace h with (Z.succ (h - 1)) by lia. rewrite Z.pow_succ_r by lia. exact (proj2 Hi).
Qed.

(** Node [i] is above leaf [L + b] if block [b] is in its range. *)
Lemma range_leaf i : 1 <= i < 2 * L -> i * 2 ^ level i = L + first i.
Proof using Hh.
  intros Hi. destruct (log2_range i Hi) as [Hl _]. unfold first, L, level. rewrite Z.mul_sub_distr_r, <- Z.pow_add_r by lia. replace (Z.log2 i + (h - 1 - Z.log2 i)) with (h - 1) by lia. lia.
Qed.

Lemma first_nonneg i : 1 <= i < 2 * L -> 0 <= first i.
Proof using Hh. intros Hi. destruct (log2_range i Hi) as [_ Hr]. unfold first. apply Z.mul_nonneg_nonneg; [lia|]. apply Z.pow_nonneg. lia. Qed.

Lemma level_leaf i : L <= i < 2 * L -> level i = 0 /\ first i = i - L.
Proof using Hh.
  intros Hi. assert (E : Z.log2 i = h - 1). { apply Z.log2_unique; [lia|]. rewrite Z.pow_succ_r by lia. exact Hi. }
  unfold first, level. rewrite E, Z.sub_diag. fold L. split; [done|]. change (2 ^ 0) with 1. lia.
Qed.

Lemma level_child i j : 1 <= i < L -> (j = 2 * i \/ j = 2 * i + 1) -> level i = level j + 1 /\ 0 <= level j /\ first j = first i + (j - 2 * i) * 2 ^ level j.
Proof using Hh.
  intros Hi Hj. destruct (log2_range i ltac:(lia)) as [Hl Hr]. pose proof L_pos.
  assert (E : Z.log2 j = Z.log2 i + 1) by (destruct Hj as [-> | ->]; [rewrite Z.log2_double by lia; lia|rewrite Z.log2_succ_double by lia; lia]).
  assert (Hs : 0 <= level j). { destruct (log2_range j) as [Hl2 _]; [lia|]. unfold level. lia. }
  unfold first. assert (El : level i = level j + 1) by (unfold level; lia). rewrite El, E. split; [done|]. split; [done|]. rewrite !Z.pow_add_r by lia. change (2 ^ 1) with 2. lia.
Qed.

Lemma node_ref_leaf ds i : L <= i < 2 * L -> node_ref ds i = H <$> ds !! Z.to_nat (i - L).
Proof using Hh.
  intros Hi. unfold node_ref. destruct (level_leaf i Hi) as [-> ->]. change (Z.to_nat 0) with O. cbn. by rewrite head_drop.
Qed.

Lemma node_ref_inner ds i : 1 <= i < L -> node_ref ds i = join (node_ref ds (2 * i)) (node_ref ds (2 * i + 1)).
Proof using Hh.
  intros Hi. unfold node_ref. destruct (level_child i (2 * i) Hi ltac:(lia)) as (E1 & Hs & F1). destruct (level_child i (2 * i + 1) Hi ltac:(lia)) as (E2 & _ & F2).
  pose proof (first_nonneg i ltac:(lia)). assert (level (2 * i + 1) = level (2 * i)) as El by lia. rewrite El in *. rewrite F1, F2, E1. replace (Z.to_nat (level (2 * i) + 1)) with (S (Z.to_nat (level (2 * i)))) by lia. cbn.
  rewrite drop_drop. f_equal; [by replace (2 * i - 2 * i) with 0 by lia; rewrite Z.mul_0_l, Z.add_0_r|].
  do 2 f_equal. replace (2 * i + 1 - 2 * i) with 1 by lia. rewrite Z.mul_1_l, Z2Nat.inj_add by (lia || apply Z.pow_nonneg; lia). f_equal.
  symmetry. apply pow2_nat. lia.
Qed.

(** ** Hashing a node *)

Definition cell_of (o : option (list Z)) : cell := match o with Some x => Ptr x | None => Null end.

Lemma read_ref o x : o = Some x -> Z.of_nat (length x) = hs -> read (cell_of o) hs = Some x.
Proof using Type. intros -> Hx. cbn. rewrite Hx, Z.leb_refl. by rewrite take_ge by lia. Qed.

Section data.
Context (ds : list (list Z)) (Hds : Forall (fun d => Z.of_nat (length d) = bs) ds) (HB : Z.of_nat (length ds) <= L).

Definition count : Z := Z.of_nat (length ds).
Definition last : Z := L + count - 1.
Definition mk (nds : list merkle_tree_node) : merkle_tree := mkTree last h hs bs count H nds.

Lemma node_ref_beyond i : last < i < 2 * L -> node_ref ds i = None.
Proof using Hh.
  unfold last, count. intros Hi. rewrite node_ref_leaf by lia. by rewrite lookup_ge_None_2 by lia.
Qed.

Lemma node_ref_length i x : node_ref ds i = Some x -> Z.of_nat (length x) = hs.
Proof using Hlen.
  unfold node_ref. intros E. destruct (drop (Z.to_nat (first i)) ds) as [|d l] eqn:Ed; [by rewrite ref_nil in E|].
  destruct (ref_some (Z.to_nat (level i)) (d :: l)) as (y & Ey & Hy); [done|]. congruence.
Qed.

(** The nodes, given by a function of the index. *)
Definition nodes_are (nds : list merkle_tree_node) (P : Z -> merkle_tree_node) : Prop :=
  Z.of_nat (length nds) = last + 1 /\ forall i, 0 <= i <= last -> aget nds i = Some (P i).

Definition upd (P : Z -> merkle_tree_node) (i : Z) (v : merkle_tree_node) (j : Z) : merkle_tree_node := if j =? i then v else P j.

Lemma nodes_ext nds P Q : nodes_are nds P -> (forall i, 0 <= i <= last -> P i = Q i) -> nodes_are nds Q.
Proof using. intros [Hl Hg] E. split; [done|]. intros i Hi. by rewrite Hg, E. Qed.

Lemma nodes_unique a b P : nodes_are a P -> nodes_are b P -> a = b.
Proof using.
  intros [La Ha] [Lb Hb]. apply list_eq. intros i. destruct (lt_dec i (length a)) as [Hlt|Hge]; [|rewrite !lookup_ge_None_2 by lia; done].
  specialize (Ha (Z.of_nat i) ltac:(lia)). specialize (Hb (Z.of_nat i) ltac:(lia)). unfold aget in *. rewrite Nat2Z.id in *.
  destruct (Z.leb_spec 0 (Z.of_nat i)); [|lia]. congruence.
Qed.

Lemma nodes_set nds P i v : nodes_are nds P -> 0 <= i <= last -> exists nds', aset nds i v = Some nds' /\ nodes_are nds' (upd P i v).
Proof using.
  intros [Hl Hg] Hi. exists (zput nds i v). split; [apply aset_zput; lia|]. split; [by rewrite zput_length|]. intros j Hj. unfold upd.
  rewrite aget_zput by lia. rewrite Z.eqb_sym. destruct (Z.eqb_spec j i); [done|by apply Hg].
Qed.

Lemma put_hash_at nds P i x : nodes_are nds P -> 0 <= i <= last -> hash (P i) <> Uninit ->
  exists nds', put_hash (mk nds) i x = Some (mk nds') /\ nodes_are nds' (upd P i (mkNode (Ptr x) (data (P i)))).
Proof using Type.
  intros Hn Hi Hp. destruct (nodes_set nds P i (mkNode (Ptr x) (data (P i))) Hn Hi) as (nds' & E & Hn'). exists nds'. split; [|done].
  unfold put_hash. cbn [nodes mk]. rewrite (proj2 Hn i Hi). step. destruct (hash (P i)) eqn:Eh; [done| |]; cbn [present]; step; rewrite E; step; done.
Qed.

(** What a hash pointer is after [hash_node]. *)
Definition fresh (c : cell) (o : option (list Z)) : cell := match o with Some x => Ptr x | None => c end.

Lemma hash_leaf nds P i : nodes_are nds P -> L <= i <= last -> hash (P i) <> Uninit -> data (P i) = cell_of (ds !! Z.to_nat (i - L)) ->
  exists nds', hash_node (mk nds) i = Some (0, mk nds') /\ nodes_are nds' (upd P i (mkNode (cell_of (node_ref ds i)) (data (P i)))).
Proof using Hh Hds HB.
  intros Hn Hi Hp Hd. pose proof L_pos. assert (Hr : i < 2 * L) by (unfold last, count in Hi; lia). unfold hash_node. cbn [mk tree_height nodes hash_size data_block_size hash_function].
  rewrite shl_top. step. destruct (Z.ltb_spec (2 * L - 1) i); [lia|]. rewrite shl_leaf. step. destruct (Z.ltb_spec i L); [lia|].
  rewrite (proj2 Hn i) by lia. step. rewrite Hd, node_ref_leaf by lia.
  destruct (lookup_lt_is_Some_2 ds (Z.to_nat (i - L))) as [d Ed]; [unfold last, count in Hi; lia|]. rewrite Ed. cbn [cell_of present fmap option_fmap option_map]. step.
  assert (Hdl : Z.of_nat (length d) = bs) by (eapply (proj1 (list.Forall_lookup _ _) Hds); exact Ed).
  unfold read. rewrite Hdl, Z.leb_refl. step. rewrite take_ge by lia.
  destruct (put_hash_at nds P i (H d) Hn ltac:(lia) Hp) as (nds' & -> & Hn'). step. exists nds'. split; [done|]. by rewrite Hd, Ed in Hn'.
Qed.

Lemma hashed_at nds P i : nodes_are nds P -> 1 <= i < 2 * L -> (i <= last -> hash (P i) = cell_of (node_ref ds i)) ->
  hashed (mk nds) i = Some (match node_ref ds i with Some _ => true | None => false end).
Proof using Hh.
  intros Hn Hi Hc. unfold hashed. cbn [mk n nodes]. destruct (Z.leb_spec i last) as [Hle|Hgt]; [|by rewrite node_ref_beyond by lia].
  rewrite (proj2 Hn i) by lia. step. rewrite Hc by done. by destruct (node_ref ds i).
Qed.

Lemma hash_inner nds P i : nodes_are nds P -> 1 <= i < L -> hash (P i) <> Uninit ->
  (forall j, j = 2 * i \/ j = 2 * i + 1 -> j <= last -> hash (P j) = cell_of (node_ref ds j)) ->
  exists nds', hash_node (mk nds) i = Some (0, mk nds') /\ nodes_are nds' (upd P i (mkNode (fresh (hash (P i)) (node_ref ds i)) (data (P i)))).
Proof using Hh Hlen.
  intros Hn Hi Hp Hc. pose proof L_pos. assert (Hlast : L - 1 <= last) by (unfold last, count; lia).
  assert (El := hashed_at nds P (2 * i) Hn ltac:(lia) ltac:(apply Hc; auto)). assert (Er := hashed_at nds P (2 * i + 1) Hn ltac:(lia) ltac:(apply Hc; auto)).
  rewrite (node_ref_inner ds i Hi). unfold hash_node. cbn [mk tree_height nodes hash_size data_block_size hash_function n].
  rewrite shl_top. step. destruct (Z.ltb_spec (2 * L - 1) i); [lia|]. rewrite shl_leaf. step. destruct (Z.ltb_spec i L); [|lia]. fold (mk nds). rewrite El, Er.
  assert (Hbeyond : forall j, j = 2 * i \/ j = 2 * i + 1 -> node_ref ds j <> None -> j <= last).
  { intros j Hj Hne. destruct (Z.le_gt_cases j last); [done|]. rewrite node_ref_beyond in Hne by lia. done. }
  set (bl := match node_ref ds (2 * i) with Some _ => true | None => false end). set (br := match node_ref ds (2 * i + 1) with Some _ => true | None => false end).
  assert (Eb : (if 2 * i + 1 <=? last then l ← Some bl; if (l : bool) then Some br else Some false else Some false) = Some (bl && br)).
  { destruct (Z.leb_spec (2 * i + 1) last); [step; by destruct bl|]. subst br. rewrite node_ref_beyond by lia. by rewrite andb_false_r. }
  rewrite Eb. step. subst bl br. clear Eb El Er.
  assert (Hget : forall j x, j = 2 * i \/ j = 2 * i + 1 -> node_ref ds j = Some x -> aget nds j = Some (P j) /\ read (hash (P j)) hs = Some x).
  { intros j x Hj Ex. assert (j <= last) by (apply Hbeyond; congruence). split; [apply Hn; lia|]. rewrite Hc by done. apply read_ref; [done|by eapply node_ref_length]. }
  destruct (node_ref ds (2 * i)) as [x|] eqn:Ex; [destruct (Hget (2 * i) x ltac:(auto) Ex) as [G1 R1]; destruct (node_ref ds (2 * i + 1)) as [y|] eqn:Ey|]; cbn [andb Merkle.join fresh].
  - destruct (Hget (2 * i + 1) y ltac:(auto) Ey) as [G2 R2]. rewrite G1, G2. do 2 step. rewrite R1, R2. do 2 step.
    destruct (put_hash_at nds P i (H (x ++ y)) Hn ltac:(lia) Hp) as (nds' & -> & Hn'). step. by exists nds'.
  - step. rewrite G1. step. rewrite R1. step. destruct (put_hash_at nds P i x Hn ltac:(lia) Hp) as (nds' & -> & Hn'). step. by exists nds'.
  - step. exists nds. split; [done|]. apply (nodes_ext nds P); [done|]. intros j Hj. unfold upd. destruct (Z.eqb_spec j i) as [-> |]; [by destruct (P i)|done].
Qed.

(** ** Building *)

Definition raw : merkle_tree_node := mkNode Uninit Uninit.
Definition leaf_data (i : Z) : cell := if i <? L then Uninit else cell_of (ds !! Z.to_nat (i - L)).
Definition final (i : Z) : merkle_tree_node := if i =? 0 then raw else mkNode (cell_of (node_ref ds i)) (leaf_data i).

(** The tree is there, every node with its hash. *)
Definition tree_of (mt : merkle_tree) : Prop := exists nds, mt = mk nds /\ nodes_are nds final.

Lemma round_ok f nds nds' : f (mk nds) = Some (0, mk nds') -> round f (mk nds) = Some (inl (mk nds')).
Proof using. intros E. unfold round. rewrite E. step. done. Qed.

Lemma blocks_get i : L <= i <= last -> aget (map Ptr ds) (i - L) = Some (cell_of (ds !! Z.to_nat (i - L))).
Proof using.
  unfold last, count. intros Hi. unfold aget. destruct (Z.leb_spec 0 (i - L)); [|lia]. rewrite list_lookup_fmap.
  destruct (lookup_lt_is_Some_2 ds (Z.to_nat (i - L))) as [d ->]; [lia|done].
Qed.

Definition leaves_done (i : Z) (j : Z) : merkle_tree_node := if (L <=? j) && (j <? i) then final j else raw.

Lemma build_leaves nds : nodes_are nds (fun _ => raw) ->
  exists nds', for_ret (Z.to_nat (last + 1 - L)) L (fun i => round (build_leaf L (map Ptr ds) i)) (mk nds) = Some (inl (mk nds')) /\ nodes_are nds' (leaves_done (last + 1)).
Proof using Hh Hds HB.
  intros Hn. pose proof L_pos. assert (Hlast : L - 1 <= last) by (unfold last, count; lia).
  destruct (for_ret_inv (fun i mt => exists a, mt = mk a /\ nodes_are a (leaves_done i)) (Z.to_nat (last + 1 - L)) L
    (fun i => round (build_leaf L (map Ptr ds) i)) (mk nds)) as (mt & E & a & -> & Ha).
  - intros i mt Hi (a & -> & Ha).
    destruct (nodes_set a _ i (mkNode Null (cell_of (ds !! Z.to_nat (i - L)))) Ha ltac:(lia)) as (a1 & E1 & Ha1).
    destruct (hash_leaf a1 _ i Ha1 ltac:(lia)) as (a2 & E2 & Ha2); [unfold upd; by rewrite Z.eqb_refl|unfold upd; by rewrite Z.eqb_refl|].
    exists (mk a2). split; [apply round_ok; unfold build_leaf; rewrite blocks_get by lia; step; cbn [mk nodes]; rewrite E1; step; exact E2|].
    exists a2. split; [done|]. apply (nodes_ext _ _ _ Ha2). intros j Hj. unfold upd, leaves_done, final, leaf_data. rewrite Z.eqb_refl. cbn [data].
    destruct (Z.eqb_spec j i) as [-> |Hne].
    + destruct (Z.leb_spec L i); [|lia]. destruct (Z.ltb_spec i (i + 1)); [|lia]. destruct (Z.eqb_spec i 0); [lia|]. destruct (Z.ltb_spec i L); [lia|done].
    + destruct (Z.ltb_spec j i), (Z.ltb_spec j (i + 1)); done || lia.
  - exists nds. split; [done|]. apply (nodes_ext _ _ _ Hn). intros j Hj. unfold leaves_done. destruct (Z.leb_spec L j), (Z.ltb_spec j L); done || lia.
  - exists a. split; [exact E|]. by replace (last + 1) with (L + Z.of_nat (Z.to_nat (last + 1 - L))) by lia.
Qed.

Definition inner_done (k : Z) (j : Z) : merkle_tree_node := if L - 1 - k <? j then final j else raw.

Lemma build_inners nds : nodes_are nds (leaves_done (last + 1)) ->
  exists nds', for_ret (Z.to_nat (L - 1)) 0 (fun k => round (build_inner (L - 1 - k))) (mk nds) = Some (inl (mk nds')) /\ nodes_are nds' final.
Proof using Hh Hlen.
  intros Hn. pose proof L_pos. assert (Hlast : L - 1 <= last) by (unfold last, count; lia).
  destruct (for_ret_inv (fun k mt => exists a, mt = mk a /\ nodes_are a (inner_done k)) (Z.to_nat (L - 1)) 0
    (fun k => round (build_inner (L - 1 - k))) (mk nds)) as (mt & E & a & -> & Ha).
  - intros k mt Hk (a & -> & Ha). set (i := L - 1 - k). assert (Hi : 1 <= i < L) by lia.
    destruct (nodes_set a _ i (mkNode Null Uninit) Ha ltac:(lia)) as (a1 & E1 & Ha1).
    assert (Ei : inner_done k i = raw) by (unfold inner_done; fold i; by rewrite Z.ltb_irrefl).
    destruct (hash_inner a1 _ i Ha1 Hi) as (a2 & E2 & Ha2); [unfold upd; by rewrite Z.eqb_refl| |].
    { intros j Hj Hjl. unfold upd, inner_done, final. fold i. destruct (Z.eqb_spec j i); [lia|]. destruct (Z.ltb_spec i j); [|lia]. destruct (Z.eqb_spec j 0); [lia|done]. }
    exists (mk a2). split; [apply round_ok; unfold build_inner; cbn [mk nodes]; fold i; rewrite (proj2 Ha i) by lia; step; rewrite Ei; cbn [raw data]; rewrite E1; step; exact E2|].
    exists a2. split; [done|]. apply (nodes_ext _ _ _ Ha2). intros j Hj. unfold upd, inner_done. rewrite Z.eqb_refl. cbn [data hash]. fold i. replace (L - 1 - (k + 1)) with (i - 1) by lia.
    destruct (Z.eqb_spec j i) as [-> |Hne].
    + destruct (Z.ltb_spec (i - 1) i); [|lia]. unfold final, leaf_data. destruct (Z.eqb_spec i 0); [lia|]. destruct (Z.ltb_spec i L); [done|lia].
    + destruct (Z.ltb_spec i j), (Z.ltb_spec (i - 1) j); done || lia.
  - exists nds. split; [done|]. apply (nodes_ext _ _ _ Hn). intros j Hj. unfold leaves_done, inner_done. destruct (Z.leb_spec L j), (Z.ltb_spec j (last + 1)), (Z.ltb_spec (L - 1 - 0) j); done || lia.
  - exists a. split; [exact E|]. apply (nodes_ext _ _ _ Ha). intros j Hj. unfold inner_done. destruct (Z.ltb_spec (L - 1 - (0 + Z.of_nat (Z.to_nat (L - 1)))) j); [done|]. unfold final. by destruct (Z.eqb_spec j 0); [|lia].
Qed.

Lemma build_tree_of n0 nds0 : exists mt, build_tree (mkTree n0 h hs bs count H nds0) (map Ptr ds) = Some (0, mt) /\ tree_of mt.
Proof using Hh Hlen Hds HB.
  pose proof L_pos. assert (Hlast : L - 1 <= last) by (unfold last, count; lia). unfold build_tree. cbn [tree_height data_blocks hash_size data_block_size hash_function]. rewrite shl_leaf. step.
  destruct (Z.ltb_spec L count); [unfold count in *; lia|]. cbv zeta. fold last raw.
  destruct (build_leaves (replicate (Z.to_nat (last + 1)) raw)) as (a & E1 & Ha).
  { split; [rewrite length_replicate; lia|]. intros i Hi. unfold aget. destruct (Z.leb_spec 0 i); [|lia]. apply lookup_replicate_2. lia. }
  fold (mk (replicate (Z.to_nat (last + 1)) raw)). rewrite E1. step. destruct (build_inners a Ha) as (b & E2 & Hb). rewrite E2. step. exists (mk b). split; [done|]. by exists b.
Qed.
End data.

(** ** Changing a block *)

Section change.
Context (ds : list (list Z)) (Hds : Forall (fun d => Z.of_nat (length d) = bs) ds) (HB : Z.of_nat (length ds) <= L).
Context (k : nat) (d : list Z) (Hk : (k < length ds)%nat) (Hd : Z.of_nat (length d) = bs).

Definition changed : list (list Z) := <[k := d]> ds.

Lemma changed_length : length changed = length ds.
Proof using. apply length_insert. Qed.

Lemma changed_blocks : Forall (fun d => Z.of_nat (length d) = bs) changed.
Proof using Hds Hd. by apply Forall_insert. Qed.

Lemma changed_count : count changed = count ds.
Proof using. unfold count. by rewrite changed_length. Qed.

Lemma changed_last : last changed = last ds.
Proof using. unfold last. by rewrite changed_count. Qed.

Lemma changed_mk nds : mk changed nds = mk ds nds.
Proof using. unfold mk. by rewrite changed_last, changed_count. Qed.

Lemma changed_nodes nds P : nodes_are changed nds P <-> nodes_are ds nds P.
Proof using. unfold nodes_are. by rewrite changed_last. Qed.

(** A node that is not above the block keeps its hash. *)
Lemma changed_elsewhere j : 0 <= j <= last ds -> (forall t, 0 <= t -> j <> (L + Z.of_nat k) / 2 ^ t) -> final changed j = final ds j.
Proof using Hh HB Hk.
  intros Hj Hne. unfold final. destruct (Z.eqb_spec j 0) as [|Hj0]; [done|]. assert (Hr : 1 <= j < 2 * L) by (unfold last, count in Hj; lia). f_equal.
  - f_equal. apply ref_ext. pose proof (first_nonneg j Hr) as Hf. pose proof (range_leaf j Hr) as Hrl. destruct (log2_range j Hr) as [Hl _].
    assert (Hlev : 0 <= level j) by (unfold level; lia). assert (Hp : 0 < 2 ^ level j) by (apply Z.pow_pos_nonneg; lia).
    rewrite <- pow2_nat by done. apply list_eq. intros m. destruct (lt_dec m (Z.to_nat (2 ^ level j))) as [Hm|]; [|rewrite !lookup_take_ge by lia; done].
    rewrite !lookup_take_lt, !lookup_drop by done. unfold changed. apply list_lookup_insert_ne. intros E. apply (Hne (level j) Hlev).
    apply Z.div_unique with (Z.of_nat m); lia.
  - unfold leaf_data. destruct (Z.ltb_spec j L); [done|]. f_equal. apply list_lookup_insert_ne. intros E. apply (Hne 0); [lia|]. change (2 ^ 0) with 1. rewrite Z.div_1_r. lia.
Qed.

Lemma changed_null j : fresh (cell_of (node_ref ds j)) (node_ref changed j) = cell_of (node_ref changed j).
Proof using Hlen Hk.
  destruct (node_ref changed j) eqn:E; [done|]. cbn [fresh cell_of]. unfold node_ref in *. apply ref_none in E. apply (f_equal length) in E. rewrite length_drop, changed_length in E. cbn in E.
  rewrite (drop_ge ds) by lia. by rewrite ref_nil.
Qed.

(** While the hashes above the block are made again: the nodes behind [i] are done. *)
Definition half_done (i j : Z) : merkle_tree_node := if i <? j then final changed j else final ds j.

Lemma half_done_next t i P : 0 <= t -> i = (L + Z.of_nat k) / 2 ^ t -> (forall j, 0 <= j <= last ds -> P j = if j =? i then final changed i else half_done i j) ->
  forall j, 0 <= j <= last ds -> P j = half_done (i / 2) j.
Proof using Hh HB Hk.
  intros Ht Hi HP j Hj. rewrite HP by done. pose proof L_pos. assert (H2 : 0 < 2 ^ t) by (apply Z.pow_pos_nonneg; lia). assert (Hi0 : 0 <= i) by (rewrite Hi; apply Z.div_pos; lia). unfold half_done.
  destruct (Z.eqb_spec j i) as [-> |Hne].
  - destruct (Z.ltb_spec (i / 2) i) as [|Hge]; [done|]. assert (i = 0) as -> by dmlia. done.
  - destruct (Z.ltb_spec i j), (Z.ltb_spec (i / 2) j); [done|dmlia| |done].
    symmetry. apply changed_elsewhere; [done|]. intros s Hs E. destruct (Z.le_gt_cases s t) as [Hle|Hgt].
    + assert (i <= j); [|lia]. rewrite E, Hi. apply Z.div_le_compat_l; [lia|]. split; [apply Z.pow_pos_nonneg; lia|]. apply Z.pow_le_mono_r; lia.
    + assert (j <= i / 2); [|lia]. rewrite E, Hi, Z.div_div by lia. apply Z.div_le_compat_l; [lia|]. split; [lia|]. rewrite <- (Z.pow_1_r 2) at 2. rewrite <- Z.pow_add_r by lia. apply Z.pow_le_mono_r; lia.
Qed.

Lemma rehash_spec fuel : forall t i nds, 1 <= t <= h -> i = (L + Z.of_nat k) / 2 ^ t -> h - t < Z.of_nat fuel -> nodes_are ds nds (half_done i) ->
  exists nds', rehash fuel (mk ds nds) i = Some (0, mk ds nds') /\ nodes_are ds nds' (final changed).
Proof using Hh Hlen HB Hk.
  pose proof L_pos as HL. induction fuel as [|fuel IH]; intros t i nds Ht Hi Hf Hn; [lia|]. assert (H2 : 0 < 2 ^ t) by (apply Z.pow_pos_nonneg; lia).
  cbn [rehash]. destruct (Z.ltb_spec 0 i) as [Hpos|Hz].
  - assert (Hlt : t < h).
    { destruct (Z.eq_dec t h) as [-> |]; [|lia]. rewrite Z.div_small in Hi; [lia|]. replace h with (Z.succ (h - 1)) by lia. rewrite Z.pow_succ_r by lia. fold L. lia. }
    assert (HiL : i < L). { rewrite Hi. apply Z.div_lt_upper_bound; [lia|]. assert (2 ^ 1 <= 2 ^ t) by (apply Z.pow_le_mono_r; lia). change (2 ^ 1) with 2 in *. nia. }
    assert (Hlast : L <= last ds) by (unfold last, count; lia).
    assert (Eold : half_done i i = final ds i) by (unfold half_done; by rewrite Z.ltb_irrefl).
    destruct (hash_inner changed nds (half_done i) i) as (nds1 & E & Hn1); [by apply changed_nodes|lia| | |].
    { rewrite Eold. unfold final. destruct (Z.eqb_spec i 0); [lia|]. cbn. by destruct (node_ref ds i). }
    { intros j Hj Hjl. unfold half_done, final. destruct (Z.ltb_spec i j); [|lia]. by destruct (Z.eqb_spec j 0); [lia|]. }
    rewrite changed_mk in E. rewrite E. step. change (0 =? -1) with false. cbv iota. rewrite changed_mk. apply (IH (t + 1)); [lia| |lia|].
    + rewrite Hi, Z.div_div, Z.pow_add_r by lia. done.
    + apply changed_nodes in Hn1. apply (nodes_ext ds _ _ _ Hn1). apply (half_done_next t); [lia|done|]. intros j Hj. unfold upd. destruct (Z.eqb_spec j i) as [-> |]; [|done].
      rewrite Eold. unfold final. destruct (Z.eqb_spec i 0); [lia|]. cbn [hash data]. rewrite changed_null. unfold leaf_data. destruct (Z.ltb_spec i L); [done|lia].
  - exists nds. split; [done|]. apply (nodes_ext ds _ _ _ Hn). intros j Hj. unfold half_done. destruct (Z.ltb_spec i j); [done|]. assert (j = 0) as -> by lia. done.
Qed.

Lemma set_tree_of mt : tree_of ds mt -> exists mt', set_tree_data mt (Z.of_nat k + 1) (Ptr d) = Some (0, mt') /\ tree_of changed mt'.
Proof using Hh Hlen Hds HB Hk Hd.
  intros (nds & -> & Hn). pose proof L_pos as HL. unfold set_tree_data. cbn [mk data_blocks tree_height nodes]. destruct (Z.ltb_spec (count ds) (Z.of_nat k + 1)); [unfold count in *; lia|].
  rewrite shl_leaf. step. cbv zeta. set (i := L + (Z.of_nat k + 1) - 1). assert (Hi : i = L + Z.of_nat k) by (unfold i; lia). assert (Hil : i <= last ds) by (unfold last, count; lia).
  assert (Hdata : data (final ds i) = cell_of (ds !! k)).
  { unfold final, leaf_data. destruct (Z.eqb_spec i 0); [lia|]. cbn [data]. destruct (Z.ltb_spec i L); [lia|]. by replace (Z.to_nat (i - L)) with k by lia. }
  rewrite (proj2 Hn i) by lia. step. destruct (lookup_lt_is_Some_2 ds k Hk) as [d0 Ed0]. rewrite Hdata, Ed0. cbn [cell_of present]. step.
  destruct (nodes_set ds nds (final ds) i (mkNode (hash (final ds i)) (Ptr d)) Hn ltac:(lia)) as (n1 & E1 & H1). rewrite E1. step. fold (mk ds n1). change (_.[nodes <- n1]) with (mk ds n1).
  destruct (hash_leaf changed changed_blocks ltac:(by rewrite changed_length) n1 _ i (proj2 (changed_nodes _ _) H1)) as (n2 & E2 & H2).
  - rewrite changed_last. lia.
  - unfold upd. rewrite Z.eqb_refl. unfold final. destruct (Z.eqb_spec i 0); [lia|]. cbn. by destruct (node_ref ds i).
  - unfold upd. rewrite Z.eqb_refl. replace (Z.to_nat (i - L)) with k by lia. unfold changed. by rewrite list_lookup_insert_eq by done.
  - rewrite changed_mk in E2. rewrite E2. step. change (0 =? -1) with false. cbv iota. rewrite changed_mk. apply changed_nodes in H2.
    destruct (rehash_spec (Z.to_nat h) 1 (i / 2) n2) as (n3 & E3 & H3); [lia|by rewrite Hi|lia| |].
    + apply (nodes_ext ds _ _ _ H2). apply (half_done_next 0); [lia|by rewrite Hi, Z.pow_0_r, Z.div_1_r|]. intros j Hj. unfold upd. rewrite Z.eqb_refl. cbn [data]. destruct (Z.eqb_spec j i) as [-> |].
      * unfold final, leaf_data. destruct (Z.eqb_spec i 0); [lia|]. destruct (Z.ltb_spec i L); [lia|]. replace (Z.to_nat (i - L)) with k by lia. unfold changed. by rewrite list_lookup_insert_eq by done.
      * unfold half_done. destruct (Z.ltb_spec i j); [|done]. symmetry. apply changed_elsewhere; [lia|]. intros t Ht E.
        assert (j <= i); [|lia]. rewrite E, Hi. apply Z.div_le_upper_bound; [apply Z.pow_pos_nonneg; lia|]. assert (2 ^ 0 <= 2 ^ t) by (apply Z.pow_le_mono_r; lia). change (2 ^ 0) with 1 in *. nia.
    + cbn [mk tree_height]. rewrite E3. exists (mk ds n3). split; [done|]. exists n3. split; [by rewrite changed_mk|]. by apply changed_nodes.
Qed.
End change.

(** ** Comparing *)

Lemma node_ref_under fs i : 1 <= i < 2 * L -> node_ref fs i = None <-> Z.of_nat (length fs) <= first i.
Proof using Hh Hlen.
  intros Hi. pose proof (first_nonneg i Hi). unfold node_ref. split.
  - intros E. apply ref_none, (f_equal length) in E. rewrite length_drop in E. cbn in E. lia.
  - intros E. rewrite drop_ge by lia. apply ref_nil.
Qed.

Lemma read_final fs c i : nodes_are fs c (final fs) -> 1 <= i < 2 * L -> first i < Z.of_nat (length fs) -> Z.of_nat (length fs) <= L ->
  exists x, node_ref fs i = Some x /\ aget c i = Some (final fs i) /\ read (hash (final fs i)) hs = Some x.
Proof using Hh Hlen.
  intros Hc Hi Hf Hfs. destruct (node_ref fs i) as [x|] eqn:E; [|apply node_ref_under in E; lia]. exists x. split; [done|].
  assert (i <= last fs). { destruct (Z.le_gt_cases i (last fs)); [done|]. rewrite node_ref_beyond in E by lia. done. }
  split; [apply Hc; lia|]. unfold final. destruct (Z.eqb_spec i 0); [lia|]. cbn [hash]. apply read_ref; [done|]. by eapply node_ref_length.
Qed.

Section compare.
Context (ds es : list (list Z)) (HB : Z.of_nat (length ds) <= L) (Hl : length es = length ds).
Context (a b : list merkle_tree_node) (Ha : nodes_are ds a (final ds)) (Hb : nodes_are es b (final es)).

(** A collision below node [i]. *)
Definition node_collision (i : Z) : Prop := collision (Z.to_nat (level i)) (drop (Z.to_nat (first i)) ds) (drop (Z.to_nat (first i)) es).

Lemma node_collision_child i j : 1 <= i < L -> (j = 2 * i \/ j = 2 * i + 1) -> node_collision j -> node_collision i.
Proof using Hh Hl.
  intros Hi Hj. destruct (level_child i j Hi Hj) as (V & S0 & F). pose proof (first_nonneg i ltac:(pose proof L_pos; lia)). unfold node_collision. rewrite F, V.
  replace (Z.to_nat (level j + 1)) with (S (Z.to_nat (level j))) by lia. destruct Hj as [-> | ->].
  - replace (2 * i - 2 * i) with 0 by lia. rewrite Z.mul_0_l, Z.add_0_r. apply collision_left.
  - replace (2 * i + 1 - 2 * i) with 1 by lia. rewrite Z.mul_1_l, Z2Nat.inj_add, pow2_nat by (lia || apply Z.pow_nonneg; lia). rewrite <- !drop_drop. apply collision_right.
Qed.

(** What comparing at node [i] gives. *)
Definition compared (i r : Z) : Prop :=
  (node_ref ds i = node_ref es i /\ r = 0) \/
  (node_ref ds i <> node_ref es i /\ exists p, r = p + 1 /\ first i <= p < first i + 2 ^ level i /\ p < Z.of_nat (length ds) /\
    ds !! Z.to_nat p <> es !! Z.to_nat p /\ ((forall q, first i <= q < p -> ds !! Z.to_nat q = es !! Z.to_nat q) \/ node_collision i)).

Lemma compared_ext i : 1 <= i < 2 * L -> first i < Z.of_nat (length ds) -> node_ref ds i = node_ref es i ->
  (forall q, first i <= q < first i + 2 ^ level i -> ds !! Z.to_nat q = es !! Z.to_nat q) \/ node_collision i.
Proof using Hh Hlen Hl.
  intros Hi Hf E. pose proof (first_nonneg i Hi). destruct (log2_range i Hi) as [Hlg _]. assert (Hlev : 0 <= level i) by (unfold level; lia).
  destruct (ref_inj _ (drop (Z.to_nat (first i)) ds) (drop (Z.to_nat (first i)) es) ltac:(rewrite !length_drop; lia) E) as [T|]; [|by right]. left. intros q Hq.
  rewrite <- pow2_nat in T by done. apply (f_equal (fun l => l !! Z.to_nat (q - first i))) in T.
  rewrite !lookup_take_lt, !lookup_drop in T by lia. by replace (Z.to_nat (first i) + Z.to_nat (q - first i))%nat with (Z.to_nat q) in T by lia.
Qed.

Lemma tree_cmp_at fuel : forall i, 1 <= i < 2 * L -> first i < Z.of_nat (length ds) -> level i < Z.of_nat fuel ->
  exists r, tree_cmp fuel (mk ds a) (mk es b) i = Some r /\ compared i r.
Proof using Hh Hlen HB Hl Ha Hb.
  pose proof L_pos as HL. induction fuel as [|fuel IH]; intros i Hi Hf Hfuel; [destruct (log2_range i Hi); unfold level in *; lia|].
  destruct (read_final ds a i Ha Hi Hf HB) as (x & Ex & Gx & Rx). destruct (read_final es b i Hb Hi ltac:(lia) ltac:(lia)) as (y & Ey & Gy & Ry).
  cbn [tree_cmp mk tree_height nodes hash_size]. rewrite shl_top. step. destruct (Z.ltb_spec (2 * L - 1) i); [lia|]. rewrite Gx, Gy. do 2 step. rewrite Rx, Ry. do 2 step.
  unfold compared. rewrite Ex, Ey. destruct (decide (x = y)) as [-> |Hxy].
  { rewrite bool_decide_eq_true_2 by done. exists 0. split; [done|]. by left. }
  rewrite bool_decide_eq_false_2 by done. assert (Hne : Some x <> Some y) by congruence. destruct (Z.ltb_spec (2 * L - 1) (2 * i)) as [Hleaf|Hin].
  - rewrite shl_leaf. step. exists (i - L + 1). split; [done|]. right. split; [done|]. exists (i - L). destruct (level_leaf i ltac:(lia)) as [El Ef]. rewrite El, Ef in *. change (2 ^ 0) with 1.
    split; [done|]. split; [lia|]. split; [lia|]. split; [|left; intros q Hq; lia]. rewrite node_ref_leaf in Ex by lia. rewrite node_ref_leaf in Ey by lia. intros E. rewrite E in Ex. congruence.
  - assert (HiL : 1 <= i < L) by lia. rewrite (node_ref_inner ds i HiL) in Ex. rewrite (node_ref_inner es i HiL) in Ey.
    destruct (level_child i (2 * i) HiL ltac:(lia)) as (V1 & S1 & F1). destruct (level_child i (2 * i + 1) HiL ltac:(lia)) as (V2 & S2 & F2).
    replace (2 * i - 2 * i) with 0 in F1 by lia. replace (2 * i + 1 - 2 * i) with 1 in F2 by lia. rewrite Z.mul_0_l, Z.add_0_r in F1. rewrite Z.mul_1_l in F2.
    assert (Hv : level (2 * i + 1) = level (2 * i)) by lia. rewrite Hv in F2. assert (Hp : 0 < 2 ^ level (2 * i)) by (apply Z.pow_pos_nonneg; lia).
    assert (Hp2 : 2 ^ level i = 2 ^ level (2 * i) + 2 ^ level (2 * i)) by (rewrite V1, Z.pow_add_r by lia; change (2 ^ 1) with 2; lia).
    destruct (IH (2 * i) ltac:(lia) ltac:(lia) ltac:(lia)) as (r & Er & [[El ->]|[El (p & -> & Hpr & Hpl & Hpd & Hq)]]); rewrite Er; step.
    + change (0 =? 0) with true. cbv iota.
      assert (Er2 : node_ref ds (2 * i + 1) <> node_ref es (2 * i + 1)) by (intros E; rewrite El, E in Ex; congruence).
      assert (Hf2 : first (2 * i + 1) < Z.of_nat (length ds)).
      { destruct (Z.le_gt_cases (Z.of_nat (length ds)) (first (2 * i + 1))) as [Hle|]; [|lia]. exfalso. apply Er2. rewrite (proj2 (node_ref_under ds (2 * i + 1) ltac:(lia)) Hle). symmetry. apply node_ref_under; lia. }
      destruct (IH (2 * i + 1) ltac:(lia) Hf2 ltac:(lia)) as (r & Er' & [[E _]|[_ (p & -> & Hpr & Hpl & Hpd & Hq)]]); [done|]. exists (p + 1). split; [exact Er'|]. right. split; [done|].
      exists p. rewrite F2, Hv in Hpr. rewrite F2 in Hq. split; [done|]. split; [lia|]. split; [done|]. split; [done|].
      destruct Hq as [Hq|C]; [|right; exact (node_collision_child i (2 * i + 1) HiL ltac:(lia) C)].
      destruct (compared_ext (2 * i) ltac:(lia) ltac:(lia) El) as [He|C]; [|right; exact (node_collision_child i (2 * i) HiL ltac:(lia) C)]. left. intros q Hqr.
      destruct (Z.lt_ge_cases q (first i + 2 ^ level (2 * i))); [apply He; lia|apply Hq; lia].
    + pose proof (first_nonneg i Hi). destruct (Z.eqb_spec (p + 1) 0); [lia|]. exists (p + 1). split; [done|]. right. split; [done|]. exists p. rewrite F1 in Hpr, Hq. split_and!; [done|lia|lia|lia|done|].
      destruct Hq as [Hq|C]; [by left|right; exact (node_collision_child i (2 * i) HiL ltac:(lia) C)].
Qed.
End compare.
End tree.

(** ** What the tree promises *)

(** The settings of a tree fit the blocks: there is room for them, they have the size of a
    block, and the hash function gives hashes of the size of a hash. *)
Record fits (mt : merkle_tree) (ds : list (list Z)) : Prop := {
  fit_height : 1 <= tree_height mt <= 30;
  fit_hash : forall x, Z.of_nat (length (hash_function mt x)) = hash_size mt;
  fit_blocks : Forall (fun d => Z.of_nat (length d) = data_block_size mt) ds;
  fit_count : data_blocks mt = Z.of_nat (length ds);
  fit_room : Z.of_nat (length ds) <= 2 ^ (tree_height mt - 1) }.

Lemma build_fits mt ds : fits mt ds -> exists mt',
  build_tree mt (map Ptr ds) = Some (0, mt') /\ tree_of (tree_height mt) (hash_size mt) (data_block_size mt) (hash_function mt) ds mt'.
Proof.
  intros [Hh Hf Hb Hc Hr]. destruct mt as [n0 h hs bs c H nds0]. cbn in *. subst c. by apply (build_tree_of h hs bs H Hh Hf ds Hb Hr).
Qed.

Lemma tree_of_unique h hs bs H ds mt mt' : tree_of h hs bs H ds mt -> tree_of h hs bs H ds mt' -> mt = mt'.
Proof. intros (a & -> & Ha) (b & -> & Hb). f_equal. by eapply nodes_unique. Qed.

Lemma fits_changed mt ds k d : fits mt ds -> Z.of_nat (length d) = data_block_size mt -> fits mt (<[k := d]> ds).
Proof. intros [Hh Hf Hb Hc Hr] Hd. split; rewrite ?length_insert; try done. by apply Forall_insert. Qed.

(** [C26] Building a tree succeeds, and every node gets the hash of the reference over the blocks
    below it: the root that of all blocks. *)
Theorem build_tree_hashes mt ds : fits mt ds -> exists mt', build_tree mt (map Ptr ds) = Some (0, mt') /\
  (ds <> [] -> exists root, aget (nodes mt') 1 = Some root /\ hash root = cell_of (ref (hash_function mt) (Z.to_nat (tree_height mt - 1)) ds)) /\
  forall i, 1 <= i <= n mt' -> exists nd, aget (nodes mt') i = Some nd /\
    let k := tree_height mt - 1 - Z.log2 i in
    hash nd = cell_of (ref (hash_function mt) (Z.to_nat k) (drop (Z.to_nat ((i - 2 ^ Z.log2 i) * 2 ^ k)) ds)).
Proof.
  intros F. destruct (build_fits mt ds F) as (mt' & E & nds & -> & Hn). exists (mk (tree_height mt) (hash_size mt) (data_block_size mt) (hash_function mt) ds nds). split; [exact E|].
  assert (G : forall i, 1 <= i <= last (tree_height mt) ds -> exists nd, aget nds i = Some nd /\ hash nd = cell_of (node_ref (tree_height mt) (hash_function mt) ds i)).
  { intros i Hi. eexists. split; [apply Hn; lia|]. unfold final. by destruct (Z.eqb_spec i 0); [lia|]. }
  split; [|exact G]. intros Hne. destruct (G 1) as (nd & E1 & E2).
  - pose proof (L_pos _ (fit_height _ _ F)). destruct ds; [done|]. unfold last, count. cbn [length]. lia.
  - exists nd. split; [exact E1|]. rewrite E2. unfold node_ref, level, first. change (Z.log2 1) with 0. change (1 - 2 ^ 0) with 0. by rewrite Z.mul_0_l, Z.sub_0_r.
Qed.

(** [C25] Changing block [k + 1] of a tree gives, in every node, the tree that is built from the
    changed blocks. *)
Theorem set_tree_data_rebuilds mt ds mt' k d : fits mt ds -> (k < length ds)%nat -> Z.of_nat (length d) = data_block_size mt ->
  build_tree mt (map Ptr ds) = Some (0, mt') ->
  set_tree_data mt' (Z.of_nat k + 1) (Ptr d) = build_tree mt (map Ptr (<[k := d]> ds)) /\ build_tree mt (map Ptr (<[k := d]> ds)) <> None.
Proof.
  intros F Hk Hd E. destruct (build_fits mt ds F) as (mt1 & E1 & T1). rewrite E in E1. injection E1 as <-.
  destruct (build_fits mt _ (fits_changed mt ds k d F Hd)) as (mt2 & E2 & T2). rewrite E2. split; [|done].
  destruct (set_tree_of _ _ _ _ (fit_height _ _ F) (fit_hash _ _ F) ds (fit_blocks _ _ F) (fit_room _ _ F) k d Hk Hd mt' T1) as (mt3 & E3 & T3).
  rewrite E3. by rewrite (tree_of_unique _ _ _ _ _ _ _ T2 T3).
Qed.

(** [C24] Comparing two trees over the same number of blocks, at least one, ends; it gives 0 only
    when all blocks are equal, and otherwise the number, from 1, of the first block that differs -
    unless something that was hashed in the first tree (a block, or the hashes of two children)
    has the same hash as something else that was hashed in the second. The number it gives is
    always that of a block that differs. *)
Theorem tree_cmp_first mt ds es a b : fits mt ds -> fits mt es -> ds <> [] ->
  build_tree mt (map Ptr ds) = Some (0, a) -> build_tree mt (map Ptr es) = Some (0, b) ->
  exists r, tree_cmp (Z.to_nat (tree_height mt)) a b 1 = Some r /\
    let collided := collision (hash_function mt) (Z.to_nat (tree_height mt - 1)) ds es in
    (r = 0 /\ (ds = es \/ collided)) \/
    (exists p : nat, r = Z.of_nat p + 1 /\ (p < length ds)%nat /\ ds !! p <> es !! p /\ ((forall q, (q < p)%nat -> ds !! q = es !! q) \/ collided)).
Proof.
  intros F G Hne E1 E2. destruct (build_fits mt ds F) as (a' & Ea & na & -> & Ta). rewrite E1 in Ea. injection Ea as ->.
  destruct (build_fits mt es G) as (b' & Eb & nb & -> & Tb). rewrite E2 in Eb. injection Eb as ->.
  assert (Hl : length es = length ds) by (pose proof (fit_count _ _ F); pose proof (fit_count _ _ G); lia).
  pose proof (fit_height _ _ F) as Hh. pose proof (L_pos _ Hh) as HL. set (h := tree_height mt) in *.
  assert (Hlev : level h 1 = h - 1) by (unfold level; change (Z.log2 1) with 0; lia). assert (Hf : first h 1 = 0) by (unfold first; change (Z.log2 1) with 0; lia).
  assert (Hlen : 0 < Z.of_nat (length ds)) by (destruct ds; [done|cbn; lia]).
  destruct (tree_cmp_at h _ (data_block_size mt) (hash_function mt) Hh (fit_hash _ _ F) ds es (fit_room _ _ F) Hl na nb Ta Tb (Z.to_nat h) 1) as (r & E & C); [lia|lia|lia|].
  exists r. split; [exact E|]. cbv zeta.
  assert (Hcol : node_collision h (hash_function mt) ds es 1 = collision (hash_function mt) (Z.to_nat (h - 1)) ds es) by (unfold node_collision; by rewrite Hlev, Hf).
  pose proof (compared_ext h _ (hash_function mt) Hh (fit_hash _ _ F) ds es Hl 1) as Cx. rewrite Hf, Hlev in Cx. fold (L h) in Cx.
  rewrite Hcol in Cx. destruct C as [[Er ->]|[_ (p & -> & Hp & Hpl & Hd & Hq)]].
  - left. split; [done|]. destruct (Cx ltac:(lia) ltac:(lia) Er) as [Hall|]; [|by right]. left. apply list_eq. intros q. pose proof (fit_room _ _ F) as Hr. fold h (L h) in Hr.
    destruct (lt_dec q (length ds)); [|rewrite !lookup_ge_None_2 by lia; done]. specialize (Hall (Z.of_nat q) ltac:(lia)). by rewrite Nat2Z.id in Hall.
  - right. rewrite Hcol in Hq. rewrite Hf in Hp, Hq. exists (Z.to_nat p). split; [lia|]. split; [lia|]. split; [done|]. destruct Hq as [Hq|]; [left|by right]. intros q Hqp. specialize (Hq (Z.of_nat q) ltac:(lia)). by rewrite Nat2Z.id in Hq.
Qed.

(** ** Refusals *)

Lemma build_tree_too_many mt blocks : 1 <= tree_height mt <= 30 -> 2 ^ (tree_height mt - 1) < data_blocks mt -> build_tree mt blocks = Some (-1, mt).
Proof.
  intros Hh Hb. unfold build_tree. rewrite (shl_leaf _ Hh). step. unfold L. destruct (Z.ltb_spec (2 ^ (tree_height mt - 1)) (data_blocks mt)); [done|lia].
Qed.

(** Blocks are counted from 1. Block 0 is not refused: what is then freed is a pointer that was
    never set, that of an inner node. *)
Lemma set_block_zero mt ds mt' c : fits mt ds -> 2 <= tree_height mt -> build_tree mt (map Ptr ds) = Some (0, mt') -> set_tree_data mt' 0 c = None.
Proof.
  intros F H2 E. destruct (build_fits mt ds F) as (a & Ea & nds & -> & Hn). rewrite E in Ea. injection Ea as ->.
  pose proof (fit_height _ _ F) as Hh. unfold set_tree_data. cbn [mk data_blocks tree_height nodes]. destruct (Z.ltb_spec (count ds) 0); [unfold count in *; lia|]. rewrite (shl_leaf _ Hh). step.
  assert (HL : 2 <= L (tree_height mt)). { unfold L. change 2 with (2 ^ 1) at 1. apply Z.pow_le_mono_r; lia. }
  cbv zeta. rewrite (proj2 Hn) by (unfold last, count; lia). step. unfold final, leaf_data. destruct (Z.eqb_spec (L (tree_height mt) + 0 - 1) 0); [lia|].
  destruct (Z.ltb_spec (L (tree_height mt) + 0 - 1) (L (tree_height mt))); [|lia]. done.
Qed.

(** ** Three blocks *)

Definition byte_sum (x : list Z) : list Z := [foldr Z.add 0 x].
Definition three : merkle_tree := mkTree 0 3 1 2 3 byte_sum [].

Lemma three_fits a b c : length a = 2%nat -> length b = 2%nat -> length c = 2%nat -> fits three [a; b; c].
Proof. intros Ha Hb Hc. split; cbn; [lia|done|repeat constructor; lia|done|lia]. Qed.

Lemma build_tree_hashes_witness : exists mt', build_tree three (map Ptr [[1; 2]; [3; 4]; [5; 6]]) = Some (0, mt') /\
  (hash <$> aget (nodes mt') 1) = Some (Ptr [21]).
Proof.
  destruct (build_tree_hashes three [[1; 2]; [3; 4]; [5; 6]]) as (mt' & E & Hr & _); [apply three_fits; reflexivity|].
  exists mt'. split; [exact E|]. destruct (Hr ltac:(discriminate)) as (root & -> & Eh). cbn [fmap option_fmap option_map]. by rewrite Eh.
Defined.

Lemma set_tree_data_rebuilds_witness : exists mt', build_tree three (map Ptr [[1; 2]; [3; 4]; [5; 6]]) = Some (0, mt') /\
  set_tree_data mt' 2 (Ptr [7; 7]) = build_tree three (map Ptr [[1; 2]; [7; 7]; [5; 6]]).
Proof.
  destruct (build_fits three [[1; 2]; [3; 4]; [5; 6]]) as (mt' & E & _); [apply three_fits; reflexivity|]. exists mt'. split; [exact E|].
  destruct (set_tree_data_rebuilds three [[1; 2]; [3; 4]; [5; 6]] mt' 1 [7; 7]) as [S _]; [apply three_fits; reflexivity|cbn; lia|reflexivity|exact E|exact S].
Defined.

(** The inputs of the two trees do not collide, so the answer is that of the theorem. *)
Lemma tree_cmp_first_witness : exists a b r, build_tree three (map Ptr [[1; 2]; [3; 4]; [5; 6]]) = Some (0, a) /\
  build_tree three (map Ptr [[1; 2]; [9; 4]; [5; 7]]) = Some (0, b) /\ tree_cmp 3 a b 1 = Some r /\ r = 2.
Proof.
  assert (F1 : fits three [[1; 2]; [3; 4]; [5; 6]]) by (apply three_fits; reflexivity). assert (F2 : fits three [[1; 2]; [9; 4]; [5; 7]]) by (apply three_fits; reflexivity).
  assert (Hne : [[1; 2]; [3; 4]; [5; 6]] <> []) by discriminate.
  destruct (build_fits _ _ F1) as (a & Ea & _). destruct (build_fits _ _ F2) as (b & Eb & _). destruct (tree_cmp_first _ _ _ a b F1 F2 Hne Ea Eb) as (r & E & C).
  exists a, b, r. split; [exact Ea|]. split; [exact Eb|]. split; [exact E|].
  assert (Hno : ~ collision byte_sum 2 [[1; 2]; [3; 4]; [5; 6]] [[1; 2]; [9; 4]; [5; 7]]).
  { intros (x & y & Hx & Hy & Hxy & He). cbn in Hx, Hy. rewrite !elem_of_cons, elem_of_nil in Hx, Hy. destruct_or! Hx; destruct_or! Hy; subst; try done; by vm_compute in He. }
  destruct C as [[_ [C|C]]|(p & -> & Hp & Hd & Hq)]; [discriminate C|destruct (Hno C)|].
  destruct Hq as [Hq|C]; [|destruct (Hno C)]. destruct p as [|[|[|p]]]; [by destruct Hd|done|discriminate (Hq 1%nat ltac:(lia))|cbn in Hp; lia].
Defined.

Example second_block_differs :
  ('(_, a) ← build_tree three (map Ptr [[1; 2]; [3; 4]; [5; 6]]); '(_, b) ← build_tree three (map Ptr [[1; 2]; [9; 4]; [5; 7]]); tree_cmp 3 a b 1) = Some 2.
Proof. vm_compute. reflexivity. Qed.
