(* ===== verification/Ramcoder.v ===== *)
(** * ramcoder.c: the adaptive range coder

    Every message between the nodes goes through this coder.  It narrows an interval of 16-bit
    numbers for each symbol, in proportion to how often the symbol occurred so far; the bits
    on which the ends of the interval agree are written, and an interval that is narrow around
    the middle is widened with the pending bits counted in [underflowBits].  The symbols are
    the 256 bytes and an end mark.

    This file has the code and the model of the frequencies; that the decoder gets back what
    the encoder was given is proved in RamcoderCode.  Diagnostics are not modelled. *)
From Stdlib Require Import ZArith Lia.
From stdpp Require Import base list numbers option.
From S2P Require Import Prelude Bits HuffStream.
Open Scope Z_scope.

(** ramcoder.c:25-25 [RAMMASK_BIT] *)
Definition RAMMASK_BIT (x : Z) : Z := u16 (Z.shiftl 1 (8 * 2 - (1 + x))).
(** ramcoder.c:26-26 [RAMCODER_FINALIZE] *)
Definition RAMCODER_FINALIZE : Z := 1.
(** ramcoder.c:27-27 [RAMCODER_PUTBITS] *)
Definition RAMCODER_PUTBITS : Z := 2.
(** ramcoder.c:28-28 [RAMCODER_MAXSYMBOLS] *)
Definition RAMCODER_MAXSYMBOLS : Z := 0x100.

(** ramcoder.c:30-35 [struct ramcoder] *)
Record ramcoder := mkCoder { cumulativeProb : Z; lower : Z; upper : Z; code : Z; underflowBits : Z;
  lastsymbol : Z; upper_lastsymbol : Z; counter : Z; ranges : list Z }.

#[export] Instance eta_ramcoder : Eta ramcoder := fun c =>
  mkCoder (cumulativeProb c) (lower c) (upper c) (code c) (underflowBits c) (lastsymbol c) (upper_lastsymbol c) (counter c) (ranges c).

(** The size of a pointer, which is what [sizeof(seed)] gives. *)
Definition SIZEOF_POINTER : Z := 8.

(** ramcoder.c:63-63 [init_ramcoder] How much more than 1 the seed gives to entry [i]. *)
Definition seed_weight (seed : list Z) (i : Z) : option Z :=
  if i <=? SIZEOF_POINTER * 8 then g ← GETBIT seed (i - 1); Some (c_bool (negb (g =? 0))) else Some 0.

(** ramcoder.c:55-79 [init_ramcoder] *)
Definition init_ramcoder (coder : ramcoder) (hp : option HUFF) (seed : list Z) : option (Z * ramcoder * option HUFF) :=
  let coder := if lastsymbol coder =? 0
               then coder.[lastsymbol <- RAMCODER_MAXSYMBOLS].[upper_lastsymbol <- u16 (RAMCODER_MAXSYMBOLS + 1)] else coder in
  r ← aset (ranges coder) 0 0;
  let coder := coder.[cumulativeProb <- 0].[lower <- 0].[code <- 0].[underflowBits <- 0] in
  r ← for_loopM (Z.to_nat (upper_lastsymbol coder)) 1 (fun i r =>
    x ← aget r (i - 1); w ← seed_weight seed i; aset r i (u16 (x + 1 + 256 * w))) r;
  cum ← for_loopM (Z.to_nat (upper_lastsymbol coder)) 1 (fun i cum =>
    x ← aget r i; y ← aget r (i - 1); Some (u32 (cum + (x - y)))) 0;
  let coder := coder.[ranges <- r].[cumulativeProb <- cum].[upper <- u16 (2 ^ 16 - 1)] in
  match hp with
  | None => Some (0, coder, None)
  | Some hp =>
      '(c, hp) ← for_loopM 16 0 (fun _ '(c, hp) => '(b, hp) ← hgetbit hp; Some (u16 (Z.lor (Z.shiftl c 1) b), hp)) (code coder, hp);
      Some (0, coder.[code <- c], Some hp)
  end.

(** ramcoder.c:81-88 [ramcoder_state] *)
Definition ramcoder_state (coder : ramcoder) : Z :=
  if Z.land (upper coder) (RAMMASK_BIT 0) =? Z.land (lower coder) (RAMMASK_BIT 0) then 0
  else if truth (Z.land (lower coder) (RAMMASK_BIT 1)) && (Z.land (upper coder) (RAMMASK_BIT 1) =? 0) then 1
  else -1.

(** ramcoder.c:90-90 [ramcoder_normalize] *)
Definition ramcoder_normalize (coder : ramcoder) : ramcoder :=
  coder.[lower <- u16 (Z.land (lower coder) (Z.lnot (Z.lor (RAMMASK_BIT 0) (RAMMASK_BIT 1))))]
       .[upper <- Z.lor (upper coder) (RAMMASK_BIT 1)].

(** ramcoder.c:92-92 [ramcoder_shiftbits] *)
Definition ramcoder_shiftbits (coder : ramcoder) : ramcoder :=
  coder.[lower <- u16 (Z.shiftl (lower coder) 1)].[upper <- Z.lor (u16 (Z.shiftl (upper coder) 1)) 1].

(** [n] times the same bit; whether there was room is not looked at. *)
Definition put_repeat (n : Z) (hp : HUFF) (bit : Z) : option HUFF :=
  for_loopM (Z.to_nat n) 0 (fun _ hp => '(_, hp) ← hputbit hp bit; Some hp) hp.

(** ramcoder.c:94-124 [ramcoder_putbits] *)
Fixpoint putbits_loop (fuel : nat) (hp : HUFF) (coder : ramcoder) (flushflag numbits : Z) : option (Z * HUFF * ramcoder) :=
  match fuel with
  | O => None
  | S fuel =>
      let state := ramcoder_state coder in
      if state =? 1 then
        let coder := ramcoder_normalize coder.[underflowBits <- u16 (underflowBits coder + 1)] in
        putbits_loop fuel hp (ramcoder_shiftbits coder) flushflag numbits
      else if state =? 0 then
        '(_, hp) ← hputbit hp (c_bool (truth (Z.land (upper coder) (RAMMASK_BIT 0))));
        hp ← put_repeat (underflowBits coder) hp (c_bool (Z.land (upper coder) (RAMMASK_BIT 0) =? 0));
        putbits_loop fuel hp (ramcoder_shiftbits coder.[underflowBits <- 0]) flushflag (numbits + 1 + underflowBits coder)
      else if truth flushflag then
        '(_, hp) ← hputbit hp (c_bool (truth (Z.land (lower coder) (RAMMASK_BIT 1))));
        let n := u16 (underflowBits coder + 1) in
        hp ← put_repeat n hp (c_bool (Z.land (lower coder) (RAMMASK_BIT 1) =? 0));
        Some (numbits + 1 + n, hp, coder.[underflowBits <- 0])
      else Some (numbits, hp, coder)
  end.

(** After 16 shifts the interval is the whole range. *)
Definition SHIFTS : nat := 17.
Definition ramcoder_putbits (hp : HUFF) (coder : ramcoder) (flushflag : Z) := putbits_loop SHIFTS hp coder flushflag 0.

(** ramcoder.c:126-144 [ramcoder_getbits] *)
Fixpoint getbits_loop (fuel : nat) (hp : HUFF) (coder : ramcoder) (numbits : Z) : option (Z * HUFF * ramcoder) :=
  match fuel with
  | O => None
  | S fuel =>
      let state := ramcoder_state coder in
      if (state =? 0) || (state =? 1) then
        let coder := if state =? 1 then let coder := ramcoder_normalize coder in coder.[code <- Z.lxor (code coder) (RAMMASK_BIT 1)] else coder in
        let coder := ramcoder_shiftbits coder in
        let coder := coder.[code <- u16 (Z.shiftl (code coder) 1)] in
        '(nextBit, hp) ← hgetbit hp;
        if 0 <=? nextBit then getbits_loop fuel hp coder.[code <- Z.lor (code coder) nextBit] (numbits + 1)
        else Some (numbits, hp, coder)
      else Some (numbits, hp, coder)
  end.
Definition ramcoder_getbits (hp : HUFF) (coder : ramcoder) := getbits_loop SHIFTS hp coder 0.

(** ramcoder.c:150-159 [ramdecoder_bsearch] The loop. *)
Fixpoint bsearch_loop (fuel : nat) (probability : Z) (r : list Z) (first last : Z) : option Z :=
  match fuel with
  | O => None
  | S fuel =>
      if first <=? last then
        let middle := first + (last - first) ÷ 2 in
        x ← aget r middle;
        if probability <? x then bsearch_loop fuel probability r first (middle - 1)
        else
          y ← aget r (middle + 1);
          if y <=? probability then bsearch_loop fuel probability r (middle + 1) last else Some middle
      else Some (-1)
  end.

(** ramcoder.c:146-162 [ramdecoder_bsearch] *)
Definition ramdecoder_bsearch (probability : Z) (coder : ramcoder) : option Z :=
  bsearch_loop (S (Z.to_nat (upper_lastsymbol coder + 1))) probability (ranges coder) 0 (upper_lastsymbol coder).

(** ramcoder.c:178-186 [ramcoder_update] The frequencies are halved, none to zero. *)
Definition halve (r : list Z) (n : Z) : option (list Z * Z) :=
  '(r, _, cum) ← for_loopM (Z.to_nat n) 1 (fun i '(r, original, cum) =>
    x ← aget r i;
    let delta := u16 (x - original) in
    prev ← aget r (i - 1);
    r ← aset r i (u16 (if delta <=? 2 then prev + 1 else prev + delta / 2));
    y ← aget r i; z ← aget r (i - 1);
    Some (r, x, u32 (cum + (y - z)))) (r, 0, 0);
  Some (r, cum).

(** ramcoder.c:173-188 [ramcoder_update] *)
Definition update_probs (symbol : Z) (coder : ramcoder) : option ramcoder :=
  let cum := u32 (cumulativeProb coder + 1) in
  r ← for_loopM (Z.to_nat (upper_lastsymbol coder - symbol)) (symbol + 1) (fun i r => x ← aget r i; aset r i (u16 (x + 1))) (ranges coder);
  '(r, cum) ← (if 2 ^ 14 <=? cum then halve r (upper_lastsymbol coder) else Some (r, cum));
  Some coder.[cumulativeProb <- cum].[ranges <- r].[counter <- u16 (counter coder + 1)].

(** ramcoder.c:164-193 [ramcoder_update] *)
Definition ramcoder_update (symbol : Z) (coder : ramcoder) (updateprobs putflags : Z) (hp : HUFF) : option (Z * HUFF * ramcoder) :=
  let range := u32 (upper coder - lower coder + 1) in
  hi ← aget (ranges coder) (symbol + 1);
  lo ← aget (ranges coder) symbol;
  if cumulativeProb coder =? 0 then None
  else
    let coder := coder.[upper <- u16 (lower coder + u16 (u32 (hi * range) / cumulativeProb coder) - 1)]
                      .[lower <- u16 (lower coder + u16 (u32 (lo * range) / cumulativeProb coder))] in
    coder ← (if truth updateprobs then update_probs symbol coder else Some coder);
    if truth putflags then ramcoder_putbits hp coder (Z.land putflags RAMCODER_FINALIZE) else ramcoder_getbits hp coder.

(** ramcoder.c:195-204 [ramcoder_emit] *)
Definition ramcoder_emit (hp : HUFF) (coder : ramcoder) (updateprobs : Z) (buf : list Z) (len : Z) : option (Z * HUFF * ramcoder) :=
  for_loopM (Z.to_nat len) 0 (fun i '(numbits, hp, coder) =>
    c ← aget buf i;
    '(n, hp, coder) ← ramcoder_update c coder updateprobs RAMCODER_PUTBITS hp;
    Some (numbits + n, hp, coder)) (0, hp, coder).

(** A coder in zeroed memory with room for all symbols; the 20 bytes of the struct hold 18 of
    fields, so there is an entry more than the 258 asked for. *)
Definition zero_coder : ramcoder := mkCoder 0 0 0 0 0 0 0 0 (replicate (Z.to_nat (RAMCODER_MAXSYMBOLS + 3)) 0).

(** ramcoder.c:211-216 [ramcoder_encoder] A whole message with a coder of its own. *)
Definition encode_message (updateprobs : Z) (buf : list Z) (len : Z) (hp : HUFF) (seed : list Z) : option (HUFF * ramcoder) :=
  let '(_, hp) := hrewind hp in
  '(_, coder, _) ← init_ramcoder zero_coder None seed;
  '(_, hp, coder) ← ramcoder_emit hp coder updateprobs buf len;
  '(_, hp, coder) ← ramcoder_update (lastsymbol coder) coder updateprobs RAMCODER_PUTBITS hp;
  '(_, hp, coder) ← ramcoder_update (lastsymbol coder) coder updateprobs (Z.lor RAMCODER_PUTBITS RAMCODER_FINALIZE) hp;
  Some (hp, coder).

(** ramcoder.c:219-224 [ramcoder_encoder] The symbols above the average. *)
Definition new_seed (coder : ramcoder) : option (list Z) :=
  if upper_lastsymbol coder =? 0 then None
  else
    let threshold := i32 (cumulativeProb coder / upper_lastsymbol coder) in
    for_loopM (Z.to_nat (upper_lastsymbol coder)) 1 (fun i newseed =>
      x ← aget (ranges coder) i; y ← aget (ranges coder) (i - 1);
      if threshold <? x - y then SETBIT newseed (i - 1) else Some newseed) (replicate 32 0).

(** ramcoder.c:206-225 [ramcoder_encoder] With no coder given, or with the coder [coder]. *)
Definition ramcoder_encoder (coder : option ramcoder) (updateprobs : Z) (buf : list Z) (len : Z) (hp : HUFF) (seed : list Z)
    : option (list Z * HUFF * ramcoder) :=
  '(hp, coder) ←
    match coder with
    | None => encode_message updateprobs buf len hp seed
    | Some coder => '(_, hp, coder) ← ramcoder_emit hp coder updateprobs buf len; Some (hp, coder)
    end;
  newseed ← new_seed coder;
  Some (newseed, hp, coder).

(** ramcoder.c:230-230 [RAMDECODER_UNSCALED] *)
Definition RAMDECODER_UNSCALED (coder : ramcoder) : option Z :=
  let range := u32 (u32 (upper coder - lower coder) + 1) in
  if range =? 0 then None else Some (u32 (u32 (u32 (u32 (code coder - lower coder) + 1) * cumulativeProb coder) - 1) / range).

(** ramcoder.c:227-236 [ramcoder_decode] *)
Definition ramcoder_decode (coder : ramcoder) (updateprobs : Z) (hp : HUFF) : option (Z * HUFF * ramcoder) :=
  v ← RAMDECODER_UNSCALED coder;
  ind ← ramdecoder_bsearch (u16 v) coder;
  if (ind <? 0) || (ind =? lastsymbol coder) then Some (-1, hp, coder)
  else '(_, hp, coder) ← ramcoder_update ind coder updateprobs 0 hp; Some (ind, hp, coder).

(** ramcoder.c:244-253 [ramcoder_decoder] The loop; [buf] is what it writes. *)
Fixpoint decoder_loop (fuel : nat) (coder : ramcoder) (updateprobs : Z) (buf : list Z) (n maxlen : Z) (hp : HUFF) : option (Z * list Z * HUFF * ramcoder) :=
  match fuel with
  | O => None
  | S fuel =>
      if n <? maxlen then
        '(val, hp, coder) ← ramcoder_decode coder updateprobs hp;
        if val <? 0 then Some (n, buf, hp, coder)
        else buf ← aset buf n (u8 val); decoder_loop fuel coder updateprobs buf (n + 1) maxlen hp
      else Some (n, buf, hp, coder)
  end.

(** ramcoder.c:238-255 [ramcoder_decoder] *)
Definition ramcoder_decoder (coder : option ramcoder) (updateprobs : Z) (buf : list Z) (maxlen : Z) (hp : HUFF) (seed : list Z)
    : option (Z * list Z * HUFF) :=
  '(coder, hp) ←
    match coder with
    | None => let '(_, hp) := hrewind hp in
        '(_, coder, h) ← init_ramcoder zero_coder (Some hp) seed; hp ← h; Some (coder, hp)
    | Some coder => Some (coder, hp)
    end;
  '(n, buf, hp, _) ← decoder_loop (S (Z.to_nat maxlen)) coder updateprobs buf 0 maxlen hp;
  Some (n, buf, hp).

(** ** The frequencies *)

(** Entry [i + 1] of [r] is the sum of the frequencies of the symbols up to [i], all positive. *)
Definition sums_ok (r : list Z) (cum : Z) : Prop :=
  length r = 259%nat /\ znth r 0 = 0 /\ (forall i, 0 <= i < 257 -> znth r i < znth r (i + 1)) /\ znth r 257 = cum.

Record freqs_ok (coder : ramcoder) : Prop := {
  freqs_last : lastsymbol coder = 256;
  freqs_upper : upper_lastsymbol coder = 257;
  freqs_sums : sums_ok (ranges coder) (cumulativeProb coder);
  freqs_bound : cumulativeProb coder <= 16641 }.

Lemma sums_mono r cum : sums_ok r cum -> forall i j, 0 <= i <= j -> j <= 257 -> znth r i <= znth r j.
Proof.
  intros (_ & _ & H & _) i j Hij Hj. replace j with (i + Z.of_nat (Z.to_nat (j - i))) by lia.
  assert (Hn : Z.of_nat (Z.to_nat (j - i)) <= 257 - i) by lia. revert Hn. induction (Z.to_nat (j - i)) as [|n IH]; intros Hn.
  - rewrite Z.add_0_r. lia.
  - specialize (IH ltac:(lia)). specialize (H (i + Z.of_nat n) ltac:(lia)). replace (i + Z.of_nat (S n)) with (i + Z.of_nat n + 1) by lia. lia.
Qed.

Lemma sums_range r cum i : sums_ok r cum -> 0 <= i <= 257 -> 0 <= znth r i <= cum.
Proof.
  intros H Hi. pose proof (sums_mono r cum H 0 i ltac:(lia) ltac:(lia)). pose proof (sums_mono r cum H i 257 ltac:(lia) ltac:(lia)).
  destruct H as (_ & Hfirst & _ & Hlast). lia.
Qed.

Lemma sums_at_least r cum i : sums_ok r cum -> 0 <= i <= 257 -> i <= znth r i.
Proof.
  intros (_ & H0 & H & _) Hi. replace i with (Z.of_nat (Z.to_nat i)) by lia. assert (Hn : Z.of_nat (Z.to_nat i) <= 257) by lia.
  revert Hn. induction (Z.to_nat i) as [|n IH]; intros Hn; [change (Z.of_nat 0) with 0; lia|]. specialize (H (Z.of_nat n) ltac:(lia)).
  replace (Z.of_nat (S n)) with (Z.of_nat n + 1) by lia. lia.
Qed.

(** The symbol [s] occurred once more. *)
Lemma count_eq r cum s : sums_ok r cum -> cum <= 16641 -> 0 <= s <= 256 ->
  exists r', for_loopM (Z.to_nat (257 - s)) (s + 1) (fun i r => x ← aget r i; aset r i (u16 (x + 1))) r = Some r' /\
    sums_ok r' (cum + 1) /\ forall i, 0 <= i <= 257 -> znth r' i = znth r i + (if s <? i then 1 else 0).
Proof.
  intros Hr Hc Hs. pose proof Hr as (Hl & H0 & Hinc & Hcum).
  destruct (for_loopM_inv (fun k r' => length r' = 259%nat /\ forall i, 0 <= i <= 257 -> znth r' i = znth r i + (if (s <? i) && (i <? k) then 1 else 0))
    (Z.to_nat (257 - s)) (s + 1) (fun i r => x ← aget r i; aset r i (u16 (x + 1))) r) as (r' & Hrun & Hl' & Hr').
  - intros k t Hk (Hlt & Ht). rewrite aget_znth by lia. step. rewrite aset_zput by lia. eexists. split; [reflexivity|]. rewrite zput_length. split; [done|].
    intros i Hi. rewrite znth_zput by lia. pose proof (sums_range r cum i Hr Hi). destruct (Z.eqb_spec k i) as [<-|].
    + rewrite Ht by lia. replace ((s <? k) && (k <? k)) with false by (by rewrite Z.ltb_irrefl, andb_false_r).
      replace ((s <? k) && (k <? k + 1)) with true by (symmetry; apply andb_true_intro; split; apply Z.ltb_lt; lia).
      rewrite uwrap_small by lia. lia.
    + rewrite Ht by lia. destruct (Z.ltb_spec s i), (Z.ltb_spec i k), (Z.ltb_spec i (k + 1)); cbn [andb]; lia.
  - split; [done|]. intros i Hi. destruct (Z.ltb_spec s i), (Z.ltb_spec i (s + 1)); cbn [andb]; lia.
  - assert (E : forall i, 0 <= i <= 257 -> znth r' i = znth r i + (if s <? i then 1 else 0)).
    { intros i Hi. rewrite Hr' by lia. destruct (Z.ltb_spec s i), (Z.ltb_spec i (s + 1 + Z.of_nat (Z.to_nat (257 - s)))); cbn [andb]; lia. }
    exists r'. split; [exact Hrun|]. split; [|exact E]. split_and!; [done| |intros i Hi|]; rewrite !E by lia.
    + destruct (Z.ltb_spec s 0); lia.
    + specialize (Hinc i Hi). destruct (Z.ltb_spec s i), (Z.ltb_spec s (i + 1)); lia.
    + destruct (Z.ltb_spec s 257); lia.
Qed.

Lemma halve_eq r cum : sums_ok r cum -> cum <= 16642 ->
  exists r' cum', halve r 257 = Some (r', cum') /\ sums_ok r' cum' /\ 2 * cum' <= cum + 257 /\ cum - 257 <= 2 * cum' /\
    znth r' 257 - znth r' 256 <= znth r 257 - znth r 256.
Proof.
  intros Hr Hc. pose proof Hr as (Hl & H0 & Hinc & Hcum). unfold halve.
  match goal with |- context [for_loopM ?n 1 ?body ?s0] => destruct (for_loopM_inv (fun k '(r', original, c) =>
      length r' = 259%nat /\ znth r' 0 = 0 /\ original = znth r (k - 1) /\ c = znth r' (k - 1) /\
      (forall i, k <= i <= 257 -> znth r' i = znth r i) /\ (forall i, 0 <= i < k - 1 -> znth r' i < znth r' (i + 1)) /\
      (forall i, 0 <= i < k -> znth r i - i <= 2 * znth r' i <= znth r i + i) /\
      (forall i, 0 <= i < k - 1 -> znth r' (i + 1) - znth r' i <= znth r (i + 1) - znth r i)) n 1 body s0) as ([[r' o] c] & Hrun & Hinv) end.
  - intros k [[t o] c] Hk (Hlt & Ht0 & -> & -> & Hsame & Hti & Hb & Hd). change (Z.of_nat (Z.to_nat 257)) with 257 in Hk.
    rewrite (aget_znth t k) by lia. step. rewrite (aget_znth t (k - 1)) by lia. step. rewrite Hsame by lia.
    pose proof (sums_range r cum (k - 1) Hr ltac:(lia)). pose proof (sums_range r cum k Hr ltac:(lia)). pose proof (Hinc (k - 1) ltac:(lia)) as Hlt'.
    replace (k - 1 + 1) with k in Hlt' by lia. rewrite (uwrap_small 16 (znth r k - znth r (k - 1))) by lia. pose proof (Hb (k - 1) ltac:(lia)) as Hbk. pose proof (sums_at_least r cum (k - 1) Hr ltac:(lia)) as Hak.
    set (v := u16 _). assert (Hv : znth t (k - 1) + 1 <= v /\ 2 * v <= 2 * znth t (k - 1) + (znth r k - znth r (k - 1)) + 1 /\
      2 * znth t (k - 1) + (znth r k - znth r (k - 1)) - 1 <= 2 * v /\ v <= znth t (k - 1) + (znth r k - znth r (k - 1))).
    { subst v. destruct (Z.leb_spec (znth r k - znth r (k - 1)) 2); rewrite uwrap_small by dmlia; dmlia. }
    clearbody v. rewrite aset_zput by lia. step. rewrite !aget_znth by (rewrite zput_length; lia). step. step. rewrite !znth_zput by lia.
    rewrite Z.eqb_refl. destruct (Z.eqb_spec k (k - 1)); [lia|]. eexists. split; [reflexivity|]. cbv beta iota. rewrite zput_length.
    replace (k + 1 - 1) with k by lia. split_and!; [done| |done| | | | |].
    + rewrite znth_zput by lia. destruct (Z.eqb_spec k 0); [lia|done].
    + rewrite znth_zput by lia. rewrite Z.eqb_refl. rewrite uwrap_small by lia. lia.
    + intros i Hi. rewrite znth_zput by lia. destruct (Z.eqb_spec k i); [lia|]. apply Hsame. lia.
    + intros i Hi. rewrite !znth_zput by lia. destruct (Z.eqb_spec k i); [lia|]. destruct (Z.eqb_spec k (i + 1)) as [->|].
      * replace (i + 1 - 1) with i in Hv by lia. lia.
      * apply Hti. lia.
    + intros i Hi. rewrite znth_zput by lia. destruct (Z.eqb_spec k i) as [<-|]; [lia|]. apply Hb. lia.
    + intros i Hi. rewrite !znth_zput by lia. destruct (Z.eqb_spec k i); [lia|]. destruct (Z.eqb_spec k (i + 1)) as [->|].
      * replace (i + 1 - 1) with i in Hv by lia. lia.
      * apply Hd. lia.
  - split_and!; [done|done|by symmetry|by symmetry|done|lia| |lia]. intros i Hi. replace i with 0 by lia. lia.
  - rewrite Hrun. step. change (1 + Z.of_nat (Z.to_nat 257)) with 258 in Hinv. destruct Hinv as (Hl' & H0' & _ & -> & _ & Hinc' & Hb & Hd).
    exists r', (znth r' (258 - 1)). change (258 - 1) with 257 in *. pose proof (Hb 257 ltac:(lia)). split; [done|]. split; [unfold sums_ok; split_and!; done|]. split; [lia|]. split; [lia|].
    specialize (Hd 256 ltac:(lia)). exact Hd.
Qed.

(** How often the end mark was seen. *)
Definition last_freq (coder : ramcoder) : Z := znth (ranges coder) 257 - znth (ranges coder) 256.

Lemma update_probs_eq s coder : freqs_ok coder -> 0 <= s <= 256 ->
  exists r cum, (forall c, ranges c = ranges coder -> cumulativeProb c = cumulativeProb coder -> upper_lastsymbol c = 257 ->
      update_probs s c = Some c.[cumulativeProb <- cum].[ranges <- r].[counter <- u16 (counter c + 1)]) /\
    sums_ok r cum /\ cum <= 16384 /\ cum <= cumulativeProb coder + 1 /\ (cumulativeProb coder < cum \/ 8000 <= cum) /\
    znth r 257 - znth r 256 <= last_freq coder + (if s =? 256 then 1 else 0).
Proof.
  intros F Hs. pose proof (freqs_sums _ F) as Hr. pose proof (freqs_bound _ F) as Hb.
  destruct (count_eq _ _ s Hr Hb Hs) as (r & Hrun & Hr' & E). pose proof (sums_at_least _ _ 257 Hr ltac:(lia)) as Hc. destruct Hr as (_ & _ & _ & Hcum).
  assert (Elast : znth r 257 - znth r 256 <= last_freq coder + (if s =? 256 then 1 else 0)).
  { unfold last_freq. rewrite !E by lia. destruct (Z.ltb_spec s 257), (Z.ltb_spec s 256), (Z.eqb_spec s 256); lia. }
  destruct (Z.leb_spec (2 ^ 14) (cumulativeProb coder + 1)) as [Hbig|Hsmall].
  - destruct (halve_eq r _ Hr' ltac:(lia)) as (r2 & cum2 & Hh & Hr2 & Hle & Hge & Hlast). exists r2, cum2. split_and!; [|done|lia|lia|lia|lia].
    intros c E1 E2 E3. unfold update_probs. rewrite E1, E2, E3, Hrun. step. rewrite (uwrap_small 32) by lia.
    destruct (Z.leb_spec (2 ^ 14) (cumulativeProb coder + 1)); [|lia]. rewrite Hh. step. done.
  - exists r, (cumulativeProb coder + 1). split_and!; [|done|lia|lia|lia|done].
    intros c E1 E2 E3. unfold update_probs. rewrite E1, E2, E3, Hrun. step. rewrite (uwrap_small 32) by lia.
    destruct (Z.leb_spec (2 ^ 14) (cumulativeProb coder + 1)); [lia|]. step. done.
Qed.

(** ** The coder at the start of a message *)

(** How many of the first 64 symbols the seed favours. *)
Definition seed_total (seed : list Z) : Z := zsum 64 (fun i => c_bool (bit seed i)).

Lemma seed_weight_eq seed i : length seed = 32%nat -> 1 <= i <= 257 ->
  seed_weight seed i = Some (if i <=? 64 then c_bool (bit seed (i - 1)) else 0).
Proof.
  intros Hl Hi. unfold seed_weight, SIZEOF_POINTER. change (8 * 8) with 64. destruct (Z.leb_spec i 64) as [H|H]; [|done].
  destruct (GETBIT_truth seed (i - 1)) as (g & -> & Hg & _); [lia|]. step. unfold truth in Hg. by rewrite Hg.
Qed.

Lemma zsum_bool_range n f : 0 <= zsum n (fun i => c_bool (f i)) <= Z.of_nat n.
Proof. induction n as [|n IH]; [done|]. rewrite zsum_S. destruct (f (Z.of_nat n)); cbn [c_bool]; lia. Qed.

Lemma init_ranges_eq seed : length seed = 32%nat ->
  exists r, for_loopM (Z.to_nat 257) 1 (fun i r => x ← aget r (i - 1); w ← seed_weight seed i; aset r i (u16 (x + 1 + 256 * w)))
      (zput (replicate 259 0) 0 0) = Some r /\
    sums_ok r (257 + 256 * seed_total seed) /\ znth r 257 - znth r 256 = 1.
Proof.
  intros Hl. assert (Hz : forall i, znth (replicate 259 0) i = 0) by (intros i; apply (Forall_znth (fun x => x = 0)); [done|]; apply Forall_replicate; done).
  destruct (for_loopM_inv (fun k r => length r = 259%nat /\
      forall i, 0 <= i < k -> znth r i = i + 256 * zsum (Z.to_nat (Z.min i 64)) (fun i => c_bool (bit seed i))) (Z.to_nat 257) 1
    (fun i r => x ← aget r (i - 1); w ← seed_weight seed i; aset r i (u16 (x + 1 + 256 * w))) (zput (replicate 259 0) 0 0)) as (r & Hrun & Hlr & Hr).
  - intros k t Hk (Hlt & Ht). change (Z.of_nat (Z.to_nat 257)) with 257 in Hk. rewrite aget_znth by lia. step. rewrite seed_weight_eq by (done || lia). step.
    rewrite aset_zput by lia. eexists. split; [reflexivity|]. rewrite zput_length. split; [done|]. intros i Hi. rewrite znth_zput by lia.
    destruct (Z.eqb_spec k i) as [<-|]; [|apply Ht; lia]. rewrite Ht by lia.
    pose proof (zsum_bool_range (Z.to_nat (Z.min (k - 1) 64)) (bit seed)) as Hb.
    destruct (Z.leb_spec k 64) as [H64|H64].
    + replace (Z.to_nat (Z.min k 64)) with (S (Z.to_nat (Z.min (k - 1) 64))) by lia. rewrite zsum_S.
      replace (Z.of_nat (Z.to_nat (Z.min (k - 1) 64))) with (k - 1) in * by lia. destruct (bit seed (k - 1)); cbn [c_bool]; rewrite uwrap_small by lia; lia.
    + replace (Z.min k 64) with 64 by lia. replace (Z.min (k - 1) 64) with 64 in * by lia. rewrite uwrap_small by lia. lia.
  - rewrite zput_length. split; [done|]. intros i Hi. replace i with 0 by lia. rewrite znth_zput by (rewrite length_replicate; lia). done.
  - change (1 + Z.of_nat (Z.to_nat 257)) with 258 in Hr. exists r. split; [exact Hrun|]. split; [split_and!; [done| | |]|].
    + rewrite Hr by lia. done.
    + intros i Hi. rewrite !Hr by lia. destruct (Z.le_gt_cases 64 i).
      * replace (Z.min i 64) with 64 by lia. replace (Z.min (i + 1) 64) with 64 by lia. lia.
      * replace (Z.to_nat (Z.min (i + 1) 64)) with (S (Z.to_nat (Z.min i 64))) by lia. rewrite zsum_S.
        destruct (bit seed _); cbn [c_bool]; lia.
    + rewrite Hr by lia. unfold seed_total. change (Z.to_nat (Z.min 257 64)) with 64%nat. reflexivity.
    + rewrite !Hr by lia. change (Z.min 257 64) with 64. change (Z.min 256 64) with 64. lia.
Qed.

(** The sum of the differences is the last entry. *)
Lemma init_cum_eq r cum : sums_ok r cum -> cum <= 16641 ->
  for_loopM (Z.to_nat 257) 1 (fun i cum => x ← aget r i; y ← aget r (i - 1); Some (u32 (cum + (x - y)))) 0 = Some cum.
Proof.
  intros Hr Hc. pose proof Hr as (Hl & H0 & Hinc & Hcum).
  destruct (for_loopM_inv (fun k c => c = znth r (k - 1)) (Z.to_nat 257) 1 (fun i cum => x ← aget r i; y ← aget r (i - 1); Some (u32 (cum + (x - y)))) 0)
    as (c & Hrun & ->).
  - intros k c Hk ->. change (Z.of_nat (Z.to_nat 257)) with 257 in Hk. rewrite (aget_znth r k) by lia. step. rewrite (aget_znth r (k - 1)) by lia. step.
    eexists. split; [reflexivity|]. pose proof (sums_range r cum k Hr ltac:(lia)). replace (k + 1 - 1) with k by lia. rewrite uwrap_small by lia. lia.
  - by symmetry.
  - rewrite Hrun. change (1 + Z.of_nat (Z.to_nat 257) - 1) with 257. by rewrite Hcum.
Qed.

(** The state of a fresh coder. *)
Lemma init_coder_any c hp seed r0 r cum : lastsymbol c = 0 -> aset (ranges c) 0 0 = Some r0 ->
  for_loopM (Z.to_nat 257) 1 (fun i r => x ← aget r (i - 1); w ← seed_weight seed i; aset r i (u16 (x + 1 + 256 * w))) r0 = Some r ->
  for_loopM (Z.to_nat 257) 1 (fun i cum => x ← aget r i; y ← aget r (i - 1); Some (u32 (cum + (x - y)))) 0 = Some cum ->
  init_ramcoder c hp seed =
    (let coder := mkCoder cum 0 65535 0 0 256 257 (counter c) r in
     match hp with
     | None => Some (0, coder, None)
     | Some hp =>
         '(c, hp) ← for_loopM 16 0 (fun _ '(c, hp) => '(b, hp) ← hgetbit hp; Some (u16 (Z.lor (Z.shiftl c 1) b), hp)) (0, hp);
         Some (0, coder.[code <- c], Some hp)
     end).
Proof.
  intros Hlast Ha Hr Hcum. unfold init_ramcoder. rewrite Hlast. change (0 =? 0) with true. cbv beta iota.
  change (ranges (c.[lastsymbol <- RAMCODER_MAXSYMBOLS].[upper_lastsymbol <- u16 (RAMCODER_MAXSYMBOLS + 1)])) with (ranges c).
  rewrite Ha, bind_Some. cbn beta iota. match goal with |- context [upper_lastsymbol ?x] => change (upper_lastsymbol x) with 257 end.
  rewrite Hr, bind_Some. cbn beta iota. rewrite Hcum, bind_Some. destruct hp as [hp|]; reflexivity.
Qed.

Lemma init_coder_eq seed : length seed = 32%nat ->
  exists coder, (forall hp, init_ramcoder zero_coder hp seed =
      match hp with
      | None => Some (0, coder, None)
      | Some hp =>
          '(c, hp) ← for_loopM 16 0 (fun _ '(c, hp) => '(b, hp) ← hgetbit hp; Some (u16 (Z.lor (Z.shiftl c 1) b), hp)) (0, hp);
          Some (0, coder.[code <- c], Some hp)
      end) /\
    freqs_ok coder /\ lower coder = 0 /\ upper coder = 65535 /\ underflowBits coder = 0 /\
    cumulativeProb coder = 257 + 256 * seed_total seed /\ last_freq coder = 1.
Proof.
  intros Hl. destruct (init_ranges_eq seed Hl) as (r & Hrun & Hr & Hlast).
  assert (Hs : 0 <= seed_total seed <= 64) by exact (zsum_bool_range 64 (bit seed)).
  pose proof (init_cum_eq r _ Hr ltac:(lia)) as Hcum.
  exists (mkCoder (257 + 256 * seed_total seed) 0 65535 0 0 256 257 0 r). split.
  - intros hp. eapply init_coder_any; [reflexivity| |exact Hrun|exact Hcum].
    apply aset_zput. unfold zero_coder. cbn [ranges]. rewrite length_replicate. lia.
  - split; [constructor; [reflexivity|reflexivity|exact Hr|cbn [cumulativeProb]; lia]|]. unfold last_freq. cbn [ranges lower upper underflowBits cumulativeProb].
    split_and!; [reflexivity..|exact Hlast].
Qed.
