(* ===== verification/RamcoderCode.v ===== *)
(** * ramcoder.c: what the range decoder reads is what the encoder was given

    The encoder and the decoder shift their intervals in the same way ([shifts]).  An interval
    with the pending bits and the bits still to come is [within] when the number the decoder
    has then in [code] is in the interval; shifting and narrowing preserve it backwards, the
    last two bits establish it, and it is what makes [ramdecoder_bsearch] find the symbol. *)
From Stdlib Require Import ZArith Lia.
From stdpp Require Import base list numbers option.
From S2P Require Import Prelude Bits HuffStream Ramcoder.
Open Scope Z_scope.

(** ** Shifting an interval *)

(** The first [n] bits of [w] as a number, the first bit the highest, zeros when [w] is shorter. *)
Fixpoint val (n : nat) (w : list bool) : Z :=
  match n with
  | O => 0
  | S m => c_bool (nth 0 w false) * 2 ^ Z.of_nat m + val m (drop 1 w)
  end.

(** The bits that come out once [b] is decided and [k] bits were pending. *)
Definition pending (b : bool) (k : nat) : list bool := b :: replicate k (negb b).

Definition half (b : bool) : Z := if b then 0x8000 else 0.

(** From interval [l, u] with [k] bits pending, [n] shifts give out [bits] and end in [l', u'] with [k'] pending. *)
Inductive shifts : Z -> Z -> nat -> list bool -> nat -> Z -> Z -> nat -> Prop :=
  | shifts_stop l u k : l < 0x8000 <= u -> (l < 0x4000 \/ 0xC000 <= u) -> shifts l u k [] 0 l u k
  | shifts_agree b l u k bits n l' u' k' : half b <= l -> u < half b + 0x8000 ->
      shifts (2 * (l - half b)) (2 * (u - half b) + 1) 0 bits n l' u' k' ->
      shifts l u k (pending b k ++ bits) (S n) l' u' k'
  | shifts_mid l u k bits n l' u' k' : 0x4000 <= l -> l < 0x8000 <= u -> u < 0xC000 ->
      shifts (2 * (l - 0x4000)) (2 * (u - 0x4000) + 1) (S k) bits n l' u' k' ->
      shifts l u k bits (S n) l' u' k'.

(** Every shift doubles the interval. *)
Lemma shifts_total m : forall l u k, 0 <= l <= u -> u < 65536 -> 65536 < 2 ^ Z.of_nat m * (u - l + 1) ->
  exists bits n l' u' k', shifts l u k bits n l' u' k' /\ (n < m)%nat.
Proof.
  induction m as [|m IH]; intros l u k Hl Hu Hm; [lia|].
  assert (Hd : 65536 < 2 ^ Z.of_nat m * (2 * (u - l + 1))) by (rewrite Nat2Z.inj_succ, Z.pow_succ_r in Hm by lia; lia).
  assert (C : (exists b, half b <= l /\ u < half b + 0x8000) \/ l < 0x8000 <= u).
  { destruct (Z.ltb_spec u 0x8000); [left; exists false; cbn; lia|]. destruct (Z.leb_spec 0x8000 l); [left; exists true; cbn; lia|]. right. lia. }
  destruct C as [(b & Hb & Hb')|C].
  - assert (0 <= half b) by (by destruct b). destruct (IH (2 * (l - half b)) (2 * (u - half b) + 1) O) as (bits & n & l' & u' & k' & H1 & Hn); [lia|lia| |].
    + eapply Z.lt_le_trans; [exact Hd|]. apply Z.mul_le_mono_nonneg_l; lia.
    + exists (pending b k ++ bits), (S n), l', u', k'. split; [by econstructor|lia].
  - destruct (Z.ltb_spec l 0x4000); [exists [], O, l, u, k; split; [constructor; lia|lia]|].
    destruct (Z.leb_spec 0xC000 u); [exists [], O, l, u, k; split; [constructor; lia|lia]|].
    destruct (IH (2 * (l - 0x4000)) (2 * (u - 0x4000) + 1) (S k)) as (bits & n & l' & u' & k' & H1 & Hn); [lia|lia| |].
    + eapply Z.lt_le_trans; [exact Hd|]. apply Z.mul_le_mono_nonneg_l; lia.
    + exists bits, (S n), l', u', k'. split; [by apply shifts_mid|lia].
Qed.

Lemma shifts_range l u k bits n l' u' k' : shifts l u k bits n l' u' k' -> 0 <= l <= u -> u < 65536 ->
  0 <= l' < 0x8000 /\ 0x8000 <= u' < 65536 /\ (l' < 0x4000 \/ 0xC000 <= u') /\ u' - l' + 1 = 2 ^ Z.of_nat n * (u - l + 1).
Proof.
  induction 1 as [l u k|b l u k bits n l' u' k' Hb Hb' _ IH|l u k bits n l' u' k' H1 H2 H3 _ IH]; intros Hl Hu.
  - change (2 ^ Z.of_nat 0) with 1. lia.
  - assert (0 <= half b <= 0x8000) by (by destruct b). rewrite Nat2Z.inj_succ, Z.pow_succ_r by lia.
    destruct IH as (? & ? & ? & E); [lia|destruct b; cbn in *; lia|]. split_and!; try lia; try done; rewrite E; ring.
  - rewrite Nat2Z.inj_succ, Z.pow_succ_r by lia. destruct IH as (? & ? & ? & E); [lia|lia|]. split_and!; try lia; try done; rewrite E; ring.
Qed.

(** Every shift gives out a bit or makes one pending. *)
Lemma shifts_length l u k bits n l' u' k' : shifts l u k bits n l' u' k' -> (length bits + k' = k + n)%nat.
Proof.
  induction 1 as [l u k|b l u k bits n l' u' k' Hb Hb' _ IH|l u k bits n l' u' k' H1 H2 H3 _ IH]; [done| |lia].
  rewrite length_app. unfold pending. cbn [length]. rewrite length_replicate. lia.
Qed.

(** ** The number in [code] *)

Lemma val_range n : forall w, 0 <= val n w < 2 ^ Z.of_nat n.
Proof.
  induction n as [|n IH]; intros w; [done|]. cbn [val]. rewrite Nat2Z.inj_succ, Z.pow_succ_r by lia. specialize (IH (drop 1 w)).
  destruct (nth 0 w false); cbn [c_bool]; lia.
Qed.

Lemma val_snoc n : forall w, val (S n) w = 2 * val n w + c_bool (nth n w false).
Proof.
  induction n as [|n IH]; intros w; [cbn; lia|]. change (val (S (S n)) w) with (c_bool (nth 0 w false) * 2 ^ Z.of_nat (S n) + val (S n) (drop 1 w)).
  rewrite IH. cbn [val]. rewrite Nat2Z.inj_succ, Z.pow_succ_r by lia.
  replace (nth n (drop 1 w) false) with (nth (S n) w false) by (destruct w; [by destruct n|done]). lia.
Qed.

Lemma val_cons n b w : val (S n) (b :: w) = c_bool b * 2 ^ Z.of_nat n + val n w.
Proof. done. Qed.

(** The bits [w] as the decoder has them after [k] of them were dropped behind the first. *)
Definition view (k : nat) (w : list bool) : list bool := match w with [] => [] | b :: t => b :: drop k t end.

Definition within (l u : Z) (k : nat) (w : list bool) : Prop := exists b r, w = pending b k ++ r /\ l <= val 16 (b :: r) <= u.

Lemma view_pending b k r : view k (pending b k ++ r) = b :: r.
Proof. unfold view, pending. cbn [app]. f_equal. rewrite drop_app_ge by (rewrite length_replicate; lia). by rewrite length_replicate, Nat.sub_diag. Qed.

Lemma within_view l u k w : within l u k w -> l <= val 16 (view k w) <= u.
Proof. intros (b & r & -> & H). by rewrite view_pending. Qed.

Lemma within_narrow l u l2 u2 k w : within l2 u2 k w -> l <= l2 -> u2 <= u -> within l u k w.
Proof. intros (b & r & -> & H) H1 H2. exists b, r. split; [done|lia]. Qed.

(** A shift of the decoder drops the first bit, or the second when the interval is around the middle. *)
Lemma val_agree b r : val 16 r = 2 * (val 16 (b :: r) - half b) + c_bool (nth 15 r false).
Proof. rewrite val_cons. rewrite (val_snoc 15 r). destruct b; cbn [half c_bool]; change (2 ^ Z.of_nat 15) with 0x8000; lia. Qed.

Lemma val_mid b r : val 16 (b :: r) = 2 * (val 16 (b :: negb b :: r) - 0x4000) + c_bool (nth 14 r false).
Proof.
  rewrite !val_cons. rewrite (val_snoc 14 r). destruct b; cbn [negb c_bool]; change (2 ^ Z.of_nat 15) with 0x8000; change (2 ^ Z.of_nat 14) with 0x4000; lia.
Qed.

Lemma shifts_within l u k bits n l' u' k' w : shifts l u k bits n l' u' k' -> within l' u' k' w -> within l u k (bits ++ w).
Proof.
  induction 1 as [l u k|b l u k bits n l' u' k' Hb Hb' _ IH|l u k bits n l' u' k' H1 H2 H3 _ IH]; intros Hw; [done| |].
  - specialize (IH Hw). exists b, (bits ++ w). rewrite app_assoc. split; [done|]. pose proof (within_view _ _ _ _ IH) as Hv.
    destruct IH as (b0 & r & E & _). rewrite E, view_pending in Hv. change (b0 :: r) with (pending b0 0 ++ r) in Hv. rewrite <- E in Hv.
    rewrite (val_agree b) in Hv. pose proof (c_bool_range (nth 15 (bits ++ w) false)). lia.
  - destruct (IH Hw) as (b & r & E & Hv). exists b, (negb b :: r). split.
    + rewrite E. unfold pending. cbn [app]. f_equal. by rewrite replicate_S_end, <- app_assoc.
    + rewrite val_mid in Hv. pose proof (c_bool_range (nth 14 r false)). lia.
Qed.

(** The two last bits. *)
Lemma flush_within l u k : 0 <= l < 0x8000 -> 0x8000 <= u < 65536 -> (l < 0x4000 \/ 0xC000 <= u) ->
  within l u k (pending (0x4000 <=? l) (S k)).
Proof.
  intros Hl Hu H. exists (0x4000 <=? l), [negb (0x4000 <=? l)]. split.
  - unfold pending. rewrite replicate_S_end. done.
  - destruct (Z.leb_spec 0x4000 l); vm_compute (val 16 _); lia.
Qed.

(** ** The states *)

(** A coder with another interval. *)
Definition ival (c : ramcoder) (l u k : Z) : ramcoder := c.[lower <- l].[upper <- u].[underflowBits <- k].

Lemma ival_self c : ival c (lower c) (upper c) (underflowBits c) = c.
Proof. by destruct c. Qed.

Lemma bit15 x : 0 <= x < 65536 -> Z.testbit x 15 = (0x8000 <=? x).
Proof.
  intros H. destruct (Z.leb_spec 0x8000 x) as [Hx|Hx]; [apply Z.testbit_true|apply Z.testbit_false]; try lia; change (2 ^ 15) with 0x8000; dmlia.
Qed.

Lemma bit14 x : 0 <= x < 65536 -> Z.testbit x 14 = if 0x8000 <=? x then 0xC000 <=? x else 0x4000 <=? x.
Proof.
  intros H. destruct (Z.leb_spec 0x8000 x) as [Hx|Hx]; [destruct (Z.leb_spec 0xC000 x)|destruct (Z.leb_spec 0x4000 x)];
    (apply Z.testbit_true || apply Z.testbit_false); try lia; change (2 ^ 14) with 0x4000; dmlia.
Qed.

Lemma top_bit x : 0 <= x < 65536 -> Z.land x (RAMMASK_BIT 0) = if 0x8000 <=? x then 0x8000 else 0.
Proof. intros H. change (RAMMASK_BIT 0) with (2 ^ 15). rewrite land_pow2 by lia. by rewrite bit15. Qed.

Lemma second_bit x : 0 <= x < 65536 -> Z.land x (RAMMASK_BIT 1) = if (if 0x8000 <=? x then 0xC000 <=? x else 0x4000 <=? x) then 0x4000 else 0.
Proof. intros H. change (RAMMASK_BIT 1) with (2 ^ 14). rewrite land_pow2 by lia. by rewrite bit14. Qed.

Ltac cases_leb := repeat match goal with |- context [?x <=? ?y] => destruct (Z.leb_spec x y); try lia end.

Lemma state_agree c b : 0 <= lower c <= upper c -> upper c < 65536 -> half b <= lower c -> upper c < half b + 0x8000 -> ramcoder_state c = 0.
Proof. intros. unfold ramcoder_state. rewrite !top_bit by lia. destruct b; cbn [half] in *; cases_leb; done. Qed.

Lemma state_mid c : 0x4000 <= lower c -> lower c < 0x8000 <= upper c -> upper c < 0xC000 -> ramcoder_state c = 1.
Proof. intros. unfold ramcoder_state. rewrite !top_bit, !second_bit by lia. cases_leb. done. Qed.

Lemma state_stop c : 0 <= lower c < 0x8000 -> 0x8000 <= upper c < 65536 -> lower c < 0x4000 \/ 0xC000 <= upper c -> ramcoder_state c = -1.
Proof. intros. unfold ramcoder_state. rewrite !top_bit, !second_bit by lia. cases_leb; done. Qed.

Lemma lor_even x : 0 <= x -> x mod 2 = 0 -> Z.lor x 1 = x + 1.
Proof. intros H Hx. replace x with (2 ^ 1 * (x / 2)) at 1 by (change (2 ^ 1) with 2; dmlia). rewrite lor_mul by (cbn; lia). change (2 ^ 1) with 2. dmlia. Qed.

Lemma shift_eq c : 0 <= lower c -> 0 <= upper c ->
  ramcoder_shiftbits c = ival c ((2 * lower c) mod 65536) ((2 * upper c) mod 65536 + 1) (underflowBits c).
Proof.
  intros Hl Hu. assert (El : forall x, u16 (Z.shiftl x 1) = (2 * x) mod 65536).
  { intros x. rewrite Z.shiftl_mul_pow2 by lia. change (2 ^ 1) with 2. unfold u16, uwrap. change (2 ^ 16) with 65536. f_equal. lia. }
  unfold ramcoder_shiftbits. rewrite El. destruct c as [? l u ? ? ? ? ? ?]. cbn in *. rewrite El, lor_even by dmlia. done.
Qed.

Lemma shift_agree c b : 0 <= lower c <= upper c -> upper c < 65536 -> half b <= lower c -> upper c < half b + 0x8000 ->
  ramcoder_shiftbits c = ival c (2 * (lower c - half b)) (2 * (upper c - half b) + 1) (underflowBits c).
Proof. intros. rewrite shift_eq by lia. destruct b; cbn [half] in *; f_equal; dmlia. Qed.

Lemma normalize_mid c : 0x4000 <= lower c -> lower c < 0x8000 <= upper c -> upper c < 0xC000 ->
  ramcoder_normalize c = ival c (lower c - 0x4000) (upper c + 0x4000) (underflowBits c).
Proof.
  intros Hl Hl' Hu. destruct c as [? l u ? ? ? ? ? ?]; cbn in Hl, Hl', Hu.
  assert (El : u16 (Z.land l (Z.lnot (Z.lor (RAMMASK_BIT 0) (RAMMASK_BIT 1)))) = l - 0x4000).
  { unfold u16, uwrap. rewrite <- Z.land_ones by lia. rewrite <- Z.land_assoc. change (Z.land _ (Z.ones 16)) with (Z.ones 14).
    rewrite Z.land_ones by lia. change (2 ^ 14) with 0x4000. dmlia. }
  assert (Eu : Z.lor u (RAMMASK_BIT 1) = u + 0x4000).
  { change (RAMMASK_BIT 1) with (2 ^ 14). rewrite <- (Z.lxor_lor u (2 ^ 14)), <- Z.add_nocarry_lxor; try done;
    rewrite land_pow2, bit14 by lia; cases_leb; done. }
  unfold ramcoder_normalize. cbn [lower upper]. rewrite El, Eu. done.
Qed.

Lemma shift_mid c : 0x4000 <= lower c -> lower c < 0x8000 <= upper c -> upper c < 0xC000 ->
  ramcoder_shiftbits (ramcoder_normalize c) = ival c (2 * (lower c - 0x4000)) (2 * (upper c - 0x4000) + 1) (underflowBits c).
Proof.
  intros Hl Hl' Hu. rewrite normalize_mid by done. rewrite shift_eq by (destruct c; cbn in *; lia).
  assert (El : (2 * (lower c - 0x4000)) mod 65536 = 2 * (lower c - 0x4000)) by dmlia.
  assert (Eu : (2 * (upper c + 0x4000)) mod 65536 + 1 = 2 * (upper c - 0x4000) + 1) by dmlia.
  destruct c. cbn in El, Eu. unfold ival. cbn. by rewrite El, Eu.
Qed.

(** ** Writing *)

Lemma put_repeat_eq n hp v b : hwf hp -> room hp n -> truth v = b -> put_repeat (Z.of_nat n) hp v = Some (hputs hp (replicate n b)).
Proof.
  intros Hw Hr Hv. unfold put_repeat. rewrite Nat2Z.id. generalize 0 as i. revert hp Hw Hr. induction n as [|n IH]; intros hp Hw Hr i; [done|].
  rewrite for_loopM_S. rewrite hputbit_eq by (done || (eapply room_le; [|exact Hr]; lia)). do 2 step. rewrite Hv. cbn [replicate].
  rewrite IH by (apply hput1_wf || apply room_hput1; done || (eapply room_le; [|exact Hr]; lia)). done.
Qed.

(** What is written when the message ends here. *)
Definition out (flushflag l : Z) (k : nat) : list bool := if truth flushflag then pending (0x4000 <=? l) (S k) else [].

Lemma put_pending hp v1 v2 b k : hwf hp -> room hp (S k) -> truth v1 = b -> truth v2 = negb b ->
  ('(_, hp) ← hputbit hp v1; put_repeat (Z.of_nat k) hp v2) = Some (hputs hp (pending b k)).
Proof.
  intros Hw Hr H1 H2. rewrite hputbit_eq by (done || (eapply room_le; [|exact Hr]; lia)). step. rewrite H1.
  rewrite (put_repeat_eq k _ v2 (negb b)); [done| |by apply room_hput1|done]. apply hput1_wf; [done|]. eapply room_le; [|exact Hr]; lia.
Qed.

Lemma pending_step {A} hp v1 v2 b k (f : HUFF -> option A) : hwf hp -> room hp (S k) -> truth v1 = b -> truth v2 = negb b ->
  ('(_, hp) ← hputbit hp v1; hp ← put_repeat (Z.of_nat k) hp v2; f hp) = f (hputs hp (pending b k)).
Proof.
  intros Hw Hr H1 H2. pose proof (put_pending hp v1 v2 b k Hw Hr H1 H2) as E.
  rewrite hputbit_eq in E by (done || (eapply room_le; [|exact Hr]; lia)). rewrite bind_Some in E. cbn beta iota in E.
  rewrite hputbit_eq by (done || (eapply room_le; [|exact Hr]; lia)). step. by rewrite E, bind_Some.
Qed.

Lemma pending_length b k : length (pending b k) = S k.
Proof. unfold pending. cbn. by rewrite length_replicate. Qed.

Lemma putbits_eq l u k bits n l' u' k' : shifts l u k bits n l' u' k' -> forall m c hp flag numbits,
  (n < m)%nat -> 0 <= l <= u -> u < 65536 -> lower c = l -> upper c = u -> underflowBits c = Z.of_nat k -> Z.of_nat (k + n) < 65535 ->
  hwf hp -> room hp (length bits + length (out flag l' k')) ->
  putbits_loop m hp c flag numbits = Some (numbits + Z.of_nat (length bits + length (out flag l' k')), hputs hp (bits ++ out flag l' k'),
    ival c l' u' (if truth flag then 0 else Z.of_nat k')).
Proof.
  induction 1 as [l u k Hm Hs|b l u k bits n l' u' k' Hb Hb' Hsh IH|l u k bits n l' u' k' H1 H2 H3 Hsh IH];
    intros m c hp flag numbits Hn Hl Hu El Eu Ek Hk Hw Hr; (destruct m as [|m]; [lia|]); cbn [putbits_loop].
  - rewrite state_stop by lia. change (-1 =? 1) with false. change (-1 =? 0) with false. cbv iota. unfold out in *. destruct (truth flag).
    + rewrite pending_length in *. rewrite (uwrap_small 16) by lia. rewrite Ek. replace (Z.of_nat k + 1) with (Z.of_nat (S k)) by lia.
      rewrite (pending_step hp _ _ (0x4000 <=? lower c) (S k)); [|done|done| |].
      * cbn [app length]. rewrite <- El, <- Eu. f_equal. f_equal; first [by destruct c | f_equal; lia].
      * rewrite truth_c_bool, second_bit by lia. cases_leb; done.
      * rewrite truth_c_bool, second_bit by lia. cases_leb; done.
    + cbn [app length]. rewrite <- El, <- Eu, <- Ek, ival_self. do 3 f_equal. lia.
  - assert (Hlo : 0 <= half b <= 0x8000) by (by destruct b). rewrite (state_agree c b) by lia. change (0 =? 1) with false. change (0 =? 0) with true. cbv iota.
    rewrite length_app, pending_length in Hr. rewrite Ek.
    rewrite (pending_step hp _ _ b k); [|done|eapply room_le; [|exact Hr]; lia| |].
    + assert (El' : lower c.[underflowBits <- 0] = l) by (by destruct c). assert (Eu' : upper c.[underflowBits <- 0] = u) by (by destruct c).
      rewrite (shift_agree _ b) by (rewrite ?El', ?Eu'; lia). rewrite El', Eu'.
      destruct (hputs_room hp (pending b k) (length bits + length (out flag l' k')) Hw) as [Hw' Hr']; [eapply room_le; [|exact Hr]; rewrite pending_length; lia|].
      erewrite IH; [| | | | | | | |exact Hw'|exact Hr']; try lia; try (by destruct c).
      rewrite <- app_assoc, (hputs_app hp (pending b k)), !length_app, pending_length. f_equal. f_equal; first [by destruct c | f_equal; lia].
    + rewrite truth_c_bool, top_bit by lia. destruct b; cbn in *; cases_leb; done.
    + rewrite truth_c_bool, top_bit by lia. destruct b; cbn in *; cases_leb; done.
  - rewrite state_mid by lia. change (1 =? 1) with true. cbv iota. rewrite (uwrap_small 16) by lia.
    set (c1 := c.[underflowBits <- _]). assert (El' : lower c1 = l) by (by destruct c). assert (Eu' : upper c1 = u) by (by destruct c).
    rewrite shift_mid by (rewrite ?El', ?Eu'; lia). rewrite El', Eu'. assert (Ek' : underflowBits c1 = Z.of_nat (S k)) by (subst c1; destruct c; cbn in *; lia).
    erewrite IH; [| | | | | | | |exact Hw|exact Hr]; try lia; try (by destruct c).
Qed.

(** ** Reading *)

(** A decoder with another interval and number. *)
Definition dval (d : ramcoder) (l u c : Z) : ramcoder := d.[lower <- l].[upper <- u].[code <- c].

Lemma lor_bit x b : 0 <= x -> x mod 2 = 0 -> Z.lor x (c_bool b) = x + c_bool b.
Proof. intros. destruct b; cbn [c_bool]; [by apply lor_even|]. rewrite Z.lor_0_r. lia. Qed.

Lemma xor_mid c : 0x4000 <= c < 0xC000 -> u16 (Z.shiftl (Z.lxor c (RAMMASK_BIT 1)) 1) = 2 * (c - 0x4000).
Proof.
  intros H. assert (E : Z.lxor c (2 ^ 14) = if c <? 0x8000 then c - 0x4000 else c + 0x4000).
  { destruct (Z.ltb_spec c 0x8000).
    - assert (Ec : c = c - 0x4000 + 2 ^ 14) by (change (2 ^ 14) with 0x4000; lia). rewrite Ec at 1.
      rewrite Z.add_nocarry_lxor, Z.lxor_assoc, Z.lxor_nilpotent, Z.lxor_0_r by (rewrite land_pow2, bit14 by lia; cases_leb; done). done.
    - rewrite <- Z.add_nocarry_lxor; [done|]. rewrite land_pow2, bit14 by lia. cases_leb; done. }
  change (RAMMASK_BIT 1) with (2 ^ 14). rewrite E, Z.shiftl_mul_pow2 by lia. unfold u16, uwrap. change (2 ^ 1) with 2. change (2 ^ 16) with 65536.
  destruct (Z.ltb_spec c 0x8000); dmlia.
Qed.

Lemma shl_agree c b : half b <= c < half b + 0x8000 -> u16 (Z.shiftl c 1) = 2 * (c - half b).
Proof. intros H. rewrite Z.shiftl_mul_pow2 by lia. unfold u16, uwrap. change (2 ^ 1) with 2. change (2 ^ 16) with 65536. destruct b; cbn [half] in *; dmlia. Qed.

Lemma drop_nth n : forall (l : list bool), (n < length l)%nat -> drop n l = nth n l false :: drop (S n) l.
Proof. induction n as [|n IH]; intros [|x l] H; cbn in *; try lia; [done|]. apply IH. lia. Qed.

Lemma getbits_eq l u k bits n l' u' k' : shifts l u k bits n l' u' k' -> forall m d hp q w numbits,
  (n < m)%nat -> 0 <= l <= u -> u < 65536 -> lower d = l -> upper d = u -> code d = val 16 (view k (bits ++ w)) ->
  within l' u' k' w -> (16 + k' <= length w)%nat -> hwf hp -> stored hp q (drop 16 (view k (bits ++ w))) ->
  getbits_loop m (hat hp q) d numbits =
    Some (numbits + Z.of_nat n, hat hp (q + Z.of_nat n), dval d l' u' (val 16 (view k' w))) /\
  stored hp (q + Z.of_nat n) (drop 16 (view k' w)).
Proof.
  induction 1 as [l u k Hm Hs|b l u k bits n l' u' k' Hb Hb' Hsh IH|l u k bits n l' u' k' H1 H2 H3 Hsh IH];
    intros m d hp q w numbits Hn Hl Hu El Eu Ec Hw Hlen Hwf Hst; (destruct m as [|m]; [lia|]); cbn [getbits_loop].
  - rewrite state_stop by lia. cbn [app] in *. rewrite <- Ec, <- El, <- Eu. change (Z.of_nat 0) with 0. rewrite !Z.add_0_r. split; [by destruct d|done].
  - assert (Hlo : 0 <= half b <= 0x8000) by (by destruct b). rewrite (state_agree d b) by lia. change ((0 =? 0) || (0 =? 1)) with true. change (0 =? 1) with false. cbv iota.
    rewrite <- app_assoc, view_pending in Ec, Hst. set (r := bits ++ w) in *.
    pose proof (shifts_within _ _ _ _ _ _ _ _ w Hsh Hw) as Hr. fold r in Hr.
    assert (Ev : view 0 r = r) by (destruct r; done). pose proof (within_view _ _ _ _ Hr) as Hv. rewrite Ev, (val_agree b) in Hv.
    assert (Hlr : (16 <= length r)%nat) by (subst r; rewrite length_app; pose proof (shifts_length _ _ _ _ _ _ _ _ Hsh); lia).
    change (drop 16 (b :: r)) with (drop 15 r) in Hst. rewrite (drop_nth 15) in Hst by lia.
    destruct (hgetbit_stored hp q _ _ Hwf Hst) as [-> Hst']. step. pose proof (c_bool_range (nth 15 r false)) as Hbit.
    destruct (Z.leb_spec 0 (c_bool (nth 15 r false))); [|lia]. rewrite (shift_agree d b) by lia. rewrite El, Eu.
    change (code (ival d _ _ _)) with (code d). rewrite (shl_agree _ b) by lia. 
    match goal with |- context [getbits_loop m _ ?d' _] => assert (Ed : d' = dval d (2 * (l - half b)) (2 * (u - half b) + 1) (val 16 r)) end.
    { rewrite (val_agree b), <- Ec. rewrite <- Ec in Hv. clear Ec. destruct d; unfold ival, dval; cbn. cbn in Hv. rewrite lor_bit by (lia || dmlia). done. }
    rewrite Ed. edestruct (IH m (dval d (2 * (l - half b)) (2 * (u - half b) + 1) (val 16 r)) hp (q + 1) w (numbits + 1)) as [-> Hst2];
      [lia|lia|lia|by destruct d|by destruct d|change (bits ++ w) with r; rewrite Ev; by destruct d|done|done|done|change (bits ++ w) with r; by rewrite Ev|].
    replace (q + 1 + Z.of_nat n) with (q + Z.of_nat (S n)) in * by lia. split; [|done]. f_equal. f_equal; first [by destruct d | f_equal; lia].
  - rewrite state_mid by lia. change ((1 =? 0) || (1 =? 1)) with true. change (1 =? 1) with true. cbv iota.
    pose proof (shifts_within _ _ _ _ _ _ _ _ w Hsh Hw) as Hr. destruct Hr as (b & r & E & Hv).
    assert (E' : bits ++ w = pending b k ++ negb b :: r) by (rewrite E; unfold pending; cbn [app]; f_equal; by rewrite replicate_S_end, <- app_assoc).
    assert (Hlr : (15 <= length r)%nat).
    { pose proof (f_equal (@length bool) E) as El2. rewrite !length_app, pending_length in El2. pose proof (shifts_length _ _ _ _ _ _ _ _ Hsh). lia. }
    rewrite E', view_pending in Ec, Hst. rewrite val_mid in Hv.
    change (drop 16 (b :: negb b :: r)) with (drop 14 r) in Hst. rewrite (drop_nth 14) in Hst by lia.
    destruct (hgetbit_stored hp q _ _ Hwf Hst) as [-> Hst']. step. pose proof (c_bool_range (nth 14 r false)) as Hbit.
    destruct (Z.leb_spec 0 (c_bool (nth 14 r false))); [|lia].
    match goal with |- context [getbits_loop m _ ?d' _] => assert (Ed : d' = dval d (2 * (l - 0x4000)) (2 * (u - 0x4000) + 1) (val 16 (b :: r))) end.
    { rewrite (val_mid b), <- Ec. rewrite <- Ec in Hv. clear Ec. rewrite normalize_mid by lia. destruct d as [cp lo up co un ls uls ct rg]. cbn in El, Eu, Hv.
      rewrite shift_eq by (cbn; lia). unfold ival, dval. cbn -[Z.lxor RAMMASK_BIT u16 Z.shiftl Z.lor Z.modulo Z.mul].
      rewrite xor_mid by lia. rewrite lor_bit by (lia || dmlia). subst lo up.
      assert (E1 : (2 * (l - 0x4000)) mod 65536 = 2 * (l - 0x4000)) by dmlia.
      assert (E2 : (2 * (u + 0x4000)) mod 65536 + 1 = 2 * (u - 0x4000) + 1) by dmlia.
      rewrite E1, E2. done. }
    rewrite Ed. edestruct (IH m (dval d (2 * (l - 0x4000)) (2 * (u - 0x4000) + 1) (val 16 (b :: r))) hp (q + 1) w (numbits + 1)) as [-> Hst2];
      [lia|lia|lia|by destruct d|by destruct d|rewrite E, view_pending; by destruct d|done|done|done|by rewrite E, view_pending|].
    replace (q + 1 + Z.of_nat n) with (q + Z.of_nat (S n)) in * by lia. split; [|done]. f_equal. f_equal; first [by destruct d | f_equal; lia].
Qed.

(** ** Narrowing *)

Definition width (c : ramcoder) : Z := upper c - lower c + 1.
Definition sub_lower (c : ramcoder) (s : Z) : Z := lower c + znth (ranges c) s * width c / cumulativeProb c.
Definition sub_upper (c : ramcoder) (s : Z) : Z := lower c + znth (ranges c) (s + 1) * width c / cumulativeProb c - 1.

(** A coder between two symbols: every symbol has its own part of the interval. *)
Record coding_ok (c : ramcoder) : Prop := {
  co_freqs : freqs_ok c;
  co_lower : 0 <= lower c;
  co_upper : upper c < 65536;
  co_width : cumulativeProb c <= width c;
  co_wide : 16386 <= width c;
  co_cum : 769 <= cumulativeProb c;
  co_under : 0 <= underflowBits c }.

Lemma div_gap a b c n : 0 < c -> c <= n -> a < b -> a * n / c + 1 <= b * n / c.
Proof. intros. replace (a * n / c + 1) with ((a * n + 1 * c) / c) by (rewrite Z.div_add by lia; done). apply Z.div_le_mono; [lia|nia]. Qed.

Lemma div_gap_le a b c n : 0 < c -> a <= b -> 0 <= n -> b * n / c <= a * n / c + (b - a) * n / c + 1.
Proof. intros. assert (b * n = a * n + (b - a) * n) as -> by ring. Z.to_euclidean_division_equations. nia. Qed.

Lemma narrow_range c s : coding_ok c -> 0 <= s <= 256 ->
  lower c <= sub_lower c s /\ sub_lower c s <= sub_upper c s /\ sub_upper c s <= upper c.
Proof.
  intros [F Hl Hu Hw _ Hc _] Hs. destruct F as [_ _ Hr _]. pose proof Hr as (_ & _ & Hinc & _). specialize (Hinc s ltac:(lia)).
  pose proof (sums_range _ _ s Hr ltac:(lia)). pose proof (sums_range _ _ (s + 1) Hr ltac:(lia)).
  pose proof (div_gap _ _ (cumulativeProb c) (width c) ltac:(lia) Hw Hinc). unfold sub_lower, sub_upper.
  assert (0 <= znth (ranges c) s * width c / cumulativeProb c) by (apply Z.div_pos; nia).
  assert (znth (ranges c) (s + 1) * width c / cumulativeProb c <= width c) by (apply Z.div_le_upper_bound; nia).
  unfold width in *. lia.
Qed.

(** The end mark has a small part. *)
Lemma last_narrow c f : coding_ok c -> last_freq c <= f -> 0 <= f -> sub_upper c 256 - sub_lower c 256 + 1 <= f * 65536 / cumulativeProb c + 1.
Proof.
  intros [F Hl Hu Hw _ Hc _] Hf Hf0. destruct F as [_ _ Hr _]. pose proof Hr as (_ & _ & Hinc & _). specialize (Hinc 256 ltac:(lia)). unfold last_freq in Hf.
  change (256 + 1) with 257 in Hinc.
  pose proof (div_gap_le (znth (ranges c) 256) (znth (ranges c) 257) (cumulativeProb c) (width c) ltac:(lia) ltac:(lia) ltac:(lia)).
  assert ((znth (ranges c) 257 - znth (ranges c) 256) * width c / cumulativeProb c <= f * 65536 / cumulativeProb c).
  { apply Z.div_le_mono; [lia|]. unfold width. nia. }
  unfold sub_upper, sub_lower. change (256 + 1) with 257. lia.
Qed.

(** The code's interval of a symbol; a product of 65536 is cut to 0 and gives the same end. *)
Lemma narrow_eq c s : coding_ok c -> 0 <= s <= 256 -> lower c <= upper c ->
  u16 (lower c + u16 (u32 (znth (ranges c) (s + 1) * width c) / cumulativeProb c) - 1) = sub_upper c s /\
  u16 (lower c + u16 (u32 (znth (ranges c) s * width c) / cumulativeProb c)) = sub_lower c s /\ u32 (width c) = width c.
Proof.
  intros Hok Hs Hlu. pose proof (narrow_range c s Hok Hs) as (H1 & H2 & H3). destruct Hok as [F Hl Hu Hw _ Hc _]. destruct F as [_ _ Hr Hb].
  pose proof (sums_range _ _ s Hr ltac:(lia)). pose proof (sums_range _ _ (s + 1) Hr ltac:(lia)).
  assert (Hwd : 0 <= width c <= 65536) by (unfold width; lia). rewrite !(uwrap_small 32) by nia.
  unfold sub_lower, sub_upper in *. split_and!; [| |done].
  - set (x := znth (ranges c) (s + 1) * width c / cumulativeProb c) in *. unfold u16, uwrap. change (2 ^ 16) with 65536.
    assert (0 <= x) by (apply Z.div_pos; nia). dmlia.
  - set (x := znth (ranges c) s * width c / cumulativeProb c) in *. assert (0 <= x) by (apply Z.div_pos; nia).
    rewrite (uwrap_small 16 x) by (change (2 ^ 16) with 65536; lia). apply uwrap_small. change (2 ^ 16) with 65536. lia.
Qed.

(** The number in [code] leads to the symbol whose part it is in. *)
Lemma unscaled_bounds lo hi cum w y : 0 < cum -> 0 < w -> lo * w / cum <= y <= hi * w / cum - 1 -> lo <= ((y + 1) * cum - 1) / w < hi.
Proof.
  intros Hc Hw [H1 H2]. assert (lo * w < (y + 1) * cum).
  { assert (lo * w / cum < y + 1) as Hlt by lia. pose proof (Z.mul_succ_div_gt (lo * w) cum Hc). nia. }
  assert ((y + 1) * cum <= hi * w). { assert (y + 1 <= hi * w / cum) as Hle by lia. pose proof (Z.mul_div_le (hi * w) cum Hc). nia. }
  split; [apply Z.div_le_lower_bound; lia|apply Z.div_lt_upper_bound; lia].
Qed.

Lemma bsearch_eq r cum v s : sums_ok r cum -> 0 <= s <= 256 -> znth r s <= v < znth r (s + 1) -> forall fuel first last,
  0 <= first <= s -> s <= last <= 257 -> (Z.to_nat (last - first) < fuel)%nat -> bsearch_loop fuel v r first last = Some s.
Proof.
  intros Hr Hs Hv. induction fuel as [|fuel IH]; intros first last Hf Hl Hfuel; [lia|]. pose proof Hr as (Hlen & _). cbn [bsearch_loop].
  destruct (Z.leb_spec first last); [|lia]. rewrite Z.quot_div_nonneg by lia.
  set (m := first + (last - first) / 2). assert (Hm : first <= m <= last) by (subst m; dmlia). rewrite (aget_znth r m) by lia. step.
  destruct (Z.ltb_spec v (znth r m)) as [Hlt|Hge].
  - assert (s < m). { destruct (Z.le_gt_cases m s); [|lia]. pose proof (sums_mono r cum Hr m s ltac:(lia) ltac:(lia)). lia. }
    apply IH; lia.
  - assert (m <= s). { destruct (Z.le_gt_cases m s); [done|]. pose proof (sums_mono r cum Hr (s + 1) m ltac:(lia) ltac:(lia)). lia. }
    rewrite (aget_znth r (m + 1)) by lia. step. destruct (Z.leb_spec (znth r (m + 1)) v).
    + assert (m <> s) by (intros ->; lia). apply IH; lia.
    + f_equal. destruct (Z.eq_dec m s); [done|]. pose proof (sums_mono r cum Hr (m + 1) s ltac:(lia) ltac:(lia)). lia.
Qed.

(** ** One symbol *)

Definition pend (c : ramcoder) : nat := Z.to_nat (underflowBits c).

(** Coding [s] with [c] gives [bits], makes [n] shifts and leaves [c']. *)
Record coded (c : ramcoder) (s : Z) (bits : list bool) (n : nat) (c' : ramcoder) : Prop := {
  cd_shifts : shifts (sub_lower c s) (sub_upper c s) (pend c) bits n (lower c') (upper c') (pend c');
  cd_model : forall x, ranges x = ranges c -> cumulativeProb x = cumulativeProb c -> upper_lastsymbol x = 257 ->
    update_probs s x = Some x.[cumulativeProb <- cumulativeProb c'].[ranges <- ranges c'].[counter <- u16 (counter x + 1)];
  cd_count : (n <= 16)%nat;
  cd_ok : coding_ok c';
  cd_cap : cumulativeProb c' <= cumulativeProb c + 1;
  cd_rest : code c' = code c /\ counter c' = u16 (counter c + 1) }.

Lemma coded_exists c s : coding_ok c -> 0 <= s <= 256 -> exists bits n c', coded c s bits n c' /\
  last_freq c' <= last_freq c + (if s =? 256 then 1 else 0) /\ (cumulativeProb c < cumulativeProb c' \/ 8000 <= cumulativeProb c').
Proof.
  intros Hok Hs. pose proof (narrow_range c s Hok Hs) as (H1 & H2 & H3). pose proof Hok as [F Hl Hu Hw _ Hc Hun].
  destruct (update_probs_eq s c F Hs) as (r & cum & Hupd & Hr & Hcum & Hcap & Hgrow & Hlast).
  destruct (shifts_total 17 (sub_lower c s) (sub_upper c s) (pend c) ltac:(lia) ltac:(lia)) as (bits & n & l' & u' & k' & Hsh & Hn);
    [change (2 ^ Z.of_nat 17) with 131072; lia|].
  destruct (shifts_range _ _ _ _ _ _ _ _ Hsh ltac:(lia) ltac:(lia)) as (Hl' & Hu' & Hstop & _).
  exists bits, n, (mkCoder cum l' u' (code c) (Z.of_nat k') 256 257 (u16 (counter c + 1)) r). split; [|done]. constructor; cbn; [|done|lia| |lia|done].
  - unfold pend at 2. cbn. by rewrite Nat2Z.id.
  - constructor; [constructor|..]; cbn; try done; try lia; unfold width; cbn; lia.
Qed.

(** [N] shifts are enough for a symbol when the sum of the frequencies is at most [cum]. *)
Definition at_most (N : nat) (cum : Z) : Prop := N = 16%nat \/ exists k, 0 < k /\ cum * k <= 16386 /\ 65536 < 2 ^ Z.of_nat (S N) * k.

Lemma coded_count c s bits n c' cum N : coding_ok c -> 0 <= s <= 256 -> coded c s bits n c' -> cumulativeProb c <= cum -> at_most N cum -> (n <= N)%nat.
Proof.
  intros Hok Hs Hcd Hc [->|(k & Hk & Hck & HN)]; [apply (cd_count _ _ _ _ _ Hcd)|]. pose proof (narrow_range c s Hok Hs) as (H1 & H2 & H3).
  pose proof Hok as [F Hl Hu Hw Hwide Hcum _]. destruct F as [_ _ Hr _]. pose proof Hr as (_ & _ & Hinc & _). specialize (Hinc s ltac:(lia)).
  assert (Hsub : k <= sub_upper c s - sub_lower c s + 1).
  { assert (znth (ranges c) s * width c / cumulativeProb c + k <= znth (ranges c) (s + 1) * width c / cumulativeProb c); [|unfold sub_upper, sub_lower; lia].
    rewrite <- Z.div_add by lia. apply Z.div_le_mono; [lia|]. assert (k * cumulativeProb c <= width c) by nia. nia. }
  destruct (shifts_range _ _ _ _ _ _ _ _ (cd_shifts _ _ _ _ _ Hcd) ltac:(lia) ltac:(lia)) as (G1 & G2 & G3 & G4).
  destruct (Nat.le_gt_cases n N) as [|Hn]; [done|]. assert (2 ^ Z.of_nat (S N) <= 2 ^ Z.of_nat n) by (apply Z.pow_le_mono_r; lia). nia.
Qed.

Section coded.
Context (c : ramcoder) (s : Z) (bits : list bool) (n : nat) (c' : ramcoder).
Context (Hok : coding_ok c) (Hs : 0 <= s <= 256) (Hcd : coded c s bits n c').

Lemma coded_pend : (length bits + pend c' = pend c + n)%nat.
Proof using Hcd. apply (shifts_length _ _ _ _ _ _ _ _ (cd_shifts _ _ _ _ _ Hcd)). Qed.

Lemma coded_within w : within (lower c') (upper c') (pend c') w -> within (lower c) (upper c) (pend c) (bits ++ w).
Proof using Hok Hs Hcd.
  intros Hw. pose proof (narrow_range c s Hok Hs). eapply within_narrow; [eapply shifts_within; [apply (cd_shifts _ _ _ _ _ Hcd)|exact Hw]|lia..].
Qed.

(** The code up to the shifts, for the encoder and the decoder. *)
Lemma update_narrow x putflags hp : ranges x = ranges c -> cumulativeProb x = cumulativeProb c -> lower x = lower c -> upper x = upper c ->
  upper_lastsymbol x = 257 ->
  ramcoder_update s x 1 putflags hp =
    (let x' := x.[upper <- sub_upper c s].[lower <- sub_lower c s].[cumulativeProb <- cumulativeProb c'].[ranges <- ranges c'].[counter <- u16 (counter x + 1)] in
     if truth putflags then ramcoder_putbits hp x' (Z.land putflags RAMCODER_FINALIZE) else ramcoder_getbits hp x').
Proof using Hok Hs Hcd.
  intros E1 E2 E3 E4 E5. pose proof (narrow_range c s Hok Hs) as (H1 & H2 & H3). destruct (narrow_eq c s Hok Hs ltac:(lia)) as (Eu & El & Ew).
  pose proof Hok as [F Hl Hu Hw _ Hc Hun]. pose proof (freqs_sums _ F) as (Hlen & _). unfold ramcoder_update. rewrite E1, E2, E3, E4.
  rewrite (aget_znth _ (s + 1)) by lia. step. rewrite (aget_znth _ s) by lia. step. destruct (Z.eqb_spec (cumulativeProb c) 0); [lia|].
  fold (width c). rewrite Ew. rewrite Eu, El. change (truth 1) with true. cbv iota.
  rewrite (cd_model _ _ _ _ _ Hcd) by (destruct x; done). step. destruct x. done.
Qed.

Lemma encode_step flag hp : hwf hp -> underflowBits c < 65500 -> room hp (length bits + length (out flag (lower c') (pend c'))) -> flag = 0 \/ flag = 1 ->
  ramcoder_update s c 1 (Z.lor RAMCODER_PUTBITS flag) hp =
    Some (Z.of_nat (length bits + length (out flag (lower c') (pend c'))), hputs hp (bits ++ out flag (lower c') (pend c')),
      if truth flag then c'.[underflowBits <- 0] else c').
Proof using Hok Hs Hcd.
  intros Hwf Hun Hr Hflag. pose proof (narrow_range c s Hok Hs) as (H1 & H2 & H3). pose proof Hok as [F Hl Hu Hw _ Hc Hun0].
  rewrite (update_narrow c _ hp) by (done || apply (freqs_upper _ F)). cbv zeta.
  assert (truth (Z.lor RAMCODER_PUTBITS flag) = true) as -> by (by destruct Hflag; subst).
  assert (Z.land (Z.lor RAMCODER_PUTBITS flag) RAMCODER_FINALIZE = flag) as -> by (by destruct Hflag; subst).
  unfold ramcoder_putbits. pose proof (cd_count _ _ _ _ _ Hcd).
  erewrite putbits_eq; [|exact (cd_shifts _ _ _ _ _ Hcd)|unfold SHIFTS; lia|lia|lia|by destruct c|by destruct c|destruct c; unfold pend in *; cbn in *; lia|unfold pend in *; lia|done|done].
  cbn [Z.add]. f_equal. f_equal. destruct (cd_rest _ _ _ _ _ Hcd) as [Ecode Ecnt]. destruct (cd_ok _ _ _ _ _ Hcd) as [[El Eu _ _] _ _ _ _ _ Hun'].
  destruct F as [El0 Eu0 _ _]. destruct c as [c1 c2 c3 c4 c5 c6 c7 c8 c9], c' as [d1 d2 d3 d4 d5 d6 d7 d8 d9]. cbn in *. subst.
  unfold pend in *. cbn in *. destruct (truth flag); unfold ival; cbn; [done|]. rewrite Z2Nat.id by done. done.
Qed.

(** The decoder has the interval and the frequencies of the encoder, and the number that [w] and what follows give. *)
Definition follows (d e : ramcoder) (w : list bool) : Prop :=
  ranges d = ranges e /\ cumulativeProb d = cumulativeProb e /\ lower d = lower e /\ upper d = upper e /\
  lastsymbol d = 256 /\ upper_lastsymbol d = 257 /\ code d = val 16 (view (pend e) w).

Lemma decode_step d w q hp : follows d c (bits ++ w) -> within (lower c') (upper c') (pend c') w -> (16 + pend c' <= length w)%nat ->
  hwf hp -> stored hp q (drop 16 (view (pend c) (bits ++ w))) ->
  exists d', ramcoder_update s d 1 0 (hat hp q) = Some (Z.of_nat n, hat hp (q + Z.of_nat n), d') /\ follows d' c' w /\
    stored hp (q + Z.of_nat n) (drop 16 (view (pend c') w)).
Proof using Hok Hs Hcd.
  intros (E1 & E2 & E3 & E4 & E5 & E6 & E7) Hw Hlen Hwf Hst. pose proof (narrow_range c s Hok Hs) as (H1 & H2 & H3).
  pose proof Hok as [F Hl Hu _ _ _ _]. rewrite (update_narrow d _ (hat hp q)) by done. cbv zeta. change (truth 0) with false. cbv iota. unfold ramcoder_getbits.
  pose proof (cd_count _ _ _ _ _ Hcd) as Hn.
  match goal with |- context [getbits_loop SHIFTS _ ?x 0] => set (d0 := x) end.
  destruct (getbits_eq _ _ _ _ _ _ _ _ (cd_shifts _ _ _ _ _ Hcd) SHIFTS d0 hp q w 0) as [-> Hst'];
    [unfold SHIFTS; lia|lia|lia|by destruct d|by destruct d|rewrite <- E7; by destruct d|exact Hw|exact Hlen|exact Hwf|exact Hst|].
  eexists. split; [reflexivity|]. split; [|exact Hst']. subst d0. unfold follows. destruct d. cbn in *. done.
Qed.

(** The decoder finds the symbol. *)
Lemma search_step d w : follows d c (bits ++ w) -> within (lower c') (upper c') (pend c') w ->
  (v ← RAMDECODER_UNSCALED d; ramdecoder_bsearch (u16 v) d) = Some s.
Proof using Hok Hs Hcd.
  intros (E1 & E2 & E3 & E4 & E5 & E6 & E7) Hw. pose proof (narrow_range c s Hok Hs) as (H1 & H2 & H3).
  pose proof Hok as [[_ _ Hr Hb] Hl Hu Hwd _ Hc _].
  assert (Hv : sub_lower c s <= code d <= sub_upper c s).
  { rewrite E7. apply within_view. eapply shifts_within; [apply (cd_shifts _ _ _ _ _ Hcd)|exact Hw]. }
  assert (Hwr : 0 < width c <= 65536) by (unfold width; lia).
  pose proof (unscaled_bounds (znth (ranges c) s) (znth (ranges c) (s + 1)) (cumulativeProb c) (width c) (code d - lower c) ltac:(lia) ltac:(lia)) as Hun.
  unfold sub_lower, sub_upper in Hv. specialize (Hun ltac:(lia)). pose proof (sums_range _ _ (s + 1) Hr ltac:(lia)). pose proof (sums_range _ _ s Hr ltac:(lia)).
  assert (0 <= znth (ranges c) s * width c / cumulativeProb c) by (apply Z.div_pos; nia).
  unfold RAMDECODER_UNSCALED. rewrite E2, E3, E4. rewrite (uwrap_small 32 (upper c - lower c)) by (unfold width in *; lia). fold (width c).
  rewrite (uwrap_small 32 (width c)) by lia. destruct (Z.eqb_spec (width c) 0); [lia|]. step.
  assert (Hcode : 0 <= code d - lower c < 65536) by (unfold sub_lower, sub_upper, width in *; lia).
  rewrite (uwrap_small 32 (code d - lower c)) by lia. rewrite (uwrap_small 32 (code d - lower c + 1)) by lia.
  rewrite (uwrap_small 32 ((code d - lower c + 1) * cumulativeProb c)) by nia. rewrite (uwrap_small 32) by nia.
  rewrite (uwrap_small 16) by lia. unfold ramdecoder_bsearch. rewrite E1, E6. apply (bsearch_eq _ (cumulativeProb c)); try done; lia.
Qed.
End coded.

(** ** A message *)

(** Coding the symbols [ss] one after the other. *)
Inductive message : ramcoder -> list Z -> list bool -> nat -> ramcoder -> Prop :=
  | message_nil c : message c [] [] 0 c
  | message_cons c s ss bits1 n1 c1 bits2 n2 c2 :
      coded c s bits1 n1 c1 -> message c1 ss bits2 n2 c2 -> message c (s :: ss) (bits1 ++ bits2) (n1 + n2) c2.

Lemma message_exists ss : forall c, bytes ss -> coding_ok c -> exists bits n c', message c ss bits n c' /\ last_freq c' <= last_freq c.
Proof.
  induction ss as [|s ss IH]; intros c Hb Hok; [exists [], O, c; split; [constructor|lia]|]. apply list.Forall_cons in Hb as [Hs Hb].
  destruct (coded_exists c s Hok ltac:(lia)) as (bits1 & n1 & c1 & Hcd & Hl & _). destruct (Z.eqb_spec s 256); [lia|].
  destruct (IH c1 Hb (cd_ok _ _ _ _ _ Hcd)) as (bits2 & n2 & c2 & Hm & Hl2). eexists _, _, c2. split; [by econstructor|lia].
Qed.

Lemma message_count c ss bits n c' cum N : message c ss bits n c' -> bytes ss -> coding_ok c -> at_most N cum ->
  cumulativeProb c + Z.of_nat (length ss) <= cum -> (n <= N * length ss)%nat /\ cumulativeProb c' <= cumulativeProb c + Z.of_nat (length ss).
Proof.
  induction 1 as [c|c s ss bits1 n1 c1 bits2 n2 c2 Hcd Hm IH]; intros Hb Hok HN Hc; [cbn; lia|].
  apply list.Forall_cons in Hb as [Hs Hb]. cbn [length] in *. pose proof (cd_cap _ _ _ _ _ Hcd).
  pose proof (coded_count c s bits1 n1 c1 cum N Hok ltac:(lia) Hcd ltac:(lia) HN). destruct (IH Hb (cd_ok _ _ _ _ _ Hcd) HN ltac:(lia)). lia.
Qed.

Lemma message_facts c ss bits n c' : message c ss bits n c' -> bytes ss -> coding_ok c ->
  coding_ok c' /\ (n <= 16 * length ss)%nat /\ (length bits + pend c' = pend c + n)%nat /\
  forall w, within (lower c') (upper c') (pend c') w -> within (lower c) (upper c) (pend c) (bits ++ w).
Proof.
  induction 1 as [c|c s ss bits1 n1 c1 bits2 n2 c2 Hcd Hm IH]; intros Hb Hok; [cbn; split_and!; done || lia|].
  apply list.Forall_cons in Hb as [Hs Hb]. destruct (IH Hb (cd_ok _ _ _ _ _ Hcd)) as (Hok2 & Hn & Hlen & Hw).
  pose proof (cd_count _ _ _ _ _ Hcd). pose proof (coded_pend _ _ _ _ _ Hcd). rewrite length_app. cbn [length]. split_and!; [done|lia|lia|].
  intros w Hw2. rewrite <- app_assoc. eapply coded_within; [done| |done|by apply Hw]. lia.
Qed.

Lemma emit_step c s bits n c' hp : coding_ok c -> 0 <= s <= 256 -> coded c s bits n c' -> hwf hp -> Z.of_nat (pend c) < 65500 -> room hp (length bits) ->
  ramcoder_update s c 1 RAMCODER_PUTBITS hp = Some (Z.of_nat (length bits), hputs hp bits, c').
Proof.
  intros Hok Hs Hcd Hwf Hp Hr. pose proof (co_under _ Hok). change RAMCODER_PUTBITS with (Z.lor RAMCODER_PUTBITS 0).
  rewrite (encode_step c s bits n c' Hok Hs Hcd 0 hp Hwf); [|unfold pend in Hp; lia|cbn; by rewrite Nat.add_0_r|by left].
  cbn. by rewrite Nat.add_0_r, app_nil_r.
Qed.

Lemma emit_message c ss bits n c' : message c ss bits n c' -> forall pre hp numbits, bytes ss -> coding_ok c -> hwf hp ->
  Z.of_nat (pend c + 16 * length ss) < 65500 -> room hp (length bits) ->
  for_loopM (length ss) (Z.of_nat (length pre)) (fun i '(numbits, hp, coder) =>
      x ← aget (pre ++ ss) i; '(n, hp, coder) ← ramcoder_update x coder 1 RAMCODER_PUTBITS hp; Some (numbits + n, hp, coder)) (numbits, hp, c)
    = Some (numbits + Z.of_nat (length bits), hputs hp bits, c').
Proof.
  induction 1 as [c|c s ss bits1 n1 c1 bits2 n2 c2 Hcd Hm IH]; intros pre hp numbits Hb Hok Hwf Hp Hr; [cbn; by rewrite Z.add_0_r|].
  apply list.Forall_cons in Hb as [Hs Hb]. cbn [length] in *. rewrite length_app in *. rewrite for_loopM_S.
  assert (aget (pre ++ s :: ss) (Z.of_nat (length pre)) = Some s) as ->.
  { apply aget_Some. split; [lia|]. rewrite Nat2Z.id. by rewrite list_lookup_middle. }
  step. rewrite (emit_step c s bits1 n1 c1) by (done || lia || (eapply room_le; [|exact Hr]; lia)). do 2 step.
  destruct (hputs_room hp bits1 (length bits2) Hwf Hr) as [Hwf' Hr']. pose proof (coded_pend _ _ _ _ _ Hcd). pose proof (cd_count _ _ _ _ _ Hcd).
  specialize (IH (pre ++ [s]) (hputs hp bits1) (numbits + Z.of_nat (length bits1)) Hb (cd_ok _ _ _ _ _ Hcd) Hwf' ltac:(lia) Hr').
  rewrite <- app_assoc, length_app in IH. cbn [app length] in IH. replace (Z.of_nat (length pre) + 1) with (Z.of_nat (length pre + 1)) by lia.
  rewrite IH, hputs_app. do 3 f_equal. lia.
Qed.

(** The end mark takes at least 7 shifts. *)
Lemma last_shifts c bits n c' : coding_ok c -> last_freq c <= 2 -> coded c 256 bits n c' -> (7 <= n)%nat.
Proof.
  intros Hok Hl Hcd. pose proof (last_narrow c 2 Hok Hl ltac:(lia)) as Hw. pose proof (co_cum _ Hok) as Hc.
  assert (2 * 65536 / cumulativeProb c <= 170) by (apply Z.lt_succ_r, Z.div_lt_upper_bound; lia).
  pose proof (narrow_range c 256 Hok ltac:(lia)) as (N1 & N2 & N3). pose proof (co_lower _ Hok). pose proof (co_upper _ Hok).
  destruct (shifts_range _ _ _ _ _ _ _ _ (cd_shifts _ _ _ _ _ Hcd) ltac:(lia) ltac:(lia)) as (G1 & G2 & G3 & G4).
  destruct (Nat.le_gt_cases 7 n) as [|Hn]; [done|]. assert (2 ^ Z.of_nat n <= 2 ^ 6) by (apply Z.pow_le_mono_r; lia). change (2 ^ 6) with 64 in *. nia.
Qed.

(** ** Decoding a message *)

Lemma decode_symbol c s bits n c' d w q hp : coding_ok c -> 0 <= s < 256 -> coded c s bits n c' -> follows d c (bits ++ w) ->
  within (lower c') (upper c') (pend c') w -> (16 + pend c' <= length w)%nat -> hwf hp -> stored hp q (drop 16 (view (pend c) (bits ++ w))) ->
  exists d', ramcoder_decode d 1 (hat hp q) = Some (s, hat hp (q + Z.of_nat n), d') /\ follows d' c' w /\
    stored hp (q + Z.of_nat n) (drop 16 (view (pend c') w)).
Proof.
  intros Hok Hs Hcd Hf Hw Hlen Hwf Hst. pose proof (search_step c s bits n c' Hok ltac:(lia) Hcd d w Hf Hw) as Hfind.
  destruct (decode_step c s bits n c' Hok ltac:(lia) Hcd d w q hp Hf Hw Hlen Hwf Hst) as (d' & Hrun & Hf' & Hst').
  exists d'. split; [|done]. unfold ramcoder_decode. destruct (RAMDECODER_UNSCALED d) as [v|]; [|done]. rewrite bind_Some in Hfind. cbn beta in Hfind. step. rewrite Hfind. step.
  destruct Hf as (_ & _ & _ & _ & -> & _). destruct (Z.ltb_spec s 0); [lia|]. destruct (Z.eqb_spec s 256); [lia|]. cbn [orb]. rewrite Hrun. step. done.
Qed.

Lemma decode_end c bits n c' d w hp : coding_ok c -> coded c 256 bits n c' -> follows d c (bits ++ w) -> within (lower c') (upper c') (pend c') w ->
  ramcoder_decode d 1 hp = Some (-1, hp, d).
Proof.
  intros Hok Hcd Hf Hw. pose proof (search_step c 256 bits n c' Hok ltac:(lia) Hcd d w Hf Hw) as Hfind. unfold ramcoder_decode.
  destruct (RAMDECODER_UNSCALED d) as [v|]; [|done]. rewrite bind_Some in Hfind. cbn beta in Hfind. step. rewrite Hfind. step. destruct Hf as (_ & _ & _ & _ & -> & _). done.
Qed.

Lemma aset_middle {A} (pre : list A) x rest v : aset (pre ++ x :: rest) (Z.of_nat (length pre)) v = Some (pre ++ v :: rest).
Proof.
  unfold aset. rewrite length_app. cbn [length]. destruct (Z.leb_spec 0 (Z.of_nat (length pre))); [|lia].
  destruct (Z.ltb_spec (Z.of_nat (length pre)) (Z.of_nat (length pre + S (length rest)))); [|lia]. cbn [andb].
  by rewrite Nat2Z.id, insert_app_r_alt, Nat.sub_diag by lia.
Qed.

Section ending.
(** The message ends at [e] and [tail] is what the end mark and what comes after it give. *)
Context (e e2 : ramcoder) (b : list bool) (n : nat) (w : list bool).
Context (Hoke : coding_ok e) (Hend : coded e 256 b n e2) (Hw : within (lower e2) (upper e2) (pend e2) w) (Hlen : (16 + pend e <= length (b ++ w))%nat).

Lemma decoder_loop_eq c ss bits m : message c ss bits m e -> forall fuel d q hp pre rest maxlen, bytes ss -> coding_ok c -> hwf hp ->
  follows d c (bits ++ b ++ w) -> stored hp q (drop 16 (view (pend c) (bits ++ b ++ w))) ->
  Z.of_nat (length pre + length ss) <= maxlen <= Z.of_nat (length pre + length rest) -> (length ss < fuel)%nat ->
  exists hp' d', decoder_loop fuel d 1 (pre ++ rest) (Z.of_nat (length pre)) maxlen (hat hp q) =
    Some (Z.of_nat (length pre + length ss), pre ++ ss ++ drop (length ss) rest, hp', d').
Proof using Hoke Hend Hw Hlen.
  induction 1 as [c|c s ss bits1 n1 c1 bits2 n2 c2 Hcd Hm IH]; intros fuel d q hp pre rest maxlen Hb Hok Hwf Hf Hst Hmax Hfuel;
    (destruct fuel as [|fuel]; [lia|]); cbn [decoder_loop].
  - rewrite Nat.add_0_r. cbn [app drop length]. destruct (Z.ltb_spec (Z.of_nat (length pre)) maxlen); [|by eexists _, _].
    erewrite decode_end; [|exact Hok|exact Hend|exact Hf|exact Hw]. step. change (-1 <? 0) with true. cbv iota. by eexists _, _.
  - apply list.Forall_cons in Hb as [Hs Hb]. cbn [length] in *. destruct (Z.ltb_spec (Z.of_nat (length pre)) maxlen); [|lia].
    destruct (message_facts _ _ _ _ _ Hm Hb (cd_ok _ _ _ _ _ Hcd)) as (_ & _ & Hl & Hwm). rewrite <- app_assoc in Hf, Hst.
    assert (Hwe : within (lower c1) (upper c1) (pend c1) (bits2 ++ b ++ w)) by (apply Hwm; eapply coded_within; [exact Hoke| |exact Hend|exact Hw]; lia).
    destruct (decode_symbol c s bits1 n1 c1 d (bits2 ++ b ++ w) q hp Hok Hs Hcd Hf Hwe) as (d' & -> & Hf' & Hst'); [rewrite length_app; lia|done|done|].
    step. destruct (Z.ltb_spec s 0); [lia|]. destruct rest as [|x rest]; [cbn in Hmax; lia|].
    rewrite (uwrap_small 8) by lia. rewrite aset_middle. step.
    destruct (IH Hoke Hend Hlen fuel d' (q + Z.of_nat n1) hp (pre ++ [s]) rest maxlen Hb (cd_ok _ _ _ _ _ Hcd) Hwf Hf' Hst') as (hp' & d2 & Hrun);
      [rewrite length_app; cbn in *; lia|lia|].
    rewrite length_app in Hrun. cbn [length] in Hrun. rewrite <- !app_assoc in Hrun. cbn [app] in Hrun.
    replace (Z.of_nat (length pre) + 1) with (Z.of_nat (length pre + 1)) by lia. rewrite Hrun. exists hp', d2. do 3 f_equal. f_equal. lia.
Qed.
End ending.

(** The first 16 bits. *)
Lemma init_code hp m : forall q c l i, hwf hp -> stored hp q l -> (m <= length l)%nat -> 0 <= c -> (c + 1) * 2 ^ Z.of_nat m <= 65536 ->
  for_loopM m i (fun _ '(c, hp) => '(b, hp) ← hgetbit hp; Some (u16 (Z.lor (Z.shiftl c 1) b), hp)) (c, hat hp q) =
    Some (c * 2 ^ Z.of_nat m + val m l, hat hp (q + Z.of_nat m)) /\ stored hp (q + Z.of_nat m) (drop m l).
Proof.
  induction m as [|m IH]; intros q c l i Hwf Hst Hm Hc Hb; [cbn; rewrite Z.mul_1_r, !Z.add_0_r, drop_0; done|]. destruct l as [|b l]; [cbn in Hm; lia|].
  rewrite for_loopM_S. destruct (hgetbit_stored hp q b l Hwf Hst) as [-> Hst']. do 2 step. rewrite Z.shiftl_mul_pow2 by lia. change (2 ^ 1) with 2.
  rewrite lor_bit by (lia || dmlia). rewrite Nat2Z.inj_succ, Z.pow_succ_r in * by lia. pose proof (c_bool_range b). assert (0 < 2 ^ Z.of_nat m) by lia.
  rewrite (uwrap_small 16) by (change (2 ^ 16) with 65536; nia).
  destruct (IH (q + 1) (c * 2 + c_bool b) l (i + 1) Hwf Hst' ltac:(cbn in Hm; lia) ltac:(lia) ltac:(nia)) as [-> Hst2].
  replace (q + 1 + Z.of_nat m) with (q + Z.succ (Z.of_nat m)) in * by lia. split; [|done]. rewrite val_cons. do 2 f_equal. ring.
Qed.

(** ** The whole coder *)

(** The new seed has a bit for every symbol above the average; that of the end mark would be out of bounds. *)
Lemma new_seed_ok c : freqs_ok c -> last_freq c <= cumulativeProb c / 257 -> exists seed, new_seed c = Some seed /\ length seed = 32%nat.
Proof.
  intros [_ Eu Hr Hb] Hlast. unfold new_seed. rewrite Eu. change (257 =? 0) with false. cbv iota. pose proof Hr as (Hlen & _).
  pose proof (sums_range _ _ 257 Hr ltac:(lia)). assert (0 <= cumulativeProb c / 257 <= 16641) by dmlia. rewrite (swrap_small 32) by lia.
  match goal with |- context [for_loopM ?n 1 ?body ?s] => destruct (for_loopM_inv (fun _ t => bytes t /\ length t = 32%nat) n 1 body s) as (t & -> & Ht) end.
  - intros i t Hi [Hbt Ht]. change (Z.of_nat (Z.to_nat 257)) with 257 in Hi. rewrite (aget_znth _ i) by lia. step. rewrite (aget_znth _ (i - 1)) by lia. step.
    destruct (Z.ltb_spec (cumulativeProb c / 257) (znth (ranges c) i - znth (ranges c) (i - 1))) as [Hlt|]; [|by eexists].
    assert (i <> 257) by (intros ->; unfold last_freq in Hlast; change (257 - 1) with 256 in Hlt; lia).
    rewrite SETBIT_eq by (done || lia). eexists. split; [reflexivity|]. split; [apply bit_upd_bytes; [lia|done]|by rewrite bit_upd_length].
  - split; [apply bytes_replicate; lia|by rewrite length_replicate].
  - exists t. split; [done|apply Ht].
Qed.

Lemma init_ok seed : length seed = 32%nat -> 2 <= seed_total seed ->
  exists c, coding_ok c /\ last_freq c = 1 /\ pend c = O /\ cumulativeProb c = 257 + 256 * seed_total seed /\ init_ramcoder zero_coder None seed = Some (0, c, None) /\
    forall hp w, hwf hp -> stored hp 0 w -> (16 <= length w)%nat ->
      exists d, init_ramcoder zero_coder (Some (hat hp 0)) seed = Some (0, d, Some (hat hp 16)) /\ follows d c w /\ stored hp 16 (drop 16 (view 0 w)).
Proof.
  intros Hl Hs. destruct (init_coder_eq seed Hl) as (c & Hinit & Hf & El & Eu & Ek & Ec & Elast). exists c. split.
  { pose proof (freqs_bound _ Hf). constructor; try done; unfold width; lia. }
  assert (Hpend : pend c = O) by (unfold pend; by rewrite Ek). split; [done|]. split; [done|]. split; [done|]. split; [exact (Hinit None)|].
  intros hp w Hwf Hst Hlen. destruct (init_code hp 16 0 0 w 0 Hwf Hst Hlen ltac:(lia) ltac:(done)) as [Hcode Hst'].
  assert (Ev : view 0 w = w) by (by destruct w). rewrite (Hinit (Some (hat hp 0))). cbv iota. rewrite Hcode. step. eexists. split; [reflexivity|].
  change (0 + Z.of_nat 16) with 16 in Hst'. rewrite Z.mul_0_l, Z.add_0_l. split; [|by rewrite Ev]. destruct Hf as [F1 F2 _ _].
  unfold follows. rewrite Hpend, Ev. destruct c. done.
Qed.

(** What the encoder writes for a message. *)
Lemma encoder_eq msg seed hp N : at_most N (257 + 256 * seed_total seed + Z.of_nat (length msg) + 1) -> bytes msg -> length seed = 32%nat -> 2 <= seed_total seed -> hwf hp -> (length msg <= 4000)%nat ->
  room (hat hp 0) (N * length msg + 2 * N + 2) ->
  exists c ss bits n e b1 n1 e1 tail newseed,
    coding_ok c /\ pend c = O /\ init_ramcoder zero_coder None seed = Some (0, c, None) /\ message c msg bits n e /\ coding_ok e /\
    coded e 256 b1 n1 e1 /\ within (lower e1) (upper e1) (pend e1) tail /\ (16 + pend e <= length (b1 ++ tail))%nat /\
    (length (bits ++ b1 ++ tail) <= N * length msg + 2 * N + 2)%nat /\ length newseed = 32%nat /\
    ramcoder_encoder None 1 msg (Z.of_nat (length msg)) hp seed = Some (newseed, hputs (hat hp 0) (bits ++ b1 ++ tail), ss).
Proof.
  intros HN Hb Hl Hs Hwf Hmsg Hr. destruct (init_ok seed Hl Hs) as (c & Hok & Hlast & Hp & Hcum & Hinit & _).
  destruct (message_exists msg c Hb Hok) as (bits & n & e & Hm & Hlast_e). destruct (message_facts _ _ _ _ _ Hm Hb Hok) as (Hoke & Hn & Hlen & _).
  destruct (coded_exists e 256 Hoke ltac:(lia)) as (b1 & n1 & e1 & Hc1 & Hl1 & Hg1). pose proof (cd_ok _ _ _ _ _ Hc1) as Hok1.
  destruct (coded_exists e1 256 Hok1 ltac:(lia)) as (b2 & n2 & e2 & Hc2 & Hl2 & Hg2). pose proof (cd_ok _ _ _ _ _ Hc2) as Hok2. cbn in Hl1, Hl2.
  pose proof (last_shifts e b1 n1 e1 Hoke ltac:(lia) Hc1) as Hn1. pose proof (last_shifts e1 b2 n2 e2 Hok1 ltac:(lia) Hc2) as Hn2.
  pose proof (coded_pend _ _ _ _ _ Hc1) as Hp1. pose proof (coded_pend _ _ _ _ _ Hc2) as Hp2.
  set (M := 257 + 256 * seed_total seed + Z.of_nat (length msg) + 1) in *. assert (HM : cumulativeProb c + Z.of_nat (length msg) + 1 <= M) by (subst M; lia).
  clearbody M. destruct (message_count _ _ _ _ _ M N Hm Hb Hok HN ltac:(lia)) as [HnN Hcume]. pose proof (cd_cap _ _ _ _ _ Hc1) as Hcap.
  pose proof (coded_count e 256 b1 n1 e1 M N Hoke ltac:(lia) Hc1 ltac:(lia) HN) as Hle1.
  pose proof (coded_count e1 256 b2 n2 e2 M N Hok1 ltac:(lia) Hc2 ltac:(lia) HN) as Hle2.
  pose proof (cd_count _ _ _ _ _ Hc1) as Hle16.
  set (fl := out 1 (lower e2) (pend e2)). assert (Hfl : length fl = (pend e2 + 2)%nat) by (subst fl; unfold out; cbn [truth]; change (truth 1) with true; cbv iota; rewrite pending_length; lia).
  pose proof (narrow_range e1 256 Hok1 ltac:(lia)) as (N1 & N2 & N3). pose proof (co_lower _ Hok1). pose proof (co_upper _ Hok1).
  destruct (shifts_range _ _ _ _ _ _ _ _ (cd_shifts _ _ _ _ _ Hc2) ltac:(lia) ltac:(lia)) as (G1 & G2 & G3 & _).
  assert (Hwfl : within (lower e2) (upper e2) (pend e2) fl) by (by apply flush_within).
  assert (Hw1 : within (lower e1) (upper e1) (pend e1) (b2 ++ fl)) by (eapply coded_within; [exact Hok1| |exact Hc2|exact Hwfl]; lia).
  assert (Hrest : (length bits + (length b1 + (length b2 + length fl)) <= N * length msg + 2 * N + 2)%nat) by lia.
  assert (He : 0 <= 0 <= endpos hp) by (destruct Hwf as (_ & _ & _ & _ & ? & _); lia). pose proof (hat_wf hp 0 Hwf He) as Hwf0.
  assert (R : forall l m, (length l + m <= N * length msg + 2 * N + 2)%nat -> hwf (hputs (hat hp 0) l) /\ room (hputs (hat hp 0) l) m).
  { intros l m Hm'. apply hputs_room; [done|]. eapply room_le; [exact Hm'|done]. }
  destruct (R bits (length b1 + (length b2 + length fl))%nat ltac:(lia)) as [W1 R1].
  destruct (R (bits ++ b1) (length b2 + length fl)%nat ltac:(rewrite length_app; lia)) as [W2 R2].
  destruct (new_seed_ok (e2.[underflowBits <- 0])) as (ns & Hns & Hlns).
  { destruct (co_freqs _ Hok2). by constructor. }
  { change (last_freq _) with (last_freq e2). change (cumulativeProb _) with (cumulativeProb e2).
    transitivity 3; [lia|]. pose proof (co_cum _ Hoke). apply Z.div_le_lower_bound; lia. }
  exists c, (e2.[underflowBits <- 0]), bits, n, e, b1, n1, e1, (b2 ++ fl), ns. rewrite !length_app. split_and!; try done; try lia.
  unfold ramcoder_encoder, encode_message, hrewind. rewrite (hseek_set hp 0 Hwf He). cbv iota. rewrite Hinit. step. unfold ramcoder_emit. rewrite Nat2Z.id.
  pose proof (emit_message _ _ _ _ _ Hm [] (hat hp 0) 0 Hb Hok Hwf0 ltac:(lia) ltac:(eapply room_le; [|exact Hr]; lia)) as Hemit.
  cbn [app length] in Hemit. change (Z.of_nat 0) with 0 in Hemit. rewrite Hemit. step. destruct (co_freqs _ Hoke) as [-> _ _ _].
  rewrite (emit_step e 256 b1 n1 e1) by (done || lia || (eapply room_le; [|exact R1]; lia)). step. destruct (co_freqs _ Hok1) as [-> _ _ _].
  rewrite <- hputs_app. rewrite (encode_step e1 256 b2 n2 e2 Hok1 ltac:(lia) Hc2 1); [|exact W2|pose proof (co_under _ Hok1); unfold pend in *; lia|exact R2|by right].
  step. change (truth 1) with true. cbv iota. step. rewrite Hns. step. fold fl. by rewrite <- hputs_app, <- !app_assoc.
Qed.

(** With a bound of [N] shifts for a symbol. *)
Lemma roundtrip_rate N msg seed hp : at_most N (257 + 256 * seed_total seed + Z.of_nat (length msg) + 1) ->
  bytes msg -> length seed = 32%nat -> 2 <= seed_total seed -> hwf hp -> room (hat hp 0) (N * length msg + 2 * N + 2) -> (length msg <= 4000)%nat ->
  exists newseed bits coder,
    ramcoder_encoder None 1 msg (Z.of_nat (length msg)) hp seed = Some (newseed, hputs (hat hp 0) bits, coder) /\
    length newseed = 32%nat /\ (length bits <= N * length msg + 2 * N + 2)%nat /\ hwf (hputs (hat hp 0) bits) /\ stored (hputs (hat hp 0) bits) 0 bits /\
    forall dest maxlen hp2, Z.of_nat (length msg) <= maxlen <= Z.of_nat (length dest) -> hwf hp2 -> stored hp2 0 bits -> exists hp3,
      ramcoder_decoder None 1 dest maxlen hp2 seed = Some (Z.of_nat (length msg), msg ++ drop (length msg) dest, hp3).
Proof.
  intros HN Hb Hl Hs Hwf Hr Hmsg.
  destruct (encoder_eq msg seed hp N HN Hb Hl Hs Hwf Hmsg Hr) as (c & ss & bits & n & e & b1 & n1 & e1 & tail & ns & Hok & Hp & Hinit & Hm & Hoke & Hc1 & Hw & Hlen & Htot & Hns & Henc).
  exists ns, (bits ++ b1 ++ tail), ss. assert (He : 0 <= 0 <= endpos hp) by (destruct Hwf as (_ & _ & _ & _ & ? & _); lia). pose proof (hat_wf hp 0 Hwf He) as Hwf0.
  assert (Hroom : room (hat hp 0) (length (bits ++ b1 ++ tail))) by (eapply room_le; [exact Htot|exact Hr]).
  split_and!; [done|done|done|by apply hputs_wf|apply (stored_hputs (hat hp 0) _ Hwf0 Hroom)|].
  intros dest maxlen hp2 Hmax Hwf2 Hst. destruct (init_ok seed Hl Hs) as (c' & _ & _ & _ & _ & Hinit' & Hdec). assert (c' = c) as -> by congruence.
  destruct (message_facts _ _ _ _ _ Hm Hb Hok) as (_ & _ & Hp1 & _). rewrite length_app in Hlen.
  destruct (Hdec hp2 (bits ++ b1 ++ tail) Hwf2 Hst) as (d & Hinit2 & Hf & Hst2); [rewrite !length_app; lia|].
  assert (He2 : 0 <= 0 <= endpos hp2) by (destruct Hwf2 as (_ & _ & _ & _ & ? & _); lia).
  unfold ramcoder_decoder, hrewind. rewrite (hseek_set hp2 0 Hwf2 He2). cbv iota. rewrite Hinit2. do 3 step.
  destruct (decoder_loop_eq e e1 b1 n1 tail Hoke Hc1 Hw ltac:(rewrite length_app; lia) c msg bits n Hm (S (Z.to_nat maxlen)) d 16 hp2 [] dest maxlen Hb Hok Hwf2 Hf)
    as (hp3 & d' & Hrun); [by rewrite Hp|cbn; lia|lia|].
  cbn [app length] in Hrun. change (Z.of_nat 0) with 0 in Hrun. rewrite Hrun. step. by exists hp3.
Qed.

(** [C7] A message of at most 4000 bytes that [ramcoder_encoder] codes with a seed of at least
    two of the first 64 symbols is what [ramcoder_decoder] gets, with the same seed, from any
    stream that starts with the bits written, at most 16 for a byte and 34 more; the rest of
    the destination is not touched, and the encoder gives a new seed of 32 bytes. *)
Theorem ramcoder_roundtrip msg seed hp dest maxlen :
  bytes msg -> length seed = 32%nat -> 2 <= seed_total seed -> hwf hp -> room (hat hp 0) (16 * length msg + 34) ->
  (length msg <= 4000)%nat -> Z.of_nat (length msg) <= maxlen <= Z.of_nat (length dest) ->
  exists newseed bits coder,
    ramcoder_encoder None 1 msg (Z.of_nat (length msg)) hp seed = Some (newseed, hputs (hat hp 0) bits, coder) /\
    length newseed = 32%nat /\ (length bits <= 16 * length msg + 34)%nat /\ hwf (hputs (hat hp 0) bits) /\ stored (hputs (hat hp 0) bits) 0 bits /\
    forall hp2, hwf hp2 -> stored hp2 0 bits -> exists hp3,
      ramcoder_decoder None 1 dest maxlen hp2 seed = Some (Z.of_nat (length msg), msg ++ drop (length msg) dest, hp3).
Proof.
  intros Hb Hl Hs Hwf Hr Hmsg Hmax. destruct (roundtrip_rate 16 msg seed hp) as (ns & bits & c & Henc & Hns & Hlen & Hwf' & Hst & Hdec); try done; [by left|eapply room_le; [|exact Hr]; lia|].
  exists ns, bits, c. split_and!; try done; [lia|]. intros hp2 Hwf2 Hst2. by apply Hdec.
Qed.

Definition demo_seed : list Z := [0; 0; 3] ++ replicate 29 0.
Definition demo_msg : list Z := [104; 105; 104].
Definition demo_stream : HUFF := mkHUFF (replicate 40 0) 0 0 0 0 40 1.

Lemma ramcoder_roundtrip_witness : bytes demo_msg /\ length demo_seed = 32%nat /\ 2 <= seed_total demo_seed /\
  exists newseed bits coder hp3,
    ramcoder_encoder None 1 demo_msg 3 demo_stream demo_seed = Some (newseed, hputs (hat demo_stream 0) bits, coder) /\
    ramcoder_decoder None 1 (replicate 5 7) 5 (hputs (hat demo_stream 0) bits) demo_seed = Some (3, [104; 105; 104; 7; 7], hp3).
Proof.
  assert (Hb : bytes demo_msg) by (repeat constructor; lia). assert (Hs : 2 <= seed_total demo_seed) by (vm_compute; discriminate).
  split; [exact Hb|]. split; [reflexivity|]. split; [exact Hs|].
  destruct (ramcoder_roundtrip demo_msg demo_seed demo_stream (replicate 5 7) 5 Hb eq_refl Hs) as (ns & bits & c & Henc & _ & _ & Hwf & Hst & Hdec).
  - unfold hwf, demo_stream. split_and!; try done. apply bytes_replicate. lia.
  - unfold room. cbn. lia.
  - cbn. lia.
  - cbn. lia.
  - destruct (Hdec _ Hwf Hst) as (hp3 & Hrun). exists ns, bits, c, hp3. split; [exact Henc|exact Hrun].
Defined.

(** With no symbol favoured the end mark is above the average after a short message, and the bit for it is behind the 32 bytes. *)
Lemma zero_seed_overruns : ramcoder_encoder None 1 demo_msg 3 demo_stream (replicate 32 0) = None.
Proof. vm_compute. reflexivity. Qed.
