(* ===== verification/Message.v ===== *)
(** * hostnet777.c: a message before it is encrypted and after it was decrypted

    [hostnet777_sendmsg] codes the text of a message with the range coder before it is
    encrypted and signed, [hostnet777_decrypt] decodes what it decrypted.  The two halves are
    modelled between the caller's buffer and the bytes that are encrypted. *)
From Stdlib Require Import ZArith Lia.
From stdpp Require Import base list numbers option.
From S2P Require Import Prelude Bits HuffStream Ramcoder RamcoderCode.
Open Scope Z_scope.

(** hostnet777.c:516-523 [hostnet777_sendmsg] The symbols of hexadecimal texts. *)
Definition message_seed : option (list Z) :=
  seed ← for_loopM 10 48 (fun i seed => SETBIT seed i) (replicate 32 0);
  for_loopM 6 97 (fun i seed => SETBIT seed i) seed.

(** hostnet777.c:514-526 [hostnet777_sendmsg] The bytes to encrypt and how many; [H] is the uninitialised struct. *)
Definition pack_message (H : HUFF) (msg : list Z) (len : Z) : option (list Z * Z) :=
  let data := replicate (Z.to_nat (len * 2)) 0 in
  let hp := _init_HUFF H (len * 2) data in
  seed ← message_seed;
  '(_, hp, _) ← ramcoder_encoder None 1 msg len hp seed;
  Some (buf hp, hconv_bitlen (bitoffset hp)).

(** hostnet777.c:383-392 [hostnet777_decrypt] The [len] decrypted bytes are decoded into [dest]. *)
Definition unpack_message (H : HUFF) (buf : list Z) (len : Z) (dest : list Z) (maxlen : Z) : option (Z * list Z) :=
  seed ← message_seed;
  let hp := _init_HUFF H len buf in
  let hp := mkHUFF (HuffStream.buf hp) (ptr hp) (bitoffset hp) (maski hp) (u32 (Z.shiftl len 3)) (allocsize hp) (allocated hp) in
  '(newlen, dest, _) ← ramcoder_decoder None 1 dest maxlen hp seed;
  Some (newlen, dest).

(** ** The coder looks at the stream only after rewinding it *)

Lemma encoder_rewind msg len hp hp2 seed : hrewind hp = hrewind hp2 -> ramcoder_encoder None 1 msg len hp seed = ramcoder_encoder None 1 msg len hp2 seed.
Proof. intros E. unfold ramcoder_encoder, encode_message. by rewrite E. Qed.

Lemma decoder_rewind dest maxlen hp hp2 seed : hrewind hp = hrewind hp2 -> ramcoder_decoder None 1 dest maxlen hp seed = ramcoder_decoder None 1 dest maxlen hp2 seed.
Proof. intros E. unfold ramcoder_decoder. by rewrite E. Qed.

Lemma hrewind_any data m e a : 0 <= e -> hrewind (mkHUFF data 0 0 m e (Z.of_nat (length data)) a) = hrewind (over data e a).
Proof. done. Qed.

Lemma message_seed_eq : exists seed, message_seed = Some seed /\ length seed = 32%nat /\ seed_total seed = 10.
Proof. eexists. split; [vm_compute; reflexivity|]. split; [reflexivity|vm_compute; reflexivity]. Qed.

(** How many shifts a symbol of a message takes at most. *)
Lemma message_rate len : 10 <= len <= 4000 -> exists N, at_most N (257 + 256 * 10 + len + 1) /\ Z.of_nat N * len + 2 * Z.of_nat N + 2 < 16 * len /\ (N <= 16)%nat.
Proof.
  intros H. destruct (Z.le_gt_cases len 400).
  - exists 13%nat. split; [|lia]. right. exists 5. change (2 ^ Z.of_nat 14) with 16384. lia.
  - exists 15%nat. split; [|lia]. right. exists 2. change (2 ^ Z.of_nat 16) with 65536. lia.
Qed.

(** ** The encoder does not look at the end of the stream

    The stream of a message is on the stack and [_init_HUFF] leaves its [endpos] as it was:
    only what reads bits looks at it. *)

Definition with_end (e : Z) (hp : HUFF) : HUFF :=
  mkHUFF (buf hp) (ptr hp) (bitoffset hp) (maski hp) e (allocsize hp) (allocated hp).

(** Equal streams, whatever their ends are. *)
Definition same_stream (hp hp2 : HUFF) : Prop := with_end 0 hp = with_end 0 hp2.

Ltac stream_case := match goal with H : (?x ≫= _) = Some _ |- _ => destruct x eqn:?; [rewrite bind_Some in H; try rewrite bind_Some; cbn beta iota in H |- *|discriminate H] end.

Lemma hputbit_same hp hp2 bit r hp' : same_stream hp hp2 -> hputbit hp bit = Some (r, hp') ->
  exists hp2', hputbit hp2 bit = Some (r, hp2') /\ same_stream hp' hp2'.
Proof.
  intros Hs. destruct hp as [b p o m e a al], hp2 as [b2 p2 o2 m2 e2 a2 al2]. injection Hs as <- <- <- <- <- <-. unfold hputbit. cbn [buf ptr bitoffset maski endpos allocsize allocated].
  intros H. do 3 stream_case. destruct (8 <=? u32 (m + 1)); destruct (a <=? _).
  all: try (injection H as <- <-; eexists; split; [reflexivity|done]).
  all: unfold hupdate_internals in *; cbn [buf ptr bitoffset maski endpos allocsize allocated] in *; destruct (a <? _); injection H as <- <-; eexists; (split; [reflexivity|done]).
Qed.

Lemma for_loopM_sim {S} (R : S -> S -> Prop) n i body (s s2 out : S) :
  (forall j t t2 t', R t t2 -> body j t = Some t' -> exists t2', body j t2 = Some t2' /\ R t' t2') ->
  R s s2 -> for_loopM n i body s = Some out -> exists out2, for_loopM n i body s2 = Some out2 /\ R out out2.
Proof.
  intros Hb. revert i s s2. induction n as [|n IH]; intros i s s2 HR H; [injection H as <-; by exists s2|].
  rewrite for_loopM_S in *. destruct (body i s) as [s'|] eqn:E; [|done]. destruct (Hb _ _ _ _ HR E) as (s2' & -> & HR'). rewrite bind_Some in *. by apply (IH (i + 1) s').
Qed.

Lemma put_repeat_same n hp hp2 bit hp' : same_stream hp hp2 -> put_repeat n hp bit = Some hp' -> exists hp2', put_repeat n hp2 bit = Some hp2' /\ same_stream hp' hp2'.
Proof.
  intros Hs. unfold put_repeat. apply for_loopM_sim; [|exact Hs]. intros j t t2 t' Ht H. cbn beta in H |- *. stream_case. destruct p as [r t1]. injection H as <-.
  destruct (hputbit_same _ _ _ _ _ Ht Heqo) as (t2' & -> & Hs'). step. by exists t2'.
Qed.

(** The answers of the coder: a number, the stream and the coder. *)
Definition same_answer (x x2 : Z * HUFF * ramcoder) : Prop := x.1.1 = x2.1.1 /\ same_stream x.1.2 x2.1.2 /\ x.2 = x2.2.

Lemma putbits_same fuel : forall hp hp2 c flag n x, same_stream hp hp2 -> putbits_loop fuel hp c flag n = Some x ->
  exists x2, putbits_loop fuel hp2 c flag n = Some x2 /\ same_answer x x2.
Proof.
  induction fuel as [|fuel IH]; intros hp hp2 c flag n x Hs H; [done|]. cbn [putbits_loop] in *.
  destruct (_ =? 1); [exact (IH hp hp2 _ _ _ x Hs H)|]. destruct (_ =? 0).
  - stream_case. destruct p as [r hp1]. destruct (hputbit_same _ _ _ _ _ Hs Heqo) as (hp1' & -> & Hs1). step. stream_case.
    destruct (put_repeat_same _ _ _ _ _ Hs1 Heqo0) as (hp1'' & -> & Hs2). step. by apply (IH h).
  - destruct (truth flag).
    + stream_case. destruct p as [r hp1]. destruct (hputbit_same _ _ _ _ _ Hs Heqo) as (hp1' & -> & Hs1). step. stream_case.
      destruct (put_repeat_same _ _ _ _ _ Hs1 Heqo0) as (hp1'' & -> & Hs2). step. injection H as <-. by eexists.
    + injection H as <-. by eexists.
Qed.

(** What a symbol does to the coder does not depend on the stream. *)
Lemma update_split symbol c u flags : truth flags = true -> exists prepared : option ramcoder,
  forall hp, ramcoder_update symbol c u flags hp = c' ← prepared; putbits_loop SHIFTS hp c' (Z.land flags RAMCODER_FINALIZE) 0.
Proof.
  intros Hf. unfold ramcoder_update, ramcoder_putbits. rewrite Hf. generalize SHIFTS. intros fuel. cbv zeta.
  destruct (aget (ranges c) (symbol + 1)) as [hi|]; [|exists None; intros hp; reflexivity]. destruct (aget (ranges c) symbol) as [lo|]; [|exists None; intros hp; reflexivity].
  destruct (cumulativeProb c =? 0); [exists None; intros hp; reflexivity|].
  eexists. intros hp. do 2 (rewrite bind_Some; cbn beta). reflexivity.
Qed.

Lemma update_same symbol c u flags hp hp2 x : truth flags = true -> same_stream hp hp2 -> ramcoder_update symbol c u flags hp = Some x ->
  exists x2, ramcoder_update symbol c u flags hp2 = Some x2 /\ same_answer x x2.
Proof.
  intros Hf Hs H. destruct (update_split symbol c u flags Hf) as [[c'|] E]; rewrite E in *; [|discriminate H]. rewrite bind_Some in *. exact (putbits_same _ hp hp2 _ _ _ x Hs H).
Qed.

Lemma encode_message_same u msg len hp hp2 seed hp' c : same_stream hp hp2 -> encode_message u msg len hp seed = Some (hp', c) ->
  exists hp2', encode_message u msg len hp2 seed = Some (hp2', c) /\ same_stream hp' hp2'.
Proof.
  intros Hs H. unfold encode_message in *.
  assert (Hr : same_stream (hrewind hp).2 (hrewind hp2).2).
  { destruct hp as [b p o m e a al], hp2 as [b2 p2 o2 m2 e2 a2 al2]. injection Hs as <- <- <- <- <- <-. unfold hrewind, hseek, hupdate_internals.
    cbn [buf ptr bitoffset maski endpos allocsize allocated]. destruct (a <? _); done. }
  destruct (hrewind hp) as [r1 h1], (hrewind hp2) as [r2 h2]. cbn [snd] in Hr. stream_case. destruct p as [[? coder] ?]. stream_case. destruct p as [[n3 h3] c3].
  assert (He : exists x2, ramcoder_emit h2 coder u msg len = Some x2 /\ same_answer (n3, h3, c3) x2).
  { unfold ramcoder_emit in *. eapply for_loopM_sim; [|by instantiate (1 := (0, h1, coder))|exact Heqo0].
    intros j [[n4 h4] c4] [[n5 h5] c5] t' (Hn & Hh & Hc) Ht. cbn in Hn, Hh, Hc. subst n5 c5. cbn beta iota in Ht |- *. stream_case. stream_case. destruct p as [[n6 h6] c6].
    destruct (update_same _ _ u _ _ h5 _ (eq_refl : truth RAMCODER_PUTBITS = true) Hh Heqo2) as ([[n7 h7] c7] & -> & Hn & Hh7 & Hc). cbn in Hn, Hh7, Hc. subst n7 c7. step. injection Ht as <-. by eexists. }
  destruct He as ([[n4 h4] c4] & -> & Hn & Hh & Hc). cbn in Hn, Hh, Hc. subst n4 c4. step. stream_case. destruct p as [[n5 h5] c5].
  destruct (update_same _ _ u _ _ h4 _ (eq_refl : truth RAMCODER_PUTBITS = true) Hh Heqo1) as ([[n6 h6] c6] & -> & Hn & Hh6 & Hc). cbn in Hn, Hh6, Hc. subst n6 c6. step. stream_case. destruct p as [[n7 h7] c7].
  destruct (update_same _ _ u _ _ h6 _ (eq_refl : truth (Z.lor RAMCODER_PUTBITS RAMCODER_FINALIZE) = true) Hh6 Heqo2) as ([[n8 h8] c8] & -> & Hn & Hh8 & Hc). cbn in Hn, Hh8, Hc. subst n8 c8. step. injection H as <- <-. by eexists.
Qed.

Lemma pack_message_end H msg len : pack_message H msg len = pack_message (with_end 0 H) msg len.
Proof.
  destruct H as [b0 p0 o0 m0 e a0 al0]. set (H := mkHUFF b0 p0 o0 m0 0 a0 al0). change (mkHUFF b0 p0 o0 m0 e a0 al0) with (with_end e H). change (with_end 0 (with_end e H)) with (with_end 0 H). clearbody H.
  assert (G : forall a b x, pack_message (with_end a H) msg len = Some x -> pack_message (with_end b H) msg len = Some x).
  { intros a b x Hx. unfold pack_message in *. destruct message_seed as [seed|]; [|done]. rewrite bind_Some in *. unfold ramcoder_encoder in *.
    destruct (encode_message 1 msg len (_init_HUFF (with_end a H) (len * 2) (replicate (Z.to_nat (len * 2)) 0)) seed) as [[hp c]|] eqn:E; [|done]. rewrite bind_Some in Hx.
    destruct (encode_message_same 1 msg len (_init_HUFF (with_end a H) (len * 2) (replicate (Z.to_nat (len * 2)) 0)) (_init_HUFF (with_end b H) (len * 2) (replicate (Z.to_nat (len * 2)) 0)) seed hp c eq_refl E) as (hp2 & -> & Hs). step.
    destruct (new_seed c); [|done]. rewrite bind_Some in *. injection Hs as E1 _ E3 _ _ _. injection Hx as <-. by rewrite E1, E3. }
  destruct (pack_message (with_end e H) msg len) eqn:E1; [by apply (G e 0) in E1|]. destruct (pack_message (with_end 0 H) msg len) eqn:E2; [|done]. apply (G 0 e) in E2. congruence.
Qed.

(** [C9] The bytes that [hostnet777_sendmsg] encrypts for a message of 10 to 4000 bytes are
    decoded by [hostnet777_decrypt] to that message, given a destination and a limit that hold it, whatever was on the stack where the two
    functions keep their streams; twice the length of the message is enough for the coded
    bytes, and the rest of the destination is not touched. *)
Theorem sendmsg_decrypt_roundtrip H msg dest maxlen :
  bytes msg -> 10 <= Z.of_nat (length msg) <= 4000 ->
  Z.of_nat (length msg) <= maxlen <= Z.of_nat (length dest) ->
  exists data datalen, pack_message H msg (Z.of_nat (length msg)) = Some (data, datalen) /\ 0 <= datalen <= Z.of_nat (length data) /\
    length data = (2 * length msg)%nat /\
    forall H2, unpack_message H2 (take (Z.to_nat datalen) data) datalen dest maxlen =
      Some (Z.of_nat (length msg), msg ++ drop (length msg) dest).
Proof.
  intros Hb Hlen Hmax. rewrite pack_message_end. set (H0 := with_end 0 H). assert (He : 0 <= endpos H0 <= 16 * Z.of_nat (length msg)) by (cbn; lia). clearbody H0. clear H. rename H0 into H.
  destruct message_seed_eq as (seed & Hseed & Hsl & Hst). destruct (message_rate _ Hlen) as (N & HN & Hroom & HN16).
  set (len := Z.of_nat (length msg)) in *. set (data0 := replicate (Z.to_nat (len * 2)) 0). assert (Hd0 : length data0 = (2 * length msg)%nat) by (subst data0 len; rewrite length_replicate; lia).
  set (hp := over data0 (endpos H) (allocated H)).
  assert (Hwf : hwf hp) by (apply over_wf; [apply bytes_replicate; lia|rewrite Hd0; lia|rewrite Hd0; lia]).
  destruct (roundtrip_rate N msg seed hp) as (ns & bits & c & Henc & _ & Hbl & Hwf' & Hst' & Hdec); try done; [by rewrite Hst|lia| |lia|].
  { unfold room. cbn. rewrite Hd0. lia. }
  assert (Hr : room (hat hp 0) (length bits)) by (unfold room; cbn; rewrite Hd0; lia).
  destruct (hputs_spec (hat hp 0) bits) as (_ & Hbo & Hal & _); [apply hat_wf; [done|cbn; lia]|done|]. set (hp1 := hputs (hat hp 0) bits) in *.
  cbn in Hbo, Hal. pose proof Hwf' as (_ & _ & Hbytes & Hbl1 & _).
  exists (buf hp1), (hconv_bitlen (Z.of_nat (length bits))). rewrite hconv_bitlen_eq by lia. split; [|split; [dmlia|split; [lia|]]].
  - unfold pack_message. rewrite Hseed. step. fold data0. unfold _init_HUFF. rewrite (uwrap_small 31) by lia.
    rewrite (encoder_rewind _ _ _ hp); [|unfold hp; rewrite <- (hrewind_any data0 (maski H)) by lia; rewrite Hd0; do 2 f_equal; lia].
    fold len in Henc. rewrite Henc. step. fold hp1. by rewrite Hbo, hconv_bitlen_eq by lia.
  - intros H2. set (n := Z.to_nat ((Z.of_nat (length bits) + 7) / 8)). assert (Hn : Z.of_nat n = (Z.of_nat (length bits) + 7) / 8) by (subst n; dmlia).
    assert (Hnl : (n <= length (buf hp1))%nat) by dmlia.
    unfold unpack_message. rewrite Hseed. step. unfold _init_HUFF. cbn [HuffStream.buf ptr bitoffset maski allocsize allocated].
    rewrite <- Hn, (uwrap_small 31), (uwrap_small 32) by (rewrite ?Z.shiftl_mul_pow2; dmlia).
    rewrite (decoder_rewind _ _ _ (over (take n (buf hp1)) (8 * Z.of_nat n) (allocated H2))).
    + destruct (Hdec dest maxlen (over (take n (buf hp1)) (8 * Z.of_nat n) (allocated H2)) Hmax) as (hp3 & ->); [|apply stored_take; [done|dmlia|done]|].
      * apply over_wf; [by apply Forall_take|rewrite length_take; dmlia|rewrite length_take; dmlia].
      * step. done.
    + rewrite <- (hrewind_any _ (maski H2)) by lia. do 2 f_equal; [rewrite Z.shiftl_mul_pow2 by lia; lia|rewrite length_take; lia].
Qed.

Definition demo_text : list Z := [48; 49; 97; 98; 99; 100; 48; 57; 55; 102; 123; 0].
Definition demo_H : HUFF := mkHUFF [] 5 77 3 4000000000 9 1.

Lemma sendmsg_decrypt_roundtrip_witness : bytes demo_text /\ 10 <= Z.of_nat (length demo_text) <= 4000 /\
  exists data datalen, pack_message demo_H demo_text 12 = Some (data, datalen) /\
    unpack_message demo_H (take (Z.to_nat datalen) data) datalen (replicate 14 7) 14 = Some (12, demo_text ++ [7; 7]).
Proof.
  assert (Hb : bytes demo_text) by (repeat constructor; lia). split; [exact Hb|]. split; [cbn; lia|].
  destruct (sendmsg_decrypt_roundtrip demo_H demo_text (replicate 14 7) 14 Hb) as (data & datalen & Hp & _ & _ & Hu); [cbn; lia..|].
  exists data, datalen. split; [exact Hp|exact (Hu demo_H)].
Defined.

(** The coded bytes of a message of one byte do not fit in two, and something else comes out. *)
Lemma short_message_differs :
  ('(data, datalen) ← pack_message demo_H [200] 1; unpack_message demo_H (take (Z.to_nat datalen) data) datalen (replicate 14 7) 14) <> Some (1, 200 :: replicate 13 7).
Proof. vm_compute. discriminate. Qed.

(** The letters of [message_seed] do nothing: only the first 64 symbols are looked at. *)
Lemma letters_not_favoured : option_map (fun seed => (bit seed 97, seed_weight seed 98)) message_seed = Some (true, Some 0).
Proof. vm_compute. reflexivity. Qed.
