(* ===== verification/Pangea.v ===== *)
(** * hostnet777.c, pangea777.c: the state of a poker table and its seating

    Records for the structs that a node shares between the handlers of the game, with the
    fields the game logic reads or writes; a field whose name two structs share carries a
    prefix ([dp_], [h_], [sp_]), and the byte-sized counters [N] and [M] of the deck are
    [dN] and [dM].  A [bits256] is the list of its 32 bytes.

    A node's state [node] is the table [sp], the public data [dp] (which contains the hand),
    the private data [priv] and the commands sent so far.  [dp->table] is [sp] and
    [sp->dp] is [dp] in the same node.  Operations return [None] on an array access out of
    bounds.  Printing is not modelled. *)
From Stdlib Require Import ZArith Lia String.
From stdpp Require Import base list numbers option.
From S2P Require Import Prelude Bits.
Open Scope Z_scope.

Abbreviation bits256 := (list Z) (only parsing).
Definition zero256 : bits256 := replicate 32 0.

(** The [txid] member of the union: the first eight bytes as a number. *)
Definition txid (b : bits256) : Z := le_val (take 8 b).

(** hostnet777.c:29-30 [CARDS777_MAXCARDS] *)
Definition CARDS777_MAXPLAYERS : Z := 9.
(** hostnet777.c:31-31 [CARDS777_FOLD] *)
Definition CARDS777_FOLD : Z := -1.
(** hostnet777.c:32-32 [CARDS777_START] *)
Definition CARDS777_START : Z := 1.
(** hostnet777.c:33-33 [CARDS777_ANTE] *)
Definition CARDS777_ANTE : Z := 2.
(** hostnet777.c:34-34 [CARDS777_SMALLBLIND] *)
Definition CARDS777_SMALLBLIND : Z := 3.
(** hostnet777.c:35-35 [CARDS777_BIGBLIND] *)
Definition CARDS777_BIGBLIND : Z := 4.
(** hostnet777.c:36-36 [CARDS777_CHECK] *)
Definition CARDS777_CHECK : Z := 5.
(** hostnet777.c:37-37 [CARDS777_CALL] *)
Definition CARDS777_CALL : Z := 6.
(** hostnet777.c:38-38 [CARDS777_BET] *)
Definition CARDS777_BET : Z := 7.
(** hostnet777.c:39-39 [CARDS777_RAISE] *)
Definition CARDS777_RAISE : Z := 8.
(** hostnet777.c:40-40 [CARDS777_FULLRAISE] *)
Definition CARDS777_FULLRAISE : Z := 9.
(** hostnet777.c:41-41 [CARDS777_SENTCARDS] *)
Definition CARDS777_SENTCARDS : Z := 10.
(** hostnet777.c:42-42 [CARDS777_ALLIN] *)
Definition CARDS777_ALLIN : Z := 11.
(** hostnet777.c:43-43 [CARDS777_FACEUP] *)
Definition CARDS777_FACEUP : Z := 12.
(** hostnet777.c:44-44 [CARDS777_WINNINGS] *)
Definition CARDS777_WINNINGS : Z := 13.
(** hostnet777.c:45-45 [CARDS777_RAKES] *)
Definition CARDS777_RAKES : Z := 14.
(** hostnet777.c:46-46 [CARDS777_CHANGES] *)
Definition CARDS777_CHANGES : Z := 15.
(** hostnet777.c:47-47 [CARDS777_SNAPSHOT] *)
Definition CARDS777_SNAPSHOT : Z := 16.

(** hostnet777.c:49-57 [struct cards777_handinfo] *)
Record handinfo := mkHand {
  checkprod : bits256; cardpubs : list bits256; final : list bits256;
  community256 : list bits256; cards : list (list bits256); othercardpubs : list Z;
  havemasks : list Z; betsize : Z; h_hostrake : Z; h_pangearake : Z; lastraise : Z;
  bets : list Z; h_snapshot : list Z; won : list Z;
  starttime : Z; handmask : Z; lastbettor : Z; startdecktime : Z; betstarted : Z;
  finished : Z; encodestarted : Z;
  cardi : Z; userinput_starttime : Z; handranks : list Z;
  betstatus : list Z; actions : list Z; turnis : list Z;
  numactions : Z; undergun : Z; community : list Z; sharenrs : list (list Z);
  hands : list (list Z) }.

#[export] Instance eta_hand : Eta handinfo := fun r =>
  mkHand (checkprod r) (cardpubs r) (final r) (community256 r) (cards r) (othercardpubs r)
    (havemasks r) (betsize r) (h_hostrake r) (h_pangearake r) (lastraise r)
    (bets r) (h_snapshot r) (won r) (starttime r) (handmask r) (lastbettor r)
    (startdecktime r) (betstarted r) (finished r) (encodestarted r)
    (cardi r) (userinput_starttime r) (handranks r) (betstatus r) (actions r) (turnis r)
    (numactions r) (undergun r) (community r) (sharenrs r) (hands r).

(** hostnet777.c:61-68 [struct cards777_pubdata]: [summary] holds the [summarysize] bytes
    written so far, and of [newhand], a text, only the first byte matters. *)
Record pubdata := mkPub {
  dp_snapshot : list Z;
  maxrake : Z; dp_hostrake : Z; bigblind : Z; ante : Z; dp_pangearake : Z; summaries : Z;
  mismatches : Z; button : Z; readymask : Z; numhands : Z; rakemillis : Z; minbuyin : Z;
  maxbuyin : Z; hand : handinfo; newhand : list Z; coinstr : string;
  dM : Z; dN : Z; numcards : Z; summary : list Z }.

#[export] Instance eta_pub : Eta pubdata := fun r =>
  mkPub (dp_snapshot r) (maxrake r) (dp_hostrake r) (bigblind r) (ante r) (dp_pangearake r)
    (summaries r) (mismatches r) (button r) (readymask r) (numhands r) (rakemillis r)
    (minbuyin r) (maxbuyin r) (hand r) (newhand r) (coinstr r) (dM r) (dN r) (numcards r)
    (summary r).

(** hostnet777.c:70-75 [struct cards777_privdata] *)
Record privdata := mkPriv {
  holecards : list bits256; audits : list bits256; outcards : list bits256;
  xoverz : list bits256; hole : list Z; cardis : list Z; autoshow : Z; autofold : Z }.

#[export] Instance eta_priv : Eta privdata := fun r =>
  mkPriv (holecards r) (audits r) (outcards r) (xoverz r) (hole r) (cardis r) (autoshow r)
    (autofold r).

(** pangea777.c:44-54 [struct pangea_info] *)
Record pangea_info := mkInfo {
  numaddrs : Z; balances : list Z; isbot : list Z; playerpubs : list bits256;
  addrs : list Z; active : list Z; tableid : Z; multisigaddr : list Z;
  myslot : Z; myind : Z; numactive : Z; buyinvouts : list Z; buyinamounts : list Z;
  buyintxids : list (list Z) }.

#[export] Instance eta_info : Eta pangea_info := fun r =>
  mkInfo (numaddrs r) (balances r) (isbot r) (playerpubs r) (addrs r) (active r) (tableid r)
    (multisigaddr r) (myslot r) (myind r) (numactive r) (buyinvouts r) (buyinamounts r)
    (buyintxids r).

(** A command of [pangea_sendcmd]: name, destination public key or broadcast, payload and
    the two numbers that go with it; an effect on the server's client table; or the
    announcement of a new hand, with the order of the players and the public keys. *)
Inductive event :=
  | Sendcmd (cmdstr : string) (dest : option bits256) (data : list Z) (cardi turni : Z)
  | Replace (clientpub : bits256) (slot : Z)
  | Newtable (clientpub : bits256)
  | Newhand (active : list Z) (data : list Z).

Record node := mkNode { sp : pangea_info; dp : pubdata; priv : privdata; out : list event }.

#[export] Instance eta_node : Eta node := fun r => mkNode (sp r) (dp r) (priv r) (out r).

(** Update of the hand inside a node. *)
Definition on_hand (f : handinfo -> handinfo) (nd : node) : node := upd (f := dp) (upd (f := hand) f) nd.
Definition on_dp (f : pubdata -> pubdata) (nd : node) : node := upd (f := dp) f nd.
Definition on_sp (f : pangea_info -> pangea_info) (nd : node) : node := upd (f := sp) f nd.
Definition on_priv (f : privdata -> privdata) (nd : node) : node := upd (f := priv) f nd.

(** ** Seats: slots are positions in [addrs], indices are positions in [active] *)

(** pangea777.c:96-110 [pangea_search] *)
Definition pangea_search (sp : pangea_info) (nxt64bits : Z) : option Z :=
  array_search (active sp) (numactive sp) nxt64bits.

(** pangea777.c:112-122 [pangea_tableaddr] *)
Definition pangea_tableaddr (sp : pangea_info) (destbits : Z) : option Z :=
  array_search (addrs sp) (numaddrs sp) destbits.

(** pangea777.c:124-127 [pangea_slotA] *)
Definition pangea_slotA (sp : pangea_info) : Z := 0.

(** pangea777.c:129-134 [pangea_slotB] *)
Definition pangea_slotB (sp : pangea_info) : option Z :=
  nxt64bits ← aget (active sp) 1; pangea_search sp nxt64bits.

(** pangea777.c:136-139 [pangea_slot] *)
Definition pangea_slot (sp : pangea_info) (ind : Z) : option Z :=
  a ← aget (active sp) ind; pangea_tableaddr sp a.

(** pangea777.c:141-144 [pangea_ind] *)
Definition pangea_ind (sp : pangea_info) (slot : Z) : option Z :=
  a ← aget (addrs sp) slot; pangea_search sp a.

(** pangea777.c:146-149 [pangea_lastnode] *)
Definition pangea_lastnode (sp : pangea_info) : option Z :=
  a ← aget (active sp) (numactive sp - 1); pangea_search sp a.

(** pangea777.c:151-160 [pangea_nextnode] *)
Definition pangea_nextnode (sp : pangea_info) : Z :=
  if myind sp <? numactive sp - 1 then myind sp + 1 else -1.

(** pangea777.c:162-171 [pangea_prevnode] *)
Definition pangea_prevnode (sp : pangea_info) : Z :=
  if 0 <? myind sp then myind sp - 1 else -1.

(** Copy the first [n] elements of [src] over those of [dst]. *)
Definition copy_prefix (n : nat) (src dst : list Z) : option (list Z) :=
  for_loopM n 0 (fun i dst => x ← aget src i; aset dst i x) dst.

(** pangea777.c:173-203 [pangea_neworder]: [None] for [active] stands for the null pointer,
    the current order.  Returns the return value and the new state. *)
Definition pangea_neworder (dp : pubdata) (sp : pangea_info) (neworder : option (list Z))
    (num : Z) : option (Z * pubdata * pangea_info) :=
  let '(order, num) := match neworder with
                       | Some l => (l, num) | None => (active sp, numactive sp) end in
  a0 ← aget order 0;
  b0 ← aget (addrs sp) 0;
  if negb (a0 =? b0) then Some (-1, dp, sp)
  else
    r ← for_ret (Z.to_nat (num - 1)) 1 (fun i slots =>
      a ← aget order i;
      s ← pangea_tableaddr sp a;
      slots ← aset slots i s;
      if s <? 0 then Some (inr tt) else Some (inl slots))
      (replicate (Z.to_nat CARDS777_MAXPLAYERS) 0);
    match r with
    | inr _ => Some (-1, dp, sp)
    | inl _ =>
        act ← copy_prefix (Z.to_nat num) order (active sp);
        let sp := sp.[active <- act].[numactive <- num] in
        let dp := dp.[dN <- u8 num].[dM <- u8 (Z.shiftr num 1 + 1)] in
        ind ← pangea_ind sp (myslot sp);
        Some (num, dp, sp.[myind <- ind])
    end.

(** pangea777.c:205-219 [pangea_inactivate] *)
Definition pangea_inactivate (dp : pubdata) (sp : pangea_info) (nxt64bits : Z)
    : option (Z * pubdata * pangea_info) :=
  '(n, act) ← for_loopM (Z.to_nat (numactive sp)) 0 (fun i '(n, act) =>
    a ← aget (active sp) i;
    if a =? nxt64bits then Some (n, act)
    else act ← aset act n a; Some (n + 1, act))
    (0, replicate (Z.to_nat CARDS777_MAXPLAYERS) 0);
  '(_, dp, sp) ← pangea_neworder dp sp (Some act) n;
  Some (n, dp, sp).

(** pangea777.c:221-258 [pangea_addplayer]: [acct777_nxt64bits], the account id of a public
    key, is an argument. *)
Definition pangea_addplayer (acct777_nxt64bits : bits256 -> Z) (nd : node) (clientpub : bits256)
    : option (Z * node) :=
  let nxt64bits := acct777_nxt64bits clientpub in
  let s := sp nd in
  r ← for_ret (Z.to_nat (numaddrs s)) 0 (fun i openslot =>
    a ← aget (addrs s) i;
    if a =? nxt64bits then Some (inr tt)
    else
      b ← aget (balances s) i;
      Some (inl (if b <=? 0 then i else openslot))) (-1);
  match r with
  | inr _ => Some (-1, nd)
  | inl openslot =>
      if (openslot <? 0) || (u32 (numaddrs s - 1) <=? u32 (numactive s)) then Some (-1, nd)
      else
        let d := (dp nd).[readymask <- u32 (Z.land (readymask (dp nd)) (Z.lnot (Z.shiftl 1 openslot)))] in
        ad ← aset (addrs s) openslot nxt64bits;
        pubs ← aset (playerpubs s) openslot clientpub;
        act ← aset (active s) (numactive s) nxt64bits;
        let s := s.[addrs <- ad].[playerpubs <- pubs].[active <- act].[numactive <- numactive s + 1] in
        let o := if myslot s =? 0 then [Replace clientpub openslot; Newtable clientpub] else [] in
        '(_, d, s) ← pangea_neworder d s None 0;
        Some (0, mkNode s d (priv nd) (out nd ++ o))
  end.

(** ** The seating invariant *)

Definition seated (s : pangea_info) : list Z := take (Z.to_nat (numactive s)) (active s).
Definition seats (s : pangea_info) : list Z := take (Z.to_nat (numaddrs s)) (addrs s).

(** Every active player has a seat, the host first, nobody twice, and the deck counters
    agree with the number of players. *)
Record seats_ok (d : pubdata) (s : pangea_info) : Prop := {
  ok_active : length (active s) = 9%nat;
  ok_addrs : length (addrs s) = 9%nat;
  ok_num : 1 <= numactive s <= numaddrs s;
  ok_max : numaddrs s <= CARDS777_MAXPLAYERS;
  ok_host : aget (active s) 0 = aget (addrs s) 0;
  ok_nodup : NoDup (seated s);
  ok_nodup_addrs : NoDup (seats s);
  ok_sub : seated s ⊆ seats s;
  ok_N : dN d = numactive s;
  ok_M : dM d = numactive s / 2 + 1;
  ok_me : 0 <= myslot s < numaddrs s }.

Lemma aget_take l n i (x : Z) :
  0 <= n -> (0 <= i < n /\ aget l i = Some x) <-> (take (Z.to_nat n) l !! Z.to_nat i = Some x /\ 0 <= i).
Proof.
  intros Hn. rewrite aget_Some, lookup_take_Some. split.
  - intros (? & ? & ?). split; [split; [done|lia]|lia].
  - intros ((? & ?) & ?). split_and!; try done; lia.
Qed.

Lemma elem_of_take_aget (l : list Z) n x :
  0 <= n -> x ∈ take (Z.to_nat n) l <-> exists i, 0 <= i < n /\ aget l i = Some x.
Proof.
  intros Hn. rewrite list_elem_of_lookup. split.
  - intros [i Hi]. exists (Z.of_nat i). apply aget_take; [done|]. rewrite Nat2Z.id. split; [done|lia].
  - intros [i Hi]. apply aget_take in Hi as [Hi _]; [|done]. eauto.
Qed.

Lemma NoDup_aget (l : list Z) n i j x :
  0 <= n -> NoDup (take (Z.to_nat n) l) -> 0 <= i < n -> 0 <= j < n ->
  aget l i = Some x -> aget l j = Some x -> i = j.
Proof.
  intros Hn Hd Hi Hj Ei Ej.
  destruct (proj1 (aget_take l n i x Hn) (conj Hi Ei)) as [Ei' _].
  destruct (proj1 (aget_take l n j x Hn) (conj Hj Ej)) as [Ej' _].
  pose proof (NoDup_lookup _ _ _ _ Hd Ei' Ej'). lia.
Qed.

Lemma search_in (l : list Z) n x :
  0 <= n <= Z.of_nat (length l) -> x ∈ take (Z.to_nat n) l ->
  exists k, array_search l n x = Some k /\ 0 <= k < n /\ aget l k = Some x.
Proof.
  intros Hn Hx. apply elem_of_take_aget in Hx as (i & Hi & Ei); [|lia].
  destruct (array_search_spec l n x Hn) as (k & -> & [[-> Hno]|(Hk & Ek & _)]); eauto.
  by destruct (Hno i Hi).
Qed.

Lemma search_notin (l : list Z) n x :
  0 <= n <= Z.of_nat (length l) -> x ∉ take (Z.to_nat n) l -> array_search l n x = Some (-1).
Proof.
  intros Hn Hx. destruct (array_search_spec l n x Hn) as (k & -> & [[-> _]|(Hk & Ek & _)]); [done|].
  destruct Hx. apply elem_of_take_aget; [lia|eauto].
Qed.

Lemma search_at l n i x :
  0 <= n <= Z.of_nat (length l) -> NoDup (take (Z.to_nat n) l) -> 0 <= i < n ->
  aget l i = Some x -> array_search l n x = Some i.
Proof.
  intros Hn Hd Hi Ei. destruct (search_in l n x Hn) as (k & -> & Hk & Ek).
  - apply elem_of_take_aget; [lia|eauto].
  - f_equal. eapply (NoDup_aget l n); done || lia.
Qed.

Lemma copy_prefix_eq n src dst :
  (n <= length src)%nat -> (n <= length dst)%nat ->
  copy_prefix n src dst = Some (take n src ++ drop n dst).
Proof.
  intros Hs Hd. unfold copy_prefix.
  match goal with |- context [for_loopM n 0 ?b] => set (body := b) end.
  induction n as [|n IH]; [done|]. rewrite for_loopM_snoc, IH by lia. step. unfold body.
  destruct (lookup_lt_is_Some_2 src n) as [x Hx]; [lia|].
  replace (aget src (0 + Z.of_nat n)) with (Some x) by
    (symmetry; apply aget_Some; split; [lia|]; by rewrite Z.add_0_l, Nat2Z.id).
  step. unfold aset.
  replace (_ && _) with true.
  2: { symmetry. rewrite andb_true_iff, Z.leb_le, Z.ltb_lt, length_app, length_take, length_drop. lia. }
  f_equal. rewrite Z.add_0_l, Nat2Z.id.
  rewrite insert_app_r_alt by (rewrite length_take; lia). rewrite length_take.
  replace (n - n `min` length src)%nat with 0%nat by lia.
  rewrite (take_S_r src n x Hx), <- app_assoc. f_equal.
  destruct (lookup_lt_is_Some_2 dst n) as [y Hy]; [lia|].
  by rewrite (drop_S dst y n Hy).
Qed.

(** ** Changing the order *)

(** The loop that looks every new player up succeeds when all of them have a seat. *)
Lemma neworder_loop s order num :
  length (addrs s) = 9%nat -> 0 <= numaddrs s <= 9 -> 1 <= num <= Z.of_nat (length order) -> num <= 9 ->
  exists r, for_ret (Z.to_nat (num - 1)) 1 (fun i slots =>
      a ← aget order i;
      x ← pangea_tableaddr s a;
      slots ← aset slots i x;
      if x <? 0 then Some (inr tt) else Some (inl slots)) (replicate (Z.to_nat CARDS777_MAXPLAYERS) 0)
    = Some r /\
    match r with
    | inl _ => forall i x, 1 <= i < num -> aget order i = Some x -> x ∈ seats s
    | inr _ => exists i x, 1 <= i < num /\ aget order i = Some x /\ x ∉ seats s
    end.
Proof.
  intros Hl Hn Ho Hnum.
  assert (H : forall m i sl, 1 <= i -> i + Z.of_nat m = num -> length sl = 9%nat ->
    (forall j x, 1 <= j < i -> aget order j = Some x -> x ∈ seats s) ->
    exists r, for_ret m i (fun i slots =>
      a ← aget order i;
      x ← pangea_tableaddr s a;
      slots ← aset slots i x;
      if x <? 0 then Some (inr tt) else Some (inl slots)) sl = Some r /\
    match r with
    | inl _ => forall i x, 1 <= i < num -> aget order i = Some x -> x ∈ seats s
    | inr _ => exists i x, 1 <= i < num /\ aget order i = Some x /\ x ∉ seats s
    end).
  { induction m as [|m IH]; intros i sl Hi Hm Hsl Hok.
    - exists (inl sl). split; [done|]. replace num with i by lia. done.
    - rewrite for_ret_S. destruct (aget_range order i) as [a Ea]; [lia|]. rewrite Ea. step.
      unfold pangea_tableaddr.
      destruct (array_search_spec (addrs s) (numaddrs s) a) as (k & -> & Hk); [lia|]. step.
      rewrite aset_zput by lia. step. destruct Hk as [[-> Hno]|(Hk & Ek & _)].
      + change (-1 <? 0) with true. cbv iota. rewrite bind_Some. exists (inr tt). split; [done|].
        exists i, a. split_and!; [lia|lia|done|].
        intros Hin. apply elem_of_take_aget in Hin as (j & Hj & Ej); [|lia]. by destruct (Hno j Hj).
      + destruct (Z.ltb_spec k 0); [lia|]. rewrite bind_Some.
        apply IH; [lia|lia|by rewrite zput_length|].
        intros j x Hj Ej. destruct (Z.eq_dec j i) as [->|]; [|apply (Hok j); done || lia].
        rewrite Ea in Ej. injection Ej as <-. apply elem_of_take_aget; [lia|eauto]. }
  apply H; [lia|lia|done|]. lia.
Qed.

(** The order is accepted: [n] players taken from [order]. *)
Definition reordered (d : pubdata) (s : pangea_info) (order : list Z) (n : Z)
    (d' : pubdata) (s' : pangea_info) : Prop :=
  seated s' = take (Z.to_nat n) order /\ numactive s' = n /\
  d' = d.[dN <- n].[dM <- n / 2 + 1] /\
  s' = s.[active <- active s'].[numactive <- n].[myind <- myind s'] /\
  length (active s') = 9%nat /\ pangea_ind s' (myslot s) = Some (myind s').

(** What the seating code needs to stay in bounds. *)
Record seats_base (s : pangea_info) : Prop := {
  base_active : length (active s) = 9%nat;
  base_addrs : length (addrs s) = 9%nat;
  base_max : 1 <= numaddrs s <= 9;
  base_me : 0 <= myslot s < numaddrs s }.

Lemma seats_ok_base d s : seats_ok d s -> seats_base s.
Proof. intros []. constructor; try done. unfold CARDS777_MAXPLAYERS in *. lia. Qed.

Lemma neworder_accept d s order n :
  seats_base s -> 1 <= n <= Z.of_nat (length order) -> n <= 9 ->
  aget order 0 = aget (addrs s) 0 ->
  (forall i x, 1 <= i < n -> aget order i = Some x -> x ∈ seats s) ->
  exists d' s', pangea_neworder d s (Some order) n = Some (n, d', s') /\ reordered d s order n d' s'.
Proof.
  intros [Ha Hs Hm Hme] Hlen Hmax Hhost Hin.
  destruct (aget_range (addrs s) 0) as [h Eh]; [lia|].
  unfold pangea_neworder. rewrite Hhost, Eh. step. step. rewrite Z.eqb_refl. cbn [negb].
  destruct (neworder_loop s order n) as (r & -> & Hr); [lia..|]. step.
  destruct r as [sl|]; [|destruct Hr as (i & x & Hi & Ei & Hx); by destruct Hx; eauto].
  rewrite copy_prefix_eq by lia. step.
  unfold pangea_ind at 1. cbn [addrs myslot upd].
  destruct (aget_range (addrs s) (myslot s)) as [m Em]; [lia|]. rewrite Em. step.
  set (s1 := s.[active <- take (Z.to_nat n) order ++ drop (Z.to_nat n) (active s)].[numactive <- n]).
  destruct (array_search_spec (active s1) n m) as (k & Ek & _).
  { unfold s1. cbn. rewrite length_app, length_take, length_drop. lia. }
  unfold pangea_search. change (numactive s1) with n. rewrite Ek. step.
  do 2 eexists. split; [done|]. unfold reordered. cbn. split_and!; try done.
  - unfold seated. cbn. rewrite take_app_length' by (rewrite length_take; lia). done.
  - rewrite Z.shiftr_div_pow2, !uwrap_small by (change (2 ^ 8) with 256; change (2 ^ 1) with 2; dmlia). done.
  - rewrite length_app, length_take, length_drop. lia.
  - unfold pangea_ind. cbn. rewrite Em. step. exact Ek.
Qed.

Lemma reordered_ok d s order n d' s' :
  seats_base s -> NoDup (seats s) -> 1 <= n <= 9 -> n <= Z.of_nat (length order) -> aget order 0 = aget (addrs s) 0 ->
  reordered d s order n d' s' -> NoDup (take (Z.to_nat n) order) ->
  take (Z.to_nat n) order ⊆ seats s -> seats_ok d' s'.
Proof.
  intros [Ha Hs Hm Hme] Hda Hn' Hlen Hhost (Hse & Hnum & -> & Es & Hl & Hind) Hnd Hin.
  assert (Had : addrs s' = addrs s /\ numaddrs s' = numaddrs s /\ myslot s' = myslot s) by (by rewrite Es).
  destruct Had as (Ead & Ena & Ems).
  assert (Hle : n <= numaddrs s).
  { assert (length (take (Z.to_nat n) order) <= length (seats s))%nat.
    { by apply submseteq_length, NoDup_submseteq. }
    unfold seats in *. rewrite !length_take in *. lia. }
  constructor; rewrite ?Hse, ?Hnum, ?Ead, ?Ena, ?Ems; try done; try lia.
  - unfold CARDS777_MAXPLAYERS. lia.
  - rewrite <- Hhost. assert (H0 : seated s' !! 0%nat = order !! 0%nat).
    { rewrite Hse. rewrite lookup_take_lt by lia. done. }
    unfold aget. change (0 <=? 0) with true. change (Z.to_nat 0) with 0%nat. cbv iota. rewrite <- H0. unfold seated. by rewrite lookup_take_lt by lia.
  - unfold seats. by rewrite Ead, Ena.
  - unfold seats. rewrite Ead, Ena. exact Hin.
Qed.

Lemma neworder_reject d s order n :
  seats_base s -> 1 <= n <= Z.of_nat (length order) -> n <= 9 ->
  aget order 0 <> aget (addrs s) 0 \/
    (exists i x, 1 <= i < n /\ aget order i = Some x /\ x ∉ seats s) ->
  pangea_neworder d s (Some order) n = Some (-1, d, s).
Proof.
  intros [Ha Hs Hm Hme] Hlen Hmax Hbad.
  destruct (aget_range (addrs s) 0) as [h Eh]; [lia|].
  destruct (aget_range order 0) as [o Eo]; [lia|].
  unfold pangea_neworder. rewrite Eo, Eh. step. step.
  destruct (Z.eqb_spec o h) as [->|Hne]; cbn [negb]; [|done].
  destruct Hbad as [Hbad|(i & x & Hi & Ei & Hx)]; [congruence|].
  destruct (neworder_loop s order n) as (r & -> & Hr); [lia..|]. step.
  destruct r as [sl|]; [|done]. destruct Hx. by eapply Hr.
Qed.

(** The players other than [x], in order. *)
Definition others (x : Z) (l : list Z) : list Z := filter (fun a => a <> x) l.

Lemma others_notin x l : x ∉ l -> others x l = l.
Proof.
  unfold others. induction l as [|a l IH]; [done|]. rewrite not_elem_of_cons. intros [Ha Hl].
  rewrite filter_cons_True by congruence. by rewrite IH.
Qed.

Lemma inactivate_loop s x n :
  length (active s) = 9%nat -> (n <= 9)%nat ->
  exists act, for_loopM n 0 (fun i '(n, act) =>
      a ← aget (active s) i;
      if a =? x then Some (n, act)
      else act ← aset act n a; Some (n + 1, act))
      (0, replicate (Z.to_nat CARDS777_MAXPLAYERS) 0)
    = Some (Z.of_nat (length (others x (take n (active s)))), act) /\
    length act = 9%nat /\
    take (length (others x (take n (active s)))) act = others x (take n (active s)).
Proof.
  intros Hl Hn. induction n as [|n IH].
  - eexists. split; [done|]. by rewrite length_replicate.
  - destruct IH as (act & Hrun & Hact & Ht); [lia|].
    rewrite for_loopM_snoc, Hrun. step.
    destruct (lookup_lt_is_Some_2 (active s) n) as [a Ha]; [lia|].
    replace (aget (active s) (0 + Z.of_nat n)) with (Some a) by
      (symmetry; apply aget_Some; split; [lia|]; by rewrite Z.add_0_l, Nat2Z.id).
    step. rewrite (take_S_r _ _ _ Ha). unfold others in *. rewrite list.filter_app.
    assert (Hle : (length (filter (λ a : Z, a ≠ x) (take n (active s))) <= n)%nat).
    { etrans; [apply length_filter|]. rewrite length_take. lia. }
    destruct (Z.eqb_spec a x) as [->|Hne].
    + rewrite filter_cons_False by tauto. rewrite app_nil_r. eauto.
    + rewrite filter_cons_True by done. rewrite filter_nil, length_app. cbn [length].
      set (k := length (filter (λ a : Z, a ≠ x) (take n (active s)))) in *.
      unfold aset. replace (_ && _) with true
        by (symmetry; rewrite andb_true_iff, Z.leb_le, Z.ltb_lt; lia).
      step. rewrite Nat2Z.id. eexists. split; [do 2 f_equal; lia|].
      rewrite length_insert. split; [done|].
      rewrite Nat.add_1_r, (take_S_r _ k a).
      2: by rewrite list_lookup_insert_eq by lia.
      rewrite take_insert_ge by lia. by rewrite Ht.
Qed.

(** ** Adding a player *)

(** The last seat among the first [n] whose balance is used up, or -1. *)
Fixpoint open_seat (bal : list Z) (n : nat) : Z :=
  match n with
  | O => -1
  | S n' => if znth bal (Z.of_nat n') <=? 0 then Z.of_nat n' else open_seat bal n'
  end.

Lemma open_seat_range bal n : -1 <= open_seat bal n < Z.of_nat n.
Proof. induction n; simpl; [lia|]. destruct (_ <=? _); lia. Qed.

Lemma addplayer_loop s x n :
  length (addrs s) = 9%nat -> length (balances s) = 9%nat -> (n <= 9)%nat ->
  for_ret n 0 (fun i openslot =>
    a ← aget (addrs s) i;
    if a =? x then Some (inr tt)
    else
      b ← aget (balances s) i;
      Some (inl (if b <=? 0 then i else openslot))) (-1)
  = Some (if decide (x ∈ take n (addrs s)) then inr tt else inl (open_seat (balances s) n)).
Proof.
  intros Ha Hb Hn.
  match goal with |- for_ret n 0 ?b _ = _ => set (body := b) end.
  assert (Hbody : forall i o, body i o = a ← aget (addrs s) i;
    if a =? x then Some (inr tt)
    else b ← aget (balances s) i; Some (inl (if b <=? 0 then i else o))) by done.
  clearbody body.
  assert (H : forall m k o, (k + m <= 9)%nat -> o = open_seat (balances s) k ->
    x ∉ take k (addrs s) ->
    for_ret m (Z.of_nat k) body o
    = Some (if decide (x ∈ take (k + m) (addrs s)) then inr tt else inl (open_seat (balances s) (k + m)))).
  { induction m as [|m IH]; intros k o Hk -> Hno.
    - rewrite Nat.add_0_r. rewrite decide_False by done. done.
    - rewrite for_ret_S, Hbody.
      destruct (lookup_lt_is_Some_2 (addrs s) k) as [a Ea]; [lia|].
      replace (aget (addrs s) (Z.of_nat k)) with (Some a)
        by (symmetry; apply aget_Some; split; [lia|]; by rewrite Nat2Z.id).
      step. destruct (Z.eqb_spec a x) as [->|Hne].
      + rewrite bind_Some, decide_True; [done|]. apply list_elem_of_lookup. exists k.
        apply lookup_take_Some. split; [done|lia].
      + rewrite aget_znth by lia. step. rewrite bind_Some.
        replace (Z.of_nat k + 1) with (Z.of_nat (S k)) by lia.
        replace (k + S m)%nat with (S k + m)%nat by lia. apply IH; [lia|done|].
        rewrite (take_S_r _ _ _ Ea), elem_of_app, list_elem_of_singleton.
        intros [?|?]; [done|congruence]. }
  apply (H n 0%nat (-1)); [lia|done|]. by apply not_elem_of_nil.
Qed.

Lemma seats_insert s i x :
  length (addrs s) = 9%nat -> 0 <= i < numaddrs s -> numaddrs s <= 9 ->
  take (Z.to_nat (numaddrs s)) (zput (addrs s) i x) = <[Z.to_nat i := x]> (seats s).
Proof.
  intros Hl Hi Hn. unfold zput, aset, seats.
  replace (_ && _) with true by (symmetry; rewrite andb_true_iff, Z.leb_le, Z.ltb_lt; lia).
  by rewrite take_insert_lt by lia.
Qed.

Lemma NoDup_insert_fresh (l : list Z) i x : NoDup l -> x ∉ l -> NoDup (<[i := x]> l).
Proof.
  rewrite !NoDup_alt. intros Hd Hx j k y Hj Hk.
  apply list_lookup_insert_Some in Hj as [(-> & <- & _)|[Hj1 Hj]];
    apply list_lookup_insert_Some in Hk as [(? & E & _)|[Hk1 Hk]]; subst; try done.
  - destruct Hx. by eapply list_elem_of_lookup_2.
  - destruct Hx. by eapply list_elem_of_lookup_2.
  - by eapply Hd.
Qed.

Lemma elem_of_insert_other (l : list Z) i x a y :
  NoDup l -> l !! i = Some a -> x ∉ l ->
  y ∈ <[i := x]> l <-> y = x \/ (y ∈ l /\ y <> a).
Proof.
  rewrite NoDup_alt. intros Hd Hi Hx. assert (i < length l)%nat by by eapply lookup_lt_Some.
  rewrite !list_elem_of_lookup. split.
  - intros [j [(_ & -> & _)|[Hj1 Hj]]%list_lookup_insert_Some]; [by left|]. right. split; [eauto|].
    intros ->. by destruct Hj1; eapply Hd.
  - intros [->|[[j Hj] Hne]].
    + exists i. by rewrite list_lookup_insert_eq.
    + exists j. rewrite list_lookup_insert_ne; [done|]. congruence.
Qed.

(** ** Properties *)

(** Slots and indices are inverse to each other: [pangea_slot] sends every index of an
    active player to a seat from which [pangea_ind] returns the index, and [pangea_ind]
    sends every seat to -1 when nobody active sits there and otherwise to the index whose
    seat it is. *)
Theorem pangea_slot_ind_inverse d s :
  seats_ok d s ->
  (forall i, 0 <= i < dN d ->
     exists slot, pangea_slot s i = Some slot /\ 0 <= slot < numaddrs s /\ pangea_ind s slot = Some i) /\
  (forall slot, 0 <= slot < numaddrs s ->
     exists i, pangea_ind s slot = Some i /\
       (i = -1 \/ (0 <= i < dN d /\ pangea_slot s i = Some slot))).
Proof.
  intros [Ha Hs Hn Hm Hh Hd Hda Hsub HN HM Hme]. rewrite HN. unfold CARDS777_MAXPLAYERS in Hm. split.
  - intros i Hi. destruct (aget_range (active s) i) as [a Ea]; [lia|].
    unfold pangea_slot, pangea_tableaddr. rewrite Ea. step.
    destruct (search_in (addrs s) (numaddrs s) a) as (k & -> & Hk & Ek); [lia| |].
    { apply Hsub. apply elem_of_take_aget; [lia|eauto]. }
    exists k. split_and!; try done; try lia. unfold pangea_ind, pangea_search. rewrite Ek. step.
    apply search_at; done || lia.
  - intros slot Hslot. destruct (aget_range (addrs s) slot) as [a Ea]; [lia|].
    unfold pangea_ind, pangea_search. rewrite Ea. step.
    destruct (array_search_spec (active s) (numactive s) a) as (k & -> & [[-> _]|(Hk & Ek & _)]);
      [lia|by eauto|].
    exists k. split; [done|]. right. split; [done|].
    unfold pangea_slot, pangea_tableaddr. rewrite Ek. step. apply search_at; done || lia.
Qed.

(** [pangea_neworder] on every branch: a proposed order is adopted exactly when it
    starts with the host and everybody in it has a seat; then the active players are the
    proposed ones, the deck's player count and threshold follow, seats and balances are
    untouched, and the seating invariant holds again if nobody is named twice.  Otherwise
    the call reports -1 and changes nothing. *)
Theorem pangea_neworder_spec d s order n :
  seats_ok d s -> 1 <= n <= Z.of_nat (length order) -> n <= CARDS777_MAXPLAYERS ->
  let l := take (Z.to_nat n) order in
  exists r d' s', pangea_neworder d s (Some order) n = Some (r, d', s') /\
    ((r = n /\ aget order 0 = aget (addrs s) 0 /\ l ⊆ seats s /\
      reordered d s order n d' s' /\ (NoDup l -> seats_ok d' s')) \/
     (r = -1 /\ d' = d /\ s' = s /\ (aget order 0 <> aget (addrs s) 0 \/ ~ l ⊆ seats s))).
Proof.
  intros Hok Hn Hmax l. unfold CARDS777_MAXPLAYERS in Hmax.
  pose proof (seats_ok_base _ _ Hok) as Hbase.
  destruct (decide (aget order 0 = aget (addrs s) 0)) as [Hhost|Hhost].
  - destruct (decide (Forall (fun x => x ∈ seats s) l)) as [Hall|Hall].
    + assert (Hsub : l ⊆ seats s) by (intros x Hx; rewrite list.Forall_forall in Hall; auto).
      destruct (neworder_accept d s order n) as (d' & s' & -> & Hre); try done.
      { intros i x Hi Ei. apply Hsub, elem_of_take_aget; [lia|]. exists i. split; [lia|done]. }
      do 3 eexists. split; [done|]. left. split_and!; try done.
      intros Hnd. destruct Hok. apply (reordered_ok d s order n); done || lia.
    + rewrite neworder_reject; try done.
      * do 3 eexists. split; [done|]. right. split_and!; try done. right. intros Hsub.
        apply Hall, list.Forall_forall. auto.
      * right. apply not_Forall_Exists in Hall; [|apply _]. apply list.Exists_exists in Hall as (x & Hx & Hno).
        apply elem_of_take_aget in Hx as (i & Hi & Ei); [|lia].
        exists i, x. split_and!; try done; try lia.
        destruct (Z.eq_dec i 0) as [->|]; [|lia]. destruct Hno.
        apply elem_of_take_aget; [destruct Hok; lia|]. exists 0. split; [destruct Hok; lia|congruence].
  - rewrite neworder_reject; try done; [|by left].
    do 3 eexists. split; [done|]. right. split_and!; [done..|by left].
Qed.

(** [C39] [pangea_inactivate] removes a player other than the host from the active list,
    keeps the order of the others and the seating invariant, and returns how many remain;
    removing the host is refused by [pangea_neworder], and the state stays as it was,
    although the same count is returned. *)
Theorem pangea_inactivate_spec d s x :
  seats_ok d s -> 2 <= numactive s ->
  exists d' s', pangea_inactivate d s x = Some (Z.of_nat (length (others x (seated s))), d', s') /\
    seats_ok d' s' /\ balances s' = balances s /\ seats s' = seats s /\
    (aget (addrs s) 0 <> Some x -> seated s' = others x (seated s)) /\
    (aget (addrs s) 0 = Some x -> d' = d /\ s' = s).
Proof.
  intros Hok H2. pose proof (seats_ok_base _ _ Hok) as Hbase. pose proof Hok as [Ha Hs Hn Hm Hh Hd Hda Hsub HN HM Hme]. unfold CARDS777_MAXPLAYERS in *.
  unfold pangea_inactivate.
  destruct (inactivate_loop s x (Z.to_nat (numactive s))) as (act & -> & Hl & Ht); [done|lia|]. step.
  fold (seated s) in *. set (k := length (others x (seated s))) in *.
  assert (Hk : (k <= 9)%nat).
  { unfold k, others. etrans; [apply length_filter|]. unfold seated. rewrite length_take. lia. }
  destruct (seated s) as [|h rest] eqn:Eseat.
  { exfalso. unfold seated in Eseat. apply (f_equal length) in Eseat. rewrite length_take in Eseat. simpl in Eseat. lia. }
  assert (Eh : aget (addrs s) 0 = Some h).
  { rewrite <- Hh. apply (aget_take (active s) (numactive s) 0 h); [lia|]. split; [|done].
    change (seated s !! 0%nat = Some h). by rewrite Eseat. }
  destruct (decide (h = x)) as [->|Hne].
  - (* the host *)
    assert (Hrest : others x (x :: rest) = rest).
    { apply list.NoDup_cons in Hd as [? _]. unfold others. rewrite filter_cons_False by tauto.
      by apply others_notin. }
    assert (Hlen : length rest = Z.to_nat (numactive s - 1)).
    { apply (f_equal length) in Eseat. unfold seated in Eseat. rewrite length_take in Eseat. simpl in Eseat. lia. }
    rewrite neworder_reject; [|done|unfold k; rewrite Hrest; lia|lia|].
    + step. do 2 eexists. split; [done|]. split_and!; try done; congruence.
    + left. rewrite Eh. destruct rest as [|y rest]; [simpl in Hlen; lia|].
      assert (Ey : act !! 0%nat = Some y).
      { rewrite <- (take_drop k act), Ht, Hrest. done. }
      intros E. apply aget_Some in E as [_ E]. change (Z.to_nat 0) with 0%nat in E.
      rewrite Ey in E. injection E as ->. apply list.NoDup_cons in Hd as [Hd _]. apply Hd. left.
  - assert (Hfil : others x (h :: rest) = h :: others x rest).
    { unfold others. by rewrite filter_cons_True. }
    assert (Hk1 : (1 <= k)%nat) by (unfold k; rewrite Hfil; simpl; lia).
    assert (Htk : take (Z.to_nat (Z.of_nat k)) act = others x (h :: rest)) by by rewrite Nat2Z.id.
    assert (E0 : aget act 0 = Some h).
    { apply aget_Some. split; [done|]. rewrite <- (take_drop k act), Ht, Hfil. done. }
    assert (Hsub' : others x (h :: rest) ⊆ seats s).
    { intros y Hy. apply Hsub. unfold others in Hy. by apply list_elem_of_filter in Hy as [_ ?]. }
    destruct (neworder_accept d s act (Z.of_nat k)) as (d' & s' & -> & Hre); [done|lia|lia|congruence| |].
    { intros i y Hi Ei. apply Hsub'. rewrite <- Htk. apply elem_of_take_aget; [lia|]. exists i. split; [lia|done]. }
    step. do 2 eexists. split; [done|]. pose proof Hre as (Hse & _ & _ & Es & _). split_and!.
    + apply (reordered_ok d s act (Z.of_nat k)); try done; rewrite ?Htk; try lia; try done.
      * congruence.
      * unfold others. by apply list.NoDup_filter.
    + by rewrite Es.
    + by rewrite Es.
    + intros _. by rewrite Hse, Htk.
    + congruence.
Qed.

(** [pangea_addplayer] on every branch.  A player who has a seat, and a table without
    a used-up balance or with all but one seat active, are refused without effect.
    Otherwise the player takes the last seat whose balance is used up.  If nobody active sits
    there the player joins at the end of the order, and the seating invariant is kept; if the
    previous holder of the seat is still active, the new order is refused after the list was
    extended, so that the number of active players and the deck's player count differ. *)
Theorem pangea_addplayer_spec acct nd pub :
  let s := sp nd in let d := dp nd in
  let x := acct pub in let o := open_seat (balances s) (Z.to_nat (numaddrs s)) in
  seats_ok d s -> length (balances s) = 9%nat -> length (playerpubs s) = 9%nat ->
  exists r nd', pangea_addplayer acct nd pub = Some (r, nd') /\
    if decide (x ∈ seats s) then r = -1 /\ nd' = nd
    else if (o <? 0) || (numaddrs s - 1 <=? numactive s) then r = -1 /\ nd' = nd
    else r = 0 /\ balances (sp nd') = balances s /\ seats (sp nd') = <[Z.to_nat o := x]> (seats s) /\
      if decide (znth (addrs s) o ∈ seated s) then
        dN (dp nd') = dN d /\ numactive (sp nd') = numactive s + 1 /\ ~ seats_ok (dp nd') (sp nd')
      else seats_ok (dp nd') (sp nd') /\ seated (sp nd') = seated s ++ [x].
Proof.
  intros s d x o Hok Hb Hp. pose proof Hok as [Ha Hs Hn Hm Hh Hd Hda Hsub HN HM Hme].
  unfold CARDS777_MAXPLAYERS in *. unfold pangea_addplayer. fold s d x.
  rewrite addplayer_loop by (done || lia). step. fold (seats s).
  destruct (decide (x ∈ seats s)) as [Hin|Hin]; [by do 2 eexists|].
  fold o. rewrite !uwrap_small by (change (2 ^ 32) with 4294967296; lia).
  destruct ((o <? 0) || (numaddrs s - 1 <=? numactive s)) eqn:Hfull; [by do 2 eexists|].
  apply orb_false_iff in Hfull as [Ho Hroom]. apply Z.ltb_ge in Ho. apply Z.leb_gt in Hroom.
  assert (Ho' : 0 <= o < numaddrs s).
  { pose proof (open_seat_range (balances s) (Z.to_nat (numaddrs s))). lia. }
  rewrite !aset_zput by lia. do 3 step.
  set (s1 := (((s.[addrs <- zput (addrs s) o x]).[playerpubs <- zput (playerpubs s) o pub]).[active <-
    zput (active s) (numactive s) x]).[numactive <- numactive s + 1]).
  set (d1 := d.[readymask <- _]).
  assert (Hseats : seats s1 = <[Z.to_nat o := x]> (seats s)) by (apply (seats_insert s o x); done).
  assert (Hact : forall i, 0 <= i < 9 ->
    aget (active s1) i = if i =? numactive s then Some x else aget (active s) i).
  { intros i Hi. unfold s1. cbn. rewrite aget_zput by lia. by rewrite Z.eqb_sym. }
  assert (Hseated : seated s1 = seated s ++ [x]).
  { unfold seated. cbn. replace (Z.to_nat (numactive s + 1)) with (S (Z.to_nat (numactive s))) by lia.
    rewrite (take_S_r _ _ x).
    - f_equal. unfold zput, aset. destruct (_ && _); [|done]. by rewrite take_insert_ge by lia.
    - apply aget_Some. rewrite aget_zput, Z.eqb_refl by lia. done. }
  assert (Hbase : seats_base s1).
  { constructor; unfold s1; cbn; rewrite ?zput_length; done || lia. }
  destruct (aget_range (addrs s) o) as [a Ea]; [lia|].
  assert (Eza : znth (addrs s) o = a) by (unfold znth; by rewrite Ea).
  assert (Eoa : seats s !! Z.to_nat o = Some a).
  { by apply (aget_take (addrs s) (numaddrs s)); [lia|]. }
  assert (Hmem : forall y, y ∈ seats s1 <-> y = x \/ (y ∈ seats s /\ y <> a)).
  { intros y. rewrite Hseats. by apply elem_of_insert_other. }
  assert (Hao : aget (addrs s1) 0 = if o =? 0 then Some x else aget (addrs s) 0).
  { change (addrs s1) with (zput (addrs s) o x). by rewrite aget_zput by lia. }
  assert (Hax : a <> x) by (intros ->; destruct Hin; by eapply list_elem_of_lookup_2).
  assert (Hhost : aget (active s1) 0 = aget (addrs s) 0).
  { rewrite Hact by lia. by destruct (Z.eqb_spec 0 (numactive s)); [lia|]. }
  rewrite Eza. change (pangea_neworder d1 s1 None 0) with
    (pangea_neworder d1 s1 (Some (active s1)) (numactive s1)).
  change (numactive s1) with (numactive s + 1).
  destruct (decide (a ∈ seated s)) as [Hocc|Hfree].
  - rewrite neworder_reject; [|done|cbn; rewrite ?zput_length; lia|lia|].
    + step. do 2 eexists. split; [done|]. split_and!; try done. intros []. cbn in *. lia.
    + apply elem_of_take_aget in Hocc as (i & Hi & Ei); [|lia].
      destruct (Z.eq_dec i 0) as [->|Hi0].
      * left. rewrite Hhost, Hao. destruct (Z.eqb_spec o 0) as [E0|E0]; [rewrite <- Hh; congruence|].
        destruct E0. eapply (NoDup_aget (addrs s) (numaddrs s)); try done; try lia. congruence.
      * right. exists i, a. split_and!; [lia|lia| |].
        -- rewrite Hact by lia. by destruct (Z.eqb_spec i (numactive s)); [lia|].
        -- rewrite Hmem. by intros [?|[_ ?]].
  - assert (Ho0 : o <> 0).
    { intros E0. destruct Hfree. apply elem_of_take_aget; [lia|]. exists 0. split; [lia|]. congruence. }
    assert (Hsub1 : seated s ++ [x] ⊆ seats s1).
    { intros y Hy. apply Hmem. apply elem_of_app in Hy as [Hy|Hy%list_elem_of_singleton]; [|by left].
      right. split; [by apply Hsub|]. by intros ->. }
    assert (Hhost1 : aget (active s1) 0 = aget (addrs s1) 0).
    { rewrite Hhost, Hao. by destruct (Z.eqb_spec o 0). }
    assert (Hlen1 : length (active s1) = 9%nat) by (unfold s1; cbn; by rewrite zput_length).
    destruct (neworder_accept d1 s1 (active s1) (numactive s + 1)) as (d' & s' & -> & Hre);
      [done|lia|lia|done| |].
    { intros i y Hi Ei. apply Hsub1. rewrite <- Hseated. apply elem_of_take_aget; [cbn; lia|].
      exists i. split; [cbn; lia|done]. }
    step. do 2 eexists. split; [done|]. pose proof Hre as (Hse & _ & _ & Es & _). cbn [sp dp].
    rewrite Hse. change (take (Z.to_nat (numactive s + 1)) (active s1)) with (seated s1).
    split_and!; [done|by rewrite Es| |apply (reordered_ok d1 s1 (active s1) (numactive s + 1))|done];
      try done; try lia.
    + rewrite <- Hseats, Es. done.
    + rewrite Hseats. by apply NoDup_insert_fresh.
    + change (NoDup (seated s1)). rewrite Hseated. apply list.NoDup_app. split_and!; [done| |apply list.NoDup_singleton].
      intros y Hy ->%list_elem_of_singleton. by apply Hin, Hsub.
    + change (seated s1 ⊆ seats s1). by rewrite Hseated.
Qed.

(** A table of three players in a ring of five seats, the last two of them free. *)
Definition demo_info : pangea_info :=
  mkInfo 5 [300; 400; 500; 0; 0; 0; 0; 0; 0] (replicate 9 0) (replicate 9 zero256)
    [11; 12; 13; 14; 15; 0; 0; 0; 0] [11; 13; 12; 0; 0; 0; 0; 0; 0] 77 [] 0 0 3
    (replicate 9 0) (replicate 9 0) (replicate 9 []).

Definition demo_hand : handinfo :=
  mkHand zero256 [] [] (replicate 5 zero256) (replicate 9 [zero256; zero256]) (replicate 9 0)
    (replicate 9 0) 0 0 0 0 (replicate 9 0) (replicate 10 0) (replicate 9 0)
    0 0 0 0 0 0 0 0 0 (replicate 9 0) (replicate 9 0) (replicate 9 0) (replicate 9 0)
    0 0 (replicate 5 255) (replicate 9 []) (replicate 9 (replicate 7 255)).

Definition demo_pub : pubdata :=
  mkPub (replicate 9 0) 1000 0 10 0 0 0 0 0 7 1 25 1 100 demo_hand [] "BTCD" 2 3 52 [].

Definition demo : node :=
  mkNode demo_info demo_pub (mkPriv [zero256; zero256] [] [] [] [255; 255] [255; 255] 0 0) [].

Ltac decide_goal := refine (bool_decide_unpack _ _); vm_compute; exact I.

Lemma demo_ok : seats_ok demo_pub demo_info.
Proof.
  constructor; try (vm_compute; split; congruence || reflexivity); try decide_goal.
Qed.

Lemma pangea_slot_ind_inverse_witness :
  (forall i, 0 <= i < 3 ->
     exists slot, pangea_slot demo_info i = Some slot /\ 0 <= slot < 5 /\ pangea_ind demo_info slot = Some i) /\
  (forall slot, 0 <= slot < 5 ->
     exists i, pangea_ind demo_info slot = Some i /\
       (i = -1 \/ (0 <= i < 3 /\ pangea_slot demo_info i = Some slot))).
Proof. apply (pangea_slot_ind_inverse demo_pub demo_info). apply demo_ok. Defined.

Lemma pangea_neworder_spec_witness :
  exists r d' s', pangea_neworder demo_pub demo_info (Some [11; 12; 13; 99]) 3 = Some (r, d', s') /\
    ((r = 3 /\ aget [11; 12; 13; 99] 0 = aget (addrs demo_info) 0 /\ [11; 12; 13] ⊆ seats demo_info /\
      reordered demo_pub demo_info [11; 12; 13; 99] 3 d' s' /\ (NoDup [11; 12; 13] -> seats_ok d' s')) \/
     (r = -1 /\ d' = demo_pub /\ s' = demo_info /\
      (aget [11; 12; 13; 99] 0 <> aget (addrs demo_info) 0 \/ ~ [11; 12; 13] ⊆ seats demo_info))).
Proof. apply (pangea_neworder_spec demo_pub demo_info [11; 12; 13; 99] 3); [apply demo_ok|done..]. Defined.

Lemma pangea_inactivate_spec_witness :
  exists d' s', pangea_inactivate demo_pub demo_info 13 = Some (2, d', s') /\
    seats_ok d' s' /\ balances s' = balances demo_info /\ seats s' = seats demo_info /\
    (aget (addrs demo_info) 0 <> Some 13 -> seated s' = others 13 (seated demo_info)) /\
    (aget (addrs demo_info) 0 = Some 13 -> d' = demo_pub /\ s' = demo_info).
Proof. apply (pangea_inactivate_spec demo_pub demo_info 13); [apply demo_ok|done]. Defined.

Lemma pangea_addplayer_spec_witness :
  exists r nd', pangea_addplayer txid demo [1; 2; 0; 0; 0; 0; 0; 0] = Some (r, nd') /\
    if decide (513 ∈ seats demo_info) then r = -1 /\ nd' = demo
    else if (4 <? 0) || (5 - 1 <=? 3) then r = -1 /\ nd' = demo
    else r = 0 /\ balances (sp nd') = balances demo_info /\
      seats (sp nd') = <[4%nat := 513]> (seats demo_info) /\
      if decide (15 ∈ seated demo_info) then
        dN (dp nd') = dN demo_pub /\ numactive (sp nd') = 3 + 1 /\ ~ seats_ok (dp nd') (sp nd')
      else seats_ok (dp nd') (sp nd') /\ seated (sp nd') = seated demo_info ++ [513].
Proof. apply (pangea_addplayer_spec txid demo [1; 2; 0; 0; 0; 0; 0; 0]); [apply demo_ok|done..]. Defined.
