(* ===== verification/Summary.v ===== *)
(** * hostnet777.c, pangeafunds.c: the wire format of messages and of the hand history

    [hostnet777_copybits] copies memory bit by bit, in either direction; the message header
    and the hand history are written and read with it.  A buffer is the list of bytes from
    the pointer on, and the buffers of one copy do not overlap. *)
From Stdlib Require Import ZArith Lia String.
From stdpp Require Import base list numbers option.
From S2P Require Import Prelude Bits Pangea.
Open Scope Z_scope.

(** ** Copying *)

Definition memset0 (dest : list Z) (len : Z) : option (list Z) :=
  if (0 <=? len) && (len <=? Z.of_nat (length dest))
  then Some (replicate (Z.to_nat len) 0 ++ drop (Z.to_nat len) dest) else None.

(** hostnet777.c:259-277 [hostnet777_copybits]: the result, [dest] and [src] afterwards. *)
Definition hostnet777_copybits (reverse : Z) (dest src : list Z) (len : Z)
    : option (Z * list Z * list Z) :=
  let '(d, s) := if truth reverse then (src, dest) else (dest, src) in
  d ← memset0 d len;
  let bits := i32 (Z.shiftl len 3) in
  d ← for_loopM (Z.to_nat bits) 0 (fun i d =>
    g ← GETBIT s i;
    if truth g then SETBIT d i else Some d) d;
  Some (Z.shiftr bits 3, if truth reverse then s else d, if truth reverse then d else s).

(** hostnet777.c:279-279 [hostnet777_serialize] The header of a message. *)
Record header := mkHeader {
  senderpub : bits256; senderbits : Z; sig : bits256; timestamp : Z; destbits : Z }.

(** hostnet777.c:282-282 [hostnet777_serialize] Copy a header field to or from the [n] bytes at the start of [buf]; the field's memory,
    the buffer and the rest of the buffer's cursor are returned. *)
Definition copy_field (reverse : Z) (buf field : list Z) (n : Z) (pos : Z)
    : option (list Z * list Z * Z) :=
  '(k, b, f) ← hostnet777_copybits reverse (drop (Z.to_nat pos) buf) field n;
  Some (take (Z.to_nat pos) buf ++ b, f, pos + k).

(** hostnet777.c:279-290 [hostnet777_serialize] *)
Definition hostnet777_serialize (reverse : Z) (h : header) (buf : list Z)
    : option (Z * header * list Z) :=
  '(buf, d, pos) ← copy_field reverse buf (le_bytes 8 (destbits h)) 8 0;
  '(buf, p, pos) ← copy_field reverse buf (senderpub h) 32 pos;
  '(buf, b, pos) ← copy_field reverse buf (le_bytes 8 (senderbits h)) 8 pos;
  '(buf, t, pos) ← copy_field reverse buf (le_bytes 4 (timestamp h)) 4 pos;
  let extra := 32 + 8 + 8 + 4 in
  if negb (le_val b =? 0) then
    '(buf, s, pos) ← copy_field reverse buf (sig h) 32 pos;
    Some (extra + 32, mkHeader p (le_val b) s (le_val t) (le_val d), buf)
  else Some (extra, mkHeader p (le_val b) zero256 (le_val t) (le_val d), buf).

(** ** The hand history *)

Definition SUMMARY_MAX : Z := 65536.

(** pangeafunds.c:161-161 [pangea_summary] Append the [size] bytes at [arg] to the history. *)
Definition summary_put (d : pubdata) (arg : list Z) (size : Z) : option pubdata :=
  if Z.of_nat (length (summary d)) + size <=? SUMMARY_MAX then
    '(_, dest, _) ← hostnet777_copybits 0 (replicate (Z.to_nat size) 0) arg size;
    Some d.[summary <- summary d ++ dest]
  else None.

(** pangeafunds.c:161-164 [pangea_summary] The record is appended.  Before that the code waits for
    a key when the type is 0; behind it the code parses the record again and only prints
    complaints. Both are left out. *)
Definition pangea_summary (d : pubdata) (type : Z) (arg0 : list Z) (size0 : Z)
    (arg1 : list Z) (size1 : Z) : option pubdata :=
  d ← summary_put d [u8 type] 1;
  d ← summary_put d arg0 size0;
  summary_put d arg1 size1.

(** What [pangea_parsesummary] stores through its pointers. *)
Record parsed := mkParsed { p_type : Z; p_valA : Z; p_bits64 : list Z; p_card : bits256 }.

(** pangeafunds.c:125-125 [pangea_parsesummary] Read [n] bytes of the history at [len] over the start of [var]. *)
Definition summary_get (summary : list Z) (len : Z) (var : list Z) (n : Z) : option (list Z * Z) :=
  if len <? 0 then None
  else
    '(k, _, v) ← hostnet777_copybits 1 (drop (Z.to_nat len) summary) var n;
    Some (v, len + k).

(** pangeafunds.c:120-150 [pangea_parsesummary]: [valA] and [bits64] are the previous
    contents of the variables pointed to. *)
Definition pangea_parsesummary (valA : Z) (bits64 : list Z) (summary : list Z) (len : Z)
    : option (Z * parsed) :=
  bits64 ← memset0 bits64 8;
  '(t, len) ← summary_get summary len [0] 1;
  let type := le_val t in
  if type =? 0 then Some (-1, mkParsed type valA bits64 zero256)
  else
    '(valA, changes, len) ←
      (if (type =? CARDS777_START) || (type =? CARDS777_SNAPSHOT) then
         '(v, len) ← summary_get summary len (le_bytes 4 0) 4; Some (u64 (i32 (le_val v)), 0, len)
       else if type =? CARDS777_CHANGES then
         '(v, len) ← summary_get summary len (le_bytes 4 0) 4; Some (le_val v, le_val v, len)
       else if type =? CARDS777_RAKES then
         '(v, len) ← summary_get summary len (le_bytes 8 valA) 8; Some (le_val v, 0, len)
       else if type =? CARDS777_FACEUP then
         '(v, len) ← summary_get summary len (le_bytes 2 0) 2; Some (le_val v, 0, len)
       else
         '(v, len) ← summary_get summary len [0] 1; Some (le_val v, 0, len));
    if type =? CARDS777_FACEUP then
      '(c, len) ← summary_get summary len zero256 32; Some (len, mkParsed type valA bits64 c)
    else
      '(b, len) ← summary_get summary len bits64
        (if type =? CARDS777_START then 32 * (52 + 1)
         else if type =? CARDS777_SNAPSHOT then 8 * CARDS777_MAXPLAYERS
         else if type =? CARDS777_CHANGES then 8 * Z.land changes 0xf
         else 8);
      Some (len, mkParsed type valA b zero256).

(** The size of the [bits64] array of the callers. *)
Definition BITS64 : nat := 1768.

(** pangeafunds.c:192-230 [pangea_dispsummary]: the loop over the records; the JSON that is
    made of each record is left out.  [fuel] bounds the number of rounds. *)
Fixpoint pangea_dispsummary (fuel : nat) (valA : Z) (summary : list Z) (summarysize len : Z)
    : option (list parsed) :=
  match fuel with
  | O => None
  | S fuel' =>
      if len <? summarysize then
        '(len, p) ← pangea_parsesummary valA (replicate BITS64 0) summary len;
        rest ← pangea_dispsummary fuel' (p_valA p) summary summarysize len;
        Some (p :: rest)
      else Some []
  end.

(** ** Lemmas *)

Lemma bytes_bit_ext (a b : list Z) :
  bytes a -> bytes b -> length a = length b ->
  (forall i, 0 <= i < 8 * Z.of_nat (length a) -> bit a i = bit b i) -> a = b.
Proof.
  intros Ha Hb Hl Hbits. rewrite <- (le_bytes_val a), <- (le_bytes_val b), Hl by done. f_equal.
  apply Z.bits_inj'. intros i Hi. rewrite !le_val_testbit by done.
  destruct (Z.lt_ge_cases i (8 * Z.of_nat (length a))) as [Hlt|Hge]; [by apply Hbits|].
  unfold znth, aget. destruct (Z.leb_spec 0 (i / 8)); [|dmlia].
  by rewrite !lookup_ge_None_2 by dmlia.
Qed.

Lemma bit_app_l a b i :
  0 <= i < 8 * Z.of_nat (length a) -> bit (a ++ b) i = bit a i.
Proof.
  intros. unfold bit, znth, aget. destruct (Z.leb_spec 0 (i / 8)); [|dmlia].
  by rewrite lookup_app_l by dmlia.
Qed.

Lemma bit_app_r a b i :
  8 * Z.of_nat (length a) <= i -> bit (a ++ b) i = bit b (i - 8 * Z.of_nat (length a)).
Proof.
  intros. unfold bit, znth, aget.
  replace (i mod 8) with ((i - 8 * Z.of_nat (length a)) mod 8) by dmlia.
  repeat (zcase; [|dmlia]). rewrite lookup_app_r by dmlia.
  by replace (Z.to_nat (i / 8) - length a)%nat with (Z.to_nat ((i - 8 * Z.of_nat (length a)) / 8)) by dmlia.
Qed.

Lemma bit_replicate0 n i : 0 <= i -> bit (replicate n 0) i = false.
Proof.
  intros. unfold bit, znth, aget. zcase; [|dmlia].
  destruct (replicate n 0 !! _) as [x|] eqn:E; [|apply Z.bits_0].
  apply lookup_replicate in E as [-> _]. apply Z.bits_0.
Qed.

Lemma copybits_loop (s d : list Z) (n : nat) :
  bytes s -> bytes d -> (n <= 8 * length s)%nat -> (n <= 8 * length d)%nat ->
  (forall i, 0 <= i < Z.of_nat n -> bit d i = false) ->
  exists d', for_loopM n 0 (fun i d => g ← GETBIT s i; if truth g then SETBIT d i else Some d) d = Some d' /\
    bytes d' /\ length d' = length d /\
    forall i, 0 <= i -> bit d' i = if i <? Z.of_nat n then bit s i else bit d i.
Proof.
  intros Hs Hd Hls Hld H0.
  edestruct (for_loopM_inv (fun k d' => bytes d' /\ length d' = length d /\
      forall i, 0 <= i -> bit d' i = if i <? k then bit s i else bit d i) n 0) as (d' & Hrun & HP);
    [| |exists d'; split; [exact Hrun|exact HP]].
  - intros k t Hk (Hb & Hl & Ht). destruct (GETBIT_truth s k) as (g & -> & Hg & _); [lia|]. step.
    rewrite Hg. destruct (bit s k) eqn:Ek.
    + rewrite SETBIT_eq by (done || lia). eexists. split; [done|]. split_and!.
      * by apply bit_upd_bytes; [lia|].
      * by rewrite bit_upd_length.
      * intros i Hi. rewrite bit_bit_upd, Ht by lia. destruct (Z.eqb_spec i k) as [->|].
        -- rewrite Ek. by destruct (Z.ltb_spec k (k + 1)); [|lia].
        -- by destruct (Z.ltb_spec i k), (Z.ltb_spec i (k + 1)); try lia.
    + eexists. split; [done|]. split_and!; [done..|]. intros i Hi. rewrite Ht by done.
      destruct (Z.ltb_spec i k), (Z.ltb_spec i (k + 1)); try done; try lia.
      replace i with k by lia. rewrite Ek. apply H0. lia.
  - split_and!; try done. intros i Hi. by destruct (Z.ltb_spec i 0); [lia|].
Qed.

(** [hostnet777_copybits] is a plain copy of [len] bytes. *)
Lemma copybits_eq reverse dest src len :
  bytes dest -> bytes src -> 0 <= len < 2 ^ 28 ->
  len <= Z.of_nat (length dest) -> len <= Z.of_nat (length src) ->
  let n := Z.to_nat len in
  hostnet777_copybits reverse dest src len =
    Some (len, if truth reverse then dest else take n src ++ drop n dest,
               if truth reverse then take n dest ++ drop n src else src).
Proof.
  intros Hd Hs Hl Hld Hls n.
  assert (H : forall d s, bytes d -> bytes s -> (n <= length d)%nat -> (n <= length s)%nat ->
    (d ← memset0 d len;
     for_loopM (Z.to_nat (i32 (Z.shiftl len 3))) 0 (fun i d => g ← GETBIT s i; if truth g then SETBIT d i else Some d) d)
    = Some (take n s ++ drop n d)).
  { intros d s Hbd Hbs Hnd Hns. unfold memset0.
    replace (_ && _) with true by (symmetry; rewrite andb_true_iff, !Z.leb_le; lia). step. fold n.
    rewrite Z.shiftl_mul_pow2, swrap_small by (lia || change (2 ^ (32 - 1)) with 2147483648; change (2 ^ 3) with 8; lia).
    change (2 ^ 3) with 8.
    assert (Hb0 : bytes (replicate n 0 ++ drop n d)).
    { apply Forall_app. split; [by apply Forall_replicate|by apply Forall_drop]. }
    destruct (copybits_loop s (replicate n 0 ++ drop n d) (Z.to_nat (len * 8))) as (d' & -> & Hb' & Hl' & Ht');
      try done; try lia.
    { rewrite length_app, length_replicate. lia. }
    { intros i Hi. rewrite bit_app_l by (rewrite length_replicate; lia). apply bit_replicate0. lia. }
    rewrite length_app, length_replicate, length_drop in Hl'. f_equal.
    apply bytes_bit_ext; [done| | |].
    - apply Forall_app. split; [by apply Forall_take|by apply Forall_drop].
    - rewrite length_app, length_take, length_drop. lia.
    - intros i Hi. rewrite Ht' by lia. destruct (Z.ltb_spec i (Z.of_nat (Z.to_nat (len * 8)))).
      + rewrite bit_app_l by (rewrite length_take; lia).
        rewrite <- (take_drop n s) at 1. rewrite bit_app_l by (rewrite length_take; lia). done.
      + rewrite !bit_app_r by (rewrite ?length_replicate, ?length_take; lia).
        rewrite length_replicate, length_take. do 3 f_equal. lia. }
  unfold hostnet777_copybits.
  assert (Hret : Z.shiftr (i32 (Z.shiftl len 3)) 3 = len).
  { rewrite Z.shiftl_mul_pow2, swrap_small by (lia || change (2 ^ (32 - 1)) with 2147483648; change (2 ^ 3) with 8; lia).
    rewrite Z.shiftr_div_pow2 by lia. by apply Z.div_mul. }
  destruct (truth reverse).
  - specialize (H src dest Hs Hd ltac:(lia) ltac:(lia)).
    destruct (memset0 src len) as [m|]; [|done]. rewrite bind_Some in H. rewrite bind_Some. cbv zeta.
    by rewrite H, bind_Some, Hret.
  - specialize (H dest src Hd Hs ltac:(lia) ltac:(lia)).
    destruct (memset0 dest len) as [m|]; [|done]. rewrite bind_Some in H. rewrite bind_Some. cbv zeta.
    by rewrite H, bind_Some, Hret.
Qed.

Lemma summary_put_eq d arg :
  bytes arg -> Z.of_nat (length arg) < 2 ^ 28 ->
  Z.of_nat (length (summary d)) + Z.of_nat (length arg) <= SUMMARY_MAX ->
  summary_put d arg (Z.of_nat (length arg)) = Some d.[summary <- summary d ++ arg].
Proof.
  intros Ha Hl Hfit. unfold summary_put.
  destruct (Z.leb_spec (Z.of_nat (length (summary d)) + Z.of_nat (length arg)) SUMMARY_MAX); [|lia].
  rewrite copybits_eq; rewrite ?length_replicate; try done; try lia.
  2: by apply Forall_replicate.
  step. change (truth 0) with false. cbv iota.
  rewrite Nat2Z.id, drop_ge, app_nil_r by (rewrite length_replicate; lia).
  rewrite take_ge by lia. done.
Qed.

Lemma summary_get_eq pre a post var :
  bytes pre -> bytes a -> bytes post -> bytes var -> Z.of_nat (length a) < 2 ^ 28 ->
  (length a <= length var)%nat ->
  summary_get (pre ++ a ++ post) (Z.of_nat (length pre)) var (Z.of_nat (length a))
    = Some (a ++ drop (length a) var, Z.of_nat (length (pre ++ a))).
Proof.
  intros Hp Ha Ht Hv Hl Hfit. unfold summary_get.
  destruct (Z.ltb_spec (Z.of_nat (length pre)) 0); [lia|].
  rewrite Nat2Z.id, drop_app_length.
  rewrite copybits_eq; rewrite ?length_app; try done; try lia.
  2: by apply Forall_app.
  step. change (truth 1) with true. cbv iota. rewrite Nat2Z.id, take_app_length.
  do 2 f_equal. lia.
Qed.

(** A record of the history, as the callers of [pangea_summary] write it. *)
Inductive entry :=
  | EStart (handid : Z) (cardpubs : list Z)
  | ESnapshot (handid : Z) (balances : list Z)
  | EChanges (changes : Z) (balances : list Z)
  | ERakes (hostrake pangearake : Z)
  | EFaceup (cardi_player : Z) (card : bits256)
  | EAction (type player amount : Z).

Definition entry_type (e : entry) : Z :=
  match e with
  | EStart _ _ => CARDS777_START | ESnapshot _ _ => CARDS777_SNAPSHOT
  | EChanges _ _ => CARDS777_CHANGES | ERakes _ _ => CARDS777_RAKES
  | EFaceup _ _ => CARDS777_FACEUP | EAction t _ _ => u8 t
  end.

Definition entry_arg0 (e : entry) : list Z :=
  match e with
  | EStart h _ | ESnapshot h _ => le_bytes 4 h
  | EChanges c _ => le_bytes 4 c
  | ERakes a _ => le_bytes 8 a
  | EFaceup cp _ => le_bytes 2 cp
  | EAction _ p _ => [u8 p]
  end.

Definition entry_arg1 (e : entry) : list Z :=
  match e with
  | EStart _ l | ESnapshot _ l | EChanges _ l | EFaceup _ l => l
  | ERakes _ b => le_bytes 8 b
  | EAction _ _ a => le_bytes 8 a
  end.

Definition entry_bytes (e : entry) : list Z := entry_type e :: entry_arg0 e ++ entry_arg1 e.

(** What the parser is to report for a record. *)
Definition entry_parsed (e : entry) : parsed :=
  let payload := match e with EFaceup _ _ => replicate 8 0 | _ => entry_arg1 e end in
  mkParsed (entry_type e)
    (match e with
     | EStart h _ | ESnapshot h _ => u64 (i32 (u32 h))
     | EChanges c _ => u32 c
     | ERakes a _ => u64 a
     | EFaceup cp _ => u16 cp
     | EAction _ p _ => u8 p
     end)
    (payload ++ replicate (BITS64 - length payload) 0)
    (match e with EFaceup _ c => c | _ => zero256 end).

(** The sizes the parser assumes. *)
Definition entry_ok (e : entry) : Prop :=
  bytes (entry_arg1 e) /\
  match e with
  | EStart _ l => length l = (53 * 32)%nat
  | ESnapshot _ l => length l = 72%nat
  | EChanges c l => Z.of_nat (length l) = 8 * Z.land (u32 c) 15
  | ERakes _ _ => True
  | EFaceup _ c => length c = 32%nat
  | EAction t _ _ =>
      u8 t <> 0 /\ u8 t <> CARDS777_START /\ u8 t <> CARDS777_SNAPSHOT /\ u8 t <> CARDS777_CHANGES /\
      u8 t <> CARDS777_RAKES /\ u8 t <> CARDS777_FACEUP
  end.

Definition entry_put (d : pubdata) (e : entry) : option pubdata :=
  pangea_summary d (entry_type e) (entry_arg0 e) (Z.of_nat (length (entry_arg0 e)))
    (entry_arg1 e) (Z.of_nat (length (entry_arg1 e))).

Lemma entry_arg0_bytes e : bytes (entry_arg0 e).
Proof.
  destruct e; cbn [entry_arg0]; try apply le_bytes_bytes.
  constructor; [by apply (uwrap_range 8)|done].
Qed.

Lemma entry_type_range e : 0 <= entry_type e < 256.
Proof. destruct e; cbn [entry_type]; try done. by apply (uwrap_range 8). Qed.

Lemma land15_range x : 0 <= Z.land x 15 < 16.
Proof. change 15 with (Z.ones 4). rewrite Z.land_ones by lia. by apply Z.mod_pos_bound. Qed.

Lemma entry_arg1_len e : entry_ok e -> (length (entry_arg1 e) <= BITS64)%nat.
Proof.
  intros [_ H]. unfold BITS64. destruct e as [? ?|? ?|c ?|? ?|? ?|? ? ?];
    cbn [entry_arg1] in *; rewrite ?le_bytes_length; try lia.
  pose proof (land15_range (u32 c)). lia.
Qed.

Lemma pangea_summary_eq d e :
  entry_ok e -> Z.of_nat (length (summary d)) + Z.of_nat (length (entry_bytes e)) <= SUMMARY_MAX ->
  entry_put d e = Some d.[summary <- summary d ++ entry_bytes e].
Proof.
  intros He Hfit. pose proof (entry_arg1_len e He) as H1. pose proof He as [Hb1 _].
  pose proof (entry_arg0_bytes e) as Hb0. pose proof (entry_type_range e) as Ht.
  assert (H0 : (length (entry_arg0 e) <= 8)%nat).
  { destruct e; cbn [entry_arg0]; rewrite ?le_bytes_length; simpl; lia. }
  unfold entry_bytes in *. cbn [length] in Hfit. rewrite length_app in Hfit.
  unfold entry_put, pangea_summary, BITS64 in *. rewrite uwrap_small by exact Ht.
  change 1 with (Z.of_nat (length [entry_type e])).
  rewrite summary_put_eq; [|by constructor|simpl; lia|simpl; lia]. step.
  rewrite summary_put_eq; [|done|simpl; lia|cbn; rewrite length_app; simpl; lia]. step.
  rewrite summary_put_eq; [|done|simpl; lia|cbn; rewrite !length_app; simpl; lia].
  cbn. rewrite <- !app_assoc. done.
Qed.

Lemma summary_get_at sm pos n pre a post var :
  sm = pre ++ a ++ post -> pos = Z.of_nat (length pre) -> n = Z.of_nat (length a) ->
  bytes sm -> bytes var -> n < 2 ^ 28 -> (length a <= length var)%nat ->
  summary_get sm pos var n = Some (a ++ drop (length a) var, pos + n).
Proof.
  intros -> -> -> Hb Hv Hn Hl. rewrite !Forall_app in Hb. destruct Hb as (? & ? & ?).
  rewrite summary_get_eq by done. rewrite length_app. do 2 f_equal. lia.
Qed.

(** A variable that is read over completely. *)
Lemma summary_get_var sm pos n pre a post var :
  sm = pre ++ a ++ post -> pos = Z.of_nat (length pre) -> n = Z.of_nat (length a) ->
  bytes sm -> bytes var -> n < 2 ^ 28 -> length a = length var ->
  summary_get sm pos var n = Some (a, pos + n).
Proof.
  intros. rewrite (summary_get_at sm pos n pre a post) by (done || lia).
  by rewrite drop_ge, app_nil_r by lia.
Qed.

Lemma zeros_bytes n : bytes (replicate n 0).
Proof. by apply bytes_replicate. Qed.

Lemma BITS64_eq : Z.of_nat BITS64 = 1768.
Proof. done. Qed.

#[local] Opaque BITS64.

(** Decide the comparisons of record types in the goal. *)
Ltac types :=
  repeat match goal with
  | |- context [?a =? ?b] =>
      let r := eval vm_compute in (a =? b) in
      match r with
      | true => change (a =? b) with true
      | false => change (a =? b) with false
      end
  end; cbn [orb]; cbv iota.

Lemma pangea_parsesummary_entry v sm pre e post :
  sm = pre ++ entry_bytes e ++ post -> bytes sm -> entry_ok e ->
  pangea_parsesummary v (replicate BITS64 0) sm (Z.of_nat (length pre)) =
    Some (Z.of_nat (length pre) + Z.of_nat (length (entry_bytes e)), entry_parsed e).
Proof.
  intros Hsm Hb He. pose proof (entry_arg1_len e He) as H1. pose proof He as [Hb1 Hcase].
  pose proof (entry_arg0_bytes e) as Hb0. pose proof (entry_type_range e) as Ht.
  pose proof BITS64_eq as E64.
  unfold entry_bytes in *.
  assert (S0 : sm = pre ++ [entry_type e] ++ (entry_arg0 e ++ entry_arg1 e ++ post)).
  { rewrite Hsm. cbn. by rewrite <- app_assoc. }
  assert (S1 : sm = (pre ++ [entry_type e]) ++ entry_arg0 e ++ (entry_arg1 e ++ post)).
  { rewrite S0. by rewrite <- app_assoc. }
  assert (S2 : sm = (pre ++ [entry_type e] ++ entry_arg0 e) ++ entry_arg1 e ++ post).
  { rewrite S0. by rewrite <- !app_assoc. }
  unfold pangea_parsesummary, memset0.
  replace (_ && _) with true
    by (symmetry; rewrite andb_true_iff, !Z.leb_le, length_replicate; lia).
  step. change (Z.to_nat 8) with 8%nat.
  replace (replicate 8 0 ++ drop 8 (replicate BITS64 0)) with (replicate BITS64 0).
  2: { rewrite drop_replicate, <- replicate_add. f_equal. }
  rewrite (summary_get_var sm _ 1 pre [entry_type e] _ [0] S0) by first [done | by repeat constructor].
  step. replace (le_val [entry_type e]) with (entry_type e) by (cbn; lia). cbv zeta.
  assert (G : forall var, bytes var -> length var = length (entry_arg0 e) ->
    summary_get sm (Z.of_nat (length pre) + 1) var (Z.of_nat (length (entry_arg0 e)))
    = Some (entry_arg0 e, Z.of_nat (length pre) + 1 + Z.of_nat (length (entry_arg0 e)))).
  { intros var Hv Hl. eapply summary_get_var; try exact S1; try done.
    - rewrite length_app. simpl. lia.
    - destruct e; cbn [entry_arg0]; rewrite ?le_bytes_length; simpl; lia. }
  assert (P : forall var n, bytes var -> (length (entry_arg1 e) <= length var)%nat ->
    n = Z.of_nat (length (entry_arg1 e)) ->
    summary_get sm (Z.of_nat (length pre) + 1 + Z.of_nat (length (entry_arg0 e))) var n
    = Some (entry_arg1 e ++ drop (length (entry_arg1 e)) var,
        Z.of_nat (length pre) + 1 + Z.of_nat (length (entry_arg0 e)) + Z.of_nat (length (entry_arg1 e)))).
  { intros var n Hv Hl ->. eapply summary_get_at; try exact S2; try done; [|lia].
    rewrite !length_app. simpl. lia. }
  assert (Hlen : Z.of_nat (length pre) + 1 + Z.of_nat (length (entry_arg0 e)) + Z.of_nat (length (entry_arg1 e))
    = Z.of_nat (length pre) + Z.of_nat (length (entry_type e :: entry_arg0 e ++ entry_arg1 e))).
  { cbn [length]. rewrite length_app. lia. }
  unfold entry_parsed. rewrite <- Hlen. clear Hlen S0 S1 S2 Hsm.
  destruct e as [h l|h l|c l|a b|cp c|t p a]; cbn [entry_type entry_arg0 entry_arg1] in *;
    rewrite ?le_bytes_length in *; change (Z.of_nat 4) with 4 in *; change (Z.of_nat 8) with 8 in *;
    change (Z.of_nat 2) with 2 in *.
  - types.
    rewrite (G (le_bytes 4 0)) by (apply le_bytes_bytes || by rewrite !le_bytes_length). do 2 step.
    rewrite (P _ (32 * (52 + 1))) by (apply zeros_bytes || rewrite ?length_replicate; lia). step.
    by rewrite le_val_bytes, drop_replicate.
  - types.
    rewrite (G (le_bytes 4 0)) by (apply le_bytes_bytes || by rewrite !le_bytes_length). do 2 step.
    rewrite (P _ (8 * CARDS777_MAXPLAYERS))
      by (apply zeros_bytes || unfold CARDS777_MAXPLAYERS; rewrite ?length_replicate; lia). step.
    by rewrite le_val_bytes, drop_replicate.
  - types.
    rewrite (G (le_bytes 4 0)) by (apply le_bytes_bytes || by rewrite !le_bytes_length). do 2 step.
    rewrite le_val_bytes. rewrite (P _ (8 * Z.land (u32 c) 15))
      by (apply zeros_bytes || rewrite ?length_replicate; lia). step.
    by rewrite drop_replicate.
  - types.
    rewrite (G (le_bytes 8 v)) by (apply le_bytes_bytes || by rewrite !le_bytes_length). do 2 step.
    rewrite (P _ 8) by (apply zeros_bytes || rewrite ?length_replicate; lia). step.
    by rewrite le_val_bytes, drop_replicate.
  - types.
    rewrite (G (le_bytes 2 0)) by (apply le_bytes_bytes || by rewrite !le_bytes_length). do 2 step.
    rewrite (P zero256 32) by (apply (zeros_bytes 32) || unfold zero256; rewrite ?length_replicate; lia). step.
    rewrite le_val_bytes, (drop_ge zero256), app_nil_r by (unfold zero256; rewrite length_replicate; lia).
    rewrite length_replicate, <- replicate_add. done.
  - destruct Hcase as (T0 & T1 & T2 & T3 & T4 & T5). apply Z.eqb_neq in T0, T1, T2, T3, T4, T5.
    rewrite T0, T1, T2, T3, T4, T5. cbn [orb]. cbv iota.
    change (length [u8 p]) with 1%nat in *. change (Z.of_nat 1) with 1 in *.
    rewrite (G [0]) by (done || by repeat constructor). do 2 step.
    rewrite (P _ 8) by (apply zeros_bytes || rewrite ?length_replicate; lia). step.
    rewrite drop_replicate, ?le_bytes_length. cbn [le_val]. by rewrite Z.mul_0_r, Z.add_0_r.
Qed.

Fixpoint put_entries (d : pubdata) (l : list entry) : option pubdata :=
  match l with [] => Some d | e :: l => d ← entry_put d e; put_entries d l end.

Definition log_bytes (l : list entry) : list Z := concat (map entry_bytes l).

Lemma entry_bytes_bytes e : entry_ok e -> bytes (entry_bytes e).
Proof.
  intros [Hb _]. constructor; [apply entry_type_range|]. apply Forall_app.
  split; [apply entry_arg0_bytes|done].
Qed.

Lemma log_bytes_bytes l : Forall entry_ok l -> bytes (log_bytes l).
Proof.
  unfold log_bytes. induction 1; cbn; [constructor|]. apply (Forall_app _ (entry_bytes x)).
  split; [by apply entry_bytes_bytes|done].
Qed.

Lemma put_entries_eq l d :
  Forall entry_ok l -> Z.of_nat (length (summary d)) + Z.of_nat (length (log_bytes l)) <= SUMMARY_MAX ->
  put_entries d l = Some d.[summary <- summary d ++ log_bytes l].
Proof.
  intros H. revert d. induction H as [|e l He Hl IH]; intros d Hfit; cbn [put_entries].
  - unfold log_bytes. cbn. rewrite app_nil_r. by destruct d.
  - unfold log_bytes in *. cbn [map concat] in *. rewrite length_app in Hfit.
    rewrite pangea_summary_eq by (done || lia). step.
    rewrite IH by (cbn; rewrite length_app; lia). cbn. by rewrite <- app_assoc.
Qed.

Lemma dispsummary_log l v sm pre fuel :
  Forall entry_ok l -> bytes sm -> sm = pre ++ log_bytes l -> (length l < fuel)%nat ->
  pangea_dispsummary fuel v sm (Z.of_nat (length sm)) (Z.of_nat (length pre))
    = Some (map entry_parsed l).
Proof.
  intros H Hb. revert v pre fuel. induction H as [|e l He Hl IH]; intros v pre fuel Hsm Hf;
    (destruct fuel as [|fuel]; [simpl in Hf; lia|]); cbn [pangea_dispsummary].
  - rewrite Hsm. unfold log_bytes. cbn. rewrite app_nil_r, Z.ltb_irrefl. done.
  - unfold log_bytes in Hsm. cbn [map concat] in Hsm.
    assert (Hlen : Z.of_nat (length pre) + Z.of_nat (length (entry_bytes e)) = Z.of_nat (length (pre ++ entry_bytes e))).
    { rewrite length_app. lia. }
    destruct (Z.ltb_spec (Z.of_nat (length pre)) (Z.of_nat (length sm))) as [Hlt|Hge].
    2: { rewrite Hsm, !length_app in Hge. cbn [length entry_bytes] in Hge. unfold entry_bytes in Hge. simpl in Hge. lia. }
    rewrite (pangea_parsesummary_entry v sm pre e _ Hsm Hb He). step.
    rewrite Hlen. rewrite IH; [done| |simpl in Hf; lia].
    rewrite Hsm. unfold log_bytes. by rewrite <- app_assoc.
Qed.

(** The bytes of a header on the wire. *)
Definition header_bytes (h : header) : list Z :=
  le_bytes 8 (destbits h) ++ senderpub h ++ le_bytes 8 (senderbits h) ++ le_bytes 4 (timestamp h) ++
  (if senderbits h =? 0 then [] else sig h).

Definition header_ok (h : header) : Prop :=
  bytes (senderpub h) /\ length (senderpub h) = 32%nat /\ bytes (sig h) /\ length (sig h) = 32%nat /\
  0 <= senderbits h < 2 ^ 64 /\ 0 <= destbits h < 2 ^ 64 /\ 0 <= timestamp h < 2 ^ 32.

Lemma copy_field_put buf pos pre rest field n :
  buf = pre ++ rest -> pos = Z.of_nat (length pre) -> (length field <= length rest)%nat ->
  n = Z.of_nat (length field) -> bytes buf -> bytes field -> n < 2 ^ 28 ->
  copy_field 0 buf field n pos
    = Some ((pre ++ field) ++ drop (length field) rest, field, Z.of_nat (length (pre ++ field))).
Proof.
  intros -> -> Hl -> Hb Hf Hn. rewrite !Forall_app in Hb. destruct Hb as (? & ?).
  unfold copy_field. rewrite Nat2Z.id, drop_app_length.
  rewrite copybits_eq; try done; try lia.
  step. change (truth 0) with false. cbv iota.
  rewrite Nat2Z.id, take_app_length, (take_ge field), <- app_assoc by lia.
  do 2 f_equal. rewrite length_app. lia.
Qed.

Lemma copy_field_get buf pos pre field post var n :
  buf = pre ++ field ++ post -> pos = Z.of_nat (length pre) -> length var = length field ->
  n = Z.of_nat (length field) -> bytes buf -> bytes var -> n < 2 ^ 28 ->
  copy_field 1 buf var n pos = Some (buf, field, Z.of_nat (length (pre ++ field))).
Proof.
  intros -> -> Hl -> Hb Hf Hn. rewrite !Forall_app in Hb. destruct Hb as (? & ? & ?).
  unfold copy_field. rewrite Nat2Z.id, drop_app_length.
  rewrite copybits_eq; rewrite ?length_app; try done; try lia; [|by apply Forall_app].
  step. change (truth 1) with true. cbv iota.
  rewrite !take_app_length, Nat2Z.id, take_app_length, drop_ge, app_nil_r by lia. do 2 f_equal. lia.
Qed.

(** ** Properties *)

(** What arrives: without a sender there is no signature. *)
Definition received (h : header) : header :=
  if senderbits h =? 0
  then mkHeader (senderpub h) (senderbits h) zero256 (timestamp h) (destbits h) else h.

(** The message header survives the wire: writing it with [hostnet777_serialize] into a
    buffer that is large enough and reading the buffer back, whatever the variables held
    before, yields the same fields, the signature exactly when there is a sender; both
    directions report the size of the header, and the rest of the buffer is untouched. *)
Theorem hostnet777_serialize_roundtrip h h0 buf :
  header_ok h -> header_ok h0 -> bytes buf -> (length (header_bytes h) <= length buf)%nat ->
  let n := length (header_bytes h) in
  let buf' := header_bytes h ++ drop n buf in
  hostnet777_serialize 0 h buf = Some (Z.of_nat n, received h, buf') /\
  hostnet777_serialize 1 h0 buf' = Some (Z.of_nat n, received h, buf').
Proof.
  intros (Hp & Hlp & Hs & Hls & Hsb & Hdb & Hts) (Hp0 & Hlp0 & Hs0 & Hls0 & _) Hbuf Hfit n buf'.
  assert (Hn : n = if senderbits h =? 0 then 52%nat else 84%nat).
  { unfold n, header_bytes. rewrite !length_app, !le_bytes_length, Hlp. by destruct (_ =? _); rewrite ?Hls. }
  fold n in Hfit. rewrite Hn in Hfit.
  assert (Hval : forall k x, 0 <= x < 2 ^ (8 * Z.of_nat k) -> le_val (le_bytes k x) = x).
  { intros. rewrite le_val_bytes. by apply Z.mod_small. }
  assert (B8 : forall x, bytes (le_bytes 8 x)) by (intros; apply le_bytes_bytes).
  assert (B4 : forall x, bytes (le_bytes 4 x)) by (intros; apply le_bytes_bytes).
  assert (Hbb : bytes buf').
  { unfold buf', header_bytes. rewrite !Forall_app. split_and!; try done.
    - by destruct (_ =? _).
    - by apply Forall_drop. }
  assert (Hfitb : (52 <= length buf)%nat) by (destruct (senderbits h =? 0); lia).
  split.
  - unfold hostnet777_serialize.
    rewrite (copy_field_put buf 0 [] buf); rewrite ?le_bytes_length; try done; try lia. step.
    rewrite (copy_field_put _ _ (le_bytes 8 (destbits h)) (drop 8 buf)); try done;
      rewrite ?length_app, ?le_bytes_length, ?length_drop, ?Hlp; try lia.
    2: { rewrite Forall_app. split_and!; first [apply B8 | apply B4 | done | by apply Forall_drop]. }
    step. rewrite drop_drop. cbn [Nat.add].
    rewrite (copy_field_put _ _ (le_bytes 8 (destbits h) ++ senderpub h) (drop 40 buf)); try done;
      rewrite ?length_app, ?le_bytes_length, ?length_drop, ?Hlp; try lia.
    2: { rewrite !Forall_app. split_and!; first [apply B8 | apply B4 | done | by apply Forall_drop]. }
    step. rewrite drop_drop. cbn [Nat.add].
    rewrite (copy_field_put _ _ ((le_bytes 8 (destbits h) ++ senderpub h) ++ le_bytes 8 (senderbits h)) (drop 48 buf)); try done;
      rewrite ?length_app, ?le_bytes_length, ?length_drop, ?Hlp; try lia.
    2: { rewrite !Forall_app. split_and!; first [apply B8 | apply B4 | done | by apply Forall_drop]. }
    step. rewrite drop_drop. cbn [Nat.add]. rewrite !Hval by done.
    unfold received, buf', header_bytes. fold n. rewrite Hn.
    destruct (Z.eqb_spec (senderbits h) 0) as [E|E]; cbn [negb].
    + rewrite app_nil_r, <- !app_assoc. done.
    + rewrite (copy_field_put _ _ (((le_bytes 8 (destbits h) ++ senderpub h) ++ le_bytes 8 (senderbits h)) ++ le_bytes 4 (timestamp h)) (drop 52 buf)); try done;
      rewrite ?length_app, ?le_bytes_length, ?length_drop, ?Hlp, ?Hls; try lia.
      2: { rewrite !Forall_app. split_and!; first [apply B8 | apply B4 | done | by apply Forall_drop]. }
      step. rewrite drop_drop. cbn [Nat.add]. rewrite <- !app_assoc. by destruct h.
  - unfold hostnet777_serialize.
    set (A := le_bytes 8 (destbits h)) in *. set (P := senderpub h) in *.
    set (B := le_bytes 8 (senderbits h)) in *. set (T := le_bytes 4 (timestamp h)) in *.
    set (S := if senderbits h =? 0 then [] else sig h).
    set (R := drop n buf) in *.
    assert (E1 : buf' = [] ++ A ++ (P ++ B ++ T ++ S ++ R)) by (unfold buf', header_bytes; by rewrite <- !app_assoc).
    assert (E2 : buf' = A ++ P ++ (B ++ T ++ S ++ R)) by done.
    assert (E3 : buf' = (A ++ P) ++ B ++ (T ++ S ++ R)) by (rewrite E1; by rewrite <- !app_assoc).
    assert (E4 : buf' = ((A ++ P) ++ B) ++ T ++ (S ++ R)) by (rewrite E1; by rewrite <- !app_assoc).
    assert (LA : length A = 8%nat) by apply le_bytes_length.
    assert (LB : length B = 8%nat) by apply le_bytes_length.
    assert (LT : length T = 4%nat) by apply le_bytes_length.
    rewrite (copy_field_get _ _ _ _ _ _ _ E1); rewrite ?le_bytes_length, ?LA; try done; try apply B8. step.
    rewrite (copy_field_get _ _ _ _ _ _ _ E2); rewrite ?Hlp, ?Hlp0; try done; try lia. step.
    rewrite (copy_field_get _ _ _ _ _ _ _ E3); rewrite ?le_bytes_length, ?LB; try done; try apply B8. step.
    rewrite (copy_field_get _ _ _ _ _ _ _ E4); rewrite ?le_bytes_length, ?LT; try done; try apply B4. step.
    unfold A, B, T. rewrite !Hval by done. unfold received. rewrite Hn.
    destruct (Z.eqb_spec (senderbits h) 0) as [E|E]; cbn [negb]; [done|].
    assert (E5 : buf' = (((A ++ P) ++ B) ++ T) ++ sig h ++ R).
    { rewrite E1. unfold S. destruct (Z.eqb_spec (senderbits h) 0); [done|]. by rewrite <- !app_assoc. }
    rewrite (copy_field_get _ _ _ _ _ _ _ E5); rewrite ?Hls, ?Hls0; try done. step. by destruct h.
Qed.

Lemma hostnet777_serialize_roundtrip_witness :
  let h := mkHeader (replicate 32 7) 99 (replicate 32 8) 1446000000 (2 ^ 63) in
  let h0 := mkHeader (replicate 32 1) 2 (replicate 32 3) 4 5 in
  hostnet777_serialize 0 h (replicate 90 255) = Some (84, received h, header_bytes h ++ drop 84 (replicate 90 255)) /\
  hostnet777_serialize 1 h0 (header_bytes h ++ drop 84 (replicate 90 255))
    = Some (84, received h, header_bytes h ++ drop 84 (replicate 90 255)).
Proof.
  cbv zeta.
  apply (hostnet777_serialize_roundtrip (mkHeader (replicate 32 7) 99 (replicate 32 8) 1446000000 (2 ^ 63))
    (mkHeader (replicate 32 1) 2 (replicate 32 3) 4 5) (replicate 90 255)).
  - unfold header_ok. cbn [senderpub senderbits sig timestamp destbits].
    split_and!; try done; by apply (bytes_replicate 32).
  - unfold header_ok. cbn [senderpub senderbits sig timestamp destbits].
    split_and!; try done; by apply (bytes_replicate 32).
  - by apply (bytes_replicate 90).
  - vm_compute. lia.
Defined.

(** [C10] The hand history is read back as it was written: any sequence of records whose
    payloads have the sizes the parser assumes and that fits the buffer is appended by
    [pangea_summary], and the loop of [pangea_dispsummary] finds exactly these records,
    ending at the end of the history; one round per record is enough fuel. *)
Theorem pangea_summary_log_roundtrip d l v fuel :
  summary d = [] -> Forall entry_ok l -> Z.of_nat (length (log_bytes l)) <= SUMMARY_MAX ->
  (length l < fuel)%nat ->
  exists d', put_entries d l = Some d' /\ d' = d.[summary <- log_bytes l] /\
    pangea_dispsummary fuel v (summary d') (Z.of_nat (length (summary d'))) 0
      = Some (map entry_parsed l).
Proof.
  intros Hd Hl Hfit Hf. eexists. split; [rewrite put_entries_eq; rewrite ?Hd; done|].
  split; [done|]. cbn.
  apply (dispsummary_log l v _ []); [done| |done|done]. by apply log_bytes_bytes.
Qed.

Lemma pangea_summary_log_roundtrip_witness :
  exists d', put_entries demo_pub [ESnapshot 3 (replicate 72 1); EAction CARDS777_SMALLBLIND 1 5;
      EAction CARDS777_FOLD 2 0; EFaceup 0x0305 (replicate 32 9); EChanges 3 (replicate 24 6);
      ERakes 10 20] = Some d' /\
    d' = demo_pub.[summary <- log_bytes [ESnapshot 3 (replicate 72 1); EAction CARDS777_SMALLBLIND 1 5;
      EAction CARDS777_FOLD 2 0; EFaceup 0x0305 (replicate 32 9); EChanges 3 (replicate 24 6);
      ERakes 10 20]] /\
    pangea_dispsummary 7 0 (summary d') (Z.of_nat (length (summary d'))) 0
      = Some (map entry_parsed [ESnapshot 3 (replicate 72 1); EAction CARDS777_SMALLBLIND 1 5;
      EAction CARDS777_FOLD 2 0; EFaceup 0x0305 (replicate 32 9); EChanges 3 (replicate 24 6);
      ERakes 10 20]).
Proof.
  apply (pangea_summary_log_roundtrip demo_pub [ESnapshot 3 (replicate 72 1);
    EAction CARDS777_SMALLBLIND 1 5; EAction CARDS777_FOLD 2 0; EFaceup 0x0305 (replicate 32 9);
    EChanges 3 (replicate 24 6); ERakes 10 20] 0 7).
  - done.
  - repeat constructor; cbn [entry_arg1]; try apply le_bytes_bytes; try done;
      by apply bytes_replicate.
  - done.
  - simpl. lia.
Defined.

(** A snapshot of fewer than nine seats, as [pangea_antes] writes it, is not read back: the
    parser takes 72 bytes of balances and swallows the records that follow. *)
Example short_snapshot_swallows_next :
  let log := log_bytes [ESnapshot 3 (replicate 24 1); EAction CARDS777_SMALLBLIND 1 5;
    EAction CARDS777_BIGBLIND 2 10; EAction CARDS777_CALL 0 10; EAction CARDS777_CALL 1 5;
    EAction CARDS777_CHECK 2 0] in
  option_map fst (pangea_parsesummary 0 (replicate BITS64 0) log 0) = Some (5 + 72).
Proof. vm_compute. reflexivity. Qed.

(** A history that starts with a zero byte, as a peer may send it, makes the loop read in
    front of the buffer. *)
Lemma zero_type_reads_before_buffer rest fuel :
  bytes rest -> pangea_dispsummary fuel 0 (0 :: rest) (Z.of_nat (length (0 :: rest))) 0 = None.
Proof.
  intros Hb. assert (Hb0 : bytes (0 :: rest)) by (constructor; [lia|done]).
  destruct fuel as [|fuel]; [done|]. cbn [pangea_dispsummary].
  destruct (Z.ltb_spec 0 (Z.of_nat (length (0 :: rest)))); [|simpl in *; lia].
  unfold pangea_parsesummary at 1. destruct (memset0 _ _) as [b|]; [|done]. rewrite bind_Some.
  rewrite (summary_get_var (0 :: rest) 0 1 [] [0] rest [0]) by first [done | by repeat constructor].
  step. change (le_val [0] =? 0) with true. cbv iota zeta. step.
  destruct fuel as [|fuel]; [done|]. cbn [pangea_dispsummary].
  destruct (Z.ltb_spec (-1) (Z.of_nat (length (0 :: rest)))); [|simpl in *; lia].
  unfold pangea_parsesummary at 1. by destruct (memset0 _ _).
Qed.
