(* ===== verification/Funds.v ===== *)
(** * pangeafunds.c: chips, bets, pots and the betting rounds

    The operations act on a [node] and return [None] on undefined behaviour (an index out
    of its array, a division by zero).  [slot] is [hn->client->H.slot], the node's own seat;
    [now] is what [time(NULL)] returns; [turni], [cardi] and [senderind] are read from the
    received command.  A command that is sent is appended to [out].  Not modelled: printing,
    the JSON of the status and history displays, and the rendering of a hand as text. *)
From Stdlib Require Import ZArith Lia String.
From stdpp Require Import base list numbers option.
From S2P Require Import Prelude Bits Pangea Summary.
Open Scope Z_scope.

Definition SATOSHIDEN : Z := 100000000.
(** pangea777.c:34-34 [PANGEA_MINRAKE_MILLIS] *)
Definition PANGEA_MINRAKE_MILLIS : Z := 5.
(** pangea777.c:37-37 [PANGEA_BTCMAXRAKE] *)
Definition PANGEA_BTCMAXRAKE : Z := SATOSHIDEN / 100.
(** pangea777.c:38-38 [PANGEA_MAXRAKE] *)
Definition PANGEA_MAXRAKE : Z := 3 * SATOSHIDEN.

(** The memory of an array of 64-bit numbers. *)
Definition mem64 (l : list Z) : list Z := concat (map (le_bytes 8) l).

(** pangea777.c:260-298 [pangea_sendcmd]: the command and its destination; the JSON text
    around it and the transport are left out. *)
Definition pangea_sendcmd (slot : Z) (nd : node) (cmdstr : string) (destplayer : Z)
    (data : list Z) (cardi turni : Z) : option node :=
  _ ← pangea_ind (sp nd) slot;
  dest ← (if destplayer <? 0 then Some None
          else s ← pangea_slot (sp nd) destplayer;
               pub ← aget (playerpubs (sp nd)) s; Some (Some pub));
  Some nd.[out <- out nd ++ [Sendcmd cmdstr dest data cardi turni]].

Definition summary_add (nd : node) (type : Z) (arg0 arg1 : list Z) : option node :=
  d ← pangea_summary (dp nd) type arg0 (Z.of_nat (length arg0)) arg1 (Z.of_nat (length arg1));
  Some nd.[dp <- d].

(** pangeafunds.c:263-272 [pangea_fold] *)
Definition pangea_fold (nd : node) (player : Z) : option node :=
  let h := hand (dp nd) in
  bs ← aset (betstatus h) player CARDS777_FOLD;
  acts ← aset (actions h) player CARDS777_FOLD;
  b ← aget (bets h) player;
  summary_add
    (on_hand (fun h => h.[handmask <- u32 (Z.lor (handmask h) (Z.shiftl 1 player))]
                        .[betstatus <- bs].[actions <- acts]) nd)
    CARDS777_FOLD [u8 player] (le_bytes 8 b).

(** pangeafunds.c:274-280 [pangea_totalbet] *)
Definition pangea_totalbet (d : pubdata) : option Z :=
  for_loopM (Z.to_nat (dN d)) 0 (fun j total =>
    b ← aget (bets (hand d)) j; Some (u64 (total + b))) 0.

(** pangeafunds.c:282-296 [pangea_actives]: the count and [*activej]. *)
Definition pangea_actives (d : pubdata) : option (Z * Z) :=
  for_loopM (Z.to_nat (dN d)) 0 (fun i '(n, activej) =>
    b ← aget (betstatus (hand d)) i;
    if negb (b =? CARDS777_FOLD)
    then Some (n + 1, if activej <? 0 then i else activej) else Some (n, activej)) (0, -1).

(** pangeafunds.c:354-367 [pangea_bet] The start of [pangea_bet]: all in, or a raise that is
    too small is clipped.  The amount, the action and the new [betstatus]. *)
Definition bet_choice (h : handinfo) (player bal bet action : Z) : option (Z * Z * list Z) :=
  if (0 <? bet) && (bal <=? bet) then
    bs ← aset (betstatus h) player CARDS777_ALLIN; Some (bal, CARDS777_ALLIN, bs)
  else if (betsize h <? bet) && (lastraise h <? bet) && (bet <? i64 (Z.shiftl (lastraise h) 1))
  then Some (lastraise h, CARDS777_RAISE, betstatus h)
  else Some (bet, action, betstatus h).

(** pangeafunds.c:378-398 [pangea_bet] The raises: whether the bet is a full raise, and
    whether it raises the bet size. *)
Definition bet_decide (nd : node) (player bet action sum : Z) : Z * node :=
  let '(action, nd) :=
    if i64 (2 * lastraise (hand (dp nd))) <=? bet then
      (if action =? CARDS777_CHECK then CARDS777_FULLRAISE else action,
       on_hand (fun h => h.[lastraise <- bet].[numactions <- 0]) nd)
    else (action, nd) in
  let sum := u64 (sum + bet) in
  if u64 (betsize (hand (dp nd))) <? sum then
    let nd := on_hand (fun h => h.[numactions <- 0].[betsize <- i64 sum].[lastbettor <- player]) nd in
    if (u64 (lastraise (hand (dp nd))) <? sum) && (action =? CARDS777_ALLIN)
    then (action, on_hand (fun h => h.[lastraise <- i64 sum]) nd)
    else (if action =? CARDS777_CHECK then CARDS777_BET else action, nd)
  else (action, nd).

(** pangeafunds.c:344-407 [pangea_bet] *)
Definition pangea_bet (nd : node) (player bet action : Z) : option (Z * node) :=
  if dN (dp nd) =? 0 then None else
  let player := Z.rem player (dN (dp nd)) in
  let h := hand (dp nd) in
  status ← aget (betstatus h) player;
  if status =? CARDS777_ALLIN then Some (CARDS777_ALLIN, nd)
  else if status =? CARDS777_FOLD then Some (CARDS777_FOLD, nd)
  else
    s ← pangea_slot (sp nd) player;
    bal ← aget (balances (sp nd)) s;
    '(bet, action, bs) ← bet_choice h player bal bet action;
    let nd := on_hand (fun h => h.[betstatus <- bs]) nd in
    b ← aget (bets h) player;
    if (u64 (u64 b + bet) <? u64 (betsize h)) && negb (action =? CARDS777_ALLIN) then
      nd ← pangea_fold nd player; Some (CARDS777_FOLD, nd)
    else
      let '(action, nd) := bet_decide nd player bet action (u64 b) in
      let action := if (0 <? bet) && (action =? CARDS777_CHECK) then CARDS777_CALL else action in
      nd ← summary_add nd action [u8 player] (le_bytes 8 bet);
      s ← pangea_slot (sp nd) player;
      bal ← aget (balances (sp nd)) s;
      bals ← aset (balances (sp nd)) s (i64 (bal - bet));
      b ← aget (bets (hand (dp nd))) s;
      bts ← aset (bets (hand (dp nd))) s (i64 (b + bet));
      Some (action, on_hand (fun h => h.[bets <- bts]) (on_sp (fun i => i.[balances <- bals]) nd)).

(** pangeafunds.c:416-418 [pangea_antes] Whoever has no chips left folds. *)
Definition antes_broke (nd : node) : option node :=
  for_loopM (Z.to_nat (dN (dp nd))) 0 (fun i nd =>
    s ← pangea_slot (sp nd) i;
    bal ← aget (balances (sp nd)) s;
    if bal <=? 0 then pangea_fold nd i else Some nd) nd.

(** pangeafunds.c:421-429 [pangea_antes] Everybody but the button and the next player posts
    the ante or folds. *)
Definition antes_post (nd : node) : option node :=
  let N := dN (dp nd) in
  for_loopM (Z.to_nat N) 0 (fun i nd =>
    if negb (i =? button (dp nd)) && negb (i =? u32 (button (dp nd) + 1) mod N) then
      s ← pangea_slot (sp nd) i;
      bal ← aget (balances (sp nd)) s;
      if u64 bal <? ante (dp nd) then pangea_fold nd i
      else '(_, nd) ← pangea_bet nd i (i64 (ante (dp nd))) CARDS777_ANTE; Some nd
    else Some nd) nd.

(** pangeafunds.c:431-446 [pangea_antes] The players who can post the blinds, in the order
    of the table from the button: [n] and [actives]. *)
Definition antes_actives (nd : node) : option (Z * list Z * node) :=
  let N := dN (dp nd) in
  for_loopM (Z.to_nat N) 0 (fun i '(n, actives, nd) =>
    let j := u32 (1 + button (dp nd) + i) mod N in
    let threshold := if n =? 0 then u64 (Z.shiftr (bigblind (dp nd)) 1 - 1)
                     else if n =? 1 then u64 (bigblind (dp nd) - 1) else 0 in
    s ← pangea_slot (sp nd) j;
    bal ← aget (balances (sp nd)) s;
    if threshold <? u64 bal then
      actives ← aset actives n j; Some (n + 1, actives, nd)
    else nd ← pangea_fold nd j; Some (n, actives, nd))
    (0, replicate (Z.to_nat CARDS777_MAXPLAYERS) 0, nd).

(** pangeafunds.c:409-487 [pangea_antes] *)
Definition pangea_antes (nd : node) : option node :=
  let N := dN (dp nd) in
  snap ← copy_prefix (Z.to_nat (numaddrs (sp nd))) (balances (sp nd)) (dp_snapshot (dp nd));
  let nd := on_dp (fun d => d.[dp_snapshot <- snap]) nd in
  nd ← summary_add nd CARDS777_SNAPSHOT (le_bytes 4 (numhands (dp nd) - 1))
         (mem64 (take (Z.to_nat (numaddrs (sp nd))) snap));
  nd ← antes_broke nd;
  nd ← (if negb (ante (dp nd) =? 0) then antes_post nd else Some nd);
  '(n, actives, nd) ← antes_actives nd;
  if n <? 2 then Some nd
  else
    a0 ← aget actives 0;
    a1 ← aget actives 1;
    '(_, nd) ← pangea_bet nd a0 (i64 (Z.shiftr (bigblind (dp nd)) 1)) CARDS777_SMALLBLIND;
    let nd := on_dp (fun d => d.[button <- Z.rem (a0 + N - 1) N]) nd in
    '(_, nd) ← pangea_bet nd a1 (i64 (bigblind (dp nd))) CARDS777_BIGBLIND;
    Some nd.

(** The loop [for (i=0; i<dp->N; i++) if ( dp->hand.bets[i] != 0 ) break;]. *)
Definition first_bet (d : pubdata) : option Z :=
  r ← for_ret (Z.to_nat (dN d)) 0 (fun i _ =>
    b ← aget (bets (hand d)) i;
    if negb (b =? 0) then Some (inr i) else Some (inl tt)) tt;
  Some (match r with inl _ => dN d | inr i => i end).

(** pangeafunds.c:489-509 [pangea_checkantes] *)
Definition pangea_checkantes (nd : node) : option node :=
  i ← first_bet (dp nd);
  if (i =? dN (dp nd)) && negb (txid (checkprod (hand (dp nd))) =? 0) then
    i ← first_bet (dp nd);
    if i =? dN (dp nd) then pangea_antes nd else Some nd
  else Some nd.

(** pangeafunds.c:526-529 [pangea_addfunds] The fields of the JSON request of [pangea_addfunds]. *)
Record fundsreq := mkFunds { f_amount : Z; f_txidstr : option (list Z); f_msigaddr : option (list Z); f_vout : Z }.

(** pangeafunds.c:516-545 [pangea_addfunds]: [req] is what [cJSON_Parse] makes of the data. *)
Definition pangea_addfunds (nd : node) (data : list Z) (req : option fundsreq) (senderind : Z)
    : option (Z * node) :=
  slot ← pangea_slot (sp nd) senderind;
  '(amount, nd) ←
    (if Z.of_nat (length data) =? 8 then Some (le_val data, nd)
     else match req with
     | None => Some (0, nd)
     | Some r =>
         match f_txidstr r, f_msigaddr r with
         | Some tx, Some dest =>
             if (0 <? f_amount r) && bool_decide (dest = multisigaddr (sp nd)) then
               txs ← (if (0 <=? slot) && (slot <? Z.of_nat (length (buyintxids (sp nd))))
                      then Some (<[Z.to_nat slot := tx]> (buyintxids (sp nd))) else None);
               vs ← aset (buyinvouts (sp nd)) slot (i32 (f_vout r));
               ams ← aset (buyinamounts (sp nd)) slot (f_amount r);
               Some (f_amount r, on_sp (fun s => s.[buyintxids <- txs].[buyinvouts <- vs].[buyinamounts <- ams]) nd)
             else Some (f_amount r, nd)
         | _, _ => Some (f_amount r, nd)
         end
     end);
  bal ← aget (balances (sp nd)) slot;
  nd ← (if bal =? 0 then
          bals ← aset (balances (sp nd)) slot (i64 amount);
          Some (on_sp (fun s => s.[balances <- bals]) nd)
        else Some nd);
  nd ← pangea_checkantes nd;
  Some (0, nd).

(** ** Pots *)

(** pangeafunds.c:547-576 [pangea_winnings]: the share, [*pangearakep] and [*hostrakep]. *)
Definition pangea_winnings (total numwinners rakemillis maxrake : Z) : option (Z * Z * Z) :=
  '(split, pangearake) ←
    (if 0 <? numwinners then
       if u64 (i32 (1000 * numwinners)) =? 0 then None else
       let split := u64 (total * u64 (i32 (1000 - rakemillis))) / u64 (i32 (1000 * numwinners)) in
       let pangearake := u64 (total - u64 (split * numwinners)) in
       if maxrake <? pangearake then
         let pangearake := maxrake in
         let split := u64 (total - pangearake) / numwinners in
         Some (split, u64 (total - u64 (split * numwinners)))
       else Some (split, pangearake)
     else Some (0, total));
  if PANGEA_MINRAKE_MILLIS <? rakemillis then
    let rake := u64 (pangearake * (rakemillis - PANGEA_MINRAKE_MILLIS)) / rakemillis in
    Some (split, u64 (pangearake - rake), rake)
  else Some (split, pangearake, 0).

Definition mget (m : list (list Z)) (i j : Z) : option Z := r ← aget m i; aget r j.
Definition mset (m : list (list Z)) (i j x : Z) : option (list (list Z)) :=
  r ← aget m i; r ← aset r j x; aset m i r.

(** pangeafunds.c:591-591 [pangea_sidepots] *)
Definition folded (d : pubdata) (j : Z) : option bool :=
  b ← aget (betstatus (hand d)) j; Some (b =? CARDS777_FOLD).

(** pangeafunds.c:587-613 [pangea_sidepots] One round of the [while] loop of [pangea_sidepots]: the pots and [nonz]. *)
Definition sidepots_round (d : pubdata) (pots : list (list Z)) (n : Z)
    : option (list (list Z) * Z) :=
  let N := Z.to_nat (dN d) in
  minbet ← for_loopM N 0 (fun j minbet =>
    bet ← mget pots n j;
    if negb (bet =? 0) then
      f ← folded d j;
      Some (if negb f && ((minbet =? 0) || (bet <? minbet)) then bet else minbet)
    else Some minbet) 0;
  nonz ← for_loopM N 0 (fun j nonz =>
    bet ← mget pots n j;
    f ← folded d j;
    Some (if (minbet <? bet) && negb f then nonz + 1 else nonz)) 0;
  pots ← (if 0 <? nonz then
    for_loopM N 0 (fun j pots =>
      bet ← mget pots n j;
      if minbet <? bet then
        pots ← mset pots (n + 1) j (u64 (bet - minbet)); mset pots n j minbet
      else Some pots) pots
    else Some pots);
  Some (pots, nonz).

(** pangeafunds.c:584-616 [pangea_sidepots] *)
Fixpoint sidepots_loop (fuel : nat) (d : pubdata) (pots : list (list Z)) (n : Z)
    : option (Z * list (list Z)) :=
  match fuel with
  | O => None
  | S fuel' =>
      '(pots, nonz) ← sidepots_round d pots n;
      let n := n + 1 in
      if dN d <=? n then Some (n, pots)
      else if 0 <? nonz then sidepots_loop fuel' d pots n else Some (n, pots)
  end.

(** pangeafunds.c:578-627 [pangea_sidepots]: the loop makes at most [dp->N] rounds. *)
Definition pangea_sidepots (d : pubdata) (bets : list Z) : option (Z * list (list Z)) :=
  let zero := replicate 9 (replicate 9 0) in
  pots ← for_loopM (Z.to_nat (dN d)) 0 (fun j pots =>
    b ← aget bets j; mset pots 0 j (u64 b)) zero;
  sidepots_loop (S (Z.to_nat (dN d))) d pots 0.

(** pangeafunds.c:670-670 [pangea_splitpot] The cap on the rake of [pangea_splitpot], from the number of players who bet. *)
Definition maxrakes : list Z := [0; 0; 1; 2; 2; 3; 3; 3; 3; 3].

(** pangeafunds.c:674-681 [pangea_splitpot] *)
Definition splitpot_maxrake (d : pubdata) (n : Z) : option Z :=
  m ← aget maxrakes n;
  let cap := u64 (m * bigblind d) in
  if maxrake d <? cap then
    let cap := maxrake d in
    Some (if String.eqb (coinstr d) "BTC" && (cap <? PANGEA_BTCMAXRAKE) then PANGEA_BTCMAXRAKE
          else if cap <? PANGEA_MAXRAKE then PANGEA_MAXRAKE else cap)
  else Some cap.

(** pangeafunds.c:629-702 [pangea_splitpot]: returns the host's rake, [won], [*pangearakep]
    and the node. *)
Definition pangea_splitpot (won : list Z) (pangearakep : Z) (sidepot : list Z) (nd : node)
    (rakemillis : Z) : option (Z * list Z * Z * node) :=
  let d := dp nd in
  let N := Z.to_nat (dN d) in
  '(total, bestrank) ← for_loopM N 0 (fun j '(total, bestrank) =>
    bet ← aget sidepot j;
    if negb (bet =? 0) then
      f ← folded d j;
      r ← aget (handranks (hand d)) j;
      Some (u64 (total + bet), if negb f && (bestrank <? r) then r else bestrank)
    else Some (total, bestrank)) (0, 0);
  winners ← for_loopM N 0 (fun j winners =>
    f ← folded d j;
    bet ← aget sidepot j;
    r ← aget (handranks (hand d)) j;
    Some (if negb f && (0 <? bet) && (r =? bestrank) then winners ++ [j] else winners)) [];
  let numwinners := Z.of_nat (length winners) in
  if numwinners =? 0 then Some (0, won, pangearakep, nd)
  else
    n ← for_loopM N 0 (fun j n => b ← aget (bets (hand d)) j; Some (if 0 <? b then n + 1 else n)) 0;
    cap ← splitpot_maxrake d n;
    '(split, pangearake, rake) ← pangea_winnings total numwinners rakemillis cap;
    '(won, nd) ← foldl (fun acc w =>
      '(won, nd) ← acc;
      nd ← summary_add nd CARDS777_WINNINGS [u8 w] (le_bytes 8 split);
      s ← pangea_slot (sp nd) w;
      bal ← aget (balances (sp nd)) s;
      bals ← aset (balances (sp nd)) s (i64 (bal + split));
      x ← aget won w;
      won ← aset won w (i64 (x + split));
      Some (won, on_sp (fun i => i.[balances <- bals]) nd)) (Some (won, nd)) winners;
    Some (rake, won, u64 (pangearakep + pangearake), nd).

(** pangeafunds.c:1038-1046 [pangea_sendsummary] *)
Definition pangea_sendsummary (slot : Z) (nd : node) : option node :=
  pangea_sendcmd slot nd "summary" (-1) (summary (dp nd)) 0 0.

(** pangeafunds.c:1102-1156 [pangea_finish] *)
Definition pangea_finish (slot now : Z) (nd : node) : option node :=
  if negb (finished (hand (dp nd)) =? 0) then Some nd
  else
    '(n, pots) ← pangea_sidepots (dp nd) (bets (hand (dp nd)));
    c0 ← aget (community (hand (dp nd))) 0;
    let millis := if c0 =? 0xff then 0 else rakemillis (dp nd) in
    '(rake, pangearake, nd) ← for_loopM (Z.to_nat n) 0 (fun j '(rake, pangearake, nd) =>
      pot ← aget pots j;
      '(r, w, pangearake, nd) ← pangea_splitpot (won (hand (dp nd))) pangearake pot nd millis;
      Some (u64 (rake + r), pangearake, on_hand (fun h => h.[won <- w]) nd)) (0, 0, nd);
    let nd := on_dp (fun d => d.[dp_hostrake <- u64 (dp_hostrake d + rake)]
                               .[dp_pangearake <- u64 (dp_pangearake d + pangearake)]) nd in
    let nd := on_hand (fun h => h.[h_hostrake <- i64 rake].[h_pangearake <- i64 pangearake]
                                 .[finished <- u32 now]) nd in
    '(busted, rebuy, bals) ← for_loopM (Z.to_nat (dN (dp nd))) 0 (fun j '(busted, rebuy, bals) =>
      s ← pangea_slot (sp nd) j;
      bal ← aget (balances (sp nd)) s;
      snap ← aget (dp_snapshot (dp nd)) s;
      let bals := bals ++ [bal] in
      if (0 <? snap) && (bal <=? 0) then Some (u16 (Z.lor busted (Z.shiftl 1 j)), rebuy, bals)
      else if (snap <=? 0) && (0 <? bal) then Some (busted, u16 (Z.lor rebuy (Z.shiftl 1 j)), bals)
      else Some (busted, rebuy, bals)) (0, 0, []);
    let changes := u32 (Z.lor (Z.lor (Z.shiftl rebuy 20) (Z.shiftl busted 4)) (Z.land (dN (dp nd)) 0xf)) in
    nd ← summary_add nd CARDS777_CHANGES (le_bytes 4 changes) (mem64 bals);
    nd ← summary_add nd CARDS777_RAKES (le_bytes 8 rake) (le_bytes 8 pangearake);
    if slot =? pangea_slotA (sp nd) then pangea_sendsummary slot nd else Some nd.

(** pangeafunds.c:1158-1177 [pangea_lastman] *)
Definition pangea_lastman (slot now : Z) (nd : node) : option (Z * node) :=
  '(n, _) ← pangea_actives (dp nd);
  if negb (betstarted (hand (dp nd)) =? 0) && (n <=? 1) then
    if negb (finished (hand (dp nd)) =? 0) then Some (1, nd)
    else nd ← pangea_finish slot now nd; Some (1, nd)
  else Some (0, nd).

(** ** The betting rounds *)

(** pangeafunds.c:1264-1264 [pangea_action] The bytes of [snapshot[0..N]]. *)
Definition snapshot_bytes (nd : node) : list Z :=
  mem64 (take (Z.to_nat (dN (dp nd) + 1)) (h_snapshot (hand (dp nd)))).

(** pangeafunds.c:1179-1218 [pangea_startbets] *)
Definition pangea_startbets (slot : Z) (nd : node) (cardi_ : Z) : option node :=
  let N := dN (dp nd) in
  if N =? 0 then None else
  let nd := on_hand (fun h =>
    h.[betstarted <- if betstarted h =? 0 then 1 else u32 (betstarted h + 1)]
     .[numactions <- 0].[cardi <- u32 cardi_].[actions <- replicate 9 0]
     .[turnis <- replicate 9 (-1)].[undergun <- u8 (u32 (button (dp nd) + 3) mod N)]) nd in
  nd ← (if N * 2 <? cardi_ then
          snap ← copy_prefix (Z.to_nat N) (bets (hand (dp nd))) (h_snapshot (hand (dp nd)));
          Some (on_hand (fun h => h.[h_snapshot <- snap]) nd)
        else pangea_checkantes nd);
  snap ← aset (h_snapshot (hand (dp nd))) N (betsize (hand (dp nd)));
  let nd := on_hand (fun h => h.[h_snapshot <- snap]) nd in
  pangea_sendcmd slot nd "turn" (-1) (snapshot_bytes nd) cardi_ (undergun (hand (dp nd))).

(** pangeafunds.c:951-953 [pangea_turn] The largest of the first [N] bets, as an unsigned number. *)
Definition max_bet (d : pubdata) : option Z :=
  for_loopM (Z.to_nat (dN d)) 0 (fun i betsize =>
    b ← aget (bets (hand d)) i; Some (if betsize <? u64 b then u64 b else betsize)) 0.

(** pangeafunds.c:934-960 [pangea_turn] *)
Definition pangea_turn (slot : Z) (nd : node) (turni cardi_ senderind : Z) : option (Z * node) :=
  ts ← aset (turnis (hand (dp nd))) senderind (i8 turni);
  let nd := on_hand (fun h => h.[turnis <- ts]) nd in
  if senderind =? 0 then
    let nd := on_hand (fun h => h.[cardi <- u32 cardi_].[betstarted <- 1].[undergun <- u8 turni]) nd in
    if negb (slot =? pangea_slotA (sp nd)) then
      nd ← pangea_checkantes nd;
      snap ← copy_prefix (Z.to_nat (dN (dp nd))) (bets (hand (dp nd))) (h_snapshot (hand (dp nd)));
      betsize ← max_bet (dp nd);
      snap ← aset snap (dN (dp nd)) (i64 betsize);
      let nd := on_hand (fun h => h.[h_snapshot <- snap]) nd in
      nd ← pangea_sendcmd slot nd "confirmturn" (-1) (snapshot_bytes nd) cardi_ turni;
      Some (0, nd)
    else Some (0, nd)
  else Some (0, nd).

(** pangeafunds.c:704-753 [pangea_bot]: [rnd] are the values [rand()] returns, in order. *)
Definition pangea_bot (slot : Z) (nd : node) (cardi_ betsize_ : Z) (rnd1 rnd2 : Z) : option (Z * node) :=
  ind ← pangea_ind (sp nd) slot;
  b ← aget (bets (hand (dp nd))) ind;
  bal ← aget (balances (sp nd)) slot;
  let sum := u64 b in
  '(n, _) ← pangea_actives (dp nd);
  let r := Z.rem rnd1 100 in
  '(amount, action) ←
    (if r <? 1 then Some (u64 bal, CARDS777_ALLIN)
     else
       '(amount, action) ←
         (if betsize_ =? sum then
            if n =? 0 then None
            else if r <? Z.quot 100 n then
              let amount := u64 (lastraise (hand (dp nd))) in
              Some (if Z.rem rnd2 100 <? 10 then u64 (Z.shiftl amount 1) else amount, 1)
            else Some (0, 0)
          else if sum <? betsize_ then
            let amount := u64 (betsize_ - sum) in
            total ← pangea_totalbet (dp nd);
            if u64 (1 + total) =? 0 then None else
            let threshold := u64 (300 * amount) / u64 (1 + total) in
            let n := n + 1 in
            let raise := u64 (i64 (lastraise (hand (dp nd)) * 2)) in
            if threshold <? u64 (Z.quot r n) then
              if (u64 (3 * threshold) <? u64 (Z.quot r n)) && (amount <? raise)
              then Some (raise, 2) else Some (amount, 1)
            else if (amount <? sum / 10) || (amount <=? SATOSHIDEN) then Some (amount, CARDS777_CALL)
            else Some (0, CARDS777_FOLD)
          else Some (0, 0));
       Some (if u64 bal <? amount then (u64 bal, CARDS777_ALLIN) else (amount, action)));
  nd ← pangea_sendcmd slot nd "action" (-1) (le_bytes 8 amount) cardi_ action;
  Some (amount, nd).

(** pangeafunds.c:982-982 [pangea_confirmturn] The numbers of an array of 64-bit integers in memory. *)
Fixpoint read64 (n : nat) (data : list Z) : option (list Z) :=
  match n with
  | O => Some []
  | S n' =>
      if (8 <=? Z.of_nat (length data)) then
        rest ← read64 n' (drop 8 data); Some (i64 (le_val (take 8 data)) :: rest)
      else None
  end.

(** pangeafunds.c:962-1036 [pangea_confirmturn] *)
Definition pangea_confirmturn (slot now rnd1 rnd2 : Z) (nd : node) (data : option (list Z))
    (turni cardi_ senderind : Z) : option (Z * node) :=
  match data with
  | None => Some (-1, nd)
  | Some data =>
      let N := dN (dp nd) in
      '(betsize_, nd) ←
        (if (senderind =? 0) && negb (slot =? pangea_slotA (sp nd)) then
           let nd := on_hand (fun h => h.[undergun <- u8 turni].[cardi <- u32 cardi_]) nd in
           l ← read64 (Z.to_nat (N + 1)) data;
           let nd := on_hand (fun h => h.[h_snapshot <- l ++ drop (length l) (h_snapshot h)]) nd in
           m ← max_bet (dp nd);
           Some (m, on_hand (fun h => h.[betsize <- i64 m]) nd)
         else Some (0, nd));
      ts ← aset (turnis (hand (dp nd))) senderind (i8 turni);
      let nd := on_hand (fun h => h.[turnis <- ts]) nd in
      r ← for_ret (Z.to_nat N) 0 (fun i _ =>
        t ← aget (turnis (hand (dp nd))) i;
        if negb (t =? turni) then Some (inr i) else Some (inl tt)) tt;
      let agreed := match r with inl _ => true | inr _ => false end in
      '(betsize_, nd) ←
        (if (slot =? pangea_slotA (sp nd)) && agreed then
           m ← max_bet (dp nd);
           snap ← aset (h_snapshot (hand (dp nd))) N (i64 m);
           let nd := on_hand (fun h => h.[h_snapshot <- snap].[betsize <- i64 m]) nd in
           nd ← (if negb (senderind =? 0) then
                   pangea_sendcmd slot nd "confirmturn" (-1) (snapshot_bytes nd)
                     (cardi (hand (dp nd))) (undergun (hand (dp nd)))
                 else Some nd);
           Some (m, nd)
         else Some (betsize_, nd));
      me ← pangea_ind (sp nd) slot;
      if (senderind =? 0) && (undergun (hand (dp nd)) =? me) then
        bot ← aget (isbot (sp nd)) slot;
        if negb (bot =? 0) then
          '(_, nd) ← pangea_bot slot nd cardi_ betsize_ rnd1 rnd2; Some (0, nd)
        else
          st ← aget (betstatus (hand (dp nd))) me;
          if (st =? CARDS777_FOLD) || (st =? CARDS777_ALLIN) || negb (autofold (priv nd) =? 0) then
            nd ← pangea_sendcmd slot nd "action" (-1) (le_bytes 8 0) cardi_ 0; Some (0, nd)
          else Some (0, on_hand (fun h => h.[userinput_starttime <- u32 now].[cardi <- u32 cardi_]
                                           .[betsize <- i64 betsize_]) nd)
      else Some (0, nd)
  end.

(** pangeafunds.c:1283-1285 [pangea_action] The "decoded" request for the community card [c]: the final cipher and zeros. *)
Definition send_decoded (slot : Z) (nd : node) (c : Z) : option node :=
  let N := dN (dp nd) in
  let i := c * N + 0 in
  f ← (if 0 <=? i then final (hand (dp nd)) !! Z.to_nat i else None);
  pangea_sendcmd slot nd "decoded" (-1) (f ++ replicate (Z.to_nat (32 * (N - 1))) 0) c (N - 1).

(** pangeafunds.c:1249-1259 [pangea_action] Skip the players who cannot act: undergun [j], the new [actions] and [numactions]. *)
Definition skip_players (d : pubdata) : option (Z * list Z * Z) :=
  r ← for_ret (Z.to_nat (dN d)) 0 (fun i '(_, acts, k) =>
    let j := Z.rem (undergun (hand d) + i) (dN d) in
    st ← aget (betstatus (hand d)) j;
    if (st =? CARDS777_FOLD) || (st =? CARDS777_ALLIN) then
      acts ← aset acts j st; Some (inl (j, acts, u8 (k + 1)))
    else Some (inr (j, acts, k))) (0, actions (hand d), numactions (hand d));
  Some (match r with inl x | inr x => x end).

(** pangeafunds.c:1315-1320 [pangea_action] The first player from [lastbettor] on who has not folded. *)
Definition showdown_first (d : pubdata) : option Z :=
  r ← for_ret (Z.to_nat (dN d)) 0 (fun i _ =>
    let j := u32 (lastbettor (hand d) + i) mod dN d in
    f ← folded d j;
    if f : bool then Some (inl j) else Some (inr j)) 0;
  Some (match r with inl j | inr j => j end).

(** pangeafunds.c:1268-1273 [pangea_action] The number of community cards on the table. *)
Definition community_count (d : pubdata) : option Z :=
  r ← for_ret 5 0 (fun i _ =>
    c ← aget (community (hand d)) i;
    if c =? 0xff then Some (inr i) else Some (inl tt)) tt;
  Some (match r with inl _ => 5 | inr i => i end).

(** pangeafunds.c:1220-1334 [pangea_action]: [turni] is the action. *)
Definition pangea_action (slot now : Z) (nd : node) (data : list Z) (turni cardi_ senderind : Z)
    : option (Z * node) :=
  if Z.of_nat (length data) <? 8 then None else
  let amount := le_val (take 8 data) in
  if negb (senderind =? undergun (hand (dp nd))) then Some (-1, nd)
  else
    '(_, nd) ← pangea_bet nd senderind (i64 amount) CARDS777_CHECK;
    acts ← aset (actions (hand (dp nd))) senderind (i8 turni);
    let N := dN (dp nd) in
    if N =? 0 then None else
    let nd := on_hand (fun h => h.[actions <- acts].[undergun <- u8 (Z.rem (undergun h + 1) N)]
                                 .[numactions <- u8 (numactions h + 1)]) nd in
    '(last, nd) ← pangea_lastman slot now nd;
    if 0 <? last then Some (0, nd)
    else if slot =? pangea_slotA (sp nd) then
      '(j, acts, k) ← skip_players (dp nd);
      let nd := on_hand (fun h => h.[actions <- acts].[numactions <- k].[undergun <- u8 j]) nd in
      let h := hand (dp nd) in
      if numactions h <? N then
        nd ← pangea_sendcmd slot nd "turn" (-1) (snapshot_bytes nd) (cardi h) (undergun h);
        Some (0, nd)
      else
        i ← community_count (dp nd);
        let c := i32 (cardi h) in
        if i =? 0 then
          nd ← for_loopM 3 0 (fun k nd => send_decoded slot nd (c + k)) nd; Some (0, nd)
        else if (i =? 3) || (i =? 4) then
          nd ← send_decoded slot nd c; Some (0, nd)
        else
          j ← showdown_first (dp nd);
          let nd := on_hand (fun h => h.[undergun <- u8 j]) nd in
          nd ← pangea_sendcmd slot nd "showdown" (-1) (le_bytes 8 (betsize h)) (N * 2 + 5)
                 (undergun (hand (dp nd)));
          Some (0, nd)
    else Some (0, nd).

(** pangeafunds.c:1336-1343 [pangea_myrank] *)
Definition pangea_myrank (d : pubdata) (senderind : Z) : option Z :=
  myrank ← aget (handranks (hand d)) senderind;
  r ← for_ret (Z.to_nat (dN d)) 0 (fun i _ =>
    r ← aget (handranks (hand d)) i;
    if negb (i =? senderind) && (myrank <? r) then Some (inr tt) else Some (inl tt)) tt;
  Some (match r with inl _ => c_bool (negb (myrank =? 0)) | inr _ => -1 end).

(** pangeafunds.c:1367-1377 [pangea_showdown] The loop of [pangea_showdown] that moves on to the next player: the hand, and whether
    everybody was asked. *)
Definition showdown_next (d : pubdata) : option (Z * bool) :=
  r ← for_ret (Z.to_nat (dN d)) 0 (fun _ ug =>
    let ug := u8 (Z.rem (ug + 1) (dN d)) in
    if ug =? lastbettor (hand d) then Some (inr (ug, true))
    else f ← folded d ug; if f : bool then Some (inl ug) else Some (inr (ug, false)))
    (undergun (hand d));
  Some (match r with inl ug => (ug, false) | inr x => x end).

(** pangeafunds.c:1345-1382 [pangea_showdown] *)
Definition pangea_showdown (slot now : Z) (nd : node) (turni cardi_ senderind : Z) : option (Z * node) :=
  me ← pangea_ind (sp nd) slot;
  let h := hand (dp nd) in
  st ← aget (betstatus h) me;
  act ← aget (actions h) me;
  nd ← (if negb (st =? CARDS777_FOLD) &&
           ((negb (autoshow (priv nd) =? 0) && negb (act =? CARDS777_SENTCARDS))
            || ((turni =? me) && (lastbettor h =? u32 me))) then
    rank ← pangea_myrank (dp nd) me;
    if (autoshow (priv nd) =? 0) && (rank <? 0) then
      pangea_sendcmd slot nd "action" (-1) (le_bytes 8 0) cardi_ CARDS777_FOLD
    else
      c0 ← holecards (priv nd) !! 0%nat;
      c1 ← holecards (priv nd) !! 1%nat;
      i0 ← aget (cardis (priv nd)) 0;
      i1 ← aget (cardis (priv nd)) 1;
      nd ← pangea_sendcmd slot nd "faceup" (-1) c0 i0 me;
      nd ← pangea_sendcmd slot nd "faceup" (-1) c1 i1 me;
      acts ← aset (actions (hand (dp nd))) me CARDS777_SENTCARDS;
      Some (on_hand (fun h => h.[actions <- acts]) nd)
    else Some nd);
  '(last, nd) ← pangea_lastman slot now nd;
  if 0 <? last then Some (0, nd)
  else if (slot =? pangea_slotA (sp nd)) && negb (senderind =? 0) then
    '(ug, all) ← showdown_next (dp nd);
    let nd := on_hand (fun h => h.[undergun <- ug]) nd in
    if all : bool then Some (0, nd)
    else nd ← pangea_sendcmd slot nd "showdown" (-1) (le_bytes 8 (betsize (hand (dp nd)))) cardi_
                (undergun (hand (dp nd)));
         Some (0, nd)
  else Some (0, nd).

(** pangeafunds.c:1403-1403 [pangea_input] A decimal request of the player's own client. *)
Inductive userinput := UCheck | UCall | UBet | URaise | UAllin | UFold | UOther.

(** pangeafunds.c:1384-1450 [pangea_input]: the amount and the action that are sent, or the
    error reply; [amt] is the amount of the request, [act0] the contents of [action] before
    it is assigned (some branches leave it so). *)
Definition pangea_input (slot : Z) (nd : node) (cmd : userinput) (amt act0 : Z) : option (sum string node) :=
  let s := sp nd in
  let h := hand (dp nd) in
  me ← pangea_ind s (myslot s);
  if negb (undergun h =? me) || (betsize h =? 0) then Some (inl "not your turn"%string)
  else match cmd with
  | UOther => Some (inl "illegal action specified"%string)
  | _ =>
      b ← aget (bets h) me;
      bal ← aget (balances s) (myslot s);
      let sum := u64 b in
      let '(amount, action) :=
        match cmd with
        | UAllin => (u64 bal, CARDS777_ALLIN)
        | UBet => (u64 amt, 1)
        | _ =>
            if u64 (betsize h) =? sum then
              match cmd with
              | UCheck | UCall => (0, 0)
              | URaise => (Z.max (u64 (lastraise h)) (u64 amt), 1)
              | _ => (0, act0)
              end
            else
              match cmd with
              | UCheck | UCall => (u64 (betsize h - sum), 1)
              | URaise => (Z.max (Z.max (u64 (betsize h - sum)) (u64 (lastraise h))) (u64 amt), 2)
              | UFold => (0, 0)
              | _ => (0, act0)
              end
        end in
      let '(amount, action) := if u64 bal <? amount then (u64 bal, CARDS777_ALLIN) else (amount, action) in
      nd ← pangea_sendcmd slot nd "action" (-1) (le_bytes 8 amount) (cardi h) action;
      Some (inr nd)
  end.

(** ** The shares of a pot *)

Lemma winnings_spec total w millis cap :
  0 <= total < 2 ^ 53 -> 1 <= w <= 9 -> 0 <= millis <= 1000 -> 0 <= cap ->
  exists split pr hr, pangea_winnings total w millis cap = Some (split, pr, hr) /\
    0 <= split /\ 0 <= pr /\ 0 <= hr /\ split * w + pr + hr = total /\
    pr + hr <= cap + w - 1 /\
    hr = (if 5 <? millis then (pr + hr) * (millis - 5) / millis else 0) /\
    (millis = 0 -> pr < w).
Proof.
  intros Ht Hw Hmil Hcap. change (2 ^ 53) with 9007199254740992 in Ht.
  unfold pangea_winnings. destruct (Z.ltb_spec 0 w); [|lia].
  rewrite (swrap_small 32 (1000 * w)), (swrap_small 32 (1000 - millis))
    by (lia || change (2 ^ (32 - 1)) with 2147483648; lia).
  assert (U : forall x, 0 <= x < 2 ^ 63 -> u64 x = x).
  { intros. apply uwrap_small. change (2 ^ 63) with 9223372036854775808 in *.
    change (2 ^ 64) with 18446744073709551616. lia. }
  change (2 ^ 63) with 9223372036854775808 in U.
  rewrite !(U (1000 * w)), (U (1000 - millis)) by lia.
  destruct (Z.eqb_spec (1000 * w) 0); [lia|].
  rewrite (U (total * (1000 - millis))) by nia.
  set (s1 := total * (1000 - millis) / (1000 * w)).
  assert (Hs1 : 0 <= s1 /\ s1 * w <= total).
  { assert (0 <= total * (1000 - millis)) by nia.
    split; [apply Z.div_pos; lia|].
    pose proof (Z.mul_div_le (total * (1000 - millis)) (1000 * w) ltac:(lia)) as Hle.
    fold s1 in Hle. nia. }
  rewrite (U (s1 * w)), (U (total - s1 * w)) by lia.
  assert (Hfin : forall sp pr, 0 <= sp -> 0 <= pr -> sp * w + pr = total -> pr <= cap + w - 1 ->
    (millis = 0 -> pr < w) ->
    exists split pr' hr, (if PANGEA_MINRAKE_MILLIS <? millis
       then Some (sp, u64 (pr - u64 (pr * (millis - PANGEA_MINRAKE_MILLIS)) / millis),
                  u64 (pr * (millis - PANGEA_MINRAKE_MILLIS)) / millis)
       else Some (sp, pr, 0)) = Some (split, pr', hr) /\
      0 <= split /\ 0 <= pr' /\ 0 <= hr /\ split * w + pr' + hr = total /\ pr' + hr <= cap + w - 1 /\
      hr = (if 5 <? millis then (pr' + hr) * (millis - 5) / millis else 0) /\ (millis = 0 -> pr' < w)).
  { intros sp pr H1 H2 H3 H4 H5. unfold PANGEA_MINRAKE_MILLIS.
    destruct (Z.ltb_spec 5 millis) as [Hlt|Hge].
    - assert (pr <= total) by nia. rewrite (U (pr * (millis - 5))) by nia.
      set (hr := pr * (millis - 5) / millis).
      assert (0 <= hr <= pr).
      { split; [apply Z.div_pos; nia|]. apply Z.div_le_upper_bound; nia. }
      rewrite (U (pr - hr)) by lia. do 3 eexists. split; [done|]. split_and!; try lia.
      replace (pr - hr + hr) with pr by lia. done.
    - do 3 eexists. split; [done|]. split_and!; lia || done. }
  destruct (Z.ltb_spec cap (total - s1 * w)) as [Hclip|Hnoclip].
  - rewrite (U (total - cap)) by lia. set (s2 := (total - cap) / w).
    assert (Hs2 : 0 <= s2 /\ w * s2 <= total - cap < w * s2 + w).
    { split; [apply Z.div_pos; lia|].
      pose proof (Z.mul_div_le (total - cap) w ltac:(lia)) as Hlo.
      pose proof (Z.mul_succ_div_gt (total - cap) w ltac:(lia)) as Hhi. fold s2 in Hlo, Hhi. lia. }
    rewrite (U (s2 * w)), (U (total - s2 * w)) by lia. step. apply Hfin; try lia.
    intros ->. assert (s1 = total / w) as E.
    { unfold s1. by rewrite Z.sub_0_r, (Z.mul_comm total), Z.div_mul_cancel_l by lia. }
    pose proof (Z.mul_succ_div_gt total w ltac:(lia)) as Hrem. rewrite <- E in Hrem.
    assert (s1 <= s2) by (apply Z.div_le_lower_bound; lia). nia.
  - step. apply Hfin; try lia.
    intros ->. unfold s1. rewrite Z.sub_0_r, (Z.mul_comm total), Z.div_mul_cancel_l by lia.
    pose proof (Z.mul_succ_div_gt total w ltac:(lia)). lia.
Qed.

(** The shares of a pot.  For a pot below 2^53 and up to nine winners
    [pangea_winnings] shares it out completely: the winners' equal shares and the two rakes
    add up to the pot, nothing is negative, the rakes together exceed the cap by less than
    one unit per winner, the host gets its part of the rake above [PANGEA_MINRAKE_MILLIS],
    and without a rake only the remainder of the division is kept back. *)
Theorem pangea_winnings_exact total w millis cap :
  0 <= total < 2 ^ 53 -> 1 <= w <= 9 -> 0 <= millis <= 1000 -> 0 <= cap ->
  exists split pr hr, pangea_winnings total w millis cap = Some (split, pr, hr) /\
    0 <= split /\ 0 <= pr /\ 0 <= hr /\ split * w + pr + hr = total /\
    pr + hr <= cap + w - 1 /\
    hr = (if PANGEA_MINRAKE_MILLIS <? millis
          then (pr + hr) * (millis - PANGEA_MINRAKE_MILLIS) / millis else 0) /\
    (millis = 0 -> pr < w).
Proof. apply winnings_spec. Qed.

Lemma pangea_winnings_exact_witness :
  exists split pr hr, pangea_winnings 1000 3 25 20 = Some (split, pr, hr) /\
    0 <= split /\ 0 <= pr /\ 0 <= hr /\ split * 3 + pr + hr = 1000 /\
    pr + hr <= 20 + 3 - 1 /\
    hr = (if PANGEA_MINRAKE_MILLIS <? 25
          then (pr + hr) * (25 - PANGEA_MINRAKE_MILLIS) / 25 else 0) /\
    (25 = 0 -> pr < 3).
Proof. apply (pangea_winnings_exact 1000 3 25 20); done. Defined.
