(* ===== verification/FundsPots.v ===== *)
(** * pangeafunds.c: correctness of the side pots and of the payout

    The bets of a hand are cut into layers: each side pot takes the same stake from every
    player who is still in the hand and can match it.  The layers add up to the bets, and a
    pot is shared out completely between its winners and the rakes. *)
From Stdlib Require Import ZArith Lia String.
From stdpp Require Import base list numbers option.
From S2P Require Import Prelude Bits Pangea Summary Funds.
Open Scope Z_scope.

(** ** Matrices of nine by nine *)

Definition mwf (m : list (list Z)) : Prop := length m = 9%nat /\ Forall (fun r : list Z => length r = 9%nat) m.
Definition mz (m : list (list Z)) (i j : Z) : Z := default 0 (mget m i j).

Lemma mwf_row m i : mwf m -> 0 <= i < 9 -> exists r, aget m i = Some r /\ length r = 9%nat.
Proof.
  intros [Hl Hr] Hi. destruct (aget_range m i) as [r E]; [lia|]. exists r. split; [done|].
  apply aget_Some in E as [_ E]. by eapply Forall_lookup_1 in Hr.
Qed.

Lemma mget_eq m i j : mwf m -> 0 <= i < 9 -> 0 <= j < 9 -> mget m i j = Some (mz m i j).
Proof.
  intros Hm Hi Hj. unfold mz. destruct (mwf_row m i Hm Hi) as (r & E & Hl).
  unfold mget. rewrite E. step. by rewrite aget_znth by lia.
Qed.

Lemma mset_eq m i j x :
  mwf m -> 0 <= i < 9 -> 0 <= j < 9 ->
  exists m', mset m i j x = Some m' /\ mwf m' /\
    forall a b, 0 <= a < 9 -> 0 <= b < 9 ->
      mz m' a b = if (a =? i) && (b =? j) then x else mz m a b.
Proof.
  intros Hm Hi Hj. destruct (mwf_row m i Hm Hi) as (r & E & Hl). pose proof Hm as [Hl1 Hr].
  unfold mset. rewrite E. step. rewrite aset_zput by lia. step. rewrite aset_zput by lia.
  eexists. split; [done|]. split.
  - split; [by rewrite zput_length|]. apply Forall_zput; [done|]. by rewrite zput_length.
  - intros a b Ha Hb. unfold mz, mget. rewrite aget_zput by lia. rewrite (Z.eqb_sym i a).
    destruct (Z.eqb_spec a i) as [->|]; cbn [andb].
    + step. rewrite aget_zput by lia. rewrite (Z.eqb_sym j b). rewrite E. step.
      by destruct (b =? j).
    + done.
Qed.

(** ** The minimum of a layer *)

(** Split an index below [S n] into the last one and the others. *)
Ltac snoc_case :=
  let j := fresh "j" in let Hj := fresh "Hj" in
  intros j Hj; match type of Hj with 0 <= _ < Z.of_nat (S ?n) =>
    destruct (Z.eq_dec j (Z.of_nat n)) as [->|]; [|assert (0 <= j < Z.of_nat n) by lia] end.

Section Layer.
Context (d : pubdata) (N : nat).
Context (HN : dN d = Z.of_nat N) (HN9 : (N <= 9)%nat).
Context (Hst : length (betstatus (hand d)) = 9%nat).

(** The players who have not folded. *)
Definition live (j : Z) : bool := negb (znth (betstatus (hand d)) j =? CARDS777_FOLD).

Lemma folded_eq j : 0 <= j < 9 -> folded d j = Some (negb (live j)).
Proof. intros. unfold folded, live. rewrite aget_znth by lia. step. by rewrite negb_involutive. Qed.

(** The loop for [minbet], over a layer given as a function. *)
Definition layer_min (f : Z -> Z) (n : nat) : Z :=
  for_loop n 0 (fun j m =>
    if negb (f j =? 0) then (if live j && ((m =? 0) || (f j <? m)) then f j else m) else m) 0.

Lemma layer_min_spec f n :
  (forall j, 0 <= j < Z.of_nat n -> 0 <= f j) ->
  let m := layer_min f n in
  0 <= m /\
  (m = 0 -> forall j, 0 <= j < Z.of_nat n -> live j = true -> f j = 0) /\
  (forall j, 0 <= j < Z.of_nat n -> live j = true -> f j <> 0 -> m <= f j) /\
  (m <> 0 -> exists j, 0 <= j < Z.of_nat n /\ live j = true /\ f j = m).
Proof.
  intros Hf. induction n as [|n IH]; cbv zeta in *; [|specialize (IH ltac:(intros; apply Hf; lia))].
  - split_and!; try done; lia.
  - unfold layer_min in *. rewrite for_loop_snoc, Z.add_0_l.
    match goal with |- context [for_loop n 0 ?b 0] => set (m := for_loop n 0 b 0) in * end.
    destruct IH as (H0 & H1 & H2 & H3). pose proof (Hf (Z.of_nat n) ltac:(lia)).
    assert (Hex : (exists j, 0 <= j < Z.of_nat n /\ live j = true /\ f j = m) ->
      exists j, 0 <= j < Z.of_nat (S n) /\ live j = true /\ f j = m).
    { intros (j & ? & ? & ?). exists j. split; [lia|done]. }
    destruct (Z.eqb_spec (f (Z.of_nat n)) 0) as [E|E]; cbn [negb].
    { split_and!; [done| | |intros; apply Hex; auto].
      - intros Hm. snoc_case; auto.
      - snoc_case; auto. lia. }
    destruct (live (Z.of_nat n)) eqn:L; cbn [andb].
    2: { split_and!; [done| | |intros; apply Hex; auto].
      - intros Hm. snoc_case; auto. congruence.
      - snoc_case; auto. congruence. }
    destruct (Z.eqb_spec m 0) as [Em|Em]; cbn [orb];
      [|destruct (Z.ltb_spec (f (Z.of_nat n)) m)].
    + split_and!; [done|lia| |].
      * snoc_case; [lia|]. intros Lj Fj. destruct Fj. by apply H1.
      * intros _. exists (Z.of_nat n). split; [lia|done].
    + split_and!; [done|lia| |].
      * snoc_case; [lia|]. intros Lj Fj. pose proof (H2 j ltac:(lia) Lj Fj). lia.
      * intros _. exists (Z.of_nat n). split; [lia|done].
    + split_and!; [done|lia| |intros; apply Hex; auto].
      snoc_case; auto.
Qed.

(** The number of live players with a stake in a layer. *)
Definition stakes (f : Z -> Z) : Z := zsum N (fun j => c_bool (live j && (0 <? f j))).

(** Live players whose stake exceeds the minimum. *)
Definition above (f : Z -> Z) (m : Z) : Z := zsum N (fun j => c_bool ((m <? f j) && live j)).

Lemma above_pos f m : 0 < above f m <-> exists j, 0 <= j < Z.of_nat N /\ m < f j /\ live j = true.
Proof.
  unfold above. split.
  - intros H. apply zsum_count_pos in H as (j & Hj & Hb). apply andb_true_iff in Hb as [Hm L].
    apply Z.ltb_lt in Hm. eauto.
  - intros (j & Hj & Hm & L).
    pose proof (zsum_term N (fun j => c_bool ((m <? f j) && live j)) j) as H. cbv beta in H.
    rewrite L in H. destruct (Z.ltb_spec m (f j)); [|lia]. simpl in H.
    assert (1 <= above f m); [|unfold above in *; lia]. apply H; [|done].
    intros. apply c_bool_range.
Qed.
Lemma above_loop f m :
  for_loop N 0 (fun j c => if (m <? f j) && live j then c + 1 else c) 0 = above f m.
Proof.
  unfold above. clear HN HN9 Hst. induction N as [|n' IH]; [done|].
  rewrite for_loop_snoc, zsum_S, IH, Z.add_0_l. destruct (_ && _); simpl; lia.
Qed.

(** The result of one round on layer [n]: the stakes above the minimum [m] are cut. *)
Definition cut (pots : list (list Z)) (n m : Z) (a b : Z) : Z :=
  if (b <? Z.of_nat N) && (m <? mz pots n b)
  then if a =? n then m else if a =? n + 1 then mz pots n b - m else mz pots a b
  else mz pots a b.

Lemma round_spec pots n :
  mwf pots -> 0 <= n < 9 -> (forall j, 0 <= j < Z.of_nat N -> 0 <= mz pots n j < 2 ^ 63) ->
  let m := layer_min (mz pots n) N in
  let k := above (mz pots n) m in
  (0 < k -> n + 1 < 9) ->
  exists pots', sidepots_round d pots n = Some (pots', k) /\ mwf pots' /\
    (k <= 0 -> pots' = pots) /\
    (0 < k -> forall a b, 0 <= a < 9 -> 0 <= b < 9 -> mz pots' a b = cut pots n m a b).
Proof.
  intros Hm Hn Hrange m k Hroom. unfold sidepots_round. rewrite HN, Nat2Z.id.
  rewrite (for_loopM_pure _ _ _ (fun j mb => if negb (mz pots n j =? 0)
    then (if live j && ((mb =? 0) || (mz pots n j <? mb)) then mz pots n j else mb) else mb)).
  2: { intros j t Hj. rewrite mget_eq by (done || lia). step.
       destruct (negb (mz pots n j =? 0)); [|done]. rewrite folded_eq by lia. step.
       by rewrite negb_involutive. }
  fold (layer_min (mz pots n) N). fold m. step.
  rewrite (for_loopM_pure _ _ _ (fun j c => if (m <? mz pots n j) && live j then c + 1 else c)).
  2: { intros j t Hj. rewrite mget_eq by (done || lia). step. rewrite folded_eq by lia. step.
       by rewrite negb_involutive. }
  step.
  assert (Hk : for_loop N 0 (fun j c => if (m <? mz pots n j) && live j then c + 1 else c) 0 = k).
  { apply above_loop. }
  rewrite Hk. destruct (Z.ltb_spec 0 k) as [Hpos|Hpos].
  2: { step. eexists. split; [done|]. split_and!; [done|done|lia]. }
  pose proof (layer_min_spec (mz pots n) N ltac:(intros; apply Hrange; done)) as (Hm0 & _).
  fold m in Hm0.
  edestruct (for_loopM_inv (fun c ps => mwf ps /\ forall a b, 0 <= a < 9 -> 0 <= b < 9 ->
     mz ps a b = if b <? c then cut pots n m a b else mz pots a b) N 0) as (ps & Hrun & Hwf & Hps);
    [| |rewrite Hrun; step; eexists; split; [done|]].
  - intros j ps Hj (Hwf & Hps). rewrite mget_eq by (done || lia). step.
    assert (Ej : mz ps n j = mz pots n j).
    { rewrite Hps by lia. by rewrite Z.ltb_irrefl. }
    rewrite Ej. pose proof (Hrange j ltac:(lia)) as Hr.
    assert (Hnext : forall a b, b <> j -> (if b <? j + 1 then cut pots n m a b else mz pots a b)
              = if b <? j then cut pots n m a b else mz pots a b).
    { intros a b Hb. destruct (Z.ltb_spec b (j + 1)), (Z.ltb_spec b j); done || lia. }
    destruct (Z.ltb_spec m (mz pots n j)) as [Hlt|Hge].
    + rewrite uwrap_small by (change (2 ^ 63) with 9223372036854775808 in Hr;
        change (2 ^ 64) with 18446744073709551616; lia).
      destruct (mset_eq ps (n + 1) j (mz pots n j - m) Hwf) as (ps1 & -> & Hwf1 & H1); [lia|lia|]. step.
      destruct (mset_eq ps1 n j m Hwf1) as (ps2 & -> & Hwf2 & H2); [lia|lia|].
      eexists. split; [done|]. split; [done|]. intros a b Ha Hb.
      rewrite H2, H1 by lia. destruct (Z.eqb_spec b j) as [->|Hne].
      * rewrite !andb_true_r. destruct (Z.ltb_spec j (j + 1)); [|lia].
        unfold cut. destruct (Z.ltb_spec j (Z.of_nat N)); [|lia].
        destruct (Z.ltb_spec m (mz pots n j)); [|lia]. cbn [andb].
        destruct (Z.eqb_spec a n); [done|]. destruct (Z.eqb_spec a (n + 1)); [done|].
        rewrite Hps by lia. by rewrite Z.ltb_irrefl.
      * rewrite !andb_false_r, Hps, Hnext by done. done.
    + eexists. split; [done|]. split; [done|]. intros a b Ha Hb. rewrite Hps by lia.
      destruct (Z.eq_dec b j) as [->|Hne]; [|by rewrite Hnext].
      rewrite Z.ltb_irrefl. destruct (Z.ltb_spec j (j + 1)); [|lia].
      unfold cut. destruct (Z.ltb_spec m (mz pots n j)); [lia|]. by rewrite andb_false_r.
  - split; [done|]. intros a b Ha Hb. by destruct (Z.ltb_spec b 0); [lia|].
  - split_and!; [done|lia|]. intros _ a b Ha Hb. rewrite Hps by done.
    destruct (Z.ltb_spec b (0 + Z.of_nat N)); [done|].
    unfold cut. by destruct (Z.ltb_spec b (Z.of_nat N)); [lia|].
Qed.

Lemma stakes_two f i j :
  0 <= i < Z.of_nat N -> 0 <= j < Z.of_nat N -> i <> j -> live i = true -> live j = true ->
  0 < f i -> 0 < f j -> 2 <= stakes f.
Proof.
  intros Hi Hj Hne Li Lj Fi Fj. unfold stakes.
  transitivity (zsum N (fun k => c_bool (k =? i) + c_bool (k =? j))).
  - rewrite zsum_add, !zsum_one by done. lia.
  - apply zsum_le. intros k Hk.
    destruct (Z.eqb_spec k i) as [E1|E1], (Z.eqb_spec k j) as [E2|E2]; [congruence|..].
    + rewrite E1, Li. by destruct (Z.ltb_spec 0 (f i)); [|lia].
    + rewrite E2, Lj. by destruct (Z.ltb_spec 0 (f j)); [|lia].
    + apply c_bool_range.
Qed.

Lemma stakes_drop f g i :
  0 <= i < Z.of_nat N -> live i = true -> 0 < f i -> g i <= 0 ->
  (forall j, 0 <= j < Z.of_nat N -> 0 < g j -> 0 < f j) -> stakes g <= stakes f - 1.
Proof.
  intros Hi Li Fi Gi H.
  assert (stakes g + 1 <= stakes f); [|lia]. unfold stakes.
  rewrite <- (zsum_one N i) by done. rewrite <- zsum_add. apply zsum_le. intros k Hk.
  destruct (Z.eqb_spec k i) as [->|].
  - rewrite Li. destruct (Z.ltb_spec 0 (g i)); [lia|]. by destruct (Z.ltb_spec 0 (f i)); [|lia].
  - specialize (H k Hk). destruct (live k); simpl; [|lia].
    destruct (Z.ltb_spec 0 (g k)), (Z.ltb_spec 0 (f k)); simpl; lia.
Qed.

(** A side pot: nobody put in more than [m], and live players nothing or exactly [m]. *)
Definition layer_ok (pot : Z -> Z) (m : Z) : Prop :=
  (forall j, 0 <= j < Z.of_nat N -> 0 <= pot j) /\
  (forall j, 0 <= j < Z.of_nat N -> live j = true -> pot j = 0 \/ pot j = m).

Record pots_inv (bets : list Z) (pots : list (list Z)) (n : Z) : Prop := {
  inv_wf : mwf pots;
  inv_n : 0 <= n < Z.of_nat N;
  inv_nonneg : forall a j, 0 <= a < 9 -> 0 <= j < Z.of_nat N -> 0 <= mz pots a j;
  inv_zero : forall a j, n < a < 9 -> 0 <= j < Z.of_nat N -> mz pots a j = 0;
  inv_sum : forall j, 0 <= j < Z.of_nat N -> zsum (Z.to_nat (n + 1)) (fun a => mz pots a j) = znth bets j;
  inv_stakes : stakes (mz pots n) <= Z.of_nat N - n;
  inv_next : 0 < n -> exists j, 0 <= j < Z.of_nat N /\ live j = true /\ 0 < mz pots n j;
  inv_layers : forall a, 0 <= a < n -> exists m, 0 < m /\ layer_ok (mz pots a) m /\
    (forall j, 0 <= j < Z.of_nat N -> mz pots a j <= m) /\
    exists j, 0 <= j < Z.of_nat N /\ live j = true /\ mz pots a j = m }.

Lemma inv_bound bets pots n a j :
  pots_inv bets pots n -> 0 <= a <= n -> 0 <= j < Z.of_nat N -> mz pots a j <= znth bets j.
Proof.
  intros [Hwf Hn Hnn Hz Hs _ _ _] Ha Hj. rewrite <- Hs by done.
  apply (zsum_term _ (fun a => mz pots a j)); [|lia]. intros i Hi. apply Hnn; lia.
Qed.

Lemma round_inv bets pots n pots' :
  pots_inv bets pots n ->
  let m := layer_min (mz pots n) N in
  0 < above (mz pots n) m -> mwf pots' ->
  (forall a b, 0 <= a < 9 -> 0 <= b < 9 -> mz pots' a b = cut pots n m a b) ->
  n + 1 < Z.of_nat N -> pots_inv bets pots' (n + 1).
Proof.
  intros Hinv m Hpos Hwf' Hcut Hroom. pose proof Hinv as [Hwf Hn Hnn Hz Hs Hst' Hnx Hlay].
  destruct (layer_min_spec (mz pots n) N) as (Hm0 & Hmz & Hmle & Hmex); [intros; apply Hnn; lia|].
  fold m in Hm0, Hmz, Hmle, Hmex.
  apply above_pos in Hpos as (j1 & Hj1 & Hm1 & L1).
  assert (Hmpos : 0 < m).
  { destruct (Z.eq_dec m 0) as [E|]; [|lia]. pose proof (Hmz E j1 Hj1 L1). lia. }
  destruct Hmex as (j0 & Hj0 & L0 & F0); [lia|].
  assert (Hc : forall a b, 0 <= a < 9 -> 0 <= b < Z.of_nat N -> mz pots' a b =
    if m <? mz pots n b then if a =? n then m else if a =? n + 1 then mz pots n b - m else mz pots a b
    else mz pots a b).
  { intros a b Ha Hb. rewrite Hcut by lia. unfold cut. by destruct (Z.ltb_spec b (Z.of_nat N)); [|lia]. }
  constructor; [done|lia| | | | | |].
  - intros a j Ha Hj. rewrite Hc by lia. pose proof (Hnn a j Ha Hj).
    destruct (Z.ltb_spec m (mz pots n j)); [|done]. destruct (a =? n), (a =? n + 1); lia.
  - intros a j Ha Hj. rewrite Hc by lia. rewrite (Hz a j) by lia.
    destruct (Z.ltb_spec m (mz pots n j)); [|done].
    destruct (Z.eqb_spec a n); [lia|]. by destruct (Z.eqb_spec a (n + 1)); [lia|].
  - intros j Hj. rewrite <- Hs by done.
    replace (Z.to_nat (n + 1 + 1)) with (S (S (Z.to_nat n))) by lia.
    replace (Z.to_nat (n + 1)) with (S (Z.to_nat n)) by lia.
    rewrite !zsum_S, (zsum_ext _ _ (fun a => mz pots a j)).
    + replace (Z.of_nat (S (Z.to_nat n))) with (n + 1) by lia. rewrite Z2Nat.id by lia.
      rewrite !Hc by lia. rewrite Z.eqb_refl, (Hz (n + 1)) by lia.
      destruct (Z.ltb_spec m (mz pots n j)); [|lia].
      destruct (Z.eqb_spec (n + 1) n); [lia|]. rewrite Z.eqb_refl. lia.
    + intros a Ha. rewrite Hc by lia. destruct (m <? mz pots n j); [|done].
      destruct (Z.eqb_spec a n); [lia|]. by destruct (Z.eqb_spec a (n + 1)); [lia|].
  - assert (stakes (mz pots' (n + 1)) <= stakes (mz pots n) - 1); [|lia].
    assert (Hnext : forall j, 0 <= j < Z.of_nat N -> mz pots' (n + 1) j =
      if m <? mz pots n j then mz pots n j - m else 0).
    { intros j Hj. rewrite Hc, (Hz (n + 1)) by lia.
      destruct (m <? mz pots n j); [|done]. destruct (Z.eqb_spec (n + 1) n); [lia|]. by rewrite Z.eqb_refl. }
    apply (stakes_drop _ _ j0); [done|done|lia| |].
    + rewrite Hnext by done. by destruct (Z.ltb_spec m (mz pots n j0)); [lia|].
    + intros j Hj. rewrite Hnext by done. destruct (Z.ltb_spec m (mz pots n j)); lia.
  - intros _. exists j1. split; [done|]. split; [done|]. rewrite Hc by lia.
    destruct (Z.ltb_spec m (mz pots n j1)); [|lia].
    destruct (Z.eqb_spec (n + 1) n); [lia|]. rewrite Z.eqb_refl. lia.
  - intros a Ha. destruct (Z.eq_dec a n) as [->|Hne].
    + exists m. split; [done|]. split; [split|split].
      * intros j Hj. rewrite Hc by lia. rewrite Z.eqb_refl. pose proof (Hnn n j ltac:(lia) Hj).
        destruct (Z.ltb_spec m (mz pots n j)); lia.
      * intros j Hj L. rewrite Hc by lia. rewrite Z.eqb_refl.
        destruct (Z.ltb_spec m (mz pots n j)); [by right|].
        destruct (Z.eq_dec (mz pots n j) 0); [by left|]. right. pose proof (Hmle j Hj L). lia.
      * intros j Hj. rewrite Hc by lia. rewrite Z.eqb_refl. destruct (Z.ltb_spec m (mz pots n j)); lia.
      * exists j0. split; [done|]. split; [done|]. rewrite Hc by lia. rewrite Z.eqb_refl.
        destruct (Z.ltb_spec m (mz pots n j0)); lia.
    + destruct (Hlay a) as (ma & Hma & Hok & Hle & (j & Hj & L & E)); [lia|].
      assert (Hsame : forall j, 0 <= j < Z.of_nat N -> mz pots' a j = mz pots a j).
      { intros k Hk. rewrite Hc by lia. destruct (m <? mz pots n k); [|done].
        destruct (Z.eqb_spec a n); [lia|]. by destruct (Z.eqb_spec a (n + 1)); [lia|]. }
      exists ma. split; [done|]. destruct Hok as [Hok1 Hok2]. split; [split|split].
      * intros k Hk. rewrite Hsame by done. auto.
      * intros k Hk. rewrite Hsame by done. auto.
      * intros k Hk. rewrite Hsame by done. auto.
      * exists j. by rewrite Hsame.
Qed.

(** The last pot of the loop: no live stake exceeds the minimum any more. *)
Lemma last_layer bets pots n :
  pots_inv bets pots n -> above (mz pots n) (layer_min (mz pots n) N) <= 0 ->
  exists m, 0 <= m /\ layer_ok (mz pots n) m /\
    (m = 0 -> forall j, 0 <= j < Z.of_nat N -> live j = true -> mz pots n j = 0) /\
    (m <> 0 -> exists j, 0 <= j < Z.of_nat N /\ live j = true /\ mz pots n j = m).
Proof.
  intros Hinv Hno. pose proof Hinv as [Hwf Hn Hnn Hz Hs Hst' Hnx Hlay].
  destruct (layer_min_spec (mz pots n) N) as (Hm0 & Hmz & Hmle & Hmex); [intros; apply Hnn; lia|].
  exists (layer_min (mz pots n) N). split; [done|]. split; [split|split; [exact Hmz|exact Hmex]].
  - intros j Hj. apply Hnn; lia.
  - intros j Hj L. destruct (Z.eq_dec (mz pots n j) 0); [by left|]. right.
    pose proof (Hmle j Hj L ltac:(done)).
    destruct (Z.lt_ge_cases (layer_min (mz pots n) N) (mz pots n j)) as [Hlt|]; [|lia].
    exfalso. assert (0 < above (mz pots n) (layer_min (mz pots n) N)); [|lia].
    apply above_pos. eauto.
Qed.

(** With as many rounds left as there are players below, the loop ends in a state that
    satisfies the invariant and has no live stake above the last minimum. *)
Lemma sidepots_loop_spec bets fuel : forall pots n,
  pots_inv bets pots n -> (forall j, 0 <= j < Z.of_nat N -> znth bets j < 2 ^ 63) ->
  Z.of_nat N - n < Z.of_nat fuel ->
  exists n' pots', sidepots_loop fuel d pots n = Some (n' + 1, pots') /\
    pots_inv bets pots' n' /\ above (mz pots' n') (layer_min (mz pots' n') N) <= 0.
Proof.
  induction fuel as [|fuel IH]; intros pots n Hinv Hb Hf; [destruct Hinv; lia|].
  pose proof Hinv as [Hwf Hn Hnn Hz Hs Hst' Hnx Hlay]. cbn [sidepots_loop].
  set (m := layer_min (mz pots n) N). set (k := above (mz pots n) m).
  (* a stake above the minimum leaves two live stakes, so this is not the last layer *)
  assert (Hroom : 0 < k -> n + 1 < Z.of_nat N).
  { intros Hpos. apply above_pos in Hpos as (j1 & Hj1 & Hm1 & L1).
    destruct (layer_min_spec (mz pots n) N) as (Hm0 & Hmz & Hmle & Hmex); [intros; apply Hnn; lia|].
    fold m in Hm0, Hmz, Hmle, Hmex.
    destruct (Z.eq_dec m 0) as [E|E]; [pose proof (Hmz E j1 Hj1 L1); lia|].
    destruct (Hmex E) as (j0 & Hj0 & L0 & F0).
    pose proof (stakes_two (mz pots n) j0 j1 Hj0 Hj1 ltac:(intros ->; lia) L0 L1 ltac:(lia) ltac:(lia)). lia. }
  destruct (round_spec pots n) as (pots' & Hrun & Hwf' & Hsame & Hcut); [done|lia| | |].
  { intros j Hj. split; [apply Hnn; lia|].
    pose proof (inv_bound bets pots n n j Hinv ltac:(lia) Hj). pose proof (Hb j Hj). lia. }
  { fold m. fold k. intros Hpos. pose proof (Hroom Hpos). lia. }
  fold m in Hrun, Hsame, Hcut. fold k in Hrun, Hsame, Hcut.
  rewrite Hrun. step. rewrite HN.
  destruct (Z.ltb_spec 0 k) as [Hpos|Hpos].
  - pose proof (Hroom Hpos). destruct (Z.leb_spec (Z.of_nat N) (n + 1)); [lia|].
    apply IH; [|done|lia]. apply (round_inv bets pots n pots' Hinv Hpos Hwf' (Hcut Hpos)). done.
  - rewrite (Hsame Hpos). exists n, pots.
    split; [by destruct (Z.of_nat N <=? n + 1)|]. split; done.
Qed.

Lemma sidepots_init bets :
  (0 < N)%nat -> length bets = 9%nat -> (forall j, 0 <= j < Z.of_nat N -> 0 <= znth bets j < 2 ^ 63) ->
  exists pots, for_loopM N 0 (fun j pots => b ← aget bets j; mset pots 0 j (u64 b))
      (replicate 9 (replicate 9 0)) = Some pots /\ pots_inv bets pots 0.
Proof.
  intros HN0 Hlb Hb.
  edestruct (for_loopM_inv (fun c ps => mwf ps /\ forall a b, 0 <= a < 9 -> 0 <= b < 9 ->
     mz ps a b = if (a =? 0) && (b <? c) then znth bets b else 0) N 0) as (ps & Hrun & Hwf & Hps);
    [| |exists ps; split; [exact Hrun|]].
  - intros j ps Hj (Hwf & Hps). rewrite aget_znth by lia. step.
    rewrite uwrap_small by (pose proof (Hb j ltac:(lia)); change (2 ^ 63) with 9223372036854775808 in *;
      change (2 ^ 64) with 18446744073709551616; lia).
    destruct (mset_eq ps 0 j (znth bets j) Hwf) as (ps1 & -> & Hwf1 & H1); [lia|lia|].
    eexists. split; [done|]. split; [done|]. intros a b Ha Hb'. rewrite H1, Hps by lia.
    destruct (Z.eqb_spec a 0); cbn [andb]; [|done].
    destruct (Z.eqb_spec b j) as [->|]; [by destruct (Z.ltb_spec j (j + 1)); [|lia]|].
    by destruct (Z.ltb_spec b j), (Z.ltb_spec b (j + 1)); try lia.
  - split.
    + split; [apply length_replicate|]. by apply Forall_replicate.
    + intros a b Ha Hb'. replace ((a =? 0) && (b <? 0)) with false
        by (symmetry; apply andb_false_iff; right; apply Z.ltb_ge; lia).
      unfold mz, mget. rewrite aget_replicate by lia. step. by rewrite aget_replicate by lia.
  - constructor; [done|lia| | | | |lia|lia].
    + intros a j Ha Hj. rewrite Hps by lia. destruct (_ && _); [|lia]. by apply Hb.
    + intros a j Ha Hj. rewrite Hps by lia. by destruct (Z.eqb_spec a 0); [lia|].
    + intros j Hj. change (Z.to_nat (0 + 1)) with 1%nat. rewrite zsum_S. change (zsum 0 _) with 0.
      rewrite Hps by lia. rewrite Z.eqb_refl. destruct (Z.ltb_spec j (0 + Z.of_nat N)); [|lia]. cbn. lia.
    + unfold stakes. rewrite Z.sub_0_r. transitivity (zsum N (fun _ => 1)).
      * apply zsum_le. intros j Hj. destruct (_ && _); simpl; lia.
      * clear. induction N as [|n IH]; [done|]. rewrite zsum_S. lia.
Qed.
End Layer.

Lemma sidepots_run d bets :
  1 <= dN d <= 9 -> length (betstatus (hand d)) = 9%nat -> length bets = 9%nat ->
  (forall j, 0 <= j < dN d -> 0 <= znth bets j < 2 ^ 63) ->
  let N := Z.to_nat (dN d) in
  exists n pots, pangea_sidepots d bets = Some (n + 1, pots) /\
    pots_inv d N bets pots n /\ above d N (mz pots n) (layer_min d (mz pots n) N) <= 0.
Proof.
  intros HN Hst Hlb Hb N. assert (EN : dN d = Z.of_nat N) by lia. assert (HN9 : (N <= 9)%nat) by lia.
  rewrite EN in *. unfold pangea_sidepots. rewrite EN, Nat2Z.id.
  destruct (sidepots_init d N HN9 Hst bets ltac:(lia) Hlb Hb) as (pots0 & -> & Hinv0). step.
  apply (sidepots_loop_spec d N EN HN9 Hst bets (S N) pots0 0 Hinv0); [intros; by apply Hb|lia].
Qed.

(** If somebody still in the hand has bet, every pot has such a contributor. *)
Lemma pots_funded d N bets pots n :
  (N <= 9)%nat -> length (betstatus (hand d)) = 9%nat ->
  pots_inv d N bets pots n -> above d N (mz pots n) (layer_min d (mz pots n) N) <= 0 ->
  (exists j, 0 <= j < Z.of_nat N /\ live d j = true /\ 0 < znth bets j) ->
  forall k, 0 <= k <= n -> exists j, 0 <= j < Z.of_nat N /\ live d j = true /\ 0 < mz pots k j.
Proof.
  intros HN9 Hst Hinv Hlast (j & Hj & L & Hpos) k Hk. pose proof Hinv as [Hwf Hn Hnn Hz Hs Hst' Hnx Hlay].
  destruct (last_layer d N HN9 Hst bets pots n Hinv Hlast) as (ml & Hml & Hokl & Hl0 & Hl1).
  destruct (Z.eq_dec k n) as [->|].
  - destruct (Z.eq_dec ml 0) as [->|Hne].
    + exfalso. destruct (Z.eq_dec n 0) as [->|Hn0].
      * specialize (Hs j Hj). change (Z.to_nat (0 + 1)) with 1%nat in Hs. rewrite zsum_S in Hs.
        change (zsum 0 _) with 0 in Hs. change (Z.of_nat 0) with 0 in Hs.
        rewrite (Hl0 eq_refl j Hj L) in Hs. lia.
      * destruct Hnx as (j0 & Hj0 & L0 & E0); [lia|]. rewrite (Hl0 eq_refl j0 Hj0 L0) in E0. lia.
    + destruct (Hl1 Hne) as (j0 & Hj0 & L0 & E0). exists j0. split; [done|]. split; [done|]. lia.
  - destruct (Hlay k) as (m & Hm & _ & _ & (j0 & Hj0 & L0 & E0)); [lia|].
    exists j0. split; [done|]. split; [done|]. lia.
Qed.

(** ** Properties *)

(** [C2] The side pots partition the bets.  For every hand of up to nine players with
    non-negative bets [pangea_sidepots] ends within its bounds and makes between one and
    [dp->N] pots; what a player has in the pots adds up to the player's bet; within a pot
    all players still in the hand who contribute have the same stake, which no contribution
    exceeds except that of folded players in the last pot; and every pot but the last has
    such a contributor, as has the last one whenever somebody still in the hand has bet. *)
Theorem pangea_sidepots_partition d bets :
  1 <= dN d <= 9 -> length (betstatus (hand d)) = 9%nat -> length bets = 9%nat ->
  (forall j, 0 <= j < dN d -> 0 <= znth bets j < 2 ^ 63) ->
  let N := Z.to_nat (dN d) in
  exists n pots, pangea_sidepots d bets = Some (n, pots) /\ 1 <= n <= dN d /\
    (forall j, 0 <= j < dN d -> zsum (Z.to_nat n) (fun k => mz pots k j) = znth bets j) /\
    (forall k, 0 <= k < n -> exists m, 0 <= m /\ layer_ok d N (mz pots k) m /\
       (k < n - 1 -> 0 < m /\ forall j, 0 <= j < dN d -> mz pots k j <= m) /\
       (m <> 0 -> exists j, 0 <= j < dN d /\ live d j = true /\ mz pots k j = m)) /\
    ((exists j, 0 <= j < dN d /\ live d j = true /\ 0 < znth bets j) ->
     forall k, 0 <= k < n -> exists j, 0 <= j < dN d /\ live d j = true /\ 0 < mz pots k j).
Proof.
  intros HN Hst Hlb Hb N. destruct (sidepots_run d bets HN Hst Hlb Hb) as (n & pots & Hrun & Hinv & Hlast).
  fold N in Hinv, Hlast. assert (EN : dN d = Z.of_nat N) by lia. assert (HN9 : (N <= 9)%nat) by lia.
  rewrite Hrun. exists (n + 1), pots. pose proof Hinv as [Hwf Hn Hnn Hz Hs Hst' Hnx Hlay].
  destruct (last_layer d N HN9 Hst bets pots n Hinv Hlast) as (ml & Hml & Hokl & Hl0 & Hl1).
  rewrite EN in *. split_and!; try done; try lia.
  - intros k Hk. destruct (Z.eq_dec k n) as [->|].
    + exists ml. split_and!; try done; try lia.
    + destruct (Hlay k) as (m & Hm & Hok & Hle & Hex); [lia|]. exists m. split_and!; try done; lia.
  - intros Hex k Hk. apply (pots_funded d N bets pots n); try done; lia.
Qed.

(** Three players of whom the second is all in and the third has folded. *)
Definition bets_demo : pubdata :=
  demo_pub.[hand <- demo_hand.[betstatus <- [0; CARDS777_ALLIN; CARDS777_FOLD; 0; 0; 0; 0; 0; 0]]].

Example bets_demo_pots :
  option_map (fun '(n, pots) => (n, map (take 3) (take 3 pots)))
    (pangea_sidepots bets_demo [100; 60; 80; 0; 0; 0; 0; 0; 0])
  = Some (2, [[60; 60; 60]; [40; 0; 20]; [0; 0; 0]]).
Proof. vm_compute. reflexivity. Qed.

Lemma pangea_sidepots_partition_witness :
  let bets := [100; 60; 80; 0; 0; 0; 0; 0; 0] in
  exists n pots, pangea_sidepots bets_demo bets = Some (n, pots) /\ 1 <= n <= 3 /\
    (forall j, 0 <= j < 3 -> zsum (Z.to_nat n) (fun k => mz pots k j) = znth bets j) /\
    (forall k, 0 <= k < n -> exists m, 0 <= m /\ layer_ok bets_demo 3 (mz pots k) m /\
       (k < n - 1 -> 0 < m /\ forall j, 0 <= j < 3 -> mz pots k j <= m) /\
       (m <> 0 -> exists j, 0 <= j < 3 /\ live bets_demo j = true /\ mz pots k j = m)) /\
    ((exists j, 0 <= j < 3 /\ live bets_demo j = true /\ 0 < znth bets j) ->
     forall k, 0 <= k < n -> exists j, 0 <= j < 3 /\ live bets_demo j = true /\ 0 < mz pots k j).
Proof.
  apply (pangea_sidepots_partition bets_demo [100; 60; 80; 0; 0; 0; 0; 0; 0]); try done.
  intros j Hj. change (dN bets_demo) with 3 in Hj.
  assert (j = 0 \/ j = 1 \/ j = 2) as [->|[->| ->]] by lia; vm_compute; split; congruence.
Defined.
