(* ===== verification/FundsPay.v ===== *)
(** * pangeafunds.c: splitting a pot and settling a hand

    A pot is shared out completely between its winners and the two rakes, so settling a hand
    moves every coin that was bet to a player's balance or to a rake. *)
From Stdlib Require Import ZArith Lia String.
From stdpp Require Import base list numbers option.
From S2P Require Import Prelude Bits Pangea Summary Funds FundsPots.
Open Scope Z_scope.

Lemma summary_add_eq nd type arg0 arg1 :
  bytes arg0 -> bytes arg1 -> (length arg0 <= 1000)%nat -> (length arg1 <= 1000)%nat ->
  Z.of_nat (length (summary (dp nd))) + 1 + Z.of_nat (length arg0) + Z.of_nat (length arg1) <= SUMMARY_MAX ->
  summary_add nd type arg0 arg1
    = Some nd.[dp <- (dp nd).[summary <- summary (dp nd) ++ u8 type :: arg0 ++ arg1]].
Proof.
  intros H0 H1 L0 L1 Hfit. unfold summary_add, pangea_summary.
  change 1 with (Z.of_nat (length [u8 type])) at 1.
  rewrite summary_put_eq; [|constructor; [by apply (uwrap_range 8)|done]|simpl; lia|simpl; lia]. step.
  rewrite summary_put_eq; [|done|lia|cbn; rewrite length_app; simpl; lia]. step.
  rewrite summary_put_eq; [|done|lia|cbn; rewrite !length_app; simpl; lia]. step.
  cbn. by rewrite <- !app_assoc.
Qed.

Definition money (l : list Z) : Z := zsum 9 (znth l).

Lemma money_upd l i x :
  length l = 9%nat -> 0 <= i < 9 -> money (zput l i x) = money l + (x - znth l i).
Proof.
  intros Hl Hi. unfold money. apply (zsum_upd 9 _ _ i).
  - done.
  - rewrite znth_zput, Z.eqb_refl by lia. lia.
  - intros j Hj Hne. rewrite znth_zput by lia. by destruct (Z.eqb_spec i j).
Qed.

Lemma money_term l i : Forall (fun x => 0 <= x) l -> 0 <= i < 9 -> 0 <= znth l i <= money l.
Proof.
  intros Hl Hi. assert (Hn : forall j, 0 <= znth l j) by (intros; by apply (Forall_znth (fun x => 0 <= x))).
  split; [done|]. apply (zsum_term 9); [intros; apply Hn|done].
Qed.

Lemma money_nonneg l : Forall (fun x => 0 <= x) l -> 0 <= money l.
Proof. intros Hl. apply zsum_nonneg. intros. by apply (Forall_znth (fun x => 0 <= x)). Qed.

(** [nd] with other balances and a longer history. *)
Definition paid (nd : node) (bals sm : list Z) : node :=
  on_sp (fun i => i.[balances <- bals]) nd.[dp <- (dp nd).[summary <- sm]].

Lemma paid_same nd : paid nd (balances (sp nd)) (summary (dp nd)) = nd.
Proof. by destruct nd as [[] [] ? ?]. Qed.

(** How many of [ws] sit at seat [k]. *)
Definition hits (nd : node) (ws : list Z) (k : Z) : Z :=
  Z.of_nat (length (filter (fun w => pangea_slot (sp nd) w = Some k) ws)).

Lemma pay_winners (nd : node) split ws : forall bals sm won,
  seats_ok (dp nd) (sp nd) -> length bals = 9%nat -> length won = 9%nat ->
  Forall (fun x => 0 <= x) bals -> 0 <= split ->
  money bals + split * Z.of_nat (length ws) < 2 ^ 62 ->
  Forall (fun w => 0 <= w < dN (dp nd)) ws ->
  Z.of_nat (length sm) + 10 * Z.of_nat (length ws) <= SUMMARY_MAX ->
  exists won' bals' sm',
    foldl (fun acc w =>
      '(won, nd) ← acc;
      nd ← summary_add nd CARDS777_WINNINGS [u8 w] (le_bytes 8 split);
      s ← pangea_slot (sp nd) w;
      bal ← aget (balances (sp nd)) s;
      bals ← aset (balances (sp nd)) s (i64 (bal + split));
      x ← aget won w;
      won ← aset won w (i64 (x + split));
      Some (won, on_sp (fun i => i.[balances <- bals]) nd)) (Some (won, paid nd bals sm)) ws
    = Some (won', paid nd bals' sm') /\
    length bals' = 9%nat /\ length won' = 9%nat /\ Forall (fun x => 0 <= x) bals' /\
    money bals' = money bals + split * Z.of_nat (length ws) /\
    Z.of_nat (length sm') = Z.of_nat (length sm) + 10 * Z.of_nat (length ws) /\
    (forall k, 0 <= k < 9 -> znth bals' k = znth bals k + split * hits nd ws k).
Proof.
  induction ws as [|w ws IH]; intros bals sm won Hok Hlb Hlw Hnn Hsp Hmax Hws Hsm.
  - exists won, bals, sm. cbn. split_and!; try done; try lia. intros. unfold hits. cbn. lia.
  - inversion Hws as [|? ? Hw Hws']; subst. cbn [length] in *. cbn [foldl]. rewrite bind_Some. cbv beta iota.
    rewrite summary_add_eq; rewrite ?le_bytes_length;
      [|constructor; [by apply (uwrap_range 8)|done]|apply le_bytes_bytes|simpl; lia|lia|cbn; lia].
    rewrite bind_Some.
    pose proof Hok as [Ha Hs Hn Hm Hh Hd Hda Hsub HN HM Hme]. unfold CARDS777_MAXPLAYERS in Hm.
    destruct (search_in (addrs (sp nd)) (numaddrs (sp nd)) (znth (active (sp nd)) w)) as (k & Ek & Hk & _); [lia| |].
    { apply Hsub. apply elem_of_take_aget; [lia|]. exists w. split; [lia|]. apply aget_znth. lia. }
    assert (Eslot : pangea_slot (sp (paid nd bals sm).[dp <- (dp (paid nd bals sm)).[summary <-
        summary (dp (paid nd bals sm)) ++ u8 CARDS777_WINNINGS :: [u8 w] ++ le_bytes 8 split]]) w = Some k).
    { unfold pangea_slot, pangea_tableaddr. cbn. rewrite aget_znth by lia. by rewrite bind_Some. }
    rewrite Eslot. rewrite bind_Some.
    change (balances (sp (paid nd bals sm).[dp <- _])) with bals.
    rewrite (aget_znth bals), bind_Some by lia.
    pose proof (money_term bals k Hnn ltac:(lia)) as Hbk.
    assert (0 <= split * Z.of_nat (length ws)) by nia.
    rewrite swrap_small by (change (2 ^ (64 - 1)) with 9223372036854775808; change (2 ^ 62) with 4611686018427387904 in Hmax; lia).
    rewrite aset_zput, bind_Some by lia.
    rewrite aget_znth, bind_Some by lia. rewrite aset_zput, bind_Some by lia.
    match goal with |- context [on_sp ?f ?x] =>
      change (on_sp f x) with (paid nd (zput bals k (znth bals k + split))
        (sm ++ u8 CARDS777_WINNINGS :: [u8 w] ++ le_bytes 8 split)) end.
    destruct (IH (zput bals k (znth bals k + split))
      (sm ++ u8 CARDS777_WINNINGS :: [u8 w] ++ le_bytes 8 split)
      (zput won w (i64 (znth won w + split)))) as (won' & bals' & sm' & Hrun & H1 & H2 & H3 & H4 & H5 & H6);
      rewrite ?zput_length; try done.
    + apply Forall_zput; [done|lia].
    + rewrite money_upd by (done || lia). lia.
    + rewrite length_app. simpl. rewrite ?le_bytes_length. lia.
    + exists won', bals', sm'. rewrite Hrun. rewrite money_upd in H4 by (done || lia).
      rewrite length_app in H5. simpl in H5. rewrite ?le_bytes_length in H5.
      split_and!; try done; try lia. intros i Hi. rewrite H6, znth_zput by lia.
      unfold hits. rewrite filter_cons, (Eslot : pangea_slot (sp nd) w = Some k).
      destruct (Z.eqb_spec k i) as [->|Hne]; (destruct (decide _) as [E|E]; cbn [length];
        try done; try lia); by injection E.
Qed.



Lemma slot_total d s j : seats_ok d s -> 0 <= j < dN d -> 
  exists k, pangea_slot s j = Some k /\ 0 <= k < 9 /\ aget (addrs s) k = aget (active s) j.
Proof.
  intros [Ha Hs Hn Hm Hh Hd Hda Hsub HN HM Hme] Hj. unfold CARDS777_MAXPLAYERS in Hm.
  destruct (search_in (addrs s) (numaddrs s) (znth (active s) j)) as (k & Ek & Hk & Eq); [lia| |].
  { apply Hsub. apply elem_of_take_aget; [lia|]. exists j. split; [lia|]. apply aget_znth. lia. }
  exists k. unfold pangea_slot, pangea_tableaddr. rewrite aget_znth, bind_Some by lia.
  split; [done|]. split; [lia|congruence].
Qed.

Lemma slot_inj d s i j k :
  seats_ok d s -> 0 <= i < dN d -> 0 <= j < dN d ->
  pangea_slot s i = Some k -> pangea_slot s j = Some k -> i = j.
Proof.
  intros Hok Hi Hj Ei Ej. destruct (slot_total d s i Hok Hi) as (a & Ea & _ & Aa).
  destruct (slot_total d s j Hok Hj) as (b & Eb & _ & Ab).
  assert (a = k) as -> by congruence. assert (b = k) as -> by congruence.
  pose proof Hok as [Ha Hs Hn Hm Hh Hd Hda Hsub HN HM Hme]. unfold CARDS777_MAXPLAYERS in Hm.
  rewrite HN in Hi, Hj. destruct (aget_range (active s) i) as [x Ex]; [lia|].
  apply (NoDup_aget (active s) (numactive s) i j x); try done; try lia. congruence.
Qed.

(** ** One pot *)

Lemma filter_snoc {A} (P : A -> Prop) `{!forall x, Decision (P x)} (l : list A) x :
  filter P (l ++ [x]) = filter P l ++ (if decide (P x) then [x] else []).
Proof. by rewrite list.filter_app. Qed.

(** The loop [if cond(j) winners[n++] = j] makes the list of the indices with [cond]. *)
Lemma filter_loop (n : nat) (c : Z -> bool) :
  for_loop n 0 (fun j l => if c j then l ++ [j] else l) [] = filter (fun j => c j) (seqZ 0 (Z.of_nat n)).
Proof.
  induction n as [|n IH]; [done|]. rewrite for_loop_snoc, IH, Z.add_0_l.
  rewrite Nat2Z.inj_succ, <- Z.add_1_r, seqZ_app by lia. rewrite Z.add_0_l.
  change (seqZ (Z.of_nat n) 1) with [0 + Z.of_nat n]. rewrite Z.add_0_l, filter_snoc.
  destruct (c (Z.of_nat n)); cbn; by rewrite ?app_nil_r.
Qed.

Lemma hits_nonneg nd ws k : 0 <= hits nd ws k.
Proof. unfold hits. lia. Qed.

Lemma hits_zero nd ws k : (forall w, w ∈ ws -> pangea_slot (sp nd) w <> Some k) -> hits nd ws k = 0.
Proof.
  intros H. unfold hits. induction ws as [|w ws IH]; [done|]. rewrite filter_cons.
  rewrite decide_False by (apply H; left). apply IH. intros. apply H. by right.
Qed.

Lemma hits_one nd ws j s :
  NoDup ws -> pangea_slot (sp nd) j = Some s ->
  (forall i, i ∈ ws -> pangea_slot (sp nd) i = Some s -> i = j) ->
  hits nd ws s = c_bool (bool_decide (j ∈ ws)).
Proof.
  intros Hnd Hj. unfold hits. induction Hnd as [|w ws Hw Hnd IH]; intros Hinj; [done|].
  rewrite filter_cons. specialize (IH (fun i Hi => Hinj i (list_elem_of_further _ _ _ Hi))).
  destruct (decide _) as [E|E].
  - pose proof (Hinj w (list_elem_of_here _ _) E) as ->. rewrite (bool_decide_true (j ∈ j :: ws)) by left.
    rewrite bool_decide_false in IH by done. cbn [length c_bool] in *. lia.
  - rewrite IH. f_equal. apply bool_decide_ext. rewrite list.elem_of_cons. split; [by right|].
    intros [->|]; done.
Qed.

Lemma seats_players d s : seats_ok d s -> 1 <= dN d <= 9.
Proof. intros []. unfold CARDS777_MAXPLAYERS in *. lia. Qed.

Section Pot.
Context (nd : node) (pot : list Z).
Let d := dp nd.
Let N := Z.to_nat (dN d).
Context (Hok : seats_ok d (sp nd)) (Hst : length (betstatus (hand d)) = 9%nat).
Context (Hrk : length (handranks (hand d)) = 9%nat) (Hrk0 : Forall (fun r => 0 <= r) (handranks (hand d))).
Context (Hpot : length pot = 9%nat) (Hpot0 : forall j, 0 <= j < dN d -> 0 <= znth pot j).

(** The players who can win the pot: in the hand and with a stake in it. *)
Definition contender (j : Z) : bool := live d j && (0 <? znth pot j).
Definition rank (j : Z) : Z := znth (handranks (hand d)) j.
Definition best (n : nat) : Z :=
  for_loop n 0 (fun j b => if contender j && (b <? rank j) then rank j else b) 0.
Definition winner (j : Z) : bool := contender j && (rank j =? best N).
Definition winners : list Z := filter (fun j => winner j) (seqZ 0 (dN d)).

Lemma dN_range : 1 <= dN d <= 9.
Proof. by apply (seats_players _ (sp nd)). Qed.

Lemma EN : Z.of_nat N = dN d.
Proof. pose proof dN_range. unfold N. lia. Qed.

Lemma rank_nonneg j : 0 <= rank j.
Proof. by apply (Forall_znth (fun x => 0 <= x)). Qed.

Lemma best_S n :
  best (S n) = if contender (Z.of_nat n) && (best n <? rank (Z.of_nat n)) then rank (Z.of_nat n) else best n.
Proof. unfold best. by rewrite for_loop_snoc. Qed.

Lemma best_spec n :
  0 <= best n /\ (forall j, 0 <= j < Z.of_nat n -> contender j = true -> rank j <= best n) /\
  (best n = 0 \/ exists j, 0 <= j < Z.of_nat n /\ contender j = true /\ rank j = best n).
Proof.
  induction n as [|n (H0 & H1 & H2)]; [split_and!; [done|lia|by left]|].
  unfold best in *. rewrite for_loop_snoc, Z.add_0_l. set (b := for_loop n 0 _ 0) in *.
  assert (H2' : b = 0 \/ exists j, 0 <= j < Z.of_nat (S n) /\ contender j = true /\ rank j = b).
  { destruct H2 as [|(j & ? & ? & ?)]; [by left|]. right. exists j. split; [lia|done]. }
  destruct (contender (Z.of_nat n)) eqn:E; cbn [andb].
  - destruct (Z.ltb_spec b (rank (Z.of_nat n))).
    + split; [lia|]. split; [|right; exists (Z.of_nat n); split; [lia|done]].
      snoc_case; [lia|]. intros C. pose proof (H1 _ ltac:(eassumption) C). lia.
    + split; [lia|]. split; [|done]. snoc_case; [lia|auto].
  - split; [lia|]. split; [|done]. snoc_case; [congruence|auto].
Qed.

(** A winner is a contender whom no contender beats. *)
Lemma elem_winners j :
  j ∈ winners <-> 0 <= j < dN d /\ contender j = true /\
    forall i, 0 <= i < dN d -> contender i = true -> rank i <= rank j.
Proof.
  unfold winners. rewrite list_elem_of_filter, elem_of_seqZ. unfold winner.
  pose proof dN_range. destruct (best_spec N) as (B0 & B1 & B2).
  rewrite EN in *. rewrite Is_true_true, andb_true_iff, Z.eqb_eq. split.
  - intros ((C & E) & Hj). rewrite E. split_and!; try done; try lia; auto.
  - intros (Hj & C & Hmax). split; [|lia]. split; [done|].
    pose proof (B1 j ltac:(lia) C). destruct B2 as [E|(i & Hi & Ci & Ei)].
    + pose proof (rank_nonneg j). lia.
    + pose proof (Hmax i ltac:(lia) Ci). lia.
Qed.

Lemma winners_some : (exists j, 0 <= j < dN d /\ contender j = true) -> winners <> [].
Proof.
  intros (j & Hj & C). destruct (best_spec N) as (B0 & B1 & B2). pose proof dN_range.
  rewrite EN in *.
  assert (exists i, i ∈ winners) as (i & Hi).
  { unfold winners. destruct B2 as [E|(i & Hi & Ci & Ei)].
    - exists j. rewrite list_elem_of_filter, elem_of_seqZ. split; [|lia]. unfold winner.
      rewrite C. pose proof (B1 j Hj C). pose proof (rank_nonneg j).
      rewrite (proj2 (Z.eqb_eq _ _)) by lia. done.
    - exists i. rewrite list_elem_of_filter, elem_of_seqZ. split; [|lia]. unfold winner.
      by rewrite Ci, Ei, Z.eqb_refl. }
  intros E. rewrite E in Hi. by apply elem_of_nil in Hi.
Qed.

Lemma winners_bounds : NoDup winners /\ Forall (fun w => 0 <= w < dN d) winners /\
  (length winners <= 9)%nat.
Proof.
  pose proof dN_range. unfold winners. split_and!.
  - apply list.NoDup_filter, NoDup_seqZ.
  - apply list.Forall_forall. intros w Hw. apply list_elem_of_filter in Hw as [_ Hw].
    apply elem_of_seqZ in Hw. lia.
  - etrans; [apply length_filter|]. rewrite length_seqZ. lia.
Qed.
Lemma total_loop n :
  (n <= N)%nat -> zsum N (znth pot) < 2 ^ 53 ->
  for_loopM n 0 (fun j '(total, bestrank) =>
    bet ← aget pot j;
    if negb (bet =? 0) then
      f ← folded d j;
      r ← aget (handranks (hand d)) j;
      Some (u64 (total + bet), if negb f && (bestrank <? r) then r else bestrank)
    else Some (total, bestrank)) (0, 0) = Some (zsum n (znth pot), best n).
Proof.
  intros Hn Hmax. pose proof dN_range. pose proof EN as HE. induction n as [|n IH]; [done|].
  rewrite for_loopM_snoc, IH, Z.add_0_l by lia. step.
  rewrite (aget_znth pot) by lia. step.
  rewrite best_S, zsum_S.
  pose proof (Hpot0 (Z.of_nat n) ltac:(lia)). unfold contender.
  assert (0 <= zsum n (znth pot) /\ zsum n (znth pot) + znth pot (Z.of_nat n) < 2 ^ 64).
  { split; [apply zsum_nonneg; intros; apply Hpot0; lia|]. rewrite <- zsum_S.
    pose proof (zsum_prefix (S n) N (znth pot) ltac:(lia) ltac:(intros; apply Hpot0; lia)).
    change (2 ^ 53) with 9007199254740992 in *. change (2 ^ 64) with 18446744073709551616. lia. }
  destruct (Z.eqb_spec (znth pot (Z.of_nat n)) 0) as [E|E]; cbn [negb].
  - rewrite E. rewrite Z.add_0_r, andb_false_r. done.
  - rewrite (folded_eq d 0 ltac:(lia) Hst) by lia. step. rewrite aget_znth by lia. step.
    rewrite uwrap_small by lia. rewrite negb_involutive.
    rewrite (proj2 (Z.ltb_lt 0 _)), andb_true_r by lia. done.
Qed.

Lemma winners_loop :
  for_loopM N 0 (fun j winners =>
    f ← folded d j;
    bet ← aget pot j;
    r ← aget (handranks (hand d)) j;
    Some (if negb f && (0 <? bet) && (r =? best N) then winners ++ [j] else winners)) [] = Some winners.
Proof.
  pose proof dN_range. unfold winners. rewrite <- EN, <- filter_loop.
  apply for_loopM_pure. pose proof EN. intros j l Hj.
  rewrite (folded_eq d 0 ltac:(lia) Hst) by lia. step. rewrite (aget_znth pot) by lia. step.
  rewrite aget_znth by lia. step.
  unfold winner, contender, rank. by rewrite negb_involutive.
Qed.

Lemma splitpot_maxrake_nonneg n :
  0 <= maxrake d -> 0 <= n <= 9 -> exists cap, splitpot_maxrake d n = Some cap /\ 0 <= cap.
Proof.
  intros Hm Hn. unfold splitpot_maxrake. rewrite aget_znth by (simpl; lia). step.
  pose proof (uwrap_range 64 (znth maxrakes n * bigblind d) ltac:(lia)).
  destruct (_ <? _); [|eexists; split; [done|lia]]. eexists. split; [done|].
  destruct (_ && _); [done|]. destruct (_ <? _); done || lia.
Qed.

Lemma bettors_loop :
  length (bets (hand d)) = 9%nat ->
  exists n, for_loopM N 0 (fun j n => b ← aget (bets (hand d)) j; Some (if 0 <? b then n + 1 else n)) 0 = Some n
    /\ 0 <= n <= 9.
Proof.
  intros Hb. pose proof dN_range. pose proof EN.
  exists (for_loop N 0 (fun j n => if 0 <? znth (bets (hand d)) j then n + 1 else n) 0). split.
  - apply for_loopM_pure. intros j n Hj. rewrite aget_znth by lia. by step.
  - assert (forall n, 0 <= for_loop n 0 (fun j n => if 0 <? znth (bets (hand d)) j then n + 1 else n) 0 <= Z.of_nat n)
      as Hc; [|specialize (Hc N); lia].
    induction n; [done|]. rewrite for_loop_snoc. destruct (_ <? _); lia.
Qed.

Lemma splitpot_spec won0 prk millis :
  length (bets (hand d)) = 9%nat -> length (balances (sp nd)) = 9%nat -> length won0 = 9%nat ->
  Forall (fun x => 0 <= x) (balances (sp nd)) -> 0 <= maxrake d -> 0 <= millis <= 1000 ->
  zsum N (znth pot) < 2 ^ 53 -> money (balances (sp nd)) + zsum N (znth pot) < 2 ^ 62 ->
  Z.of_nat (length (summary d)) + 90 <= SUMMARY_MAX ->
  (exists j, 0 <= j < dN d /\ contender j = true) ->
  exists split pr hr won' bals' sm',
    pangea_splitpot won0 prk pot nd millis = Some (hr, won', u64 (prk + pr), paid nd bals' sm') /\
    0 <= split /\ 0 <= pr /\ 0 <= hr /\
    split * Z.of_nat (length winners) + pr + hr = zsum N (znth pot) /\
    length bals' = 9%nat /\ length won' = 9%nat /\ Forall (fun x => 0 <= x) bals' /\
    money bals' + pr + hr = money (balances (sp nd)) + zsum N (znth pot) /\
    Z.of_nat (length sm') <= Z.of_nat (length (summary d)) + 90 /\
    (forall k, 0 <= k < 9 -> znth bals' k = znth (balances (sp nd)) k + split * hits nd winners k).
Proof.
  intros Hbl Hbal Hwon Hnn Hmr Hmil Hsum Hmax Hsm Hex.
  pose proof dN_range as HNr. pose proof winners_bounds as (Hnd & Hws & Hwl).
  pose proof (winners_some Hex) as Hne.
  unfold pangea_splitpot. cbv zeta. fold d N. rewrite total_loop by done. step.
  rewrite winners_loop. step.
  assert (1 <= Z.of_nat (length winners) <= 9).
  { destruct winners; [done|cbn in *; lia]. }
  destruct (Z.eqb_spec (Z.of_nat (length winners)) 0); [lia|].
  destruct bettors_loop as (nb & -> & Hnb); [done|]. step.
  destruct (splitpot_maxrake_nonneg nb) as (cap & -> & Hcap); [done..|]. step.
  assert (0 <= zsum N (znth pot)) as H0.
  { apply zsum_nonneg. intros. apply Hpot0. rewrite EN in *. lia. }
  destruct (winnings_spec (zsum N (znth pot)) (Z.of_nat (length winners)) millis cap)
    as (split & pr & hr & -> & Hs & Hp & Hh & Htot & _); [done..|]. step.
  destruct (pay_winners nd split winners (balances (sp nd)) (summary d) won0)
    as (won' & bals' & sm' & Hrun & H1 & H2 & H3 & H4 & H5 & H6); try done; [nia|lia|].
  unfold d in Hrun. rewrite paid_same in Hrun. rewrite Hrun. step.
  exists split, pr, hr, won', bals', sm'. split_and!; try done; lia.
Qed.
End Pot.

(** ** Settling a hand *)

(** The table is in the state in which a hand can be settled: arrays of their sizes, no
    negative chips, and parameters in the range [pangea_newtable] sets. *)
Record table_ok (nd : node) : Prop := {
  tab_seats : seats_ok (dp nd) (sp nd);
  tab_status : length (betstatus (hand (dp nd))) = 9%nat;
  tab_ranks : length (handranks (hand (dp nd))) = 9%nat;
  tab_ranks0 : Forall (fun r => 0 <= r) (handranks (hand (dp nd)));
  tab_bets : length (bets (hand (dp nd))) = 9%nat;
  tab_won : length (won (hand (dp nd))) = 9%nat;
  tab_community : length (community (hand (dp nd))) = 5%nat;
  tab_balances : length (balances (sp nd)) = 9%nat;
  tab_chips : Forall (fun x => 0 <= x) (balances (sp nd));
  tab_snapshot : length (dp_snapshot (dp nd)) = 9%nat;
  tab_maxrake : 0 <= maxrake (dp nd);
  tab_millis : 0 <= rakemillis (dp nd) <= 1000 }.

(** The node after some pots: [won], balances and history have changed. *)
Definition settled (nd : node) (w bals sm : list Z) : node :=
  on_hand (fun h => h.[won <- w]) (paid nd bals sm).

Lemma settled_table nd w bals sm :
  table_ok nd -> length w = 9%nat -> length bals = 9%nat -> Forall (fun x => 0 <= x) bals ->
  table_ok (settled nd w bals sm).
Proof. intros [[] ? ? ? ? ? ? ? ? ? ? ?] **. by constructor. Qed.

Lemma settled_same nd :
  settled nd (won (hand (dp nd))) (balances (sp nd)) (summary (dp nd)) = nd.
Proof. by destruct nd as [[] [? ? ? ? ? ? ? ? ? ? ? ? ? ? [] ? ? ? ? ? ?] ? ?]. Qed.

Section Settle.
Context (nd : node) (Htab : table_ok nd).
Let d := dp nd.
Let N := Z.to_nat (dN d).
Let B := zsum N (znth (bets (hand d))).
Context (Hbets : forall j, 0 <= j < dN d -> 0 <= znth (bets (hand d)) j).
Context (Hlive : exists j, 0 <= j < dN d /\ live d j = true /\ 0 < znth (bets (hand d)) j).
Context (HB : B < 2 ^ 53) (Hmoney : money (balances (sp nd)) + B < 2 ^ 62).
Context (Hsum : Z.of_nat (length (summary d)) <= 60000).

(** The loop over the side pots of [pangea_finish]. *)
Definition settle_pots (n : Z) (pots : list (list Z)) (millis : Z) : option (Z * Z * node) :=
  for_loopM (Z.to_nat n) 0 (fun j '(rake, pangearake, nd) =>
    pot ← aget pots j;
    '(r, w, pangearake, nd) ← pangea_splitpot (won (hand (dp nd))) pangearake pot nd millis;
    Some (u64 (rake + r), pangearake, on_hand (fun h => h.[won <- w]) nd)) (0, 0, nd).

(** Only players who are still in the hand gain. *)
Definition gains (bals bals' : list Z) : Prop :=
  forall k, 0 <= k < 9 -> znth bals k <= znth bals' k /\
    ((forall j, 0 <= j < dN d -> live d j = true -> pangea_slot (sp nd) j <> Some k) ->
     znth bals' k = znth bals k).

(** The pots before the [k]-th have been paid. *)
Record paid_pots (pots : list (list Z)) (k : Z) (w bals sm : list Z) (rake prk : Z) : Prop := {
  pp_rake : 0 <= rake;
  pp_prk : 0 <= prk;
  pp_won : length w = 9%nat;
  pp_bals : length bals = 9%nat;
  pp_chips : Forall (fun x => 0 <= x) bals;
  pp_money : money bals + rake + prk =
    money (balances (sp nd)) + zsum (Z.to_nat k) (fun a => zsum N (mz pots a));
  pp_sm : Z.of_nat (length sm) <= Z.of_nat (length (summary d)) + 90 * k;
  pp_gains : gains (balances (sp nd)) bals }.

Lemma pots_total n pots k :
  pots_inv d N (bets (hand d)) pots n -> 0 <= k <= n ->
  0 <= zsum (Z.to_nat k) (fun a => zsum N (mz pots a)) /\ 0 <= zsum N (mz pots k) /\
  zsum (S (Z.to_nat k)) (fun a => zsum N (mz pots a)) <= B /\
  zsum (Z.to_nat (n + 1)) (fun a => zsum N (mz pots a)) = B.
Proof.
  intros [Hwf Hn Hnneg Hz Hs _ _ _] Hk. pose proof (seats_players _ _ (tab_seats _ Htab)) as HN9. fold d in HN9.
  assert (EN : Z.of_nat N = dN d) by (unfold N; lia).
  assert (Hpos : forall a, 0 <= a < 9 -> 0 <= zsum N (mz pots a)).
  { intros. apply zsum_nonneg. intros. apply Hnneg; lia. }
  assert (E : zsum (Z.to_nat (n + 1)) (fun a => zsum N (mz pots a)) = B).
  { transitivity (zsum N (fun j => zsum (Z.to_nat (n + 1)) (fun a => mz pots a j)));
      [exact (zsum_swap _ _ (mz pots))|]. apply zsum_ext. auto. }
  split_and!; try done; [| |rewrite <- E; apply zsum_prefix].
  - apply zsum_nonneg. intros. apply Hpos. lia.
  - apply Hpos. lia.
  - lia.
  - intros. apply Hpos. lia.
Qed.

Lemma settle_step n pots millis k w bals sm rake prk :
  0 <= millis <= 1000 ->
  pots_inv d N (bets (hand d)) pots n -> above d N (mz pots n) (layer_min d (mz pots n) N) <= 0 ->
  0 <= k <= n -> paid_pots pots k w bals sm rake prk ->
  exists pot hr w' prk' bals' sm',
    aget pots k = Some pot /\
    pangea_splitpot w prk pot (settled nd w bals sm) millis
      = Some (hr, w', prk', paid (settled nd w bals sm) bals' sm') /\
    paid_pots pots (k + 1) w' bals' sm' (u64 (rake + hr)) prk'.
Proof.
  intros Hmil Hinv Hlast Hk [Hr0 Hp0 Hlw Hlb Hbn Hmon Hsm Hg].
  pose proof Htab as [Hok Hst Hrk Hrk0 Hbl Hwon Hcom Hbal Hnn Hsn Hmr Hml].
  pose proof (seats_players _ _ Hok) as HN9. fold d in HN9.
  pose proof Hinv as [Hwf Hn Hnneg Hz Hs _ _ _].
  assert (EN : Z.of_nat N = dN d) by (unfold N; lia).
  destruct (mwf_row pots k Hwf ltac:(lia)) as (pot & Epot & Hlpot).
  assert (Hpz : forall j, 0 <= j < 9 -> mz pots k j = znth pot j).
  { intros j Hj. unfold mz, mget. rewrite Epot. step. by rewrite aget_znth by lia. }
  assert (Hpsum : zsum N (mz pots k) = zsum N (znth pot)).
  { apply zsum_ext. intros. apply Hpz. lia. }
  destruct (pots_total n pots k Hinv Hk) as (H0 & Hk0 & HkB & _). rewrite zsum_S, Z2Nat.id in HkB by lia.
  pose proof (settled_table nd w bals sm Htab Hlw Hlb Hbn) as [Hok' Hst2 Hrk' Hrk0' Hbl' Hwon' _ Hbal' Hnn' _ Hmr' _].
  destruct (splitpot_spec (settled nd w bals sm) pot Hok' Hst2 Hrk' Hrk0' Hlpot) with
    (won0 := w) (prk := prk) (millis := millis)
    as (split & pr & hr & w' & bals' & sm' & Hsp & Hs0 & Hpr & Hhr & Htot & Hlb' & Hlw' & Hbn' & Hmon' & Hsm' & Hhits);
    try done.
  - intros j Hj. change (0 <= j < dN d) in Hj. rewrite <- Hpz by lia. apply Hnneg; lia.
  - change (zsum N (znth pot) < 2 ^ 53). lia.
  - change (money bals + zsum N (znth pot) < 2 ^ 62). lia.
  - change (Z.of_nat (length sm) + 90 <= SUMMARY_MAX). change SUMMARY_MAX with 65536. lia.
  - destruct (pots_funded d N _ pots n ltac:(lia) Hst Hinv Hlast) with (k := k) as (j & Hj & L & Hpos);
      [by rewrite EN|lia|]. exists j. split; [change (0 <= j < dN d); lia|]. unfold contender.
    rewrite <- Hpz by lia. change (live (dp (settled nd w bals sm)) j) with (live d j). rewrite L.
    by apply Z.ltb_lt.
  - exists pot, hr, w', (u64 (prk + pr)), bals', sm'. split; [done|]. split; [done|].
    change (balances (sp (settled nd w bals sm))) with bals in *.
    change (summary (dp (settled nd w bals sm))) with sm in *.
    change (zsum _ (znth pot)) with (zsum N (znth pot)) in Htot, Hmon'. rewrite <- Hpsum in Htot, Hmon'.
    pose proof (money_nonneg bals Hbn). change (2 ^ 62) with 4611686018427387904 in Hmoney.
    assert (0 <= split * Z.of_nat (length (winners (settled nd w bals sm) pot))) by nia.
    rewrite (uwrap_small 64 (rake + hr)), (uwrap_small 64 (prk + pr))
      by (change (2 ^ 64) with 18446744073709551616; lia).
    assert (Ek : Z.to_nat (k + 1) = S (Z.to_nat k)) by lia.
    constructor; try done; try lia.
    + rewrite Ek, zsum_S, Z2Nat.id by lia. lia.
    + intros i Hi. destruct (Hg i Hi) as [Hg1 Hg2]. rewrite Hhits by done. split.
      * pose proof (hits_nonneg (settled nd w bals sm) (winners (settled nd w bals sm) pot) i). nia.
      * intros Hno. rewrite Hg2 by done. rewrite hits_zero; [lia|].
        intros j Hj. apply elem_winners in Hj as (Hj & C & _); try done.
        apply Hno; [done|]. by apply andb_true_iff in C as [L _].
Qed.

Lemma settle_pots_spec n pots millis :
  0 <= millis <= 1000 ->
  pots_inv d N (bets (hand d)) pots n -> above d N (mz pots n) (layer_min d (mz pots n) N) <= 0 ->
  exists rake prk w bals sm,
    settle_pots (n + 1) pots millis = Some (rake, prk, settled nd w bals sm) /\
    paid_pots pots (n + 1) w bals sm rake prk.
Proof.
  intros Hmil Hinv Hlast. pose proof (inv_n _ _ _ _ _ Hinv) as Hn. unfold settle_pots.
  match goal with |- context [for_loopM ?m 0 ?b ?s] =>
    destruct (for_loopM_inv (fun k '(rake, prk, nd') => exists w bals sm,
      nd' = settled nd w bals sm /\ paid_pots pots k w bals sm rake prk) m 0 b s)
      as ([[rake prk] nd'] & -> & (w & bals & sm & -> & Hend)) end.
  - intros k [[rake prk] nd'] Hk (w & bals & sm & -> & Hpp).
    destruct (settle_step n pots millis k w bals sm rake prk) as (pot & hr & w' & prk' & bals' & sm' & Epot & Hsp & Hpp');
      [done..|lia|done|].
    rewrite Epot. step. change (won (hand (dp (settled nd w bals sm)))) with w. rewrite Hsp. step.
    eexists. split; [done|]. by exists w', bals', sm'.
  - exists (won (hand d)), (balances (sp nd)), (summary d). split; [symmetry; apply settled_same|].
    destruct Htab. constructor; try done; try lia.
    change (zsum (Z.to_nat 0) _) with 0. lia.
  - exists rake, prk, w, bals, sm. split; [done|]. by rewrite Z.add_0_l, Z2Nat.id in Hend by lia.
Qed.
End Settle.

(** The loop of [pangea_finish] that compares the balances with the snapshot. *)
Definition finish_changes (nd : node) : option (Z * Z * list Z) :=
  for_loopM (Z.to_nat (dN (dp nd))) 0 (fun j '(busted, rebuy, bals) =>
    s ← pangea_slot (sp nd) j;
    bal ← aget (balances (sp nd)) s;
    snap ← aget (dp_snapshot (dp nd)) s;
    let bals := bals ++ [bal] in
    if (0 <? snap) && (bal <=? 0) then Some (u16 (Z.lor busted (Z.shiftl 1 j)), rebuy, bals)
    else if (snap <=? 0) && (0 <? bal) then Some (busted, u16 (Z.lor rebuy (Z.shiftl 1 j)), bals)
    else Some (busted, rebuy, bals)) (0, 0, []).

Lemma finish_changes_total nd :
  table_ok nd -> exists busted rebuy bals, finish_changes nd = Some (busted, rebuy, bals) /\
    length bals = Z.to_nat (dN (dp nd)).
Proof.
  intros Htab. pose proof (seats_players _ _ (tab_seats _ Htab)) as HN. unfold finish_changes.
  match goal with |- context [for_loopM ?m 0 ?b ?s] =>
    destruct (for_loopM_inv (fun k '(_, _, bals) => length (bals : list Z) = Z.to_nat k) m 0 b s)
      as ([[busted rebuy] bals] & -> & Hend) end.
  - intros k [[busted rebuy] bals] Hk Hl.
    destruct (slot_total _ _ k (tab_seats _ Htab)) as (s & -> & Hs & _); [lia|]. step.
    rewrite (aget_znth (balances _)) by (rewrite (tab_balances _ Htab); lia). step.
    rewrite aget_znth by (rewrite (tab_snapshot _ Htab); lia). step.
    assert (length (bals ++ [znth (balances (sp nd)) s]) = Z.to_nat (k + 1)).
    { rewrite length_app. cbn. lia. }
    destruct (_ && _); [by eexists|]. destruct (_ && _); by eexists.
  - done.
  - exists busted, rebuy, bals. split; [done|]. rewrite Hend. lia.
Qed.

Lemma mem64_length l : length (mem64 l) = (8 * length l)%nat.
Proof.
  unfold mem64. induction l as [|x l IH]; [done|]. cbn [map concat]. rewrite length_app, le_bytes_length, IH.
  cbn [length]. lia.
Qed.

Lemma mem64_bytes l : bytes (mem64 l).
Proof.
  unfold mem64. induction l as [|x l IH]; [constructor|]. apply list.Forall_app. split; [apply le_bytes_bytes|done].
Qed.

Lemma sendsummary_total slot nd :
  seats_ok (dp nd) (sp nd) -> 0 <= slot < numaddrs (sp nd) ->
  pangea_sendsummary slot nd
    = Some nd.[out <- out nd ++ [Sendcmd "summary" None (summary (dp nd)) 0 0]].
Proof.
  intros [Ha Hs Hn Hm Hh Hd Hda Hsub HN HM Hme] Hslot. unfold CARDS777_MAXPLAYERS in Hm.
  unfold pangea_sendsummary, pangea_sendcmd, pangea_ind.
  rewrite aget_znth by lia. step.
  destruct (array_search_spec (active (sp nd)) (numactive (sp nd)) (znth (addrs (sp nd)) slot))
    as (k & E & _); [lia|]. unfold pangea_search. rewrite E. step. done.
Qed.

(** ** Properties *)

(** [C5] Who wins a pot.  [pangea_splitpot] pays the same share to exactly the players who
    are still in the hand, have a stake in the pot and are beaten by no other such player;
    nobody else's balance changes, and shares and rakes add up to the pot. *)
Theorem pangea_splitpot_winners nd won0 prk pot millis :
  table_ok nd -> length won0 = 9%nat -> length pot = 9%nat -> 0 <= millis <= 1000 ->
  (forall j, 0 <= j < dN (dp nd) -> 0 <= znth pot j) ->
  let total := zsum (Z.to_nat (dN (dp nd))) (znth pot) in
  total < 2 ^ 53 -> money (balances (sp nd)) + total < 2 ^ 62 ->
  Z.of_nat (length (summary (dp nd))) + 90 <= SUMMARY_MAX ->
  (exists j, 0 <= j < dN (dp nd) /\ contender nd pot j = true) ->
  exists split pr hr won' nd', pangea_splitpot won0 prk pot nd millis = Some (hr, won', u64 (prk + pr), nd') /\
    0 <= split /\ split * Z.of_nat (length (winners nd pot)) + pr + hr = total /\
    forall j, 0 <= j < dN (dp nd) -> exists s, pangea_slot (sp nd) j = Some s /\
      let best_hand := contender nd pot j = true /\
        forall i, 0 <= i < dN (dp nd) -> contender nd pot i = true -> rank nd i <= rank nd j in
      (best_hand -> znth (balances (sp nd')) s = znth (balances (sp nd)) s + split) /\
      (~ best_hand -> znth (balances (sp nd')) s = znth (balances (sp nd)) s).
Proof.
  intros [] Hw Hpot Hmil Hpot0 total Ht Hm Hsm Hex.
  destruct (splitpot_spec nd pot) with (won0 := won0) (prk := prk) (millis := millis)
    as (split & pr & hr & won' & bals' & sm' & -> & Hs & _ & _ & Htot & _ & _ & _ & _ & _ & Hhits); try done.
  exists split, pr, hr, won', (paid nd bals' sm'). split_and!; try done. intros j Hj.
  destruct (slot_total _ _ j tab_seats0 Hj) as (s & Es & Hs9 & _). exists s. split; [done|]. cbv zeta.
  change (balances (sp (paid nd bals' sm'))) with bals'. rewrite Hhits by done.
  destruct (winners_bounds nd pot) as (Hnd & Hws & _); try done.
  rewrite (hits_one nd (winners nd pot) j s) by (try done; intros i Hi Ei;
    apply (slot_inj _ _ i j s tab_seats0); try done; by eapply list.Forall_forall in Hws).
  split; intros Hbest.
  - rewrite bool_decide_true; [cbn; lia|]. apply elem_winners; done.
  - rewrite bool_decide_false; [cbn; lia|]. intros Hj'. apply elem_winners in Hj' as (_ & ? & ?); try done.
    by apply Hbest.
Qed.

(** [C1] Settling a hand conserves the chips.  When a hand is over and somebody still in
    it has bet, [pangea_finish] ends normally and every chip that was bet goes to a player's
    balance, to the host's rake or to the house's: balances and accumulated rakes grow by
    exactly the sum of the bets.  Nobody loses chips, and only the seats of players who have
    not folded gain. *)
Theorem pangea_finish_conserves slot now nd :
  table_ok nd -> finished (hand (dp nd)) = 0 ->
  let d := dp nd in
  let B := zsum (Z.to_nat (dN d)) (znth (bets (hand d))) in
  (forall j, 0 <= j < dN d -> 0 <= znth (bets (hand d)) j) ->
  (exists j, 0 <= j < dN d /\ live d j = true /\ 0 < znth (bets (hand d)) j) ->
  B < 2 ^ 53 -> money (balances (sp nd)) + B < 2 ^ 62 ->
  0 <= dp_hostrake d < 2 ^ 63 -> 0 <= dp_pangearake d < 2 ^ 63 ->
  Z.of_nat (length (summary d)) <= 60000 ->
  exists nd', pangea_finish slot now nd = Some nd' /\
    money (balances (sp nd')) + dp_hostrake (dp nd') + dp_pangearake (dp nd')
      = money (balances (sp nd)) + dp_hostrake d + dp_pangearake d + B /\
    gains nd (balances (sp nd)) (balances (sp nd')) /\
    table_ok nd' /\ bets (hand (dp nd')) = bets (hand d) /\ finished (hand (dp nd')) = u32 now.
Proof.
  intros Htab Hfin d B Hb Hlive HB Hmoney Hh Hp Hsum.
  pose proof (seats_players _ _ (tab_seats _ Htab)) as HN. fold d in HN.
  assert (Hterm : forall j, 0 <= j < dN d -> znth (bets (hand d)) j <= B).
  { intros. apply zsum_term; [intros; apply Hb|]; lia. }
  change (2 ^ 53) with 9007199254740992 in HB. change (2 ^ 62) with 4611686018427387904 in Hmoney.
  change (2 ^ 63) with 9223372036854775808 in Hh, Hp.
  destruct (sidepots_run d (bets (hand d))) as (n & pots & Hrun & Hinv & Hlast);
    [done|apply Htab|apply Htab|..].
  { intros j Hj. pose proof (Hb j Hj). pose proof (Hterm j Hj).
    change (2 ^ 63) with 9223372036854775808. lia. }
  unfold pangea_finish. rewrite Hfin, Z.eqb_refl. cbn [negb]. fold d. rewrite Hrun. step.
  rewrite (aget_znth (community (hand d))) by (rewrite (tab_community _ Htab : length (community (hand d)) = 5%nat); lia). step.
  set (millis := if znth (community (hand d)) 0 =? 255 then 0 else rakemillis d).
  assert (Hmil : 0 <= millis <= 1000).
  { unfold millis. destruct (_ =? _); [lia|apply Htab]. }
  destruct (settle_pots_spec nd Htab Hlive ltac:(done) ltac:(done) Hsum n pots millis Hmil Hinv Hlast)
    as (rake & prk & w & bals & sm & Hset & [Hr0 Hp0 Hlw Hlb Hbn Hmon Hsm Hg]).
  unfold settle_pots in Hset. fold d in Hset. rewrite Hset. step.
  pose proof (settled_table nd w bals sm Htab Hlw Hlb Hbn) as Htab1.
  set (nd1 := settled nd w bals sm) in *.
  match goal with |- context [on_hand ?f ?x] => set (nd2 := on_hand f x) end.
  assert (Htab2 : table_ok nd2) by (destruct Htab1 as [[]]; by constructor).
  destruct (finish_changes_total nd2 Htab2) as (busted & rebuy & bals' & Hch & Hlbals).
  unfold finish_changes in Hch. rewrite Hch. step.
  pose proof (inv_n _ _ _ _ _ Hinv) as Hn.
  rewrite summary_add_eq; rewrite ?le_bytes_length, ?mem64_length; try apply le_bytes_bytes; try apply mem64_bytes;
    try (cbn; lia); [|rewrite Hlbals; change (dN (dp nd2)) with (dN d); lia|].
  2: { rewrite Hlbals. change (dN (dp nd2)) with (dN d). change (summary (dp nd2)) with sm.
       change (summary (dp nd)) with (summary d) in Hsm. change SUMMARY_MAX with 65536. lia. }
  step. match goal with |- context [u8 CARDS777_CHANGES :: ?l] => set (chg := l) end.
  assert (Hchg : (length chg <= 76)%nat).
  { unfold chg. rewrite length_app, le_bytes_length, mem64_length, Hlbals. change (dN (dp nd2)) with (dN d). lia. }
  set (nd3 := nd2.[dp <- _]).
  rewrite summary_add_eq; rewrite ?le_bytes_length; try apply le_bytes_bytes; try (cbn; lia).
  2: { change (summary (dp nd3)) with (sm ++ u8 CARDS777_CHANGES :: chg).
       change (summary (dp nd)) with (summary d) in Hsm. rewrite length_app. cbn [length].
       change SUMMARY_MAX with 65536. lia. }
  step. set (nd4 := nd3.[dp <- _]).
  assert (Htab4 : table_ok nd4) by (destruct Htab2 as [[]]; by constructor).
  assert (Hend : exists o, (if slot =? pangea_slotA (sp nd4) then pangea_sendsummary slot nd4 else Some nd4)
                  = Some nd4.[out <- o]).
  { destruct (Z.eqb_spec slot (pangea_slotA (sp nd4))) as [->|].
    - rewrite sendsummary_total; [by eexists|apply Htab4|]. destruct (tab_seats _ Htab4).
      change (pangea_slotA (sp nd4)) with 0. lia.
    - exists (out nd4). by destruct nd4. }
  destruct Hend as [o ->]. eexists. split; [done|].
  change (balances (sp nd4.[out <- o])) with bals.
  change (dp_hostrake (dp nd4.[out <- o])) with (u64 (dp_hostrake d + rake)).
  change (dp_pangearake (dp nd4.[out <- o])) with (u64 (dp_pangearake d + prk)).
  destruct (pots_total nd Htab n pots n Hinv ltac:(lia)) as (_ & _ & _ & Htot).
  fold d in Hmon, Htot. change (zsum (Z.to_nat (dN d)) (znth (bets (hand d)))) with B in Htot.
  rewrite Htot in Hmon. pose proof (money_nonneg bals Hbn).
  rewrite !uwrap_small by (change (2 ^ 64) with 18446744073709551616; lia).
  split_and!; try done; [lia|]. destruct Htab4 as [[]]; by constructor.
Qed.

(** ** Concrete hands *)

(** Three players; the second is all in with less, the third has folded; the second has the
    best hand.  Rake of 2.5 percent. *)
Definition pay_demo : node :=
  on_sp (fun i => i.[balances <- [300; 0; 500; 0; 0; 0; 0; 0; 0]])
    (on_hand (fun h => h.[betstatus <- [0; CARDS777_ALLIN; CARDS777_FOLD; 0; 0; 0; 0; 0; 0]]
                        .[handranks <- [7; 9; 11; 0; 0; 0; 0; 0; 0]]
                        .[bets <- [100; 60; 80; 0; 0; 0; 0; 0; 0]]
                        .[community <- [1; 2; 3; 4; 5]]) demo).

Lemma pay_demo_ok : table_ok pay_demo.
Proof.
  constructor; try reflexivity; try decide_goal.
  - destruct demo_ok. by constructor.
Qed.

Example pay_demo_finish :
  option_map (fun nd => (take 3 (balances (sp nd)), dp_hostrake (dp nd), dp_pangearake (dp nd)))
    (pangea_finish 1 1234 pay_demo) = Some ([358; 0; 675], 5, 2).
Proof. vm_compute. reflexivity. Qed.

Lemma pangea_splitpot_winners_witness :
  let pot := [60; 60; 60; 0; 0; 0; 0; 0; 0] in
  exists split pr hr won' nd',
    pangea_splitpot (replicate 9 0) 5 pot pay_demo 25 = Some (hr, won', u64 (5 + pr), nd') /\
    0 <= split /\ split * Z.of_nat (length (winners pay_demo pot)) + pr + hr = 180 /\
    forall j, 0 <= j < 3 -> exists s, pangea_slot (sp pay_demo) j = Some s /\
      let best_hand := contender pay_demo pot j = true /\
        forall i, 0 <= i < 3 -> contender pay_demo pot i = true -> rank pay_demo i <= rank pay_demo j in
      (best_hand -> znth (balances (sp nd')) s = znth (balances (sp pay_demo)) s + split) /\
      (~ best_hand -> znth (balances (sp nd')) s = znth (balances (sp pay_demo)) s).
Proof.
  apply (pangea_splitpot_winners pay_demo (replicate 9 0) 5 [60; 60; 60; 0; 0; 0; 0; 0; 0] 25);
    try done; [apply pay_demo_ok| |by exists 0].
  intros j Hj. change (dN (dp pay_demo)) with 3 in Hj.
  assert (j = 0 \/ j = 1 \/ j = 2) as [->|[->| ->]] by lia; vm_compute; congruence.
Defined.

Lemma pangea_finish_conserves_witness :
  exists nd', pangea_finish 1 1234 pay_demo = Some nd' /\
    money (balances (sp nd')) + dp_hostrake (dp nd') + dp_pangearake (dp nd')
      = money (balances (sp pay_demo)) + 0 + 0 + 240 /\
    gains pay_demo (balances (sp pay_demo)) (balances (sp nd')) /\
    table_ok nd' /\ bets (hand (dp nd')) = bets (hand (dp pay_demo)) /\ finished (hand (dp nd')) = u32 1234.
Proof.
  apply (pangea_finish_conserves 1 1234 pay_demo); try done; try (vm_compute; split; congruence).
  - apply pay_demo_ok.
  - intros j Hj. change (dN (dp pay_demo)) with 3 in Hj.
    assert (j = 0 \/ j = 1 \/ j = 2) as [->|[->| ->]] by lia; vm_compute; congruence.
  - by exists 0.
Defined.

(** Without a bettor left in the hand the pot has no winner and [pangea_finish] drops it:
    the 240 chips of this hand reach no balance and no rake. *)
Example pot_without_winner :
  let nd := on_hand (fun h => h.[betstatus <- replicate 9 CARDS777_FOLD]) pay_demo in
  option_map (fun nd => (take 3 (balances (sp nd)), dp_hostrake (dp nd), dp_pangearake (dp nd)))
    (pangea_finish 1 1234 nd) = Some ([300; 0; 500], 0, 0).
Proof. vm_compute. reflexivity. Qed.

(** A table limit below the cap of the hand raises the cap instead of lowering it: with a
    big blind of one coin three bettors pay at most two coins, and a table limit of half a
    coin makes that three. *)
Theorem table_limit_raises_rake :
  let d := demo_pub.[bigblind <- SATOSHIDEN] in
  splitpot_maxrake d.[maxrake <- 2 * SATOSHIDEN] 3 = Some (2 * SATOSHIDEN) /\
  splitpot_maxrake d.[maxrake <- SATOSHIDEN / 2] 3 = Some (3 * SATOSHIDEN).
Proof. vm_compute. split; reflexivity. Qed.
