(* ===== verification/FundsBets.v ===== *)
(** * pangeafunds.c: correctness of folding, betting and the antes

    Betting moves chips from a balance to the bets and never creates or destroys any.  The
    invariant [play_ok] holds of a table while a hand is played; folding, betting and posting
    the antes keep it together with the number of chips ([moves]). *)
From Stdlib Require Import ZArith Lia String.
From stdpp Require Import base list numbers option.
From S2P Require Import Prelude Bits Pangea Summary Funds FundsPots FundsPay.
Open Scope Z_scope.

(** All the chips on the table: what players hold and what they have bet. *)
Definition chips (nd : node) : Z := money (balances (sp nd)) + money (bets (hand (dp nd))).

(** A table while a hand is played: nobody holds or has bet a negative amount, and the
    amounts are far from the end of the 64-bit range. *)
Record play_ok (nd : node) : Prop := {
  play_table : table_ok nd;
  play_actions : length (actions (hand (dp nd))) = 9%nat;
  play_bets : Forall (fun x => 0 <= x) (bets (hand (dp nd)));
  play_betsize : 0 <= betsize (hand (dp nd)) < 2 ^ 60;
  play_raise : 0 <= lastraise (hand (dp nd)) < 2 ^ 60;
  play_chips : chips nd < 2 ^ 60 }.

(** What [moves] leaves alone: the seats and the parameters of the table. *)
Definition same_table (nd nd' : node) : Prop :=
  dN (dp nd') = dN (dp nd) /\ dM (dp nd') = dM (dp nd) /\ ante (dp nd') = ante (dp nd) /\
  bigblind (dp nd') = bigblind (dp nd) /\ button (dp nd') = button (dp nd) /\ numaddrs (sp nd') = numaddrs (sp nd) /\
  active (sp nd') = active (sp nd) /\ addrs (sp nd') = addrs (sp nd) /\
  dp_snapshot (dp nd') = dp_snapshot (dp nd).

(** [nd'] is reached from [nd] without creating or destroying a chip and with at most [k]
    more bytes of history. *)
Record moves (k : Z) (nd nd' : node) : Prop := {
  mv_ok : play_ok nd';
  mv_chips : chips nd' = chips nd;
  mv_table : same_table nd nd';
  mv_summary : Z.of_nat (length (summary (dp nd'))) <= Z.of_nat (length (summary (dp nd))) + k }.

Lemma moves_refl nd : play_ok nd -> moves 0 nd nd.
Proof. intros H. constructor; try done. lia. Qed.

Lemma moves_trans j k a b c : moves j a b -> moves k b c -> moves (j + k) a c.
Proof.
  intros [A1 A2 A3 A4] [B1 B2 B3 B4]. constructor; try done; try lia.
  unfold same_table in *. destruct_and!. split_and!; congruence.
Qed.

Lemma moves_weaken j k a b : moves j a b -> j <= k -> moves k a b.
Proof. intros [] ?. constructor; try done. lia. Qed.

(** The 60-bit bound as a number, for [lia]. *)
Ltac pow60 := change (2 ^ 60) with 1152921504606846976 in *.

Lemma same_table_slot nd nd' j : same_table nd nd' -> pangea_slot (sp nd') j = pangea_slot (sp nd) j.
Proof. intros (_ & _ & _ & _ & _ & E1 & E2 & E3 & _). unfold pangea_slot, pangea_tableaddr. by rewrite E1, E2, E3. Qed.

(** ** Folding *)

Lemma fold_spec nd player :
  play_ok nd -> 0 <= player < 9 -> Z.of_nat (length (summary (dp nd))) + 10 <= SUMMARY_MAX ->
  exists nd', pangea_fold nd player = Some nd' /\ moves 10 nd nd' /\
    sp nd' = sp nd /\ bets (hand (dp nd')) = bets (hand (dp nd)) /\
    betstatus (hand (dp nd')) = zput (betstatus (hand (dp nd))) player CARDS777_FOLD /\
    betsize (hand (dp nd')) = betsize (hand (dp nd)).
Proof.
  intros [Htab Hact Hbn Hbs Hlr Hch] Hp Hsm. pose proof Htab as [Hok Hst Hrk Hrk0 Hbl Hwon Hcom Hbal Hnn Hsn Hmr Hml].
  unfold pangea_fold. rewrite (aset_zput (betstatus _)) by lia. step.
  rewrite aset_zput by lia. step. rewrite (aget_znth (bets _)) by lia. step.
  match goal with |- context [on_hand ?f nd] => set (nd1 := on_hand f nd) end.
  rewrite summary_add_eq; rewrite ?le_bytes_length; try apply le_bytes_bytes; try (cbn; lia).
  2: { constructor; [by apply (uwrap_range 8)|done]. }
  set (nd2 := nd1.[dp <- _]). exists nd2. split; [done|]. split; [|done].
  constructor; [|done|done|].
  - constructor; try done.
    + destruct Hok. constructor; try done.
      change (length (zput (betstatus (hand (dp nd))) player CARDS777_FOLD) = 9%nat). by rewrite zput_length.
    + change (length (zput (actions (hand (dp nd))) player CARDS777_FOLD) = 9%nat). by rewrite zput_length.
  - change (summary (dp nd2)) with (summary (dp nd) ++ u8 CARDS777_FOLD :: [u8 player] ++ le_bytes 8 (znth (bets (hand (dp nd))) player)).
    rewrite length_app. cbn [length app]. rewrite le_bytes_length. lia.
Qed.

(** ** Betting *)

Lemma set_status_same nd : on_hand (fun h => h.[betstatus <- betstatus (hand (dp nd))]) nd = nd.
Proof. by destruct nd as [? [? ? ? ? ? ? ? ? ? ? ? ? ? ? [] ? ? ? ? ? ?] ? ?]. Qed.

(** What [pangea_bet] does to a player who can act: fold, or pay [amt] from the seat [s],
    being all in or not. *)
Definition bet_folds (nd : node) (player action' : Z) (nd' : node) : Prop :=
  action' = CARDS777_FOLD /\ sp nd' = sp nd /\ bets (hand (dp nd')) = bets (hand (dp nd)) /\
  betsize (hand (dp nd')) = betsize (hand (dp nd)) /\
  betstatus (hand (dp nd')) = zput (betstatus (hand (dp nd))) player CARDS777_FOLD.

Definition bet_pays (nd : node) (player s amt : Z) (all_in : bool) (action' : Z) (nd' : node) : Prop :=
  let h := hand (dp nd) in
  balances (sp nd') = zput (balances (sp nd)) s (znth (balances (sp nd)) s - amt) /\
  bets (hand (dp nd')) = zput (bets h) s (znth (bets h) s + amt) /\
  betsize (hand (dp nd')) = Z.max (betsize h) (znth (bets h) player + amt) /\
  betstatus (hand (dp nd')) = (if all_in then zput (betstatus h) player CARDS777_ALLIN else betstatus h) /\
  (all_in = true -> action' = CARDS777_ALLIN).

(** Whether an amount asked for takes the whole balance, and what is paid then or otherwise: an
    amount above the bet size and the last raise, but below twice the last raise, is clipped to
    the last raise. *)
Definition asks_all (bal bet : Z) : bool := bool_decide (0 < bet /\ bal <= bet).
Definition amount_paid (h : handinfo) (bal bet : Z) : Z :=
  if asks_all bal bet then bal
  else if bool_decide (betsize h < bet /\ lastraise h < bet < 2 * lastraise h) then lastraise h
  else bet.

Lemma bet_choice_spec h player bal bet action :
  length (betstatus h) = 9%nat -> 0 <= player < 9 -> 0 <= bal -> 0 <= bet ->
  0 <= lastraise h < 2 ^ 60 -> action <> CARDS777_ALLIN ->
  0 <= amount_paid h bal bet <= bal /\
  exists a, bet_choice h player bal bet action =
      Some (amount_paid h bal bet, a, if asks_all bal bet then zput (betstatus h) player CARDS777_ALLIN else betstatus h) /\
    (a =? CARDS777_ALLIN) = asks_all bal bet.
Proof.
  intros Hl Hp Hb Hbet Hlr Ha. pow60. unfold bet_choice, amount_paid, asks_all. rewrite Z.shiftl_mul_pow2 by lia. change (2 ^ 1) with 2.
  rewrite swrap_small by (change (2 ^ (64 - 1)) with 9223372036854775808; lia).
  destruct (Z.ltb_spec 0 bet), (Z.leb_spec bal bet); cbn [andb].
  1: { rewrite bool_decide_eq_true_2 by lia. split; [lia|]. rewrite aset_zput by lia. step. by eexists. }
  all: rewrite (bool_decide_eq_false_2 (0 < bet /\ bal <= bet)) by lia.
  all: destruct (Z.ltb_spec (betsize h) bet), (Z.ltb_spec (lastraise h) bet), (Z.ltb_spec bet (lastraise h * 2)); cbn [andb].
  all: try (exfalso; lia).
  all: match goal with |- context [bool_decide ?P] => first [rewrite (bool_decide_eq_true_2 P) by lia | rewrite (bool_decide_eq_false_2 P) by lia] end.
  all: split; [lia|]; eexists; split; [reflexivity|]; by apply Z.eqb_neq.
Qed.

(** The node after the decisions of [pangea_bet] that come before the payment. *)
Definition decided (nd : node) (bs : list Z) (lr na bz lb : Z) : node :=
  on_hand (fun h => h.[betstatus <- bs].[lastraise <- lr].[numactions <- na].[betsize <- bz].[lastbettor <- lb]) nd.

Lemma bet_decide_spec nd bs player amt action sum :
  0 <= sum -> 0 <= amt -> sum + amt < 2 ^ 60 -> 0 <= betsize (hand (dp nd)) < 2 ^ 60 ->
  0 <= lastraise (hand (dp nd)) < 2 ^ 60 ->
  exists a lr na lb, bet_decide (on_hand (fun h => h.[betstatus <- bs]) nd) player amt action sum
    = (a, decided nd bs lr na (Z.max (betsize (hand (dp nd))) (sum + amt)) lb) /\ 0 <= lr < 2 ^ 60 /\
    (action = CARDS777_ALLIN -> a = CARDS777_ALLIN).
Proof.
  intros Hs Ha Hsum Hbs Hlr. unfold bet_decide. pow60.
  change (lastraise (hand (dp (on_hand (fun h => h.[betstatus <- bs]) nd)))) with (lastraise (hand (dp nd))).
  rewrite (uwrap_small 64 (sum + amt)) by (change (2 ^ 64) with 18446744073709551616; lia).
  rewrite (swrap_small 64 (sum + amt)) by (change (2 ^ (64 - 1)) with 9223372036854775808; lia).
  rewrite (swrap_small 64 (2 * _)) by (change (2 ^ (64 - 1)) with 9223372036854775808; lia).
  destruct (Z.leb_spec (2 * lastraise (hand (dp nd))) amt); cbv beta iota zeta;
    match goal with |- context [u64 (betsize (hand (dp ?x))) <? _] =>
      change (betsize (hand (dp x))) with (betsize (hand (dp nd))) end;
    rewrite (uwrap_small 64 (betsize _)) by (change (2 ^ 64) with 18446744073709551616; lia);
    (destruct (Z.ltb_spec (betsize (hand (dp nd))) (sum + amt));
      [rewrite (Z.max_r (betsize _)) by lia;
       match goal with |- context [if ?b then _ else _] => destruct b end
      |rewrite (Z.max_l (betsize _)) by lia]).
  - eexists _, (sum + amt), 0, player. split; [reflexivity|]; split; [lia|by intros ->].
  - eexists _, amt, 0, player. split; [reflexivity|]; split; [lia|by intros ->].
  - eexists _, amt, 0, (lastbettor (hand (dp nd))). split; [reflexivity|]; split; [lia|by intros ->].
  - eexists _, (sum + amt), 0, player. split; [reflexivity|]; split; [lia|by intros ->].
  - eexists _, (lastraise (hand (dp nd))), 0, player. split; [reflexivity|]; split; [lia|by intros ->].
  - eexists _, (lastraise (hand (dp nd))), (numactions (hand (dp nd))), (lastbettor (hand (dp nd))).
    split; [reflexivity|]; split; [lia|by intros ->].
Qed.

Lemma bet_spec nd player bet action :
  play_ok nd -> 0 <= player < dN (dp nd) -> 0 <= bet < 2 ^ 60 -> action <> CARDS777_ALLIN ->
  Z.of_nat (length (summary (dp nd))) + 10 <= SUMMARY_MAX ->
  exists action' nd', pangea_bet nd player bet action = Some (action', nd') /\
    moves 10 nd nd' /\
    let st := znth (betstatus (hand (dp nd))) player in
    if (st =? CARDS777_ALLIN) || (st =? CARDS777_FOLD) then action' = st /\ nd' = nd
    else exists s, pangea_slot (sp nd) player = Some s /\ 0 <= s < 9 /\
      let h := hand (dp nd) in
      let bal := znth (balances (sp nd)) s in
      let amt := amount_paid h bal bet in
      0 <= amt <= bal /\
      if negb (asks_all bal bet) && bool_decide (znth (bets h) player + amt < betsize h)
      then bet_folds nd player action' nd'
      else bet_pays nd player s amt (asks_all bal bet) action' nd'.
Proof.
  intros Hplay Hp Hbet Ha Hsm. pose proof Hplay as [Htab Hact Hbn Hbs Hlr Hch].
  pose proof Htab as [Hok Hst Hrk Hrk0 Hbl Hwon Hcom Hbal Hnn Hsn Hmr Hml].
  pose proof (seats_players _ _ Hok) as HN.
  unfold pangea_bet. destruct (Z.eqb_spec (dN (dp nd)) 0); [lia|].
  rewrite Z.rem_small by lia. rewrite (aget_znth (betstatus _)) by lia. step. cbv zeta.
  destruct (Z.eqb_spec (znth (betstatus (hand (dp nd))) player) CARDS777_ALLIN) as [E1|E1]; cbn [orb].
  { do 2 eexists. split; [done|]. split; [|by rewrite E1].
    apply (moves_weaken 0); [by apply moves_refl|lia]. }
  destruct (Z.eqb_spec (znth (betstatus (hand (dp nd))) player) CARDS777_FOLD) as [E2|E2].
  { do 2 eexists. split; [done|]. split; [|by rewrite E2].
    apply (moves_weaken 0); [by apply moves_refl|lia]. }
  destruct (slot_total _ _ player Hok Hp) as (s & Es & Hs & _). rewrite Es. step.
  rewrite (aget_znth (balances _)) by lia. step.
  pose proof (money_term (balances (sp nd)) s Hnn Hs) as Hbals.
  pose proof (money_term (bets (hand (dp nd))) player Hbn ltac:(lia)) as Hbetp.
  pose proof (money_term (bets (hand (dp nd))) s Hbn Hs) as Hbets.
  unfold chips in Hch.
  set (all := asks_all (znth (balances (sp nd)) s) bet). set (amt := amount_paid (hand (dp nd)) (znth (balances (sp nd)) s) bet).
  destruct (bet_choice_spec (hand (dp nd)) player (znth (balances (sp nd)) s) bet action)
    as (Hamt & a & Hch' & Hall); try done; try lia. fold all amt in Hamt, Hch', Hall.
  rewrite Hch'. step. set (bs := if all then _ else _).
  set (nd1 := on_hand (fun h => h.[betstatus <- bs]) nd).
  assert (Hbsl : length bs = 9%nat).
  { unfold bs. destruct all; by rewrite ?zput_length. }
  change (bets (hand (dp nd1))) with (bets (hand (dp nd))). rewrite (aget_znth (bets _)) by lia. step.
  pow60. assert (U : forall x, 0 <= x < 2 ^ 62 -> u64 x = x /\ i64 x = x).
  { intros x Hx. change (2 ^ 62) with 4611686018427387904 in Hx. split.
    - apply uwrap_small. change (2 ^ 64) with 18446744073709551616. lia.
    - apply swrap_small; [lia|]. change (2 ^ (64 - 1)) with 9223372036854775808. lia. }
  change (2 ^ 62) with 4611686018427387904 in U.
  set (b0 := znth (bets (hand (dp nd))) player) in *.
  rewrite (proj1 (U b0 ltac:(lia))), (proj1 (U (b0 + amt) ltac:(lia))).
  change (betsize (hand (dp nd1))) with (betsize (hand (dp nd))).
  rewrite (proj1 (U (betsize (hand (dp nd))) ltac:(lia))).
  assert (Efold : (b0 + amt <? betsize (hand (dp nd))) && negb (a =? CARDS777_ALLIN) = negb all && bool_decide (b0 + amt < betsize (hand (dp nd)))).
  { rewrite Hall, andb_comm. f_equal. destruct (Z.ltb_spec (b0 + amt) (betsize (hand (dp nd)))); [by rewrite bool_decide_eq_true_2|by rewrite bool_decide_eq_false_2 by lia]. }
  rewrite Efold. destruct (negb all && _) eqn:Ef.
  - pose proof Ef as Ef2. apply andb_true_iff in Ef2 as [Ea _]. apply negb_true_iff in Ea.
    assert (nd1 = nd) as -> by (unfold nd1, bs; rewrite Ea; apply set_status_same).
    destruct (fold_spec nd player Hplay) as (nd' & -> & Hmv & H1 & H2 & H3 & H4); [lia|done|]. step.
    exists CARDS777_FOLD, nd'. split; [done|]. split; [done|]. exists s. split; [done|]. split; [done|]. split; [done|]. fold amt all b0. by rewrite Ef.
  - destruct (bet_decide_spec nd bs player amt a b0) as (a2 & lr & na & lb & Edec & Hlr2 & Ha2);
      [pow60; lia..|]. fold nd1 in Edec. rewrite Edec. cbv beta iota zeta.
    set (nd2 := decided nd bs lr na (Z.max (betsize (hand (dp nd))) (b0 + amt)) lb).
    set (act := if (0 <? amt) && (a2 =? CARDS777_CHECK) then CARDS777_CALL else a2).
    rewrite summary_add_eq; rewrite ?le_bytes_length; try apply le_bytes_bytes; try (cbn; lia).
    2: { constructor; [by apply (uwrap_range 8)|done]. }
    step. set (nd3 := nd2.[dp <- _]).
    change (sp nd3) with (sp nd). rewrite Es. step.
    rewrite (aget_znth (balances _)) by lia. step. rewrite aset_zput by lia. step.
    change (bets (hand (dp nd3))) with (bets (hand (dp nd))).
    rewrite (aget_znth (bets _)) by lia. step. rewrite aset_zput by lia. step.
    rewrite (proj2 (U (znth (balances (sp nd)) s - amt) ltac:(lia))),
      (proj2 (U (znth (bets (hand (dp nd))) s + amt) ltac:(lia))).
    set (bals := zput (balances (sp nd)) s _). set (bts := zput (bets (hand (dp nd))) s _).
    exists act. eexists. split; [reflexivity|]. set (nd4 := on_hand _ _).
    assert (Hbalsl : length bals = 9%nat) by (unfold bals; by rewrite zput_length).
    assert (Hbtsl : length bts = 9%nat) by (unfold bts; by rewrite zput_length).
    assert (Hbalsn : Forall (fun x => 0 <= x) bals) by (apply Forall_zput; [done|lia]).
    assert (Hbtsn : Forall (fun x => 0 <= x) bts) by (apply Forall_zput; [done|lia]).
    assert (Hsame : chips nd4 = chips nd).
    { change (money bals + money bts = chips nd). unfold bals, bts, chips. rewrite !money_upd by done. lia. }
    split.
    + constructor; [|done|done|].
      * constructor; try done.
        -- destruct Hok. constructor; try done.
        -- change (0 <= Z.max (betsize (hand (dp nd))) (b0 + amt) < 2 ^ 60). pow60. lia.
        -- rewrite Hsame. unfold chips. by pow60.
      * change (summary (dp nd4)) with (summary (dp nd) ++ u8 act :: [u8 player] ++ le_bytes 8 amt).
        rewrite length_app. cbn [length app]. rewrite le_bytes_length. lia.
    + exists s. split; [done|]. split; [done|]. split; [done|]. fold amt all b0. rewrite Ef.
      split; [done|]. split; [done|]. split; [done|]. split; [done|].
      intros Et. rewrite Et in Hall. apply Z.eqb_eq in Hall. specialize (Ha2 Hall). unfold act. rewrite Ha2. by rewrite andb_false_r.
Qed.

(** ** Antes and blinds *)

Lemma moves_loop n (body : Z -> node -> option node) nd :
  play_ok nd ->
  (forall i nd1, 0 <= i < Z.of_nat n -> moves (10 * i) nd nd1 ->
     exists nd2, body i nd1 = Some nd2 /\ moves 10 nd1 nd2) ->
  exists nd', for_loopM n 0 body nd = Some nd' /\ moves (10 * Z.of_nat n) nd nd'.
Proof.
  intros Hok Hbody. apply (for_loopM_inv (fun i nd1 => moves (10 * i) nd nd1)).
  - intros i nd1 Hi Hm. destruct (Hbody i nd1) as (nd2 & E & H2); [lia|done|].
    exists nd2. split; [done|]. apply (moves_weaken (10 * i + 10)); [by eapply moves_trans|lia].
  - by apply moves_refl.
Qed.

Lemma bet_moves nd player bet action :
  play_ok nd -> 0 <= player < dN (dp nd) -> 0 <= bet < 2 ^ 60 -> action <> CARDS777_ALLIN ->
  Z.of_nat (length (summary (dp nd))) + 10 <= SUMMARY_MAX ->
  exists a nd', pangea_bet nd player bet action = Some (a, nd') /\ moves 10 nd nd'.
Proof. intros. destruct (bet_spec nd player bet action) as (a & nd' & ? & ? & _); eauto. Qed.

Lemma fold_moves nd player :
  play_ok nd -> 0 <= player < 9 -> Z.of_nat (length (summary (dp nd))) + 10 <= SUMMARY_MAX ->
  exists nd', pangea_fold nd player = Some nd' /\ moves 10 nd nd'.
Proof. intros. destruct (fold_spec nd player) as (nd' & ? & ? & _); eauto. Qed.

(** The balance of the player [i], read through the seat. *)
Lemma balance_read nd0 nd i :
  play_ok nd -> same_table nd0 nd -> 0 <= i < dN (dp nd0) ->
  exists s, pangea_slot (sp nd) i = Some s /\
    aget (balances (sp nd)) s = Some (znth (balances (sp nd)) s) /\ 0 <= i < dN (dp nd) /\ 0 <= i < 9.
Proof.
  intros [Htab] (EN & _) Hi. pose proof (seats_players _ _ (tab_seats _ Htab)). rewrite EN in *.
  destruct (slot_total _ _ i (tab_seats _ Htab)) as (s & Es & Hs & _); [lia|].
  exists s. split; [done|]. split; [|lia]. apply aget_znth. rewrite (tab_balances _ Htab). lia.
Qed.

Lemma amount_eq x : 0 <= x < 2 ^ 60 -> i64 x = x.
Proof.
  intros Hx. pow60. apply swrap_small; [lia|]. change (2 ^ (64 - 1)) with 9223372036854775808. lia.
Qed.

Section Antes.
Context (nd0 : node) (Hok0 : play_ok nd0).
Context (Hante : 0 <= ante (dp nd0) < 2 ^ 60) (Hblind : 0 <= bigblind (dp nd0) < 2 ^ 60).
Let N := dN (dp nd0).

Lemma N_range : 1 <= N <= 9.
Proof. apply (seats_players _ (sp nd0)), Hok0. Qed.

Lemma broke_moves nd :
  moves 100 nd0 nd -> Z.of_nat (length (summary (dp nd0))) + 200 <= SUMMARY_MAX ->
  exists nd', antes_broke nd = Some nd' /\ moves 200 nd0 nd'.
Proof.
  intros Hm Hsum. pose proof Hm as [Hok _ Hsame Hs]. pose proof N_range as HN.
  assert (EN : dN (dp nd) = N) by apply Hsame.
  destruct (moves_loop (Z.to_nat (dN (dp nd))) (fun i nd =>
    s ← pangea_slot (sp nd) i;
    bal ← aget (balances (sp nd)) s;
    if bal <=? 0 then pangea_fold nd i else Some nd) nd Hok) as (nd' & E & Hm').
  - intros i nd1 Hi [Hok1 Hch1 Hsame1 Hs1].
    destruct (balance_read nd nd1 i Hok1 Hsame1 ltac:(lia)) as (s & -> & E & Hi1 & Hi9). step. rewrite E. step.
    destruct (_ <=? 0); [apply fold_moves; [done|done|lia]|].
    exists nd1. split; [done|]. apply (moves_weaken 0); [by apply moves_refl|lia].
  - exists nd'. split; [exact E|]. apply (moves_weaken (100 + 10 * Z.of_nat (Z.to_nat (dN (dp nd))))); [|lia].
    by eapply moves_trans.
Qed.

Lemma post_moves nd :
  moves 200 nd0 nd -> Z.of_nat (length (summary (dp nd0))) + 300 <= SUMMARY_MAX ->
  exists nd', antes_post nd = Some nd' /\ moves 300 nd0 nd'.
Proof.
  intros Hm Hsum. pose proof Hm as [Hok _ Hsame Hs]. pose proof N_range as HN.
  assert (EN : dN (dp nd) = N) by apply Hsame.
  unfold antes_post. cbv zeta. match goal with |- context [for_loopM ?n 0 ?b nd] =>
    destruct (moves_loop n b nd Hok) as (nd' & E & Hm') end.
  - intros i nd1 Hi [Hok1 Hch1 Hsame1 Hs1].
    destruct (_ && _); [|exists nd1; split; [done|]; apply (moves_weaken 0); [by apply moves_refl|lia]].
    destruct (balance_read nd nd1 i Hok1 Hsame1 ltac:(lia)) as (s & -> & E & Hi1 & Hi9). step. rewrite E. step.
    destruct (_ <? _); [apply fold_moves; [done|done|lia]|].
    assert (Ea : ante (dp nd1) = ante (dp nd0)) by (destruct Hsame as (_ & _ & ? & _), Hsame1 as (_ & _ & ? & _); congruence).
    rewrite Ea, amount_eq by done.
    destruct (bet_moves nd1 i (ante (dp nd0)) CARDS777_ANTE) as (a & nd2 & -> & Hm2); [done..|lia|].
    step. by exists nd2.
  - exists nd'. split; [exact E|]. apply (moves_weaken (200 + 10 * Z.of_nat (Z.to_nat (dN (dp nd))))); [|lia].
    by eapply moves_trans.
Qed.

Lemma actives_moves nd :
  moves 300 nd0 nd -> Z.of_nat (length (summary (dp nd0))) + 400 <= SUMMARY_MAX ->
  exists n acts nd', antes_actives nd = Some (n, acts, nd') /\ moves 400 nd0 nd' /\
    length acts = 9%nat /\ forall k, 0 <= k < n -> 0 <= znth acts k < N.
Proof.
  intros Hm Hsum. pose proof Hm as [Hok _ Hsame Hs]. pose proof N_range as HN.
  assert (EN : dN (dp nd) = N) by apply Hsame.
  unfold antes_actives. cbv zeta. match goal with |- context [for_loopM ?m 0 ?b ?s] =>
    destruct (for_loopM_inv (fun i '(n, acts, nd1) => moves (10 * i) nd nd1 /\ 0 <= n <= i /\
      length (acts : list Z) = 9%nat /\ forall k, 0 <= k < n -> 0 <= znth acts k < N) m 0 b s)
      as ([[n acts] nd'] & -> & Hm' & Hn & Hl & Hacts) end.
  - intros i [[n acts] nd1] Hi ([Hok1 Hch1 Hsame1 Hs1] & Hn & Hl & Hacts).
    set (j := u32 (1 + button (dp nd1) + i) mod dN (dp nd)).
    assert (Hj : 0 <= j < dN (dp nd)) by (apply Z.mod_pos_bound; lia).
    destruct (balance_read nd nd1 j Hok1 Hsame1 Hj) as (s & -> & E & Hi1 & Hi9). step. rewrite E. step.
    match goal with |- context [if ?b then _ else _] => destruct b end.
    + rewrite aset_zput by lia. step. eexists. split; [done|]. cbn beta iota.
      split; [apply (moves_weaken (10 * i)); [by constructor|lia]|].
      split; [lia|]. split; [by rewrite zput_length|].
      intros k Hk. rewrite znth_zput by lia. destruct (Z.eqb_spec n k); [lia|]. apply Hacts. lia.
    + destruct (fold_moves nd1 j) as (nd2 & -> & Hm2); [done|done|lia|]. step.
      eexists. split; [done|]. cbn beta iota. split; [|done || (split; [lia|done])].
      apply (moves_weaken (10 * i + 10)); [|lia]. eapply moves_trans; [by constructor|done].
  - split; [by apply moves_refl|]. split; [lia|]. split; [done|]. lia.
  - exists n, acts, nd'. split; [done|]. split; [|done].
    apply (moves_weaken (300 + 10 * Z.of_nat (Z.to_nat (dN (dp nd))))); [|lia].
    eapply moves_trans; [done|]. by rewrite Z.add_0_l in Hm'.
Qed.
End Antes.

(** ** Properties *)


(** After a bet the player is out, all in or level.  When the player's seat has the
    player's index and no bet exceeds the bet size, every outcome of [pangea_bet] leaves the
    player folded, all in, or with exactly the bet size, the bet size never shrinks, and no
    bet exceeds it. *)
Theorem pangea_bet_levels nd player bet action :
  play_ok nd -> 0 <= player < dN (dp nd) -> 0 <= bet < 2 ^ 60 -> action <> CARDS777_ALLIN ->
  Z.of_nat (length (summary (dp nd))) + 10 <= SUMMARY_MAX ->
  pangea_slot (sp nd) player = Some player ->
  (forall j, 0 <= j < 9 -> znth (bets (hand (dp nd))) j <= betsize (hand (dp nd))) ->
  exists action' nd', pangea_bet nd player bet action = Some (action', nd') /\
    let h := hand (dp nd') in
    betsize (hand (dp nd)) <= betsize h /\
    (forall j, 0 <= j < 9 -> znth (bets h) j <= betsize h) /\
    (znth (betstatus h) player = CARDS777_FOLD \/ znth (betstatus h) player = CARDS777_ALLIN \/
     znth (bets h) player = betsize h).
Proof.
  intros H1 H2 H3 H4 H5 Hslot Hle.
  destruct (bet_spec nd player bet action H1 H2 H3 H4 H5) as (a & nd' & -> & _ & Hout).
  exists a, nd'. split; [done|]. cbv zeta in *.
  pose proof (play_table _ H1) as Htab. pose proof (seats_players _ _ (tab_seats _ Htab)).
  pose proof (tab_bets _ Htab). pose proof (tab_status _ Htab).
  destruct (_ || _) eqn:E.
  - destruct Hout as [_ ->]. split; [lia|]. split; [done|].
    apply orb_true_iff in E as [E|E]; apply Z.eqb_eq in E; auto.
  - destruct Hout as (s & Es & Hs & Hamt & Hout). assert (s = player) as -> by congruence.
    destruct (negb _ && _) eqn:Ef; [destruct Hout as (_ & _ & -> & -> & ->)|destruct Hout as (_ & -> & -> & -> & _)].
    + split; [lia|]. split; [done|]. left. by rewrite znth_zput, Z.eqb_refl by lia.
    + split; [lia|]. split.
      * intros j Hj. rewrite znth_zput by lia. pose proof (Hle j Hj).
        destruct (Z.eqb_spec player j); lia.
      * right. apply andb_false_iff in Ef as [Ef|Ef].
        -- apply negb_false_iff in Ef. rewrite Ef. left. by rewrite znth_zput, Z.eqb_refl by lia.
        -- apply bool_decide_eq_false in Ef. right. rewrite znth_zput, Z.eqb_refl by lia. lia.
Qed.

(** Antes and blinds conserve the chips.  [pangea_antes] ends normally for every table
    of a valid hand whatever the balances are, and folding, posting antes and posting the
    blinds together neither create nor destroy a chip or make a balance or a bet negative. *)
Theorem pangea_antes_conserves nd :
  play_ok nd -> 0 <= ante (dp nd) < 2 ^ 60 -> 0 <= bigblind (dp nd) < 2 ^ 60 ->
  Z.of_nat (length (summary (dp nd))) <= 60000 ->
  exists nd', pangea_antes nd = Some nd' /\ play_ok nd' /\ chips nd' = chips nd /\
    dp_snapshot (dp nd') = take (Z.to_nat (numaddrs (sp nd))) (balances (sp nd))
      ++ drop (Z.to_nat (numaddrs (sp nd))) (dp_snapshot (dp nd)).
Proof.
  intros Hok Ha Hb Hsum. pose proof Hok as [Htab Hact Hbn Hbs Hlr Hch].
  pose proof Htab as [Hseats Hst Hrk Hrk0 Hbl Hwon Hcom Hbal Hnn Hsn Hmr Hml].
  pose proof (ok_max _ _ Hseats) as Hmax. pose proof (ok_num _ _ Hseats) as Hnum. unfold CARDS777_MAXPLAYERS in Hmax.
  unfold pangea_antes. cbv zeta. rewrite copy_prefix_eq by lia. step.
  set (snap := take _ _ ++ drop _ _).
  assert (Hsl : length snap = 9%nat) by (unfold snap; rewrite length_app, length_take, length_drop; lia).
  set (nd1 := on_dp _ nd).
  rewrite summary_add_eq; rewrite ?le_bytes_length, ?mem64_length, ?length_take; try apply le_bytes_bytes;
    try apply mem64_bytes; try lia.
  2: { change (summary (dp nd1)) with (summary (dp nd)). change SUMMARY_MAX with 65536. lia. }
  step. set (nd2 := nd1.[dp <- _]).
  assert (Hok2 : play_ok nd2) by (constructor; try done; destruct Hseats; by constructor).
  assert (Hs2 : Z.of_nat (length (summary (dp nd2))) <= Z.of_nat (length (summary (dp nd))) + 100).
  { change (summary (dp nd2)) with (summary (dp nd) ++ u8 CARDS777_SNAPSHOT
      :: le_bytes 4 (numhands (dp nd1) - 1) ++ mem64 (take (Z.to_nat (numaddrs (sp nd1))) snap)).
    rewrite length_app. cbn [length]. rewrite length_app, le_bytes_length, mem64_length, length_take. lia. }
  change SUMMARY_MAX with 65536 in *.
  destruct (broke_moves nd2 Hok2 nd2) as (nd3 & -> & Hm3);
    [apply (moves_weaken 0); [by apply moves_refl|lia]|change SUMMARY_MAX with 65536; lia|]. step.
  assert (exists nd4, (if negb (ante (dp nd3) =? 0) then antes_post nd3 else Some nd3) = Some nd4 /\
    moves 300 nd2 nd4) as (nd4 & -> & Hm4).
  { destruct (negb _).
    - destruct (post_moves nd2 Hok2 Ha nd3) as (nd4 & -> & Hm4); [|change SUMMARY_MAX with 65536; lia|eauto].
      apply (moves_weaken 200); [done|lia].
    - exists nd3. split; [done|]. apply (moves_weaken 200); [done|lia]. }
  step. destruct (actives_moves nd2 Hok2 nd4 Hm4) as (n & acts & nd5 & -> & Hm5 & Hl & Hacts);
    [change SUMMARY_MAX with 65536; lia|]. step.
  assert (Hend : forall nd', play_ok nd' -> chips nd' = chips nd -> dp_snapshot (dp nd') = snap ->
    exists nd'', Some nd' = Some nd'' /\ play_ok nd'' /\ chips nd'' = chips nd /\ dp_snapshot (dp nd'') = snap)
    by (intros nd' ? ? ?; by exists nd').
  pose proof Hm5 as [Hok5 Hch5 Hsame5 Hs5].
  assert (E5 : dp_snapshot (dp nd5) = snap) by (by destruct Hsame5 as (_ & _ & _ & _ & _ & _ & _ & _ & ->)).
  destruct (Z.ltb_spec n 2) as [|Hn2]; [by apply Hend|].
  rewrite (aget_znth acts 0), (aget_znth acts 1) by lia. step. step.
  assert (EN : dN (dp nd5) = dN (dp nd2)) by apply Hsame5.
  assert (Ebb : forall x, same_table nd2 x -> bigblind (dp x) = bigblind (dp nd)) by (intros x Hx; apply Hx).
  rewrite (Ebb nd5 Hsame5), Z.shiftr_div_pow2 by lia. change (2 ^ 1) with 2.
  assert (Hhalf : 0 <= bigblind (dp nd) / 2 < 2 ^ 60).
  { pow60. split; [apply Z.div_pos|apply Z.div_lt_upper_bound]; lia. }
  rewrite (amount_eq (_ / 2)) by done.
  destruct (bet_moves nd5 (znth acts 0) (bigblind (dp nd) / 2) CARDS777_SMALLBLIND) as (r1 & nd6 & -> & Hm6);
    [done|rewrite EN; apply Hacts; lia|done|done|change SUMMARY_MAX with 65536; lia|]. step.
  pose proof (moves_trans _ _ _ _ _ Hm5 Hm6) as [Hok6 Hch6 Hsame6 Hs6].
  set (nd7 := on_dp _ nd6).
  assert (Hok7 : play_ok nd7).
  { destruct Hok6 as [T6]. constructor; try done. destruct T6 as [S6]. destruct S6. by constructor. }
  change (bigblind (dp nd7)) with (bigblind (dp nd6)). rewrite (Ebb nd6 Hsame6), amount_eq by done.
  destruct (bet_moves nd7 (znth acts 1) (bigblind (dp nd)) CARDS777_BIGBLIND) as (r2 & nd8 & -> & Hm8);
    [done| |done|done| |].
  { change (dN (dp nd7)) with (dN (dp nd6)). assert (dN (dp nd6) = dN (dp nd2)) as -> by apply Hsame6.
    apply Hacts. lia. }
  { change (summary (dp nd7)) with (summary (dp nd6)). change SUMMARY_MAX with 65536. lia. }
  step. destruct Hm8 as [Hok8 Hch8 Hsame8 _]. apply Hend; [done| |].
  - rewrite Hch8. change (chips nd7) with (chips nd6). rewrite Hch6. done.
  - destruct Hsame8 as (_ & _ & _ & _ & _ & _ & _ & _ & ->).
    change (dp_snapshot (dp nd7)) with (dp_snapshot (dp nd6)).
    by destruct Hsame6 as (_ & _ & _ & _ & _ & _ & _ & _ & ->).
Qed.

(** ** Concrete bets *)

(** Three players, the bet size at 20, the first player to act. *)
Definition bet_demo : node :=
  on_sp (fun i => i.[active <- [11; 12; 13; 0; 0; 0; 0; 0; 0]])
    (on_hand (fun h => h.[betsize <- 20].[lastraise <- 20].[bets <- [0; 10; 20; 0; 0; 0; 0; 0; 0]]) demo).

Lemma bet_demo_seats : seats_ok (dp bet_demo) (sp bet_demo).
Proof. constructor; try (vm_compute; split; congruence || reflexivity); try decide_goal. Qed.

Lemma bet_demo_ok : play_ok bet_demo.
Proof.
  constructor; try (vm_compute; split; congruence); try reflexivity; try decide_goal.
  constructor; try reflexivity; try decide_goal; try (vm_compute; split; congruence); try (vm_compute; congruence).
  apply bet_demo_seats.
Qed.

(** A call, a raise that is too small and is clipped to the last raise, and all in. *)
Example bet_demo_runs :
  map (fun bet => option_map (fun '(a, nd) => (a, take 3 (balances (sp nd)), take 3 (bets (hand (dp nd))),
      betsize (hand (dp nd)))) (pangea_bet bet_demo 0 bet CARDS777_CHECK)) [0; 20; 30; 300]
  = [Some (CARDS777_FOLD, [300; 400; 500], [0; 10; 20], 20);
     Some (CARDS777_CALL, [280; 400; 500], [20; 10; 20], 20);
     Some (CARDS777_RAISE, [280; 400; 500], [20; 10; 20], 20);
     Some (CARDS777_ALLIN, [0; 400; 500], [300; 10; 20], 300)].
Proof. vm_compute. reflexivity. Qed.


Lemma pangea_bet_levels_witness :
  exists action' nd', pangea_bet bet_demo 0 50 CARDS777_CHECK = Some (action', nd') /\
    let h := hand (dp nd') in
    20 <= betsize h /\
    (forall j, 0 <= j < 9 -> znth (bets h) j <= betsize h) /\
    (znth (betstatus h) 0 = CARDS777_FOLD \/ znth (betstatus h) 0 = CARDS777_ALLIN \/
     znth (bets h) 0 = betsize h).
Proof.
  apply (pangea_bet_levels bet_demo 0 50 CARDS777_CHECK); try done; [apply bet_demo_ok|].
  intros j Hj. apply (Forall_znth (fun x => x <= 20)); [done|]. decide_goal.
Defined.

Lemma pangea_antes_conserves_witness :
  exists nd', pangea_antes bet_demo = Some nd' /\ play_ok nd' /\ chips nd' = 1230 /\
    dp_snapshot (dp nd') = [300; 400; 500; 0; 0; 0; 0; 0; 0].
Proof. apply (pangea_antes_conserves bet_demo); try done. apply bet_demo_ok. Defined.

(** ** What the bounds of the theorems leave out *)

(** The amount of an "action" command is an unsigned 64-bit number that [pangea_bet] takes as
    signed, and the comparison with the bet size wraps around: for 2^64 - 1000 a player who
    has bet nothing gains 1000 chips, owes a bet of -1000 and lowers the bet size to -1000. *)
Theorem action_withdraws_chips :
  option_map (fun '(r, nd) => (r, take 3 (balances (sp nd)), take 3 (bets (hand (dp nd))),
      betsize (hand (dp nd))))
    (pangea_action 1 0 bet_demo (le_bytes 8 (2 ^ 64 - 1000)) CARDS777_BET 6 0)
  = Some (0, [1300; 400; 500], [-1000; 10; 20], -1000).
Proof. vm_compute. reflexivity. Qed.

(** When the seats are not in the order of the players, the bet is booked at the index of the
    seat: the second player, whose seat is 2, calls 20 and the third player's bet grows. *)
Theorem bet_booked_at_seat :
  let nd := on_sp (fun i => i.[active <- [11; 13; 12; 0; 0; 0; 0; 0; 0]]) bet_demo in
  option_map (fun '(a, nd) => (a, take 3 (balances (sp nd)), take 3 (bets (hand (dp nd)))))
    (pangea_bet nd 1 10 CARDS777_CHECK) = Some (CARDS777_CALL, [300; 400; 490], [0; 10; 30]).
Proof. vm_compute. reflexivity. Qed.
