(* ===== verification/Poker.v ===== *)
(** * poker.c: the deck, the evaluation of hands and their names

    A card is a number below 52, four suits of thirteen ranks.  A score is a 32-bit word: the
    kind of hand from bit 27 on, the ranks that make it in the bits 13 to 25 and the kickers
    in the bits 0 to 12.  The evaluators work on masks of ranks with the tricks of bit
    arithmetic; here they are translated as they are.  Not modelled: [DisplayCard],
    [DisplayHand5], [DisplayHand7] and [poker_test], which print. *)
From Stdlib Require Import ZArith Lia String Ascii.
From stdpp Require Import base list numbers option.
From S2P Require Import Prelude Bits.
Open Scope Z_scope.

(** poker.c:16-16 [RANK_SHL] *)
Definition RANK_SHL : Z := 27.
(** poker.c:17-17 [SUBR_SHL] *)
Definition SUBR_SHL : Z := 13.
(** poker.c:18-18 [SUBR_SHLMASK] *)
Definition SUBR_SHLMASK : Z := Z.shiftl 1 SUBR_SHL - 1.
(** poker.c:20-20 [STRAIGHT_FLUSH_SCORE] *)
Definition STRAIGHT_FLUSH_SCORE : Z := Z.shiftl 8 RANK_SHL.
(** poker.c:21-21 [FOUR_KIND_SCORE] *)
Definition FOUR_KIND_SCORE : Z := Z.shiftl 7 RANK_SHL.
(** poker.c:22-22 [FULL_HOUSE_SCORE] *)
Definition FULL_HOUSE_SCORE : Z := Z.shiftl 6 RANK_SHL.
(** poker.c:23-23 [FLUSH_SCORE] *)
Definition FLUSH_SCORE : Z := Z.shiftl 5 RANK_SHL.
(** poker.c:24-24 [STRAIGHT_SCORE] *)
Definition STRAIGHT_SCORE : Z := Z.shiftl 4 RANK_SHL.
(** poker.c:25-25 [THREE_KIND_SCORE] *)
Definition THREE_KIND_SCORE : Z := Z.shiftl 3 RANK_SHL.
(** poker.c:26-26 [TWO_PAIR_SCORE] *)
Definition TWO_PAIR_SCORE : Z := Z.shiftl 2 RANK_SHL.
(** poker.c:27-27 [TWO_KIND_SCORE] *)
Definition TWO_KIND_SCORE : Z := Z.shiftl 1 RANK_SHL.

(** ** Cards *)

(** poker.c:41-46 [CardValue] *)
Definition CardValue : list Z :=
  concat (replicate 4 [0; 1; 2; 3; 4; 5; 6; 7; 8; 9; 10; 11; 12]).

(** poker.c:48-53 [CardSuit] *)
Definition CardSuit : list Z :=
  replicate 13 1 ++ replicate 13 2 ++ replicate 13 4 ++ replicate 13 8.

(** poker.c:66-71 [CardSuitIdx] *)
Definition CardSuitIdx : list Z :=
  replicate 13 0 ++ replicate 13 1 ++ replicate 13 2 ++ replicate 13 3.

(** poker.c:73-78 [CardMask] *)
Definition CardMask : list Z :=
  concat (replicate 4 [1; 2; 4; 8; 0x10; 0x20; 0x40; 0x80; 0x100; 0x200; 0x400; 0x800; 0x1000]).

(** The character at an index of a string constant; [None] past the terminating zero. *)
Definition char_at (s : string) (i : Z) : option ascii :=
  if (0 <=? i) && (i <? Z.of_nat (String.length s)) then String.get (Z.to_nat i) s
  else if i =? Z.of_nat (String.length s) then Some zero else None.

Definition str1 (c : ascii) : string := String c EmptyString.

(** poker.c:55-64 [cardstr] The text and the returned rank. *)
Definition cardstr (card : Z) : option (string * Z) :=
  let suit := card / 13 in
  let card := card mod 13 in
  if (0 <=? suit) && (suit <? 4) then
    sc ← char_at "CDHS" suit;
    if card =? 9 then Some (("10" ++ str1 sc)%string, card)
    else c ← char_at "A234567890JQK" card; Some ((str1 c ++ str1 sc)%string, card)
  else None.

(** ** Five cards *)

(** [x & (x - 1)] *)
Definition drop_low (x : Z) : Z := Z.land x (u32 (x - 1)).
(** [~x] *)
Definition not32 (x : Z) : Z := u32 (Z.lnot x).

(** poker.c:86-97 [FiveCardDrawScoreFast] The masks of ranks that appear, and that appear
    twice. *)
Definition five_masks (c0 c1 c2 c3 c4 : Z) : Z * Z :=
  let m1 := Z.lor c0 c1 in
  let m2 := Z.land c1 c0 in
  let m2 := Z.lor m2 (Z.land c2 m1) in
  let m1 := Z.lor m1 c2 in
  let m2 := Z.lor m2 (Z.land c3 m1) in
  let m1 := Z.lor m1 c3 in
  let m2 := Z.lor m2 (Z.land c4 m1) in
  let m1 := Z.lor m1 c4 in
  (m1, m2).

(** poker.c:98-114 [FiveCardDrawScoreFast] The score of a hand without a pair; [u] is the
    mask of suits less one suit. *)
Definition five_unpaired (m1 u : Z) : Z :=
  let z := Z.lxor (drop_low m1) m1 in
  let y := u32 (u32 (Z.shiftl z 5) - z) in
  if m1 =? 0x100F then
    if negb (u =? 0) then STRAIGHT_SCORE + 0xF else STRAIGHT_FLUSH_SCORE + 0xF
  else if y =? m1 then
    if negb (u =? 0) then u32 (STRAIGHT_SCORE + m1) else u32 (STRAIGHT_FLUSH_SCORE + m1)
  else if negb (u =? 0) then m1
  else u32 (FLUSH_SCORE + m1).

(** poker.c:120-136 [FiveCardDrawScoreFast] The masks of ranks that appear at least once,
    twice, three and four times. *)
Definition five_counts (c0 c1 c2 c3 c4 : Z) : Z * Z * Z * Z :=
  let m1 := Z.lor c0 c1 in
  let m2 := Z.land c1 c0 in
  let m3 := Z.land c2 m2 in
  let m2 := Z.lor m2 (Z.land c2 m1) in
  let m1 := Z.lor m1 c2 in
  let m4 := Z.land c3 m3 in
  let m3 := Z.lor m3 (Z.land c3 m2) in
  let m2 := Z.lor m2 (Z.land c3 m1) in
  let m1 := Z.lor m1 c3 in
  let m4 := Z.lor m4 (Z.land c4 m3) in
  let m3 := Z.lor m3 (Z.land c4 m2) in
  let m2 := Z.lor m2 (Z.land c4 m1) in
  let m1 := Z.lor m1 c4 in
  (m1, m2, m3, m4).

(** poker.c:137-150 [FiveCardDrawScoreFast] The score of a hand with a pair. *)
Definition five_paired (m1 m2 m3 m4 : Z) : Z :=
  let m1 := Z.land m1 (not32 m2) in
  if m3 =? 0 then
    if drop_low m2 =? 0 then u32 (TWO_KIND_SCORE + Z.shiftl m2 SUBR_SHL + m1)
    else u32 (TWO_PAIR_SCORE + Z.shiftl m2 SUBR_SHL + m1)
  else
    let m2 := Z.land m2 (not32 m3) in
    if m4 =? 0 then
      if m2 =? 0 then u32 (THREE_KIND_SCORE + Z.shiftl m3 SUBR_SHL + m1)
      else u32 (FULL_HOUSE_SCORE + Z.shiftl m3 SUBR_SHL + m2)
    else u32 (FOUR_KIND_SCORE + Z.shiftl m4 SUBR_SHL + m1).

(** poker.c:80-151 [FiveCardDrawScoreFast] *)
Definition FiveCardDrawScoreFast (c0 c1 c2 c3 c4 u : Z) : Z :=
  let u := drop_low u in
  let '(m1, m2) := five_masks c0 c1 c2 c3 c4 in
  if m2 =? 0 then five_unpaired m1 u
  else let '(m1, m2, m3, m4) := five_counts c0 c1 c2 c3 c4 in five_paired m1 m2 m3 m4.

(** poker.c:153-169 [FiveCardDrawScore] *)
Definition FiveCardDrawScore (h : list Z) : option Z :=
  h0 ← aget h 0; h1 ← aget h 1; h2 ← aget h 2; h3 ← aget h 3; h4 ← aget h 4;
  u0 ← aget CardSuit h0; u1 ← aget CardSuit h1; u2 ← aget CardSuit h2; u3 ← aget CardSuit h3;
  u4 ← aget CardSuit h4;
  c0 ← aget CardMask h0; c1 ← aget CardMask h1; c2 ← aget CardMask h2; c3 ← aget CardMask h3;
  c4 ← aget CardMask h4;
  Some (FiveCardDrawScoreFast c0 c1 c2 c3 c4 (Z.lor (Z.lor (Z.lor (Z.lor u0 u1) u2) u3) u4)).

(** ** Seven cards *)

(** poker.c:173-173 [SevenCardDrawFlush] *)
Definition LG2TAB : list Z := [-1; 0; 1; -1; 2; -1; -1; -1; 3].

(** poker.c:220-224 [SevenCardDrawFlush] The loop that removes low cards until five are left. *)
Fixpoint flush_top (fuel : nat) (t cc : Z) : option Z :=
  if cc <? -1 then
    match fuel with O => None | S fuel' => flush_top fuel' (drop_low t) (cc + 1) end
  else Some t.

(** poker.c:171-232 [SevenCardDrawFlush] *)
Definition SevenCardDrawFlush (h c : list Z) : option Z :=
  '(f, cc) ← for_loopM 7 0 (fun k '(f, cc) =>
    card ← aget h k;
    i ← aget CardSuitIdx card;
    m ← aget c k;
    x ← aget f i;
    f ← aset f i (Z.lor x m);
    n ← aget cc i;
    cc ← aset cc i (n - 1);
    Some (f, cc)) ([0; 0; 0; 0], [4; 4; 4; 4]);
  c0 ← aget cc 0; c1 ← aget cc 1; c2 ← aget cc 2; c3 ← aget cc 3;
  if Z.lor (Z.lor c0 c1) (Z.lor c2 c3) <? 0 then
    let s := Z.shiftr (Z.lor (Z.lor (Z.land c0 8) (Z.land c1 16)) (Z.lor (Z.land c2 32) (Z.land c3 64))) 3 in
    s ← aget LG2TAB s;
    fs ← aget f s;
    n ← aget cc s;
    t ← flush_top 7 fs n;
    Some (Z.lor fs (u32 (Z.shiftl t SUBR_SHL)))
  else Some 0.

(** poker.c:234-234 [SevenCardDrawFlushScore] *)
Definition SevenCardDrawFlushScore (f : Z) : Z := u32 (FLUSH_SCORE + Z.shiftr f SUBR_SHL).

(** poker.c:253-254 [SevenCardDrawScore] [(x << n) - 1] and then [u &= ~(u >> m)]: a run of ones that ends below [x << n]. *)
Definition ones_below (x n m : Z) : Z :=
  let u := u32 (u32 (Z.shiftl x n) - 1) in Z.land u (not32 (Z.shiftr u m)).

(** poker.c:256-256 [SevenCardDrawScore] The mask lies within the cards, [(u & t) == u]. *)
Definition covered (u t : Z) : bool := Z.land u t =? u.

(** poker.c:266-272 [SevenCardDrawScore] The end of each of the three searches: a straight flush of one of the runs in [runs], a
    steel wheel, or the flush. *)
Definition straight_flush (f s : Z) (runs : list Z) : Z :=
  match list_find (fun u => covered u s) runs with
  | Some (_, u) => u32 (STRAIGHT_FLUSH_SCORE + u)
  | None =>
      if Z.land 0x100F f =? 0x100F then STRAIGHT_FLUSH_SCORE + 0xF
      else SevenCardDrawFlushScore f
  end.

(** poker.c:259-261 [SevenCardDrawScore] The lowest one of [f & u] and with it the run that starts there. *)
Definition low_run (f u n : Z) : Z * Z :=
  let s := Z.land f u in
  let u := Z.lxor (drop_low s) s in
  (s, ones_below u n 5).

(** poker.c:249-349 [SevenCardDrawScore] The straights: [None] when there is none. *)
Definition seven_straights (t f : Z) : option Z :=
  let s := drop_low t in
  let v := Z.lxor s t in
  let u := ones_below v 7 7 in
  if covered u t then
    if negb (f =? 0) then
      let '(s, u) := low_run f u 7 in
      Some (straight_flush f s [u; Z.shiftr u 1; Z.shiftr u 2])
    else Some (u32 (STRAIGHT_SCORE + Z.land u (not32 (Z.shiftr u 5))))
  else
  let u := ones_below v 6 6 in
  let u := if negb (covered u t) then ones_below (Z.lxor (drop_low s) s) 6 6 else u in
  if covered u t then
    if negb (f =? 0) then
      let '(s, u) := low_run f u 6 in
      Some (straight_flush f s [u; Z.shiftr u 1])
    else Some (u32 (STRAIGHT_SCORE + Z.land u (not32 (Z.shiftr u 5))))
  else
  let u := ones_below v 5 5 in
  let u :=
    if negb (covered u t) then
      let v := s in
      let s := drop_low s in
      let v := Z.lxor v s in
      let u := ones_below v 5 5 in
      if negb (covered u t) then
        let s := Z.lxor s (drop_low s) in ones_below s 5 5
      else u
    else u in
  if covered u t then
    if negb (f =? 0) then
      let '(s, u) := low_run f u 5 in
      Some (straight_flush f s [u])
    else Some (u32 (STRAIGHT_SCORE + Z.land u (not32 (Z.shiftr u 5))))
  else
  if Z.land 0x100F t =? 0x100F then
    if negb (f =? 0) then
      if Z.land 0x100F f =? 0x100F then Some (STRAIGHT_FLUSH_SCORE + 0xF)
      else Some (SevenCardDrawFlushScore f)
    else Some (STRAIGHT_SCORE + 0xF)
  else None.

(** poker.c:357-382 [SevenCardDrawScore] The masks of ranks that appear at least once,
    twice, three and four times: the same four assignments for each card. *)
Definition seven_counts (c : list Z) : Z * Z * Z * Z :=
  foldl (fun '(m1, m2, m3, m4) x =>
    (Z.lor m1 x, Z.lor m2 (Z.land x m1), Z.lor m3 (Z.land x m2), Z.lor m4 (Z.land x m3)))
    (0, 0, 0, 0) c.

(** poker.c:416-418 [SevenCardDrawScore] The loop that keeps the highest card of the mask. *)
Fixpoint top_card (fuel : nat) (m1 : Z) : option Z :=
  let m2 := drop_low m1 in
  if negb (m2 =? 0) then match fuel with O => None | S fuel' => top_card fuel' m2 end
  else Some m1.

(** poker.c:383-439 [SevenCardDrawScore] Flushes and equal ranks. *)
Definition seven_kinds (f m1 m2 m3 m4 : Z) : option Z :=
  let m1 := Z.land m1 (not32 m2) in
  if m3 =? 0 then
    if negb (f =? 0) then Some (SevenCardDrawFlushScore f)
    else if negb (m2 =? 0) then
      let s := drop_low m2 in
      if s =? 0 then
        let t := drop_low m1 in
        let t := Z.land t (u32 (t - 1)) in
        Some (u32 (TWO_KIND_SCORE + Z.shiftl m2 SUBR_SHL + t))
      else
        let v := m1 in
        let t := drop_low s in
        let '(v, m2) := if negb (t =? 0) then (Z.lor v (Z.lxor m2 s), s) else (drop_low v, m2) in
        let v := drop_low v in
        Some (u32 (TWO_PAIR_SCORE + Z.shiftl m2 SUBR_SHL + v))
    else Some (drop_low (drop_low m1))
  else if negb (m4 =? 0) then
    let m1 := Z.lor m1 (Z.land m2 (not32 m4)) in
    m1 ← top_card 13 m1;
    Some (u32 (FOUR_KIND_SCORE + Z.shiftl m4 SUBR_SHL + m1))
  else if Z.land m2 (not32 m3) =? 0 then
    let t := drop_low m3 in
    if negb (t =? 0) then Some (u32 (FULL_HOUSE_SCORE + Z.shiftl t SUBR_SHL + Z.lxor m3 t))
    else if negb (f =? 0) then Some (SevenCardDrawFlushScore f)
    else Some (u32 (THREE_KIND_SCORE + Z.shiftl m3 SUBR_SHL + drop_low (drop_low m1)))
  else
    let m2 := Z.land m2 (not32 m3) in
    let t := drop_low m2 in
    let t := if t =? 0 then m2 else t in
    Some (u32 (FULL_HOUSE_SCORE + Z.shiftl m3 SUBR_SHL + t)).

(** poker.c:236-440 [SevenCardDrawScore] *)
Definition SevenCardDrawScore (h : list Z) : option Z :=
  c ← mapM (fun i => card ← aget h i; aget CardMask card) [0; 1; 2; 3; 4; 5; 6];
  f ← SevenCardDrawFlush h c;
  let t := foldl Z.lor 0 c in
  match seven_straights t f with
  | Some score => Some score
  | None => let '(m1, m2, m3, m4) := seven_counts c in seven_kinds f m1 m2 m3 m4
  end.

(** poker.c:443-465 [SevenCardDrawScoreSlow] *)
Definition SevenCardDrawScoreSlow (h : list Z) : option Z :=
  '(m, _) ← for_loopM 6 0 (fun i '(m, h2) =>
    h2 ← for_loopM (Z.to_nat i) 0 (fun k h2 => x ← aget h k; aset h2 k x) h2;
    for_loopM (Z.to_nat (6 - i)) (i + 1) (fun j '(m, h2) =>
      h2 ← for_loopM (Z.to_nat (j - (i + 1))) (i + 1) (fun k h2 => x ← aget h k; aset h2 (k - 1) x) h2;
      h2 ← for_loopM (Z.to_nat (7 - (j + 1))) (j + 1) (fun k h2 => x ← aget h k; aset h2 (k - 2) x) h2;
      r ← FiveCardDrawScore h2;
      Some (if m <? r then r else m, h2)) (m, h2)) (0, replicate 5 0);
  Some m.

(** ** The deck *)

(** poker.c:36-36 [CardPileType] *)
Record CardPileType := mkPile { len : Z; entry : list Z }.

Definition RAND_MAX : Z := 2147483647.

(** poker.c:473-476 [Shuffle] The loop [do j = rand(); while ( j >= k )] over the values that [rand] returns: the first
    one below [k] and the values that follow it. *)
Fixpoint draw (k : Z) (rands : list Z) : option (Z * list Z) :=
  match rands with
  | [] => None
  | j :: rands => if k <=? j then draw k rands else Some (j, rands)
  end.

(** poker.c:468-482 [Shuffle] *)
Definition Shuffle (c : CardPileType) (rands : list Z) : option (CardPileType * list Z) :=
  '(e, rands) ← for_loopM (Z.to_nat (len c - 1)) 0 (fun i '(e, rands) =>
    let n := len c - i in
    let k := RAND_MAX / n * n in
    '(j, rands) ← draw k rands;
    let j := i + Z.rem j n in
    t ← aget e i;
    x ← aget e j;
    e ← aset e i x;
    e ← aset e j t;
    Some (e, rands)) (entry c, rands);
  Some (mkPile (len c) e, rands).

(** poker.c:484-494 [Deal] The number of cards dealt and the two piles. *)
Definition Deal (h d : CardPileType) (n : Z) : option (Z * CardPileType * CardPileType) :=
  r ← for_ret (Z.to_nat n) 0 (fun i '(h, d) =>
    if 0 <? len d then
      let d := mkPile (len d - 1) (entry d) in
      x ← aget (entry d) (len d);
      e ← aset (entry h) (len h) x;
      Some (inl (mkPile (len h + 1) e, d))
    else Some (inr (i, h, d))) (h, d);
  Some (match r with inl (h, d) => (Z.max 0 n, h, d) | inr x => x end).

(** poker.c:496-501 [InitDeck] *)
Definition InitDeck : CardPileType :=
  mkPile 52 (for_loop 52 0 (fun i e => zput e i (u8 i)) (replicate 52 0)).

(** ** Names *)

(** poker.c:38-38 [handstrs] *)
Definition handstrs : list string :=
  ["high card"; "one pair"; "two pair"; "three of a kind"; "straight"; "flush"; "full house";
   "four of a kind"; "straight flush"; "err"; "err"; "err"; "err"; "err"; "err"; "err"]%string.

(** poker.c:39-39 [kickerstrs] *)
Definition kickerstrs : list string :=
  [""; "kickers"; "kicker"; "kickers"; "high"; "high"; "full of"; "kicker"; "high"; "err";
   "err"; "err"; "err"; "err"; "err"; "err"]%string.

(** poker.c:526-544 [set_cardstr] *)
Definition set_cardstr (c : Z) : option string :=
  let c := Z.shiftr c 1 in
  for_loopM 13 0 (fun k s =>
    let i := 12 - k in
    if truth (Z.land (Z.shiftl 1 i) c) then
      a ← char_at "        1    " i;
      b ← char_at "234567890JQKA" i;
      Some (s ++ str1 a ++ str1 b ++ " ")%string
    else Some s) ""%string.

(** The characters [s[i]] and [s[i+1]] as "%c%c" prints them.  Where [s[i]] is the
    terminating zero, [s[i+1]] is not initialised; the printed zero ends the text there. *)
Definition cc (s : string) (i : Z) : option string :=
  a ← char_at s i;
  if Ascii.eqb a zero then Some (str1 zero) else b ← char_at s (i + 1); Some (str1 a ++ str1 b)%string.

(** The text in a buffer: it ends at the first zero. *)
Fixpoint c_text (s : string) : string :=
  match s with
  | EmptyString => EmptyString
  | String c s => if Ascii.eqb c zero then EmptyString else String c (c_text s)
  end.

(** poker.c:546-596 [set_handstr] The score and the text. *)
Definition set_handstr (cards : option (list Z)) (verbose : Z) : option (Z * string) :=
  match cards with
  | None => Some (0, ""%string)
  | Some cards =>
      r ← for_ret 7 0 (fun i _ =>
        c ← aget cards i;
        if (c <? 0) || (52 <=? c) then Some (inr tt) else Some (inl tt)) tt;
      match r with
      | inr _ => Some (0, ""%string)
      | inl _ =>
          score ← SevenCardDrawScore cards;
          c1 ← set_cardstr (Z.land (Z.shiftr score SUBR_SHL) SUBR_SHLMASK);
          c2 ← set_cardstr (Z.land score SUBR_SHLMASK);
          kicker ← aget kickerstrs (Z.land (Z.shiftr score RANK_SHL) 15);
          str ← aget handstrs (Z.land (Z.shiftr score RANK_SHL) 15);
          text ←
            (if negb (verbose =? 0) then
               if String.eqb kicker "high" then
                 a ← cc c2 0; Some (a ++ " high " ++ str)%string
               else if String.eqb str "full house" then
                 a ← cc c1 0; b ← cc c2 0; Some (a ++ " full of " ++ b)%string
               else if String.eqb str "three of a kind" then
                 a ← cc c1 0; b ← cc c2 0; c ← cc c2 3;
                 Some ("set of " ++ a ++ " with kickers " ++ b ++ " " ++ c)%string
               else if String.eqb str "two pair" then
                 a ← cc c1 0; b ← cc c1 3; c ← cc c2 0;
                 Some ("two pair " ++ a ++ " and " ++ b ++ " with " ++ c ++ " kicker")%string
               else if String.eqb str "one pair" then
                 a ← cc c1 0; b ← cc c2 0;
                 Some ("pair of " ++ a ++ " with " ++ b ++ " kicker")%string
               else Some (str ++ " " ++ c1 ++ " " ++ kicker ++ " " ++ c2)%string
             else
               if String.eqb kicker "high" then
                 a ← cc c2 0; Some (a ++ " high " ++ str)%string
               else if String.eqb str "full house" then
                 a ← cc c1 0; b ← cc c2 0; Some ("fullhouse " ++ a ++ " " ++ b)%string
               else if String.eqb str "three of a kind" then
                 a ← cc c1 0; Some ("trip " ++ a)%string
               else if String.eqb str "two pair" then
                 a ← cc c1 0; b ← cc c1 3; Some ("two pairs " ++ a ++ " " ++ b)%string
               else if String.eqb str "one pair" then
                 a ← cc c1 0; Some ("pair " ++ a)%string
               else Some c2);
          Some (score, c_text text)
      end
  end.
