(* ===== verification/PokerRank.v ===== *)
(** * poker.c: the evaluators compute the rules of poker

    [reference] states the rules: the kinds of hands in their order, which ranks make the
    hand and which are kickers.  The evaluators of five and of seven cards return exactly the
    score of these rules. *)
From Stdlib Require Import ZArith Lia String.
From stdpp Require Import base list numbers option.
From S2P Require Import Prelude Bits Poker.
Open Scope Z_scope.

(** ** The rules *)

(** The ranks, the highest first. *)
Definition ranks : list Z := [12; 11; 10; 9; 8; 7; 6; 5; 4; 3; 2; 1; 0].
Definition suits : list Z := [0; 1; 2; 3].

Definition mask (l : list Z) : Z := foldr (fun r m => Z.lor (Z.shiftl 1 r) m) 0 l.

(** The ranks with a property, the highest first. *)
Definition sel (P : Z -> bool) : list Z := List.filter P ranks.

(** How many cards of a hand have rank [r], and whether it has rank [r] in suit [s]. *)
Definition cnt (h : list Z) (r : Z) : Z := Z.of_nat (length (List.filter (fun c => c mod 13 =? r) h)).
Definition has_suit (h : list Z) (s r : Z) : bool := existsb (fun c => c =? 13 * s + r) h.

(** The ranks of the highest straight; the lowest four ranks stand for the wheel. *)
Definition tops : list Z := [12; 11; 10; 9; 8; 7; 6; 5; 4].
Definition run_to (r : Z) : list Z := [r; r - 1; r - 2; r - 3; r - 4].

Definition straight_ref (has : Z -> bool) : option Z :=
  match List.find (fun r => forallb has (run_to r)) tops with
  | Some r => Some (mask (run_to r))
  | None => if forallb has [12; 3; 2; 1; 0] then Some (mask [3; 2; 1; 0]) else None
  end.

(** The kinds of hands in their order, the weakest first: high card, one pair, two pairs, three
    of a kind, straight, flush, full house, four of a kind, straight flush. *)
Definition kind (k : Z) : Z := k * 2 ^ 27.

Definition score (value : Z) (made kickers : list Z) : Z :=
  value + Z.shiftl (mask made) SUBR_SHL + mask kickers.

Section Rules.
Context (n : Z -> Z).

(** The ranks that occur [k] times, and those that occur and are not among [used]. *)
Definition times (k : Z) : list Z := sel (fun r => n r =? k).
Definition others (used : list Z) : list Z := sel (fun r => (0 <? n r) && negb (existsb (Z.eqb r) used)).

(** Four of a kind and full houses. *)
Definition big_ref : option Z :=
  match times 4, times 3, times 2 with
  | q :: _, _, _ => Some (score (kind 7) [q] (take 1 (others [q])))
  | [], t1 :: t2 :: _, _ => Some (score (kind 6) [t1] [t2])
  | [], [t], p :: _ => Some (score (kind 6) [t] [p])
  | _, _, _ => None
  end.

(** Three of a kind, two pairs, one pair, high card. *)
Definition small_ref : Z :=
  match times 3, times 2 with
  | t :: _, _ => score (kind 3) [t] (take 2 (others [t]))
  | [], p1 :: p2 :: _ => score (kind 2) [p1; p2] (take 1 (others [p1; p2]))
  | [], [p] => score (kind 1) [p] (take 3 (others [p]))
  | [], [] => mask (take 5 (others []))
  end.
End Rules.

(** The score of a hand of five or seven cards by the rules of poker. *)
Definition reference (h : list Z) : Z :=
  match List.find (fun s => 5 <=? Z.of_nat (length (sel (has_suit h s)))) suits with
  | Some s =>
      match straight_ref (has_suit h s) with
      | Some m => kind 8 + m
      | None =>
          match big_ref (cnt h) with
          | Some x => x
          | None => kind 5 + mask (take 5 (sel (has_suit h s)))
          end
      end
  | None =>
      match big_ref (cnt h) with
      | Some x => x
      | None =>
          match straight_ref (fun r => 0 <? cnt h r) with
          | Some m => kind 4 + m
          | None => small_ref (cnt h)
          end
      end
  end.

(** ** Masks of ranks *)

Definition rank_in (r : Z) : Prop := 0 <= r < 13.

Lemma in_ranks r : In r ranks <-> rank_in r.
Proof. unfold rank_in, ranks. cbn [In]. lia. Qed.

Lemma in_sel P r : In r (sel P) <-> rank_in r /\ P r = true.
Proof. unfold sel. rewrite List.filter_In. by rewrite in_ranks. Qed.

Lemma sel_ext P Q : (forall r, rank_in r -> P r = Q r) -> sel P = sel Q.
Proof. intros H. apply List.filter_ext_in. intros r Hr. by apply H, in_ranks. Qed.

Lemma mask_nonneg l : Forall rank_in l -> 0 <= mask l.
Proof.
  induction 1 as [|r l Hr Hl IH]; [done|]. cbn. apply Z.lor_nonneg. split; [|done].
  apply Z.shiftl_nonneg. lia.
Qed.

Lemma mask_testbit l i : Forall rank_in l -> 0 <= i -> Z.testbit (mask l) i = existsb (Z.eqb i) l.
Proof.
  intros Hl Hi. induction Hl as [|r l Hr Hl IH]; [apply Z.bits_0|]. cbn [mask foldr existsb].
  fold (mask l). unfold rank_in in Hr. rewrite Z.lor_spec, IH, Z.shiftl_1_l, Z.pow2_bits_eqb by lia.
  by rewrite Z.eqb_sym.
Qed.

Lemma existsb_in l i : existsb (Z.eqb i) l = true <-> In i l.
Proof.
  rewrite existsb_exists. split.
  - intros (x & Hx & E). apply Z.eqb_eq in E as ->. done.
  - intros H. exists i. by rewrite Z.eqb_refl.
Qed.

Lemma uwrap_pred_land x : 0 <= x < 2 ^ 32 -> Z.land x (u32 (x - 1)) = Z.land x (x - 1).
Proof.
  intros Hx. destruct (Z.eq_dec x 0) as [->|]; [done|]. by rewrite uwrap_small by lia.
Qed.

(** A mask is determined by its members. *)
Lemma mask_bits l m :
  Forall rank_in l -> 0 <= m -> (forall i, 0 <= i -> Z.testbit m i = true <-> In i l) -> m = mask l.
Proof.
  intros Hl Hm H. apply Z.bits_inj'. intros i Hi. rewrite mask_testbit by done.
  apply Bool.eq_iff_eq_true. by rewrite H, existsb_in.
Qed.

Lemma mask_ext l l' : Forall rank_in l -> Forall rank_in l' -> (forall i, In i l <-> In i l') -> mask l = mask l'.
Proof.
  intros Hl Hl' H. apply mask_bits; [done|by apply mask_nonneg|]. intros i Hi.
  by rewrite mask_testbit, existsb_in, H by done.
Qed.

(** Descending lists of ranks. *)
Fixpoint desc (l : list Z) : Prop :=
  match l with [] => True | r :: l => rank_in r /\ Forall (fun x => x < r) l /\ desc l end.

Lemma desc_ranks l : desc l -> Forall rank_in l.
Proof. induction l as [|r l IH]; [done|]. intros (H & _ & Hd). constructor; auto. Qed.

Lemma desc_filter P l : desc l -> desc (List.filter P l).
Proof.
  induction l as [|r l IH]; [done|]. intros (H & Hf & Hd). cbn. destruct (P r); [|auto].
  cbn. split; [done|]. split; [|auto]. apply list.Forall_forall. intros x Hx.
  apply list_elem_of_In, List.filter_In in Hx as [Hx _]. apply list_elem_of_In in Hx.
  by eapply list.Forall_forall in Hf.
Qed.

Lemma desc_sel P : desc (sel P).
Proof. apply desc_filter. cbn. unfold rank_in. repeat (split; [lia|]; split; [repeat constructor; lia|]). done. Qed.

Lemma sel_rank P : Forall rank_in (sel P).
Proof. apply desc_ranks, desc_sel. Qed.

Lemma desc_app l l' : desc (l ++ l') -> desc l /\ desc l' /\ forall x y, In x l -> In y l' -> y < x.
Proof.
  induction l as [|r l IH]; [done|]. intros (Hr & Hf & Hd). destruct (IH Hd) as (H1 & H2 & H3).
  apply list.Forall_app in Hf as [Hf1 Hf2]. split; [done|]. split; [done|].
  intros x y [<-|Hx] Hy; [|auto]. eapply list.Forall_forall in Hf2; [exact Hf2|]. by apply list_elem_of_In.
Qed.

Lemma rank_mask_range l : Forall rank_in l -> 0 <= mask l < 2 ^ 13.
Proof.
  intros Hl. pose proof (mask_nonneg _ Hl). split; [done|]. apply testbit_bound; [lia|lia|]. intros i Hi. rewrite mask_testbit by (done || lia).
  destruct (existsb _ _) eqn:E; [|done]. apply existsb_in, list_elem_of_In in E.
  eapply list.Forall_forall in Hl; [|exact E]. unfold rank_in in Hl. lia.
Qed.

Lemma mask_zero l : Forall rank_in l -> (mask l =? 0) = match l with [] => true | _ => false end.
Proof.
  intros Hl. destruct l as [|r l]; [done|]. apply Z.eqb_neq. intros E.
  assert (Z.testbit (mask (r :: l)) r = false) by (rewrite E; apply Z.bits_0).
  inversion Hl as [|? ? Hr Hl']; subst. unfold rank_in in Hr.
  rewrite mask_testbit in H by (done || lia). cbn in H. by rewrite Z.eqb_refl in H.
Qed.

Lemma land_pred x y :
  0 <= x -> 0 <= y -> Z.land (2 ^ x * (2 * y + 1)) (2 ^ x * (2 * y + 1) - 1) = 2 ^ x * (2 * y).
Proof.
  intros Hx Hy. replace (2 ^ x * (2 * y + 1) - 1) with (2 ^ x - 1 + 2 * y * 2 ^ x) by ring.
  pose proof (Z.pow_pos_nonneg 2 x ltac:(lia) Hx). apply Z.bits_inj'. intros i Hi.
  rewrite Z.land_spec, (Z.mul_comm (2 ^ x)), (Z.mul_comm (2 ^ x)), !Z.mul_pow2_bits by lia.
  destruct (Z.lt_ge_cases i x) as [Hlt|Hge].
  { rewrite !(Z.testbit_neg_r _ (i - x)) by lia. done. }
  assert (E : Z.testbit (2 ^ x - 1 + 2 * y * 2 ^ x) i = Z.testbit (2 * y) (i - x)).
  { replace i with (i - x + x) at 1 by lia. rewrite <- Z.div_pow2_bits by lia.
    rewrite Z.div_add by lia. rewrite (Z.div_small (2 ^ x - 1)) by lia. done. }
  rewrite E. destruct (Z.eq_dec i x) as [->|].
  - rewrite Z.sub_diag, Z.testbit_even_0. by rewrite andb_false_r.
  - replace (i - x) with (Z.succ (i - x - 1)) by lia. rewrite Z.testbit_odd_succ, Z.testbit_even_succ by lia.
    by rewrite andb_diag.
Qed.

(** [x & (x - 1)] drops the lowest rank. *)
Lemma drop_low_mask l x : desc (l ++ [x]) -> drop_low (mask (l ++ [x])) = mask l.
Proof.
  intros Hd. pose proof (desc_app _ _ Hd) as (Hl & (Hx & _) & Hlt).
  pose proof (desc_ranks _ Hd) as Hr. pose proof (desc_ranks _ Hl) as Hrl.
  pose proof (rank_mask_range _ Hr) as Hm. pose proof (rank_mask_range _ Hrl) as Hml. unfold rank_in in Hx.
  assert (Hy : exists y, 0 <= y /\ mask l = 2 ^ x * (2 * y)).
  { exists (Z.shiftr (mask l) (x + 1)). split; [apply Z.shiftr_nonneg; lia|].
    replace (2 ^ x * (2 * Z.shiftr (mask l) (x + 1))) with (Z.shiftl (Z.shiftr (mask l) (x + 1)) (x + 1)).
    2: { rewrite Z.shiftl_mul_pow2, Z.pow_add_r by lia. change (2 ^ 1) with 2. ring. }
    apply Z.bits_inj'. intros i Hi. destruct (Z.lt_ge_cases i (x + 1)).
    - rewrite Z.shiftl_spec_low by lia. rewrite mask_testbit by done.
      destruct (existsb _ _) eqn:E; [|done]. apply existsb_in in E. specialize (Hlt i x E (or_introl eq_refl)). lia.
    - rewrite Z.shiftl_spec, Z.shiftr_spec by lia. f_equal. lia. }
  destruct Hy as (y & Hy & E).
  assert (E' : mask (l ++ [x]) = 2 ^ x * (2 * y + 1)).
  { transitivity (Z.lor (mask l) (2 ^ x)).
    - symmetry. apply mask_bits; [done|apply Z.lor_nonneg; lia|]. intros i Hi.
      rewrite Z.lor_spec, mask_testbit, Z.pow2_bits_eqb, orb_true_iff, existsb_in, in_app_iff, Z.eqb_eq by (done || lia).
      cbn. tauto.
    - rewrite E. rewrite <- Z.add_nocarry_lor; [ring|]. apply Z.bits_inj'. intros i Hi.
      rewrite Z.land_spec, Z.bits_0, Z.pow2_bits_eqb by lia. destruct (Z.eqb_spec x i) as [<-|]; [|by rewrite andb_false_r].
      rewrite Z.mul_comm, Z.mul_pow2_bits, Z.sub_diag, Z.testbit_even_0 by lia. done. }
  unfold drop_low. rewrite uwrap_pred_land by (change (2 ^ 32) with 4294967296; change (2 ^ 13) with 8192 in *; lia).
  rewrite E', E. rewrite land_pred by lia. done.
Qed.

Lemma desc_take k l : desc l -> desc (take k l).
Proof. intros H. rewrite <- (take_drop k l) in H. by apply desc_app in H as [? _]. Qed.

Lemma drop_low_take l : desc l -> l <> [] -> drop_low (mask l) = mask (take (length l - 1) l).
Proof.
  intros Hd Hne. destruct (exists_last Hne) as (l' & x & ->). rewrite drop_low_mask by done.
  rewrite length_app. cbn [length]. by rewrite take_app_length' by lia.
Qed.

Lemma drop_low2_take l :
  desc l -> (2 <= length l)%nat -> drop_low (drop_low (mask l)) = mask (take (length l - 2) l).
Proof.
  intros Hd Hl. rewrite drop_low_take by (done || by intros ->; cbn in Hl; lia).
  rewrite drop_low_take; [|by apply desc_take|].
  - rewrite take_take, length_take. do 2 f_equal. lia.
  - intros E. apply (f_equal length) in E. rewrite length_take in E. cbn in E. lia.
Qed.

Lemma desc_NoDup l : desc l -> List.NoDup l.
Proof.
  induction l as [|r l IH]; [constructor|]. intros (Hr & Hf & Hd). constructor; [|auto].
  intros Hin. apply list_elem_of_In in Hin. eapply list.Forall_forall in Hf; [|exact Hin]. lia.
Qed.

Lemma desc_length l l' :
  desc l -> List.NoDup l' -> (forall i, In i l <-> In i l') -> length l = length l'.
Proof.
  intros Hd Hn H. apply Permutation_length, Permutation.NoDup_Permutation; [by apply desc_NoDup|done|done].
Qed.

Lemma lxor_last l x : Forall rank_in (l ++ [x]) -> ~ In x l -> Z.lxor (mask (l ++ [x])) (mask l) = mask [x].
Proof.
  intros Hl Hx. pose proof Hl as Hl'. apply list.Forall_app in Hl' as [H1 H2].
  apply mask_bits; [done|apply Z.lxor_nonneg; split; intros; by apply mask_nonneg|].
  intros i Hi. rewrite Z.lxor_spec, !mask_testbit, existsb_app by done.
  destruct (existsb (Z.eqb i) l) eqn:E; cbn.
  - apply existsb_in in E. split; [done|]. intros [<-|[]]. done.
  - destruct (Z.eqb_spec i x) as [->|Hne]; cbn; [by split; [left|]|].
    split; [done|]. by intros [->|[]].
Qed.

Lemma top_card_mask fuel : forall l, desc l -> l <> [] -> (length l <= S fuel)%nat ->
  top_card fuel (mask l) = Some (mask (take 1 l)).
Proof.
  induction fuel as [|fuel IH]; intros l Hd Hne Hl; cbn [top_card]; rewrite drop_low_take by done;
    rewrite mask_zero by (by apply desc_ranks, desc_take).
  - destruct l as [|x [|y l]]; cbn in *; [done|done|lia].
  - destruct l as [|x [|y l]]; [done|done|]. cbn [length Nat.sub take] in *. cbn [negb].
    rewrite IH; [done| |done|cbn [length]; rewrite length_take; lia].
    apply (desc_take (S (length l)) (x :: y :: l)) in Hd. exact Hd.
Qed.

Lemma existsb_notin l i : existsb (Z.eqb i) l = false <-> ~ In i l.
Proof. by rewrite <- not_true_iff_false, existsb_in. Qed.

(** ** Equal ranks *)

Lemma desc_single x : rank_in x -> desc [x].
Proof. done. Qed.

Lemma andn_mask l l' : Forall rank_in l -> Forall rank_in l' ->
  Z.land (mask l) (not32 (mask l')) = mask (List.filter (fun r => negb (existsb (Z.eqb r) l')) l).
Proof.
  intros Hl Hl'. pose proof (rank_mask_range _ Hl). pose proof (rank_mask_range _ Hl').
  assert (Hf : Forall rank_in (List.filter (fun r => negb (existsb (Z.eqb r) l')) l)).
  { apply list.Forall_forall. intros x Hx. apply list_elem_of_In, List.filter_In in Hx as [Hx _].
    apply list_elem_of_In in Hx. by eapply list.Forall_forall in Hl. }
  apply mask_bits; [done|apply Z.land_nonneg; left; lia|].
  intros i Hi. rewrite Z.land_spec, mask_testbit by done. unfold not32, uwrap.
  rewrite List.filter_In. destruct (Z.lt_ge_cases i 32).
  - rewrite Z.mod_pow2_bits_low, Z.lnot_spec, mask_testbit, andb_true_iff, existsb_in by (done || lia). done.
  - rewrite Z.mod_pow2_bits_high by lia. rewrite andb_false_r. split; [done|]. intros [Hin _].
    apply list_elem_of_In in Hin. eapply list.Forall_forall in Hl; [|exact Hin]. unfold rank_in in Hl. lia.
Qed.

Section Kinds.
Context (n : Z -> Z) (total : Z).
Context (Hn : forall r, rank_in r -> 0 <= n r <= 4).
Context (Hsum : foldr (fun r s => n r + s) 0 ranks = total).

(** The mask of the ranks that occur at least [k] times. *)
Definition at_least (k : Z) : Z := mask (sel (fun r => k <=? n r)).

Lemma in_times k r : In r (times n k) <-> rank_in r /\ n r = k.
Proof. unfold times. by rewrite in_sel, Z.eqb_eq. Qed.

Lemma in_others used r : In r (others n used) <-> rank_in r /\ 0 < n r /\ ~ In r used.
Proof.
  unfold others. rewrite in_sel, andb_true_iff, Z.ltb_lt, negb_true_iff.
  by rewrite <- not_true_iff_false, existsb_in.
Qed.

Lemma lengths :
  4 * Z.of_nat (length (times n 4)) + 3 * Z.of_nat (length (times n 3)) +
  2 * Z.of_nat (length (times n 2)) + Z.of_nat (length (times n 1)) = total.
Proof.
  rewrite <- Hsum. unfold times, sel. assert (H : Forall rank_in ranks).
  { apply list.Forall_forall. intros. by apply in_ranks, list_elem_of_In. }
  revert H. generalize ranks as l. induction 1 as [|r l Hr Hl IH]; [done|]. cbn [List.filter foldr].
  pose proof (Hn r Hr).
  assert (n r = 0 \/ n r = 1 \/ n r = 2 \/ n r = 3 \/ n r = 4) as [E|[E|[E|[E|E]]]] by lia;
    rewrite E; cbn [Z.eqb Pos.eqb length]; lia.
Qed.

Lemma at_least_range k : 0 <= at_least k < 2 ^ 13.
Proof. apply rank_mask_range, sel_rank. Qed.

Lemma times_desc k : desc (times n k).
Proof. apply desc_sel. Qed.

(** Lists of ranks with the same members have the same mask. *)
Lemma sel_mask P l : Forall rank_in l -> (forall r, rank_in r -> P r = true <-> In r l) -> mask (sel P) = mask l.
Proof.
  intros Hl H. apply mask_ext; [apply sel_rank|done|]. intros i. rewrite in_sel. split.
  - intros [Hi Hp]. by apply H.
  - intros Hi. assert (rank_in i) by (apply list_elem_of_In in Hi; by eapply list.Forall_forall in Hl).
    split; [done|]. by apply H.
Qed.

(** The ranks that occur exactly [k] times, from the masks. *)
Lemma exactly_mask k : Z.land (at_least k) (not32 (at_least (k + 1))) = mask (times n k).
Proof.
  unfold at_least. rewrite andn_mask by apply sel_rank. apply mask_ext; [| |].
  - apply list.Forall_forall. intros x Hx. apply list_elem_of_In, List.filter_In in Hx as [Hx _]. by apply in_sel in Hx as [].
  - apply desc_ranks, times_desc.
  - intros i. rewrite List.filter_In, in_times, in_sel, negb_true_iff, Z.leb_le.
    rewrite <- not_true_iff_false, existsb_in, in_sel, Z.leb_le. unfold rank_in. lia.
Qed.

(** A list with the members of [at_least k]. *)
Lemma at_least_eq k l :
  Forall rank_in l -> (forall r, rank_in r -> k <= n r <-> In r l) -> at_least k = mask l.
Proof. intros Hl H. apply sel_mask; [done|]. intros r Hr. by rewrite Z.leb_le, H. Qed.

(** [others] as one of the lists of [times]. *)
Lemma others_eq used P :
  (forall r, rank_in r -> (0 < n r /\ ~ In r used) <-> P r = true) -> others n used = sel P.
Proof.
  intros H. apply sel_ext. intros r Hr. apply Bool.eq_iff_eq_true.
  rewrite <- H by done. by rewrite andb_true_iff, Z.ltb_lt, negb_true_iff, <- not_true_iff_false, existsb_in.
Qed.
End Kinds.

Lemma score_range kind made kickers :
  0 <= kind <= 2 ^ 30 -> Forall rank_in made -> Forall rank_in kickers ->
  u32 (kind + Z.shiftl (mask made) SUBR_SHL + mask kickers) = score kind made kickers.
Proof.
  intros Hk Hm Hk'. pose proof (rank_mask_range _ Hm). pose proof (rank_mask_range _ Hk'). unfold score, SUBR_SHL.
  rewrite Z.shiftl_mul_pow2 by lia. change (2 ^ 13) with 8192 in *. change (2 ^ 30) with 1073741824 in *.
  apply uwrap_small. change (2 ^ 32) with 4294967296. lia.
Qed.

(** Known lists consist of ranks. *)
Ltac rank_list :=
  repeat first [done | by apply desc_ranks | apply list.Forall_nil_2 | apply list.Forall_cons_2].

(** Membership in the lists of [times], by the number of occurrences of the rank. *)
Ltac members M4 M3 M2 M1 Hn :=
  let r := fresh "r" in let Hr := fresh "Hr" in
  intros r Hr; pose proof (Hn r Hr);
  try (assert (_ <> 4) by (intros ?; by apply (M4 r)));
  try (assert (_ <> 3) by (intros ?; by apply (M3 r)));
  try (assert (_ <> 2) by (intros ?; by apply (M2 r)));
  try (assert (_ <> 1) by (intros ?; by apply (M1 r)));
  rewrite ?in_app_iff, ?M4, ?M3, ?M2, ?M1, ?Z.eqb_eq, ?Z.leb_le; cbn [In]; unfold rank_in in *; lia.

Lemma others_three n p1 p2 p3 x :
  rank_in x -> rank_in p1 /\ rank_in p2 /\ rank_in p3 ->
  (forall r, rank_in r -> 0 < n r <-> In r [p1; p2; p3] \/ In r [x]) ->
  p3 < p2 /\ p2 < p1 -> p1 <> x /\ p2 <> x /\ p3 <> x ->
  Z.lor (mask [x]) (Z.lxor (mask [p1; p2; p3]) (mask [p1; p2])) = mask (others n [p1; p2]) /\
  length (others n [p1; p2]) = 2%nat.
Proof.
  intros Hx (Hp1 & Hp2 & Hp3) Hpos Hlt Hne.
  assert (Hmem : forall i, In i (others n [p1; p2]) <-> In i [x; p3]).
  { intros i. rewrite in_others. split.
    - intros (Hi & Hi0 & Hno). apply Hpos in Hi0; [|done]. cbn [In] in *. intuition.
    - intros Hin. assert (rank_in i) by (cbn in Hin; destruct Hin as [<-|[<-|[]]]; done).
      rewrite Hpos by done. cbn [In] in *. intuition lia. }
  split.
  - pose proof (lxor_last [p1; p2] p3) as Hx'. cbn [app] in Hx'. rewrite Hx' by (rank_list || (cbn [In]; lia)).
    apply mask_bits; [apply sel_rank|apply Z.lor_nonneg; split; apply mask_nonneg; rank_list|].
    intros i Hi. rewrite Hmem, Z.lor_spec, !mask_testbit by (done || rank_list).
    rewrite orb_true_iff, !existsb_in. cbn [In]. intuition.
  - rewrite (desc_length _ [x; p3]); [done|apply desc_sel| |done].
    repeat constructor; cbn; intuition lia.
Qed.

Lemma seven_kinds_ref n :
  (forall r, rank_in r -> 0 <= n r <= 4) -> foldr (fun r s => n r + s) 0 ranks = 7 ->
  seven_kinds 0 (at_least n 1) (at_least n 2) (at_least n 3) (at_least n 4)
    = Some (match big_ref n with Some x => x | None => small_ref n end).
Proof.
  intros Hn Hsum. pose proof (lengths n 7 Hn Hsum) as Hlen.
  pose proof (in_times n 4) as M4. pose proof (in_times n 3) as M3. pose proof (in_times n 2) as M2.
  pose proof (in_times n 1) as M1.
  pose proof (times_desc n 4) as D4. pose proof (times_desc n 3) as D3. pose proof (times_desc n 2) as D2.
  pose proof (times_desc n 1) as D1.
  unfold seven_kinds. pose proof (exactly_mask n 1) as X1. pose proof (exactly_mask n 2) as X2. 
  change (1 + 1) with 2 in X1. change (2 + 1) with 3 in X2. rewrite X1.
  unfold big_ref, small_ref.
  remember (times n 4) as Q eqn:EQ. remember (times n 3) as T eqn:ET. remember (times n 2) as P eqn:EP.
  remember (times n 1) as S eqn:ES.
  destruct Q as [|q Q]; [|destruct Q; [|cbn [length] in *; lia]].
  - assert (H4 : at_least n 4 = mask []) by (apply at_least_eq; [constructor|members M4 M3 M2 M1 Hn]).
    assert (H3 : at_least n 3 = mask T) by (apply at_least_eq; [by apply desc_ranks|members M4 M3 M2 M1 Hn]).
    rewrite H4, H3, mask_zero by (by apply desc_ranks). change (mask [] =? 0) with true. cbn [negb].
    destruct T as [|t1 T].
    + assert (H2 : at_least n 2 = mask P) by (apply at_least_eq; [by apply desc_ranks|members M4 M3 M2 M1 Hn]).
      rewrite H2, mask_zero by (by apply desc_ranks). cbn [Z.eqb negb].
      destruct P as [|p1 P]; cbn [negb].
      * assert (Ho : others n [] = S) by (rewrite ES; apply others_eq; members M4 M3 M2 M1 Hn).
        rewrite Ho. rewrite drop_low2_take by (done || cbn [length] in *; lia). do 2 f_equal. f_equal.
        cbn [length] in *. lia.
      * rewrite (drop_low_take (p1 :: P)) by done.
        destruct P as [|p2 P]; [|destruct P as [|p3 P]; [|destruct P; [|cbn [length] in *; lia]]].
        -- assert (Ho : others n [p1] = S) by (rewrite ES; apply others_eq; members M4 M3 M2 M1 Hn).
           rewrite Ho. cbn [length Nat.sub take]. change (mask [] =? 0) with true. cbv iota.
           match goal with |- context [Z.land ?t (u32 (?t - 1))] =>
             change (Z.land t (u32 (t - 1))) with (drop_low t) end.
           rewrite drop_low2_take by (done || cbn [length] in *; lia).
           rewrite score_range; [|done|by apply desc_ranks|by apply desc_ranks, desc_take].
           do 3 f_equal. cbn [length] in *. lia.
        -- assert (Ho : others n [p1; p2] = S) by (rewrite ES; apply others_eq; members M4 M3 M2 M1 Hn).
           rewrite Ho. cbn [length Nat.sub take]. destruct D2 as (Hp1 & _ & Hp2 & _ & _).
           rewrite mask_zero by rank_list. cbv iota.
           rewrite (drop_low_take [p1]) by (done || by apply desc_single). cbn [length Nat.sub take].
           change (mask [] =? 0) with true. cbn [negb].
           rewrite drop_low2_take by (done || cbn [length] in *; lia).
           rewrite score_range; [|done|rank_list|by apply desc_ranks, desc_take].
           do 3 f_equal. cbn [length] in *. lia.
        -- destruct S as [|x S]; [cbn [length] in *; lia|]. destruct S; [|cbn [length] in *; lia].
           pose proof D2 as (Hp1 & F1 & Hp2 & F2 & Hp3 & _ & _).
           pose proof (desc_app [p1; p2] [p3] D2) as (D12 & _ & _).
           cbn [length Nat.sub take]. rewrite mask_zero by rank_list. cbv iota.
           rewrite (drop_low_take [p1; p2]) by done. cbn [length Nat.sub take].
           rewrite mask_zero by rank_list. cbn [negb].
           destruct (others_three n p1 p2 p3 x) as [Hor Hol].
           { by apply M1; left. }
           { by split_and!. }
           { members M4 M3 M2 M1 Hn. }
           { rewrite !list.Forall_cons in F1, F2. lia. }
           { assert (n x = 1) by (by apply M1; left). assert (forall p, In p [p1; p2; p3] -> p <> x) as Hne.
             { intros p Hp ->. apply M2 in Hp. lia. }
             split_and!; apply Hne; cbn; auto. }
           rewrite Hor. rewrite (drop_low_take (others n _)); [|apply desc_sel|by intros E; rewrite E in Hol].
           rewrite Hol. cbn [Nat.sub]. rewrite score_range; [done|done|rank_list|].
           apply desc_ranks, desc_take, desc_sel.
    + change (mask [] =? 0) with true. cbn [negb].
      rewrite H3 in X2. rewrite X2, mask_zero by rank_list.
      destruct T as [|t2 T]; [|destruct T; [|cbn [length] in *; lia]].
      * pose proof D3 as (Ht1 & _). rewrite (drop_low_take [t1]) by done. cbn [length Nat.sub take].
        change (mask [] =? 0) with true. cbn [negb].
        destruct P as [|p1 P]; [|destruct P as [|p2 P]; [|destruct P; [|cbn [length] in *; lia]]].
        -- assert (Ho : others n [t1] = S) by (rewrite ES; apply others_eq; members M4 M3 M2 M1 Hn).
           rewrite Ho, drop_low2_take by (done || cbn [length] in *; lia).
           rewrite score_range; [|done|rank_list|by apply desc_ranks, desc_take].
           do 3 f_equal. cbn [length] in *. lia.
        -- rewrite (drop_low_take [p1]) by done. cbn [length Nat.sub take]. change (mask [] =? 0) with true.
           cbv iota. by rewrite score_range by rank_list.
        -- pose proof D2 as (Hp1 & _). rewrite (drop_low_take [p1; p2]) by done. cbn [length Nat.sub take].
           rewrite mask_zero by rank_list. cbv iota. by rewrite score_range by rank_list.
      * destruct P; [|cbn [length] in *; lia]. pose proof D3 as (Ht1 & F1 & Ht2 & _).
        apply list.Forall_cons in F1 as [F1 _].
        rewrite (drop_low_take [t1; t2]) by done. cbn [length Nat.sub take]. rewrite mask_zero by rank_list. cbn [negb].
        pose proof (lxor_last [t1] t2) as Hx'. cbn [app] in Hx'.
        rewrite Hx' by (rank_list || (cbn [In]; lia)). by rewrite score_range by rank_list.
  - pose proof D4 as (Hq & _).
    assert (Nq : n q = 4) by (apply M4; by left).
    assert (H3 : (at_least n 3 =? 0) = false).
    { unfold at_least. rewrite mask_zero by apply sel_rank.
      destruct (sel _) eqn:E; [|done]. assert (In q []) as []. rewrite <- E. apply in_sel. split; [done|].
      apply Z.leb_le. lia. }
    assert (H4 : at_least n 4 = mask [q]) by (apply at_least_eq; [rank_list|members M4 M3 M2 M1 Hn]).
    rewrite H3, H4, mask_zero by rank_list. cbn [negb].
    assert (Ho : Z.lor (mask S) (Z.land (at_least n 2) (not32 (mask [q]))) = mask (others n [q])).
    { unfold at_least. rewrite andn_mask by (rank_list || apply sel_rank).
      apply mask_bits; [apply sel_rank| |].
      - apply Z.lor_nonneg. split; apply mask_nonneg; [rank_list|]. apply desc_ranks, desc_filter, desc_sel.
      - intros i Hi. rewrite Z.lor_spec, !mask_testbit by (done || apply desc_ranks, desc_filter, desc_sel || rank_list).
        rewrite orb_true_iff, !existsb_in, List.filter_In, in_sel, in_others, M1, negb_true_iff, existsb_notin, Z.leb_le.
        rewrite M4. unfold rank_in. split; [|lia]. intros [?|?]; [|lia]. split; [lia|]. split; lia. }
    rewrite Ho, top_card_mask; [|apply desc_sel| |]; cycle 1.
    { intros E. assert (Hno : forall i, ~ (rank_in i /\ 0 < n i /\ ~ In i [q])).
      { intros i Hi. by apply in_others in Hi; rewrite E in Hi. }
      destruct S as [|x S]; [|apply (Hno x); rewrite M4; assert (rank_in x /\ n x = 1) by (by apply M1; left); intuition lia].
      destruct P as [|x P]; [|apply (Hno x); rewrite M4; assert (rank_in x /\ n x = 2) by (by apply M2; left); intuition lia].
      destruct T as [|x T]; [|apply (Hno x); rewrite M4; assert (rank_in x /\ n x = 3) by (by apply M3; left); intuition lia].
      cbn [length] in Hlen. lia. }
    { unfold others, sel. etrans; [apply List.filter_length_le|]. cbn. lia. }
    step. rewrite score_range; [done|done|rank_list|apply desc_ranks, desc_take, desc_sel].
Qed.

Lemma five_paired_ref n :
  (forall r, rank_in r -> 0 <= n r <= 4) -> foldr (fun r s => n r + s) 0 ranks = 5 ->
  (at_least n 2 =? 0) = false ->
  five_paired (at_least n 1) (at_least n 2) (at_least n 3) (at_least n 4)
    = match big_ref n with Some x => x | None => small_ref n end.
Proof.
  intros Hn Hsum Hpair. pose proof (lengths n 5 Hn Hsum) as Hlen.
  pose proof (in_times n 4) as M4. pose proof (in_times n 3) as M3. pose proof (in_times n 2) as M2.
  pose proof (in_times n 1) as M1.
  pose proof (times_desc n 4) as D4. pose proof (times_desc n 3) as D3. pose proof (times_desc n 2) as D2.
  pose proof (times_desc n 1) as D1.
  unfold five_paired. pose proof (exactly_mask n 1) as X1. pose proof (exactly_mask n 2) as X2.
  change (1 + 1) with 2 in X1. change (2 + 1) with 3 in X2. rewrite X1, X2.
  unfold big_ref, small_ref.
  remember (times n 4) as Q eqn:EQ. remember (times n 3) as T eqn:ET. remember (times n 2) as P eqn:EP.
  remember (times n 1) as S eqn:ES.
  destruct Q as [|q Q]; [|destruct Q; [|cbn [length] in *; lia]].
  - assert (H4 : at_least n 4 = mask []) by (apply at_least_eq; [constructor|members M4 M3 M2 M1 Hn]).
    assert (H3 : at_least n 3 = mask T) by (apply at_least_eq; [by apply desc_ranks|members M4 M3 M2 M1 Hn]).
    rewrite H4, H3, !mask_zero by rank_list. change (mask [] =? 0) with true. cbv iota.
    destruct T as [|t1 T].
    + assert (H2 : at_least n 2 = mask P) by (apply at_least_eq; [by apply desc_ranks|members M4 M3 M2 M1 Hn]).
      rewrite H2 in *. rewrite mask_zero in Hpair by rank_list.
      destruct P as [|p1 P]; [done|]. rewrite drop_low_take by done. rewrite mask_zero by (by apply desc_ranks, desc_take).
      destruct P as [|p2 P]; [|destruct P; [|cbn [length] in *; lia]]; cbn [length Nat.sub take].
      * assert (Ho : others n [p1] = S) by (rewrite ES; apply others_eq; members M4 M3 M2 M1 Hn).
        rewrite Ho, score_range by rank_list. by rewrite take_ge by (cbn [length] in *; lia).
      * assert (Ho : others n [p1; p2] = S) by (rewrite ES; apply others_eq; members M4 M3 M2 M1 Hn).
        rewrite Ho, score_range by rank_list. by rewrite take_ge by (cbn [length] in *; lia).
    + destruct T as [|t2 T]; [|cbn [length] in *; lia].
      destruct P as [|p1 P]; [|destruct P; [|cbn [length] in *; lia]].
      * assert (Ho : others n [t1] = S) by (rewrite ES; apply others_eq; members M4 M3 M2 M1 Hn).
        rewrite Ho, score_range by rank_list. by rewrite take_ge by (cbn [length] in *; lia).
      * by rewrite score_range by rank_list.
  - destruct T; [|cbn [length] in *; lia]. destruct P; [|cbn [length] in *; lia].
    assert (Nq : n q = 4) by (apply M4; by left). pose proof D4 as (Hq & _).
    assert (H3 : at_least n 3 = mask [q]) by (apply at_least_eq; [rank_list|members M4 M3 M2 M1 Hn]).
    assert (H4 : at_least n 4 = mask [q]) by (apply at_least_eq; [rank_list|members M4 M3 M2 M1 Hn]).
    rewrite H3, H4, !mask_zero by rank_list. cbv iota.
    assert (Ho : others n [q] = S) by (rewrite ES; apply others_eq; members M4 M3 M2 M1 Hn).
    rewrite Ho, score_range by rank_list. by rewrite take_ge by (cbn [length] in *; lia).
Qed.

(** ** From cards to counts *)

(** How often a rank occurs in a list of ranks. *)
Definition occ (rs : list Z) (r : Z) : Z := Z.of_nat (length (List.filter (fun x => x =? r) rs)).

Lemma occ_app rs rs' r : occ (rs ++ rs') r = occ rs r + occ rs' r.
Proof. unfold occ. rewrite List.filter_app, length_app. lia. Qed.

Lemma occ_one x r : occ [x] r = c_bool (x =? r).
Proof. unfold occ. cbn. by destruct (x =? r). Qed.

Lemma occ_nonneg rs r : 0 <= occ rs r.
Proof. unfold occ. lia. Qed.

Lemma cnt_occ h r : cnt h r = occ (map (fun c => c mod 13) h) r.
Proof.
  unfold cnt, occ. f_equal. induction h as [|c h IH]; [done|]. cbn. destruct (_ =? r); cbn; lia.
Qed.

Lemma sel_testbit P i : 0 <= i -> Z.testbit (mask (sel P)) i = true <-> rank_in i /\ P i = true.
Proof. intros Hi. rewrite mask_testbit by (done || apply sel_rank). by rewrite existsb_in, in_sel. Qed.

(** The masks of [seven_counts] grow with each card. *)
Lemma at_least_step rs x k :
  rank_in x -> 0 <= k ->
  Z.lor (at_least (occ rs) (k + 1)) (Z.land (2 ^ x) (at_least (occ rs) k)) = at_least (occ (rs ++ [x])) (k + 1).
Proof.
  intros Hx Hk. pose proof (at_least_range (occ rs) (k + 1)). pose proof (at_least_range (occ rs) k).
  unfold at_least. apply mask_bits; [apply sel_rank| |].
  - apply Z.lor_nonneg. split; [apply mask_nonneg, sel_rank|]. apply Z.land_nonneg. right. apply mask_nonneg, sel_rank.
  - intros i Hi. rewrite Z.lor_spec, Z.land_spec, orb_true_iff, andb_true_iff, !sel_testbit, in_sel, !Z.leb_le by done.
    unfold rank_in in *. rewrite Z.pow2_bits_eqb, Z.eqb_eq, occ_app, occ_one by lia.
    destruct (Z.eqb_spec x i); cbn [c_bool]; lia.
Qed.

Lemma counts_occ rs :
  Forall rank_in rs ->
  foldl (fun '(m1, m2, m3, m4) x =>
    (Z.lor m1 x, Z.lor m2 (Z.land x m1), Z.lor m3 (Z.land x m2), Z.lor m4 (Z.land x m3)))
    (0, 0, 0, 0) (map (fun r => 2 ^ r) rs)
  = (at_least (occ rs) 1, at_least (occ rs) 2, at_least (occ rs) 3, at_least (occ rs) 4).
Proof.
  induction rs as [|x rs IH] using rev_ind; intros Hr; [reflexivity|].
  apply list.Forall_app in Hr as [Hr Hx]. apply list.Forall_cons in Hx as [Hx _].
  rewrite map_app, foldl_app, IH by done. cbn [map foldl].
  pose proof (at_least_step rs x 0 Hx ltac:(lia)) as E1. pose proof (at_least_step rs x 1 Hx ltac:(lia)) as E2.
  pose proof (at_least_step rs x 2 Hx ltac:(lia)) as E3. pose proof (at_least_step rs x 3 Hx ltac:(lia)) as E4.
  change (0 + 1) with 1 in E1. change (1 + 1) with 2 in E2. change (2 + 1) with 3 in E3. change (3 + 1) with 4 in E4.
  rewrite E2, E3, E4, <- E1. do 4 f_equal.
  apply Z.bits_inj'. intros i Hi. rewrite Z.land_spec. unfold at_least, rank_in in *.
  rewrite Z.pow2_bits_eqb by lia. destruct (Z.eqb_spec x i) as [<-|]; [|done]. symmetry.
  apply sel_testbit; [done|]. split; [done|]. apply Z.leb_le, occ_nonneg.
Qed.

(** A card of the deck. *)
Definition card (c : Z) : Prop := 0 <= c < 52.

Lemma table_card {A} (t : list A) (f : Z -> A) (eqb : A -> A -> bool) c :
  (forall x y, eqb x y = true -> x = y) ->
  forallb (fun c => match aget t c with Some x => eqb x (f c) | None => false end) (seqZ 0 52) = true ->
  card c -> aget t c = Some (f c).
Proof.
  intros Heq Hall Hc. rewrite forallb_forall in Hall. specialize (Hall c).
  rewrite <- list_elem_of_In, elem_of_seqZ in Hall. specialize (Hall Hc).
  destruct (aget t c) as [x|]; [|done]. by rewrite (Heq _ _ Hall).
Qed.

Lemma CardMask_eq c : card c -> aget CardMask c = Some (2 ^ (c mod 13)).
Proof. apply (table_card CardMask (fun c => 2 ^ (c mod 13)) Z.eqb); [apply Z.eqb_eq|]. vm_compute. reflexivity. Qed.

Lemma CardSuit_eq c : card c -> aget CardSuit c = Some (2 ^ (c / 13)).
Proof. apply (table_card CardSuit (fun c => 2 ^ (c / 13)) Z.eqb); [apply Z.eqb_eq|]. vm_compute. reflexivity. Qed.

Lemma CardSuitIdx_eq c : card c -> aget CardSuitIdx c = Some (c / 13).
Proof. apply (table_card CardSuitIdx (fun c => c / 13) Z.eqb); [apply Z.eqb_eq|]. vm_compute. reflexivity. Qed.

Lemma card_rank c : rank_in (c mod 13).
Proof. unfold rank_in. apply Z.mod_pos_bound. lia. Qed.

Lemma card_suit c : card c -> 0 <= c / 13 < 4.
Proof. intros []. split; [apply Z.div_pos; lia|apply Z.div_lt_upper_bound; lia]. Qed.

(** The counts of a hand without doubles. *)
Lemma cnt_bound h r : NoDup h -> Forall card h -> rank_in r -> 0 <= cnt h r <= 4.
Proof.
  intros Hd Hc Hr. unfold cnt. split; [lia|].
  assert (Hincl : List.incl (List.filter (fun c => c mod 13 =? r) h) [r; 13 + r; 26 + r; 39 + r]).
  { intros c Hin. apply List.filter_In in Hin as [Hin E]. apply Z.eqb_eq in E.
    apply list_elem_of_In in Hin. eapply list.Forall_forall in Hc; [|exact Hin].
    pose proof (card_suit c Hc). pose proof (Z.div_mod c 13 ltac:(lia)). cbn [In].
    assert (c / 13 = 0 \/ c / 13 = 1 \/ c / 13 = 2 \/ c / 13 = 3) as [E'|[E'|[E'|E']]] by lia; rewrite E' in *; lia. }
  assert (Hnd : List.NoDup (List.filter (fun c => c mod 13 =? r) h)) by (by apply List.NoDup_filter, NoDup_ListNoDup).
  apply List.NoDup_incl_length in Hincl; [|done]. cbn in Hincl. lia.
Qed.

Lemma cnt_total h :
  Forall card h -> foldr (fun r s => cnt h r + s) 0 ranks = Z.of_nat (length h).
Proof.
  induction h as [|c h IH]; intros Hc; [reflexivity|]. apply list.Forall_cons in Hc as [Hc Hh].
  specialize (IH Hh). cbn [length]. rewrite Nat2Z.inj_succ, <- IH.
  assert (E : forall r, cnt (c :: h) r = c_bool (c mod 13 =? r) + cnt h r).
  { intros r. unfold cnt. cbn [List.filter]. destruct (_ =? r); cbn [length c_bool]; lia. }
  cbn [foldr ranks]. rewrite !E. pose proof (card_rank c) as Hr. unfold rank_in in Hr.
  assert (Hone : foldr (fun r s => c_bool (c mod 13 =? r) + s) 0 ranks = 1).
  { generalize dependent (c mod 13). intros x _ Hx.
    assert (x = 0 \/ x = 1 \/ x = 2 \/ x = 3 \/ x = 4 \/ x = 5 \/ x = 6 \/ x = 7 \/ x = 8 \/ x = 9 \/ x = 10
      \/ x = 11 \/ x = 12) as Hcase by lia.
    repeat (destruct Hcase as [->|Hcase]; [reflexivity|]). by subst. }
  cbn [foldr ranks] in Hone. lia.
Qed.

(** ** Straights *)

(** The run that one of the three searches of [SevenCardDrawScore] ends with, and its length. *)
Definition seven_run (t : Z) : option (Z * Z) :=
  let s := drop_low t in
  let v := Z.lxor s t in
  let u := ones_below v 7 7 in
  if covered u t then Some (7, u) else
  let u := ones_below v 6 6 in
  let u := if negb (covered u t) then ones_below (Z.lxor (drop_low s) s) 6 6 else u in
  if covered u t then Some (6, u) else
  let u := ones_below v 5 5 in
  let u :=
    if negb (covered u t) then
      let v := s in
      let s := drop_low s in
      let v := Z.lxor v s in
      let u := ones_below v 5 5 in
      if negb (covered u t) then ones_below (Z.lxor s (drop_low s)) 5 5 else u
    else u in
  if covered u t then Some (5, u) else None.

Definition run_shifts (n u : Z) : list Z :=
  if n =? 7 then [u; Z.shiftr u 1; Z.shiftr u 2] else if n =? 6 then [u; Z.shiftr u 1] else [u].

Lemma seven_straights_run t f :
  seven_straights t f =
    match seven_run t with
    | Some (n, u) =>
        Some (if f =? 0 then u32 (STRAIGHT_SCORE + Z.land u (not32 (Z.shiftr u 5)))
              else let '(s, u) := low_run f u n in straight_flush f s (run_shifts n u))
    | None =>
        if Z.land 0x100F t =? 0x100F then
          Some (if f =? 0 then STRAIGHT_SCORE + 0xF
                else if Z.land 0x100F f =? 0x100F then STRAIGHT_FLUSH_SCORE + 0xF
                else SevenCardDrawFlushScore f)
        else None
    end.
Proof.
  unfold seven_straights, seven_run. cbv zeta.
  repeat match goal with |- context [if covered ?a ?b then _ else _] => destruct (covered a b) end;
    destruct (f =? 0); cbn [negb]; try reflexivity.
  all: repeat match goal with |- context [if ?b then _ else _] => destruct b end; reflexivity.
Qed.

(** The highest straight in a mask. *)
Definition best_run (m : Z) : option Z := List.find (fun r => forallb (Z.testbit m) (run_to r)) tops.
Definition wheel (m : Z) : bool := forallb (Z.testbit m) [12; 3; 2; 1; 0].

(** The search and the rules agree on a mask of up to seven ranks, and every straight lies
    within the run that was found. *)
Definition run_check (t : Z) : bool :=
  if (length (sel (Z.testbit t)) <=? 7)%nat then
    match seven_run t with
    | Some (n, u) =>
        existsb (fun k => (k =? n) && existsb (fun p => u =? Z.shiftl (Z.ones n) p) (seqZ 0 (14 - n))) [5; 6; 7] &&
        match best_run t with
        | Some r => Z.land u (not32 (Z.shiftr u 5)) =? mask (run_to r)
        | None => false
        end &&
        forallb (fun r => negb (forallb (Z.testbit t) (run_to r)) || forallb (Z.testbit u) (run_to r)) tops
    | None => match best_run t with Some _ => false | None => eqb (Z.land 0x100F t =? 0x100F) (wheel t) end
    end
  else true.

Lemma run_checked : forallb run_check (seqZ 0 8192) = true.
Proof. vm_compute. reflexivity. Qed.

(** The three tests for a straight flush find the highest straight of the suited cards in
    the run. *)
Definition flush_check (n p k : Z) : bool :=
  let u := Z.shiftl (Z.ones n) p in
  let s := Z.shiftl k p in
  let '(_, u) := low_run s u n in
  match list_find (fun u => covered u s) (run_shifts n u), best_run s with
  | Some (_, u), Some r => u =? mask (run_to r)
  | None, None => true
  | _, _ => false
  end.

Lemma flush_checked :
  forallb (fun n => forallb (fun p => forallb (flush_check n p) (seqZ 0 (2 ^ n))) (seqZ 0 (14 - n))) [5; 6; 7] = true.
Proof. vm_compute. reflexivity. Qed.

Lemma straight_ref_eq m :
  straight_ref (Z.testbit m) =
    match best_run m with
    | Some r => Some (mask (run_to r))
    | None => if wheel m then Some (mask [3; 2; 1; 0]) else None
    end.
Proof. reflexivity. Qed.

Lemma straight_ref_ext has has' :
  (forall r, rank_in r -> has r = has' r) -> straight_ref has = straight_ref has'.
Proof.
  intros H. unfold straight_ref, run_to, tops. cbn [List.find forallb].
  repeat match goal with |- context [has ?x] => rewrite (H x) by (unfold rank_in; lia) end. done.
Qed.

Lemma best_run_in m r : best_run m = Some r -> In r tops /\ forallb (Z.testbit m) (run_to r) = true.
Proof. apply List.find_some. Qed.

Lemma run_mask_range r : In r tops -> 0 <= mask (run_to r) < 2 ^ 13.
Proof.
  intros Hr. apply rank_mask_range. unfold tops in Hr. cbn in Hr. unfold run_to, rank_in.
  repeat constructor; lia.
Qed.

Lemma find_ext {A} (P Q : A -> bool) l :
  (forall x, In x l -> P x = Q x) -> List.find P l = List.find Q l.
Proof.
  induction l as [|x l IH]; intros H; [done|]. cbn. rewrite (H x) by (by left).
  rewrite IH; [done|]. intros y Hy. apply H. by right.
Qed.

Lemma kind_range kind m : 0 <= kind <= 2 ^ 30 -> 0 <= m < 2 ^ 13 -> u32 (kind + m) = kind + m.
Proof.
  intros Hk Hm. change (2 ^ 13) with 8192 in *. change (2 ^ 30) with 1073741824 in *.
  apply uwrap_small. change (2 ^ 32) with 4294967296. lia.
Qed.

Section FlushWord.
Context (t fs top : Z).
Context (Ht : 0 <= t < 2 ^ 13) (Hfs : 0 <= fs < 2 ^ 13) (Htop : 0 <= top < 2 ^ 13).
Context (Hsub : forall i, Z.testbit fs i = true -> Z.testbit t i = true).
Context (Hseven : (length (sel (Z.testbit t)) <= 7)%nat) (Hne : fs <> 0).
Let f := Z.lor fs (Z.shiftl top 13).

Lemma word_low m : 0 <= m < 2 ^ 13 -> Z.land f m = Z.land fs m.
Proof.
  intros Hm. apply Z.bits_inj'. intros i Hi. unfold f. rewrite !Z.land_spec, Z.lor_spec.
  destruct (Z.lt_ge_cases i 13).
  - rewrite Z.shiftl_spec_low by lia. by rewrite orb_false_r.
  - rewrite (testbit_small m 13 i) by lia. by rewrite !andb_false_r.
Qed.

Lemma word_high : Z.shiftr f 13 = top.
Proof.
  unfold f. apply Z.bits_inj'. intros i Hi. rewrite Z.shiftr_spec, Z.lor_spec, Z.shiftl_spec by lia.
  rewrite (testbit_small fs 13) by lia. cbn. f_equal. lia.
Qed.

Lemma word_nonzero : (f =? 0) = false.
Proof. apply Z.eqb_neq. intros E. apply Z.lor_eq_0_iff in E as [? _]. done. Qed.

Lemma run_checked_at : run_check t = true.
Proof.
  pose proof run_checked as H. rewrite forallb_forall in H. apply H. apply list_elem_of_In, elem_of_seqZ.
  change (2 ^ 13) with 8192 in Ht. lia.
Qed.

Lemma wheel_test m : 0 <= m -> (Z.land 0x100F m =? 0x100F) = wheel m.
Proof.
  intros Hm. apply Bool.eq_iff_eq_true. rewrite Z.eqb_eq. unfold wheel. rewrite forallb_forall.
  assert (E : 0x100F = mask [12; 3; 2; 1; 0]) by reflexivity. rewrite E. split.
  - intros Heq r Hr. apply existsb_in in Hr. assert (0 <= r) by (apply existsb_in in Hr; cbn in Hr; lia).
    rewrite <- mask_testbit, <- Heq, Z.land_spec in Hr; [by apply andb_true_iff in Hr as []| |done].
    repeat constructor; lia.
  - intros H. apply Z.bits_inj'. intros i Hi. rewrite Z.land_spec.
    rewrite mask_testbit by (done || (repeat constructor; lia)).
    destruct (existsb (Z.eqb i) _) eqn:Ei; [|done]. apply existsb_in in Ei. by rewrite H.
Qed.

(** What [run_check] says of the run of [t]. *)
Lemma run_found n u :
  seven_run t = Some (n, u) ->
  (n = 5 \/ n = 6 \/ n = 7) /\ (exists p, 0 <= p < 14 - n /\ u = Z.shiftl (Z.ones n) p) /\
  (exists r, best_run t = Some r /\ Z.land u (not32 (Z.shiftr u 5)) = mask (run_to r)) /\
  (forall r, In r tops -> forallb (Z.testbit t) (run_to r) = true -> forallb (Z.testbit u) (run_to r) = true).
Proof.
  intros E. pose proof run_checked_at as H. unfold run_check in H.
  rewrite (proj2 (Nat.leb_le _ _) Hseven), E in H.
  apply andb_true_iff in H as [H H3]. apply andb_true_iff in H as [H1 H2].
  apply existsb_exists in H1 as (n' & Hn & H1). apply andb_true_iff in H1 as [En H1].
  apply Z.eqb_eq in En as <-. apply existsb_exists in H1 as (p & Hp & Eu). apply Z.eqb_eq in Eu.
  apply list_elem_of_In, elem_of_seqZ in Hp. split; [cbn in Hn; lia|]. split; [exists p; split; [lia|done]|]. split.
  - destruct (best_run t) as [r|]; [|done]. exists r. split; [done|]. by apply Z.eqb_eq.
  - intros r Hr Hrun. rewrite forallb_forall in H3. specialize (H3 r Hr). by rewrite Hrun in H3.
Qed.

Lemma run_missing :
  seven_run t = None -> best_run t = None.
Proof.
  intros E. pose proof run_checked_at as H. unfold run_check in H.
  rewrite (proj2 (Nat.leb_le _ _) Hseven), E in H. by destruct (best_run t).
Qed.

Lemma run_sub r : forallb (Z.testbit fs) (run_to r) = true -> forallb (Z.testbit t) (run_to r) = true.
Proof. rewrite !forallb_forall. auto. Qed.

Lemma straights_no_flush :
  seven_straights t 0 = option_map (fun m => STRAIGHT_SCORE + m) (straight_ref (Z.testbit t)).
Proof.
  rewrite seven_straights_run, straight_ref_eq. destruct (seven_run t) as [[n u]|] eqn:E.
  - destruct (run_found n u E) as (_ & _ & (r & Er & Em) & _). rewrite Er. cbn [Z.eqb option_map]. rewrite Em.
    f_equal. apply best_run_in in Er as [Hr _]. by apply kind_range; [|apply run_mask_range].
  - rewrite run_missing by done. rewrite wheel_test by lia. by destruct (wheel t).
Qed.

(** With suited cards the word of [SevenCardDrawFlush] decides between a straight flush and
    the flush. *)
Lemma straights_flush :
  seven_straights t f = match straight_ref (Z.testbit t) with
    | None => None
    | Some _ => Some (match straight_ref (Z.testbit fs) with
                      | Some m => STRAIGHT_FLUSH_SCORE + m
                      | None => FLUSH_SCORE + top
                      end)
    end.
Proof.
  rewrite seven_straights_run, word_nonzero, !straight_ref_eq.
  assert (Hw : (Z.land 0x100F f =? 0x100F) = wheel fs).
  { rewrite Z.land_comm, word_low, Z.land_comm by (by vm_compute). apply wheel_test. lia. }
  assert (Hflush : SevenCardDrawFlushScore f = FLUSH_SCORE + top).
  { unfold SevenCardDrawFlushScore, SUBR_SHL. rewrite word_high. by apply kind_range. }
  rewrite Hw. destruct (seven_run t) as [[n u]|] eqn:E.
  - destruct (run_found n u E) as (Hn & (p & Hp & Eu) & (r & Er & _) & Hin). rewrite Er.
    assert (Hu : 0 <= u < 2 ^ 13).
    { subst u. split; [apply Z.shiftl_nonneg; destruct Hn as [->|[->| ->]]; by vm_compute|].
      apply testbit_bound; [lia|apply Z.shiftl_nonneg; destruct Hn as [->|[->| ->]]; by vm_compute|].
      intros i Hi. rewrite Z.shiftl_spec, Z.ones_spec_high by lia. done. }
    unfold low_run. rewrite word_low by done.
    set (s := Z.land fs u).
    assert (Hs : s = Z.shiftl (Z.shiftr s p) p /\ 0 <= Z.shiftr s p < 2 ^ n).
    { assert (0 <= s) by (apply Z.land_nonneg; lia). split.
      - apply Z.bits_inj'. intros i Hi. destruct (Z.lt_ge_cases i p).
        + rewrite Z.shiftl_spec_low by lia. unfold s. subst u. rewrite Z.land_spec, Z.shiftl_spec_low by lia.
          by rewrite andb_false_r.
        + rewrite Z.shiftl_spec, Z.shiftr_spec by lia. f_equal. lia.
      - assert (0 <= Z.shiftr s p) by (apply Z.shiftr_nonneg; lia). split; [done|].
        apply testbit_bound; [lia|done|]. intros i Hi. unfold s. subst u.
        rewrite Z.shiftr_spec, Z.land_spec, Z.shiftl_spec by lia.
        rewrite Z.ones_spec_high by lia. by rewrite andb_false_r. }
    destruct Hs as [Es Hk]. pose proof flush_checked as Hc. rewrite forallb_forall in Hc.
    specialize (Hc n ltac:(cbn; lia)). rewrite forallb_forall in Hc.
    specialize (Hc p ltac:(apply list_elem_of_In, elem_of_seqZ; lia)). rewrite forallb_forall in Hc.
    specialize (Hc (Z.shiftr s p) ltac:(apply list_elem_of_In, elem_of_seqZ; lia)).
    unfold flush_check, low_run in Hc. rewrite <- Eu, <- Es in Hc.
    assert (Esu : Z.land s u = s) by (unfold s; rewrite <- Z.land_assoc, Z.land_diag; done).
    rewrite Esu in Hc.
    assert (Hbest : best_run s = best_run fs).
    { apply find_ext. intros r' Hr'. apply Bool.eq_iff_eq_true. rewrite !forallb_forall. unfold s. split; intros H x Hx.
      - specialize (H x Hx). rewrite Z.land_spec in H. by apply andb_true_iff in H as [? _].
      - rewrite Z.land_spec, H by done. cbn. revert x Hx. rewrite <- forallb_forall. apply Hin; [done|].
        apply run_sub. by apply forallb_forall. }
    rewrite Hbest in Hc. unfold straight_flush. rewrite Hw, Hflush.
    destruct (list_find _ _) as [[? u']|], (best_run fs) as [r'|] eqn:Eb; try done.
    + apply Z.eqb_eq in Hc as ->. apply best_run_in in Eb as [Hr' _].
      by rewrite kind_range by (done || by apply run_mask_range).
    + by destruct (wheel fs).
  - rewrite run_missing by done. rewrite wheel_test by lia.
    assert (Hno : best_run fs = None).
    { destruct (best_run fs) as [r|] eqn:Eb; [|done]. apply best_run_in in Eb as [Hr Eb].
      apply run_sub in Eb. pose proof (run_missing E) as Em. unfold best_run in Em.
      by rewrite (List.find_none _ _ Em r Hr) in Eb. }
    rewrite Hno, Hflush. by destruct (wheel t), (wheel fs).
Qed.
End FlushWord.

(** ** Flushes *)

Definition scount (h : list Z) (s : Z) : Z := Z.of_nat (length (List.filter (fun c => c / 13 =? s) h)).

Lemma has_suit_in h s r : has_suit h s r = true <-> In (13 * s + r) h.
Proof.
  unfold has_suit. rewrite existsb_exists. split.
  - intros (c & Hc & E). by apply Z.eqb_eq in E as ->.
  - intros H. exists (13 * s + r). by rewrite Z.eqb_refl.
Qed.

Lemma suit_step l c s :
  card c -> mask (sel (has_suit (l ++ [c]) s)) =
    if c / 13 =? s then Z.lor (mask (sel (has_suit l s))) (2 ^ (c mod 13)) else mask (sel (has_suit l s)).
Proof.
  intros Hc. pose proof (card_rank c) as Hr. unfold rank_in in Hr. pose proof (Z.div_mod c 13 ltac:(lia)) as Hdm.
  pose proof (mask_nonneg _ (sel_rank (has_suit l s))).
  symmetry. apply mask_bits; [apply sel_rank|destruct (_ =? _); [apply Z.lor_nonneg; split; [done|apply Z.pow_nonneg; lia]|done]|].
  intros i Hi. rewrite in_sel, has_suit_in, in_app_iff. cbn [In].
  destruct (Z.eqb_spec (c / 13) s) as [<-|Hne].
  - rewrite Z.lor_spec, orb_true_iff, sel_testbit, has_suit_in, Z.pow2_bits_eqb, Z.eqb_eq by lia.
    unfold rank_in. split; [intros [?|<-]; [tauto|]; split; [lia|]; right; left; lia|].
    intros (Hir & [?|[?|[]]]); [tauto|]. right. lia.
  - rewrite sel_testbit, has_suit_in by done. unfold rank_in. split; [tauto|].
    intros (Hir & [?|[E|[]]]); [tauto|]. destruct Hne. rewrite E.
    replace (13 * s + i) with (i + s * 13) by lia. rewrite Z.div_add, Z.div_small by lia. lia.
Qed.

Lemma scount_app l l' s : scount (l ++ l') s = scount l s + scount l' s.
Proof. unfold scount. rewrite List.filter_app, length_app. lia. Qed.

Lemma scount_one c s : scount [c] s = c_bool (c / 13 =? s).
Proof. unfold scount. cbn. by destruct (_ =? s). Qed.

Lemma flush_loop h n :
  Forall card h -> (n <= length h)%nat ->
  for_loopM n 0 (fun k '(f, cc) =>
    card ← aget h k;
    i ← aget CardSuitIdx card;
    m ← aget (map (fun c => 2 ^ (c mod 13)) h) k;
    x ← aget f i;
    f ← aset f i (Z.lor x m);
    n ← aget cc i;
    cc ← aset cc i (n - 1);
    Some (f, cc)) ([0; 0; 0; 0], [4; 4; 4; 4])
  = Some (map (fun s => mask (sel (has_suit (take n h) s))) suits, map (fun s => 4 - scount (take n h) s) suits).
Proof.
  intros Hc. induction n as [|n IH]; intros Hn; [reflexivity|].
  rewrite for_loopM_snoc, IH, Z.add_0_l by lia. step.
  destruct (lookup_lt_is_Some_2 h n) as [c Ec]; [lia|].
  assert (Hcc : card c) by (by eapply list.Forall_lookup in Hc).
  replace (aget h (Z.of_nat n)) with (Some c) by (symmetry; apply aget_Some; split; [lia|by rewrite Nat2Z.id]).
  step. rewrite CardSuitIdx_eq by done. step.
  replace (aget (map (fun c => 2 ^ (c mod 13)) h) (Z.of_nat n)) with (Some (2 ^ (c mod 13))).
  2: { symmetry. apply aget_Some. split; [lia|]. rewrite Nat2Z.id. change (map ?f h) with (f <$> h).
       by rewrite list_lookup_fmap, Ec. }
  step. rewrite (take_S_r h n c Ec). pose proof (card_suit c Hcc) as Hs.
  unfold suits. cbn [map]. rewrite !suit_step, !scount_app, !scount_one by done.
  assert (c / 13 = 0 \/ c / 13 = 1 \/ c / 13 = 2 \/ c / 13 = 3) as [->|[->|[->| ->]]] by lia;
    unfold aget, aset; change (Z.to_nat 0) with 0%nat; change (Z.to_nat 1) with 1%nat;
    change (Z.to_nat 2) with 2%nat; change (Z.to_nat 3) with 3%nat;
    change (Z.of_nat (length [_; _; _; _])) with 4; cbn -[mask sel Z.pow scount has_suit Z.sub Z.add];
    repeat (f_equal; try lia).
Qed.

Lemma suit_length h s : NoDup h -> Z.of_nat (length (sel (has_suit h s))) = scount h s.
Proof.
  intros Hd. unfold scount. f_equal. set (l := List.filter (fun c => c / 13 =? s) h).
  rewrite <- (length_map (fun c => c mod 13) l).
  assert (Hl : forall c, In c l -> c = 13 * s + c mod 13).
  { intros c Hc. apply List.filter_In in Hc as [_ E]. apply Z.eqb_eq in E. pose proof (Z.div_mod c 13 ltac:(lia)). lia. }
  apply desc_length; [apply desc_sel| |].
  - apply NoDup_ListNoDup. change (NoDup ((fun c => c mod 13) <$> l)). apply NoDup_fmap_2_strong.
    + intros x y Hx Hy E. rewrite (Hl x), (Hl y), E by (by apply list_elem_of_In). done.
    + apply NoDup_ListNoDup, List.NoDup_filter. by apply NoDup_ListNoDup.
  - intros i. rewrite in_sel, has_suit_in, in_map_iff. split.
    + intros (Hi & Hin). exists (13 * s + i). unfold rank_in in Hi. replace (13 * s + i) with (i + s * 13) in * by lia.
      rewrite Z.mod_add, Z.mod_small by lia. split; [done|]. apply List.filter_In. split; [done|].
      rewrite Z.div_add, Z.div_small by lia. apply Z.eqb_refl.
    + intros (c & <- & Hin). split; [apply card_rank|]. rewrite <- (Hl c Hin). by apply List.filter_In in Hin as [? _].
Qed.

Lemma scount_total h :
  Forall card h -> scount h 0 + scount h 1 + scount h 2 + scount h 3 = Z.of_nat (length h).
Proof.
  induction h as [|c h IH]; intros Hc; [done|]. apply list.Forall_cons in Hc as [Hc Hh]. specialize (IH Hh).
  change (c :: h) with ([c] ++ h). rewrite !scount_app, !scount_one. pose proof (card_suit c Hc).
  cbn [app length]. assert (c / 13 = 0 \/ c / 13 = 1 \/ c / 13 = 2 \/ c / 13 = 3) as [->|[->|[->| ->]]] by lia;
    cbn [c_bool Z.eqb Pos.eqb]; lia.
Qed.

Lemma flush_top_mask fuel : forall l, desc l -> (5 <= length l <= 5 + fuel)%nat ->
  flush_top fuel (mask l) (4 - Z.of_nat (length l)) = Some (mask (take 5 l)).
Proof.
  induction fuel as [|fuel IH]; intros l Hd Hl; cbn [flush_top].
  - destruct (Z.ltb_spec (4 - Z.of_nat (length l)) (-1)); [lia|]. by rewrite take_ge by lia.
  - destruct (Z.ltb_spec (4 - Z.of_nat (length l)) (-1)); [|by rewrite take_ge by lia].
    rewrite drop_low_take by (done || by intros ->). assert (Hlt := length_take l (length l - 1)).
    replace (4 - Z.of_nat (length l) + 1) with (4 - Z.of_nat (length (take (length l - 1) l))) by lia.
    rewrite IH by (by apply desc_take || lia). by rewrite take_take, Nat.min_l by lia.
Qed.

(** The index of the flush suit from the four counters: at most one counter is negative. *)
Definition suit_index (c0 c1 c2 c3 : Z) : Z :=
  Z.shiftr (Z.lor (Z.lor (Z.land c0 8) (Z.land c1 16)) (Z.lor (Z.land c2 32) (Z.land c3 64))) 3.

Lemma suit_index_checked :
  let rng := seqZ (-3) 8 in
  forallb (fun a => forallb (fun b => forallb (fun c => forallb (fun d =>
    negb (a + b + c + d =? 9) || forallb (fun s => negb (znth [a; b; c; d] s <? 0) ||
      match aget LG2TAB (suit_index a b c d) with Some x => x =? s | None => false end) suits) rng) rng) rng) rng = true.
Proof. vm_compute. reflexivity. Qed.

Lemma suit_index_eq a b c d s :
  a + b + c + d = 9 -> -3 <= a <= 4 -> -3 <= b <= 4 -> -3 <= c <= 4 -> -3 <= d <= 4 ->
  In s suits -> znth [a; b; c; d] s < 0 -> aget LG2TAB (suit_index a b c d) = Some s.
Proof.
  intros Hsum Ha Hb Hc Hd Hs Hneg. pose proof suit_index_checked as H. cbv zeta in H.
  rewrite forallb_forall in H. specialize (H a ltac:(apply list_elem_of_In, elem_of_seqZ; lia)).
  rewrite forallb_forall in H. specialize (H b ltac:(apply list_elem_of_In, elem_of_seqZ; lia)).
  rewrite forallb_forall in H. specialize (H c ltac:(apply list_elem_of_In, elem_of_seqZ; lia)).
  rewrite forallb_forall in H. specialize (H d ltac:(apply list_elem_of_In, elem_of_seqZ; lia)).
  rewrite (proj2 (Z.eqb_eq _ _) Hsum) in H. cbn [negb orb] in H. rewrite forallb_forall in H. specialize (H s Hs).
  rewrite (proj2 (Z.ltb_lt _ _) Hneg) in H. cbn [negb orb] in H.
  destruct (aget _ _); [|done]. apply Z.eqb_eq in H. by subst.
Qed.

Lemma flush_word h :
  length h = 7%nat -> NoDup h -> Forall card h ->
  SevenCardDrawFlush h (map (fun c => 2 ^ (c mod 13)) h) = Some
    (match List.find (fun s => 5 <=? scount h s) suits with
     | Some s => Z.lor (mask (sel (has_suit h s))) (Z.shiftl (mask (take 5 (sel (has_suit h s)))) 13)
     | None => 0
     end).
Proof.
  intros Hl Hd Hc. unfold SevenCardDrawFlush. rewrite flush_loop by (done || lia). step.
  rewrite take_ge by lia. set (ccs := map (fun s => 4 - _) suits). set (f := map _ suits).
  pose proof (scount_total h Hc) as Htot. rewrite Hl in Htot.
  assert (Hpos : forall s, 0 <= scount h s) by (intros; unfold scount; lia).
  pose proof (Hpos 0). pose proof (Hpos 1). pose proof (Hpos 2). pose proof (Hpos 3).
  assert (Eg : forall s, In s suits -> aget ccs s = Some (4 - scount h s) /\ aget f s = Some (mask (sel (has_suit h s)))).
  { intros s Hs. unfold ccs, f, suits in *. cbn in Hs. destruct Hs as [<-|[<-|[<-|[<-|[]]]]]; split; reflexivity. }
  destruct (Eg 0) as [-> _]; [by left|]. step. destruct (Eg 1) as [-> _]; [by right; left|]. step.
  destruct (Eg 2) as [-> _]; [by right; right; left|]. step. destruct (Eg 3) as [-> _]; [by right; right; right; left|]. step.
  fold (suit_index (4 - scount h 0) (4 - scount h 1) (4 - scount h 2) (4 - scount h 3)).
  destruct (List.find _ suits) as [s|] eqn:Ef.
  - apply List.find_some in Ef as [Hs Hge]. apply Z.leb_le in Hge.
    assert (Hneg : Z.lor (Z.lor (4 - scount h 0) (4 - scount h 1)) (Z.lor (4 - scount h 2) (4 - scount h 3)) < 0).
    { rewrite !Z.lor_neg. cbn in Hs. destruct Hs as [<-|[<-|[<-|[<-|[]]]]]; lia. }
    rewrite (proj2 (Z.ltb_lt _ _) Hneg).
    assert (Hin : scount h s <= 7) by (cbn in Hs; destruct Hs as [<-|[<-|[<-|[<-|[]]]]]; lia).
    rewrite (suit_index_eq _ _ _ _ s); try done; try lia; cycle 1.
    { cbn in Hs. destruct Hs as [<-|[<-|[<-|[<-|[]]]]];
        match goal with |- znth _ ?k < 0 => change (4 - scount h k < 0) end; lia. }
    step. destruct (Eg s Hs) as [-> ->]. step. step.
    rewrite <- suit_length in Hge, Hin |- * by done. rewrite flush_top_mask by (apply desc_sel || lia). step.
    pose proof (rank_mask_range _ (desc_ranks _ (desc_take 5 _ (desc_sel (has_suit h s))))) as Hm.
    unfold SUBR_SHL. rewrite uwrap_small; [done|]. rewrite Z.shiftl_mul_pow2 by lia.
    change (2 ^ 13) with 8192 in *. change (2 ^ 32) with 4294967296. lia.
  - assert (Hno : forall s, In s suits -> scount h s < 5).
    { intros s Hs. pose proof (List.find_none _ _ Ef s Hs) as E. apply Z.leb_gt in E. done. }
    assert (Hneg : ~ Z.lor (Z.lor (4 - scount h 0) (4 - scount h 1)) (Z.lor (4 - scount h 2) (4 - scount h 3)) < 0).
    { rewrite !Z.lor_neg. pose proof (Hno 0). pose proof (Hno 1). pose proof (Hno 2). pose proof (Hno 3). cbn in *.
      intuition lia. }
    destruct (Z.ltb_spec (Z.lor (Z.lor (4 - scount h 0) (4 - scount h 1)) (Z.lor (4 - scount h 2) (4 - scount h 3))) 0);
      done.
Qed.

(** ** Five ranks leave no room for four of a kind or a full house *)

Lemma sel_length_incl P l : List.NoDup l -> (forall r, In r l -> rank_in r /\ P r = true) -> (length l <= length (sel P))%nat.
Proof. intros Hd H. apply List.NoDup_incl_length; [done|]. intros r Hr. by apply in_sel, H. Qed.

Lemma straight_five has m : straight_ref has = Some m -> (5 <= length (sel has))%nat.
Proof.
  unfold straight_ref. destruct (List.find _ tops) as [r|] eqn:E.
  - intros _. apply List.find_some in E as [Hr Hrun]. rewrite forallb_forall in Hrun.
    apply (sel_length_incl has (run_to r)).
    + unfold run_to. repeat constructor; cbn [In]; lia.
    + intros x Hx. split; [|by apply Hrun]. unfold tops, run_to, rank_in in *. cbn in *. lia.
  - destruct (forallb _ _) eqn:Hw; [|done]. intros _. rewrite forallb_forall in Hw.
    apply (sel_length_incl has [12; 3; 2; 1; 0]).
    + repeat constructor; cbn [In]; lia.
    + intros x Hx. split; [|by apply Hw]. unfold rank_in. cbn in Hx. lia.
Qed.

Section FiveRanks.
Context (n : Z -> Z) (total : Z) (Htotal : total <= 7).
Context (Hn : forall r, rank_in r -> 0 <= n r <= 4) (Hsum : foldr (fun r s => n r + s) 0 ranks = total).

Lemma distinct_length :
  Z.of_nat (length (sel (fun r => 0 <? n r))) =
    Z.of_nat (length (times n 4)) + Z.of_nat (length (times n 3)) + Z.of_nat (length (times n 2)) + Z.of_nat (length (times n 1)).
Proof.
  unfold times, sel. assert (H : Forall rank_in ranks).
  { apply list.Forall_forall. intros. by apply in_ranks, list_elem_of_In. }
  revert H. generalize ranks as l. induction 1 as [|r l Hr Hl IH]; [done|]. cbn [List.filter].
  pose proof (Hn r Hr).
  assert (n r = 0 \/ n r = 1 \/ n r = 2 \/ n r = 3 \/ n r = 4) as [E|[E|[E|[E|E]]]] by lia;
    rewrite E; cbn [Z.eqb Pos.eqb Z.ltb Z.compare length]; lia.
Qed.

Lemma distinct_le : (length (sel (fun r => (0 <? n r)%Z)) <= 7)%nat.
Proof. pose proof distinct_length. pose proof (lengths n total Hn Hsum). lia. Qed.

Context (Hfive : (5 <= length (sel (fun r => (0 <? n r)%Z)))%nat).

Lemma five_ranks_shape :
  times n 4 = [] /\ (times n 3 = [] \/ (exists t, times n 3 = [t]) /\ times n 2 = []).
Proof.
  pose proof distinct_length. pose proof (lengths n total Hn Hsum) as Hl.
  destruct (times n 4); cbn [length] in *; [|lia]. split; [done|].
  destruct (times n 3) as [|t [|]]; cbn [length] in *; [by left|right|lia].
  split; [by exists t|]. destruct (times n 2); cbn [length] in *; [done|lia].
Qed.

Lemma five_ranks_big : big_ref n = None.
Proof. unfold big_ref. destruct five_ranks_shape as [-> [->|[[t ->] ->]]]; done. Qed.

Lemma five_ranks_flush f :
  f <> 0 -> seven_kinds f (at_least n 1) (at_least n 2) (at_least n 3) (at_least n 4) = Some (SevenCardDrawFlushScore f).
Proof.
  intros Hf. apply Z.eqb_neq in Hf. unfold seven_kinds. rewrite Hf. cbn [negb].
  pose proof (exactly_mask n 2) as X2. change (2 + 1) with 3 in X2. rewrite X2.
  pose proof (in_times n 4) as M4. pose proof (in_times n 3) as M3. pose proof (in_times n 2) as M2.
  pose proof (in_times n 1) as M1. pose proof (times_desc n 3) as D3.
  destruct five_ranks_shape as [E4 Hshape]. rewrite E4 in M4.
  assert (H3 : at_least n 3 = mask (times n 3)) by (apply at_least_eq; [by apply desc_ranks|members M4 M3 M2 M1 Hn]).
  assert (H4 : at_least n 4 = mask []) by (apply at_least_eq; [constructor|members M4 M3 M2 M1 Hn]).
  rewrite H3, H4. destruct Hshape as [->|[[t E3] ->]]; [done|]. rewrite E3 in *.
  rewrite (drop_low_take [t]) by done. rewrite !mask_zero by rank_list.
  change (mask [] =? 0) with true. cbn [negb length Nat.sub take]. by change (mask [] =? 0) with true.
Qed.
End FiveRanks.

(** ** The evaluators *)

Lemma at_least_ext n n' k : (forall r, n r = n' r) -> at_least n k = at_least n' k.
Proof. intros H. unfold at_least. f_equal. apply sel_ext. intros r _. by rewrite H. Qed.

Lemma counts_or l : forall m1 m2 m3 m4, exists a b c,
  foldl (fun '(m1, m2, m3, m4) x =>
    (Z.lor m1 x, Z.lor m2 (Z.land x m1), Z.lor m3 (Z.land x m2), Z.lor m4 (Z.land x m3))) (m1, m2, m3, m4) l
  = (foldl Z.lor m1 l, a, b, c).
Proof. induction l as [|x l IH]; intros m1 m2 m3 m4; [by do 3 eexists|]. cbn [foldl]. apply IH. Qed.

(** The masks of the cards of a hand. *)
Lemma hand_counts h :
  Forall card h ->
  seven_counts (map (fun c => 2 ^ (c mod 13)) h)
    = (at_least (cnt h) 1, at_least (cnt h) 2, at_least (cnt h) 3, at_least (cnt h) 4) /\
  foldl Z.lor 0 (map (fun c => 2 ^ (c mod 13)) h) = at_least (cnt h) 1.
Proof.
  intros Hc. assert (E : seven_counts (map (fun c => 2 ^ (c mod 13)) h)
    = (at_least (cnt h) 1, at_least (cnt h) 2, at_least (cnt h) 3, at_least (cnt h) 4)).
  { rewrite <- (map_map (fun c => c mod 13) (fun r => 2 ^ r)). unfold seven_counts. rewrite counts_occ.
    - rewrite !(at_least_ext (cnt h) (occ (map (fun c => c mod 13) h)) _ (cnt_occ h)). done.
    - apply list.Forall_forall. intros r Hr. apply list_elem_of_In, in_map_iff in Hr as (c & <- & _). apply card_rank. }
  split; [done|]. destruct (counts_or (map (fun c => 2 ^ (c mod 13)) h) 0 0 0 0) as (a & b & c & E').
  unfold seven_counts in E. rewrite E' in E. congruence.
Qed.

(** A hand: cards of the deck, no card twice. *)
Definition hand_ok (n : nat) (h : list Z) : Prop := length h = n /\ NoDup h /\ Forall card h.

Lemma hand_cards h n :
  hand_ok n h -> (forall r, rank_in r -> 0 <= cnt h r <= 4) /\
    foldr (fun r s => cnt h r + s) 0 ranks = Z.of_nat n.
Proof.
  intros (Hl & Hd & Hc). split; [intros; by apply cnt_bound|]. by rewrite cnt_total, Hl.
Qed.

Lemma suit_cnt h s r : rank_in r -> has_suit h s r = true -> (0 <? cnt h r) = true.
Proof.
  intros Hi Hs. apply Z.ltb_lt. apply has_suit_in in Hs. unfold cnt.
  assert (Hin : In (13 * s + r) (List.filter (fun c => c mod 13 =? r) h)).
  { apply List.filter_In. split; [done|]. unfold rank_in in Hi. replace (13 * s + r) with (r + s * 13) by lia.
    rewrite Z.mod_add, Z.mod_small by lia. apply Z.eqb_refl. }
  destruct (List.filter _ h); [done|]. cbn [length]. lia.
Qed.

Lemma straight_ref_mono has has' :
  (forall r, rank_in r -> has r = true -> has' r = true) -> straight_ref has' = None -> straight_ref has = None.
Proof.
  intros H. unfold straight_ref. destruct (List.find _ tops) eqn:E; [done|].
  destruct (forallb has' _) eqn:Ew; [done|]. intros _.
  assert (Hmono : forall l, Forall rank_in l -> forallb has l = true -> forallb has' l = true).
  { intros l Hl. rewrite !forallb_forall. intros Hall x Hx. apply H; [|auto].
    apply list_elem_of_In in Hx. by eapply list.Forall_forall in Hl. }
  destruct (List.find (fun r => forallb has (run_to r)) tops) as [r|] eqn:E'.
  - apply List.find_some in E' as [Hr E']. pose proof (List.find_none _ _ E r Hr) as Hn. cbv beta in Hn.
    rewrite Hmono in Hn; [done| |done]. unfold tops, run_to, rank_in in *. cbn in Hr. repeat constructor; lia.
  - destruct (forallb has _) eqn:Ew'; [|done]. rewrite Hmono in Ew; [done| |done].
    repeat constructor; unfold rank_in; lia.
Qed.

(** The mask of the ranks of a hand, and what a straight needs of it. *)
Lemma hand_mask h :
  let t := at_least (cnt h) 1 in
  straight_ref (Z.testbit t) = straight_ref (fun r => 0 <? cnt h r) /\
  sel (Z.testbit t) = sel (fun r => 0 <? cnt h r) /\
  (forall s i, Z.testbit (mask (sel (has_suit h s))) i = true -> Z.testbit t i = true).
Proof.
  cbv zeta. assert (Hbit : forall r, rank_in r -> Z.testbit (at_least (cnt h) 1) r = (0 <? cnt h r)).
  { intros r Hr. unfold at_least. apply Bool.eq_iff_eq_true. unfold rank_in in Hr.
    rewrite sel_testbit, Z.leb_le, Z.ltb_lt by lia. unfold rank_in. lia. }
  split_and!; [by apply straight_ref_ext|by apply sel_ext|].
  intros s i H. destruct (Z.lt_ge_cases i 0); [by rewrite Z.testbit_neg_r in H|].
  apply sel_testbit in H as [Hi Hs]; [|done]. rewrite Hbit by done. by apply (suit_cnt h s).
Qed.

Lemma suited_five h s :
  NoDup h -> 5 <= scount h s ->
  (5 <= length (sel (has_suit h s)))%nat /\ (5 <= length (sel (fun r => (0 <? cnt h r)%Z)))%nat.
Proof.
  intros Hd Hs. rewrite <- suit_length in Hs by done. split; [lia|].
  transitivity (length (sel (has_suit h s))); [lia|]. apply sel_length_incl.
  - apply desc_NoDup, desc_sel.
  - intros r Hr. apply in_sel in Hr as [Hr Hh]. split; [done|]. by apply (suit_cnt h s).
Qed.

Lemma hand_masks h :
  length h = 7%nat -> Forall card h ->
  mapM (M:=option) (fun i => card ← aget h i; aget CardMask card) [0; 1; 2; 3; 4; 5; 6]
    = Some (map (fun c => 2 ^ (c mod 13)) h).
Proof.
  intros Hl Hc. destruct h as [|a [|b [|c [|d [|e [|f [|g [|]]]]]]]]; try done.
  rewrite !list.Forall_cons in Hc. destruct_and?.
  change (mapM (M:=option) (fun c => aget CardMask c) [a; b; c; d; e; f; g]
    = Some (map (fun c => 2 ^ (c mod 13)) [a; b; c; d; e; f; g])).
  cbn [mapM map]. rewrite !CardMask_eq by done. reflexivity.
Qed.

(** [C11] Seven cards.  For every hand of seven different cards [SevenCardDrawScore] returns
    the score of the rules of poker: the best kind of hand that five of the cards make, the
    ranks that make it, and the best kickers.  Its searches for runs of ones in the mask of
    ranks find the highest straight and the highest straight flush, and it never reads
    outside its tables. *)
Theorem SevenCardDrawScore_reference h :
  hand_ok 7 h -> SevenCardDrawScore h = Some (reference h).
Proof.
  intros Hok. pose proof (hand_cards h 7 Hok) as [Hn Hsum]. destruct Hok as (Hl & Hd & Hc).
  unfold SevenCardDrawScore.
  assert (Em := hand_masks h Hl Hc).
  rewrite Em. step. rewrite flush_word by done. step. destruct (hand_counts h Hc) as [-> ->].
  destruct (hand_mask h) as (Hst & Hsel & Hsub). set (t := at_least (cnt h) 1) in *.
  assert (Ht : 0 <= t < 2 ^ 13) by apply at_least_range.
  assert (Hseven : (length (sel (Z.testbit t)) <= 7)%nat).
  { rewrite Hsel. apply (distinct_le (cnt h) 7); [done|done|done]. }
  unfold reference.
  assert (Hfind : List.find (fun s => 5 <=? Z.of_nat (length (sel (has_suit h s)))) suits
    = List.find (fun s => 5 <=? scount h s) suits).
  { apply find_ext. intros s _. by rewrite suit_length. }
  rewrite Hfind. clear Hfind. destruct (List.find (fun s => 5 <=? scount h s) suits) as [s|] eqn:Ef.
  - apply List.find_some in Ef as [_ Hge]. apply Z.leb_le in Hge. destruct (suited_five h s Hd Hge) as [Hs5 H5].
    set (fs := mask (sel (has_suit h s))) in *. set (top := mask (take 5 (sel (has_suit h s)))).
    assert (Hfs : 0 <= fs < 2 ^ 13) by apply rank_mask_range, sel_rank.
    assert (Htop : 0 <= top < 2 ^ 13) by apply rank_mask_range, desc_ranks, desc_take, desc_sel.
    assert (Hne : fs <> 0).
    { apply Z.eqb_neq. unfold fs. rewrite mask_zero by apply sel_rank. clear - Hs5.
      destruct (sel (has_suit h s)); [cbn in Hs5; lia|done]. }
    rewrite (straights_flush t fs top Ht Hfs Htop (Hsub s) Hseven Hne), Hst.
    assert (Efs : straight_ref (Z.testbit fs) = straight_ref (has_suit h s)).
    { apply straight_ref_ext. intros r Hr. apply Bool.eq_iff_eq_true. unfold rank_in in Hr.
      unfold fs. rewrite sel_testbit by lia. unfold rank_in. intuition lia. }
    rewrite Efs. rewrite (five_ranks_big (cnt h) 7) by done.
    destruct (straight_ref (fun r => 0 <? cnt h r)) as [m|] eqn:Et; [by destruct (straight_ref (has_suit h s))|].
    assert (Ens : straight_ref (has_suit h s) = None).
    { apply (straight_ref_mono _ _ (suit_cnt h s) Et). }
    rewrite Ens. pose proof (word_nonzero fs top Hne) as Hnz. apply Z.eqb_neq in Hnz.
    rewrite (five_ranks_flush (cnt h) 7) by done. unfold SevenCardDrawFlushScore, SUBR_SHL.
    rewrite (word_high t fs top) by done. by rewrite kind_range.
  - rewrite (straights_no_flush t 1 0) by done. rewrite Hst.
    destruct (straight_ref (fun r => 0 <? cnt h r)) as [m|] eqn:Et; cbn [option_map].
    + pose proof (straight_five _ _ Et) as H5.
      by rewrite (five_ranks_big (cnt h) 7 ltac:(lia) Hn Hsum H5).
    + unfold t. rewrite seven_kinds_ref by done. by destruct (big_ref (cnt h)).
Qed.

(** ** Five cards *)

(** On a mask of five ranks the tests for the wheel and for a run of ones are the rules. *)
Definition five_check (t : Z) : bool :=
  if (length (sel (Z.testbit t)) =? 5)%nat then
    (five_unpaired t 0 =? match straight_ref (Z.testbit t) with
                          | Some m => STRAIGHT_FLUSH_SCORE + m | None => FLUSH_SCORE + t end) &&
    (five_unpaired t 1 =? match straight_ref (Z.testbit t) with
                          | Some m => STRAIGHT_SCORE + m | None => t end)
  else true.

Lemma five_checked : forallb five_check (seqZ 0 8192) = true.
Proof. vm_compute. reflexivity. Qed.

Lemma five_unpaired_ref t u :
  0 <= t < 2 ^ 13 -> length (sel (Z.testbit t)) = 5%nat ->
  five_unpaired t u =
    if u =? 0 then match straight_ref (Z.testbit t) with
                   | Some m => STRAIGHT_FLUSH_SCORE + m | None => FLUSH_SCORE + t end
    else match straight_ref (Z.testbit t) with Some m => STRAIGHT_SCORE + m | None => t end.
Proof.
  intros Ht Hl. pose proof five_checked as H. rewrite forallb_forall in H.
  specialize (H t ltac:(apply list_elem_of_In, elem_of_seqZ; change (2 ^ 13) with 8192 in *; lia)).
  unfold five_check in H. rewrite Hl in H. cbn [Nat.eqb] in H. apply andb_true_iff in H as [H0 H1].
  apply Z.eqb_eq in H0, H1. destruct (Z.eqb_spec u 0) as [->|Hu]; [done|]. rewrite <- H1.
  unfold five_unpaired. apply Z.eqb_neq in Hu. by rewrite Hu.
Qed.

(** The suits of a hand as a mask. *)
Definition suit_list (h : list Z) : list Z := sel (fun s => existsb (fun c => c / 13 =? s) h).

Lemma suits_mask h : Forall card h -> foldl Z.lor 0 (map (fun c => 2 ^ (c / 13)) h) = mask (suit_list h).
Proof.
  induction h as [|c h IH] using rev_ind; intros Hc; [reflexivity|].
  apply list.Forall_app in Hc as [Hh Hc]. apply list.Forall_cons in Hc as [Hc _]. pose proof (card_suit c Hc).
  rewrite map_app, foldl_app, IH by done. cbn [map foldl].
  pose proof (mask_nonneg _ (sel_rank (fun s => existsb (fun c => c / 13 =? s) h))) as Hm0.
  apply mask_bits; [apply sel_rank|apply Z.lor_nonneg; split; [done|apply Z.pow_nonneg; lia]|].
  intros i Hi. unfold suit_list. rewrite Z.lor_spec, orb_true_iff, sel_testbit, in_sel, Z.pow2_bits_eqb, Z.eqb_eq, existsb_app, orb_true_iff by lia.
  cbn [existsb]. rewrite orb_false_r, Z.eqb_eq. unfold rank_in. split; [|tauto]. intros [?|<-]; [tauto|]. split; [lia|by right].
Qed.

(** One suit only: all cards have it. *)
Lemma one_suit h s :
  Forall card h -> h <> [] ->
  (suit_list h = [s] <-> 0 <= s < 4 /\ scount h s = Z.of_nat (length h)).
Proof.
  intros Hc Hne. assert (Hin : forall i, In i (suit_list h) <-> exists c, In c h /\ c / 13 = i).
  { intros i. unfold suit_list. rewrite in_sel, existsb_exists. split.
    - intros (_ & c & Hc' & E). apply Z.eqb_eq in E. eauto.
    - intros (c & Hc' & E). assert (card c) as Hcc by (apply list_elem_of_In in Hc'; by eapply list.Forall_forall in Hc).
      pose proof (card_suit c Hcc). split; [unfold rank_in; lia|]. exists c. split; [done|by apply Z.eqb_eq]. }
  split.
  - intros E. rewrite E in Hin. destruct h as [|c0 h]; [done|].
    assert (H0 : c0 / 13 = s) by (destruct (proj2 (Hin (c0 / 13))) as [->|[]]; eauto; exists c0; split; [by left|done]).
    apply list.Forall_cons in Hc as [Hc0 _]. pose proof (card_suit c0 Hc0). split; [lia|].
    unfold scount. f_equal. f_equal. assert (Hall : forall c, In c (c0 :: h) -> (c / 13 =? s) = true).
    { intros c Hc'. apply Z.eqb_eq. destruct (proj2 (Hin (c / 13))) as [->|[]]; [by exists c|done]. }
    revert Hall. generalize (c0 :: h) as l. induction l as [|c l IH]; intros Hall; [done|].
    cbn. rewrite Hall by (by left). f_equal. apply IH. intros. apply Hall. by right.
  - intros (Hs & Hall). unfold scount in Hall.
    assert (Hf : List.filter (fun c => c / 13 =? s) h = h).
    { clear Hin Hc Hne. induction h as [|c h IH]; [done|]. cbn in *. destruct (c / 13 =? s) eqn:E; cbn in *.
      - f_equal. apply IH. lia.
      - pose proof (List.filter_length_le (fun c => c / 13 =? s) h). lia. }
    assert (Hone : forall i, In i (suit_list h) <-> In i [s]).
    { intros i. rewrite Hin. cbn. split.
      - intros (c & Hc' & <-). rewrite <- Hf in Hc'. apply List.filter_In in Hc' as [_ E]. apply Z.eqb_eq in E. auto.
      - intros [<-|[]]. destruct h as [|c h]; [done|]. exists c. split; [by left|].
        assert (In c (c :: h)) as Hc' by (by left). rewrite <- Hf in Hc'. apply List.filter_In in Hc' as [_ E]. by apply Z.eqb_eq. }
    pose proof (desc_length (suit_list h) [s] (desc_sel _) ltac:(repeat constructor; cbn; tauto) Hone) as Hlen.
    destruct (suit_list h) as [|x [|]]; try done. destruct (proj1 (Hone x)) as [->|[]]; [by left|done].
Qed.

(** The masks of the five evaluators are those of the loop over seven cards. *)
Lemma five_counts_eq c0 c1 c2 c3 c4 :
  five_counts c0 c1 c2 c3 c4 = seven_counts [c0; c1; c2; c3; c4] /\
  five_masks c0 c1 c2 c3 c4 = let '(m1, m2, _, _) := five_counts c0 c1 c2 c3 c4 in (m1, m2).
Proof.
  split; [|reflexivity]. unfold seven_counts, five_counts. cbn [foldl].
  by rewrite !Z.land_0_r, !Z.lor_0_l.
Qed.

Lemma five_score_eq h :
  length h = 5%nat -> Forall card h ->
  FiveCardDrawScore h = Some (
    if at_least (cnt h) 2 =? 0 then five_unpaired (at_least (cnt h) 1) (drop_low (mask (suit_list h)))
    else five_paired (at_least (cnt h) 1) (at_least (cnt h) 2) (at_least (cnt h) 3) (at_least (cnt h) 4)).
Proof.
  intros Hl Hc. pose proof (proj1 (hand_counts h Hc)) as Ec. pose proof (suits_mask h Hc) as Es.
  destruct h as [|a [|b [|c [|d [|e [|]]]]]]; try done. cbn [map] in Ec, Es. cbn [foldl] in Es. rewrite Z.lor_0_l in Es.
  rewrite !list.Forall_cons in Hc. destruct_and?. unfold FiveCardDrawScore.
  change (aget [a; b; c; d; e] 0) with (Some a). change (aget [a; b; c; d; e] 1) with (Some b).
  change (aget [a; b; c; d; e] 2) with (Some c). change (aget [a; b; c; d; e] 3) with (Some d).
  change (aget [a; b; c; d; e] 4) with (Some e). rewrite !bind_Some.
  rewrite !CardSuit_eq, !CardMask_eq by done. rewrite !bind_Some. f_equal.
  unfold FiveCardDrawScoreFast. destruct (five_counts_eq (2 ^ (a mod 13)) (2 ^ (b mod 13)) (2 ^ (c mod 13)) (2 ^ (d mod 13)) (2 ^ (e mod 13))) as [E1 E2].
  rewrite E2, E1, Ec, Es. reflexivity.
Qed.

(** The low suit dropped leaves nothing when there is one suit. *)
Lemma flush_test h :
  length h = 5%nat -> Forall card h ->
  (drop_low (mask (suit_list h)) =? 0) =
    match List.find (fun s => 5 <=? scount h s) suits with Some _ => true | None => false end.
Proof.
  intros Hl Hc. assert (Hne : h <> []) by (by intros ->).
  assert (Hd : desc (suit_list h)) by apply desc_sel.
  assert (Hnil : suit_list h <> []).
  { intros E. destruct h as [|c h]; [done|]. apply list.Forall_cons in Hc as [Hc0 _]. pose proof (card_suit c Hc0).
    assert (Hin : In (c / 13) (suit_list (c :: h))); [|by rewrite E in Hin].
    unfold suit_list. apply in_sel. split; [unfold rank_in; lia|]. cbn. by rewrite Z.eqb_refl. }
  rewrite drop_low_take, mask_zero by (try done; by apply desc_ranks, desc_take).
  destruct (List.find _ suits) as [s|] eqn:E.
  - apply List.find_some in E as [Hs Hge]. apply Z.leb_le in Hge.
    pose proof (List.filter_length_le (fun c => c / 13 =? s) h) as Hle. fold (scount h s) in Hle.
    rewrite (proj2 (one_suit h s Hc Hne)); [done|]. unfold scount in *.
    split; [|lia]. cbn in Hs. lia.
  - destruct (suit_list h) as [|s [|s' l]] eqn:El; [done| |done]. exfalso.
    apply (one_suit h s Hc Hne) in El as [Hs Hall]. pose proof (List.find_none _ _ E s) as Hnone.
    cbn beta in Hnone. rewrite Z.leb_nle in Hnone. apply Hnone; [cbn; lia|]. lia.
Qed.

Lemma filter_all {A} (P : A -> bool) l :
  (length l <= length (List.filter P l))%nat -> forall x, In x l -> P x = true.
Proof.
  induction l as [|y l IH]; cbn [List.filter length In]; [done|]. intros Hl x.
  pose proof (List.filter_length_le P l). destruct (P y) eqn:E; cbn [length] in Hl; [|lia].
  intros [<-|Hx]; [done|]. apply IH; [lia|done].
Qed.

(** Five different ranks: no pair, and the straights and the others are the whole hand. *)
Lemma five_distinct n :
  (forall r, rank_in r -> 0 <= n r <= 4) -> foldr (fun r s => n r + s) 0 ranks = 5 ->
  (at_least n 2 =? 0) = true <-> length (sel (fun r => 0 <? n r)) = 5%nat.
Proof.
  intros Hn Hsum. pose proof (distinct_length n Hn) as Hd. pose proof (lengths n 5 Hn Hsum) as Hlen.
  unfold at_least. rewrite mask_zero by apply sel_rank.
  assert (Hs : forall r k, In r (times n k) -> 2 <= k -> In r (sel (fun r => 2 <=? n r))).
  { intros r k Hr Hk. apply in_times in Hr as [Hr <-]. apply in_sel. split; [done|]. by apply Z.leb_le. }
  assert (Hb : forall k, 2 <= k -> sel (fun r => 2 <=? n r) = [] -> times n k = []).
  { intros k Hk E. destruct (times n k) as [|r l] eqn:Et; [done|]. exfalso.
    apply (List.in_nil (a:=r)). rewrite <- E. apply (Hs r k); [rewrite Et; by left|done]. }
  destruct (sel (fun r => 2 <=? n r)) as [|r l] eqn:E.
  - rewrite !Hb in * by done. cbn [length] in *. split; [lia|done].
  - split; [done|]. intros H5. exfalso.
    assert (Hr : In r (sel (fun r => 2 <=? n r))) by (rewrite E; by left).
    apply in_sel in Hr as [Hr H2]. apply Z.leb_le in H2. pose proof (Hn r Hr).
    assert (In r (times n (n r))) as Hin by (by apply in_times).
    assert (1 <= length (times n (n r)))%nat by (destruct (times n (n r)); [done|cbn; lia]).
    assert (n r = 2 \/ n r = 3 \/ n r = 4) as [Er|[Er|Er]] by lia; rewrite Er in *; lia.
Qed.

(** [C12] Five cards.  For every hand of five different cards [FiveCardDrawScore] returns the
    score of the rules of poker, with its masks of ranks seen once and twice only. *)
Theorem FiveCardDrawScore_reference h :
  hand_ok 5 h -> FiveCardDrawScore h = Some (reference h).
Proof.
  intros Hok. pose proof (hand_cards h 5 Hok) as [Hn Hsum]. destruct Hok as (Hl & Hd & Hc).
  rewrite five_score_eq by done. f_equal. pose proof (five_distinct (cnt h) Hn Hsum) as Hdist.
  destruct (hand_mask h) as (Hst & Hsel & _).
  unfold reference. rewrite (find_ext _ (fun s => 5 <=? scount h s)) by (intros s _; by rewrite suit_length).
  destruct (at_least (cnt h) 2 =? 0) eqn:Ep.
  - pose proof (proj1 Hdist eq_refl) as H5. rewrite (five_ranks_big (cnt h) 5) by (try done; lia).
    rewrite five_unpaired_ref by (rewrite ?Hsel; try done; apply at_least_range).
    assert (Eones : at_least (cnt h) 1 = mask (sel (fun r => 0 <? cnt h r))).
    { apply sel_mask; [apply sel_rank|]. intros r Hr. rewrite in_sel, Z.leb_le, Z.ltb_lt. clear - Hr. unfold rank_in in *. intuition lia. }
    rewrite flush_test, Hst by done. destruct (List.find _ suits) as [s|] eqn:Ef.
    + apply List.find_some in Ef as [_ Hge]. apply Z.leb_le in Hge. destruct (suited_five h s Hd Hge) as [Hs5 _].
      assert (Hhas : forall r, rank_in r -> has_suit h s r = (0 <? cnt h r)).
      { intros r Hr. apply Bool.eq_iff_eq_true. split; [by apply suit_cnt|]. intros Hp. apply Z.ltb_lt in Hp.
        destruct (proj1 (List.in_map_iff (fun c => c mod 13) h r)) as (c & <- & Hin).
        { unfold cnt in Hp. destruct (List.filter (fun c => c mod 13 =? r) h) as [|c l] eqn:Eh; [cbn in Hp; lia|].
          assert (Hin : In c (List.filter (fun c => c mod 13 =? r) h)) by (rewrite Eh; by left).
          apply List.filter_In in Hin as [Hin E]. apply Z.eqb_eq in E. apply List.in_map_iff. by exists c. }
        apply has_suit_in. assert (Hs : c / 13 = s); [|rewrite <- Hs; by rewrite <- Z.div_mod by lia].
        apply Z.eqb_eq. apply (filter_all (fun c => c / 13 =? s) h); [unfold scount in Hge; lia|done]. }
      rewrite (straight_ref_ext _ _ Hhas), (sel_ext _ _ Hhas), take_ge by lia. by rewrite Eones.
    + destruct (straight_ref (fun r => 0 <? cnt h r)); [done|].
      unfold small_ref. apply Z.eqb_eq in Ep as Ep0. unfold at_least in Ep0. apply Z.eqb_eq in Ep0.
      rewrite mask_zero in Ep0 by apply sel_rank.
      assert (Ht : forall k, 2 <= k -> times (cnt h) k = []).
      { intros k Hk. destruct (times (cnt h) k) as [|r l] eqn:Et; [done|]. exfalso.
        assert (Hr : In r (times (cnt h) k)) by (rewrite Et; by left). apply in_times in Hr as [Hr E].
        assert (Hi : In r (sel (fun r => 2 <=? cnt h r))) by (apply in_sel; split; [done|apply Z.leb_le; lia]).
        by destruct (sel (fun r => 2 <=? cnt h r)). }
      rewrite !Ht by lia. assert (Eo : others (cnt h) [] = sel (fun r => 0 <? cnt h r)).
      { apply others_eq. intros r _. rewrite Z.ltb_lt. cbn. tauto. }
      by rewrite Eo, take_ge by lia.
  - assert (H4 : (length (sel (fun r => (0 <? cnt h r)%Z)) < 5)%nat).
    { pose proof (distinct_length (cnt h) Hn). pose proof (lengths (cnt h) 5 Hn Hsum).
      assert (length (sel (fun r => (0 <? cnt h r)%Z)) <> 5%nat) by (intros E; apply Hdist in E; congruence). lia. }
    rewrite (five_paired_ref (cnt h)) by done. destruct (List.find _ suits) as [s|] eqn:Ef.
    { apply List.find_some in Ef as [_ Hge]. apply Z.leb_le in Hge. destruct (suited_five h s Hd Hge). lia. }
    destruct (straight_ref (fun r => 0 <? cnt h r)) as [m|] eqn:Et; [|done]. apply straight_five in Et. lia.
Qed.

(** A royal flush, a full house and the wheel among seven and five cards. *)
Example royal_demo : SevenCardDrawScore [12; 11; 10; 9; 8; 13; 26] = Some (STRAIGHT_FLUSH_SCORE + 0x1F00).
Proof. reflexivity. Qed.

Lemma SevenCardDrawScore_reference_witness :
  hand_ok 7 [3; 16; 29; 5; 18; 40; 51] /\
  SevenCardDrawScore [3; 16; 29; 5; 18; 40; 51] = Some (reference [3; 16; 29; 5; 18; 40; 51]).
Proof.
  assert (H : hand_ok 7 [3; 16; 29; 5; 18; 40; 51]).
  { split_and!; [reflexivity|apply (bool_decide_unpack _); vm_compute; exact I|].
    repeat constructor; unfold card; lia. }
  split; [exact H|]. exact (SevenCardDrawScore_reference _ H).
Defined.

Lemma FiveCardDrawScore_reference_witness :
  hand_ok 5 [0; 14; 28; 42; 12] /\
  FiveCardDrawScore [0; 14; 28; 42; 12] = Some (reference [0; 14; 28; 42; 12]).
Proof.
  assert (H : hand_ok 5 [0; 14; 28; 42; 12]).
  { split_and!; [reflexivity|apply (bool_decide_unpack _); vm_compute; exact I|].
    repeat constructor; unfold card; lia. }
  split; [exact H|]. exact (FiveCardDrawScore_reference _ H).
Defined.

(** ** Names and ranks do not agree

    [cardstr] calls the first card of a suit its ace, and for the evaluators it is the lowest
    rank: a pair of aces loses against a pair of twos, and king, queen, jack, ten and ace are
    no straight. *)
Example aces_lose :
  option_map fst (cardstr 0) = Some "AC"%string /\ option_map fst (cardstr 14) = Some "2D"%string /\
  (a ← SevenCardDrawScore [0; 13; 30; 32; 47; 49; 7]; b ← SevenCardDrawScore [1; 14; 30; 32; 47; 49; 7]; Some (a <? b)) = Some true /\
  option_map (fun s => Z.shiftr s RANK_SHL) (SevenCardDrawScore [0; 12; 24; 36; 48; 2; 18]) = Some 0.
Proof. vm_compute. repeat split. Qed.

(** The lowest rank has no letter: the text of a pair of aces stops after the first word.
    Four of a kind shows its kicker only. *)
Example aces_unnamed :
  option_map snd (set_handstr (Some [0; 13; 30; 32; 47; 49; 7]) 0) = Some "pair "%string /\
  option_map snd (set_handstr (Some [1; 14; 27; 40; 47; 49; 7]) 0) = Some " J "%string.
Proof. vm_compute. split; reflexivity. Qed.
