(* ===== verification/Prime25519.v ===== *)
(** * The number 2^255 - 19 is prime

    The inversion of [curve25519.h] raises to the power [p - 2], which is the inverse because
    [p] is prime.  This file proves it, with Pocklington's criterion: when a part [F] of
    [N - 1] beyond the root of [N] is a product of two primes, a power of some [a] shows that
    all divisors of [N] are 1 modulo [F].  The primes needed on the way are found the same
    way, the small ones by trial division. *)
From Stdlib Require Import ZArith Zmod Lia Bool List.
From Stdlib Require Znumtheory.
Open Scope Z_scope.

(** ** Powers modulo a number *)

Fixpoint pow_mod (e : positive) (a n : Z) : Z :=
  match e with
  | xH => a mod n
  | xO e => let x := pow_mod e a n in (x * x) mod n
  | xI e => let x := pow_mod e a n in (x * x mod n * a) mod n
  end.

Lemma pow_mod_eq e : forall a n, pow_mod e a n = (a ^ Z.pos e) mod n.
Proof.
  induction e as [e IH|e IH|]; intros a n; cbn [pow_mod].
  - rewrite IH, <- Zmult_mod, Zmult_mod, Zmod_mod, <- Zmult_mod.
    replace (Z.pos e~1) with (Z.pos e + Z.pos e + 1) by lia. rewrite !Z.pow_add_r by lia. f_equal. ring.
  - rewrite IH, <- Zmult_mod. replace (Z.pos e~0) with (Z.pos e + Z.pos e) by lia. now rewrite Z.pow_add_r by lia.
  - now rewrite Z.pow_1_r.
Qed.

(** ** Pocklington's criterion *)

(** The exponents that give 1 are closed under the greatest common divisor. *)
Lemma pow_one_mul a q x y : 1 < q -> 0 <= x -> 0 <= y -> a ^ x mod q = 1 -> a ^ (x * y) mod q = 1.
Proof.
  intros Hq Hx Hy H. rewrite Z.pow_mul_r by lia. revert y Hy. apply natlike_ind.
  - apply Z.mod_1_l; lia.
  - intros y Hy IH. rewrite Z.pow_succ_r, Zmult_mod, H, IH by lia. apply Z.mod_1_l; lia.
Qed.

Lemma pow_one_mod a q x y : 1 < q -> 0 <= x -> 0 < y -> a ^ x mod q = 1 -> a ^ y mod q = 1 -> a ^ (x mod y) mod q = 1.
Proof.
  intros Hq Hx Hy H1 H2. pose proof (Z.mod_pos_bound x y Hy). pose proof (Z.div_pos x y Hx Hy).
  rewrite (Z.div_mod x y) in H1 by lia. rewrite Z.pow_add_r, Zmult_mod in H1 by nia.
  rewrite (pow_one_mul a q y (x / y)) in H1 by lia. now rewrite Z.mul_1_l, Zmod_mod in H1.
Qed.

Lemma pow_one_gcd a q : 1 < q -> forall y, 0 <= y -> forall x, 0 <= x ->
  a ^ x mod q = 1 -> a ^ y mod q = 1 -> a ^ (Z.gcd x y) mod q = 1.
Proof.
  intros Hq y Hy. pattern y. apply Z_lt_induction; [clear y Hy|lia]. intros y IH x Hx H1 H2.
  destruct (Z.le_gt_cases y 0) as [Hy|Hy].
  - destruct (Z.lt_ge_cases y 0); [|replace y with 0 by lia; now rewrite Z.gcd_0_r, Z.abs_eq by lia].
    rewrite Z.pow_neg_r, Zmod_0_l in H2; lia.
  - pose proof (Z.mod_pos_bound x y ltac:(lia)). rewrite <- Z.gcd_mod_l, Z.gcd_comm.
    apply IH; try lia; try assumption. apply pow_one_mod; (assumption || lia).
Qed.

Lemma mod_divisor x n q : 0 < n -> 0 < q -> (q | n) -> x mod q = x mod n mod q.
Proof.
  intros Hn Hq [c ->]. rewrite (Z.div_mod x (c * q)) at 1 by lia.
  rewrite <- Zplus_mod_idemp_l, (Z.mul_comm c q), <- Z.mul_assoc, (Z.mul_comm q), Z_mod_mult. reflexivity.
Qed.

Section Pocklington.
Context (N a : Z) (HN : 1 < N) (Ha : 1 < a) (Hone : a ^ (N - 1) mod N = 1).

(** A prime divisor [q] of [N] is 1 modulo a prime [r] when [a ^ (N - 1)] is 1 and
    [a ^ ((N - 1) / r)] is not 1 modulo any divisor of [N]. *)
Lemma prime_divisor r m q :
  Z.prime r -> Z.prime q -> (q | N) -> N - 1 = r * m -> Z.gcd (a ^ m - 1) N = 1 -> (r | q - 1).
Proof.
  intros Hr Hq HqN Hm Hgcd. pose proof (Z.prime_ge_2 _ Hq). pose proof (Z.prime_ge_2 _ Hr).
  destruct (Z.BoolSpec_divide r (q - 1)) as [|Hn]; [assumption|]. exfalso.
  assert (H1 : a ^ (N - 1) mod q = 1).
  { rewrite (mod_divisor _ N q), Hone by (assumption || lia). apply Z.mod_1_l; lia. }
  assert (Hna : a mod q <> 0).
  { intros E. rewrite <- Z.mod_pow_l, E, Z.pow_0_l, Zmod_0_l in H1 by lia. discriminate. }
  assert (H2 : a ^ (q - 1) mod q = 1).
  { now apply Z.fermat_nz. }
  pose proof (pow_one_gcd a q ltac:(lia) (q - 1) ltac:(lia) (N - 1) ltac:(lia) H1 H2) as Hg.
  assert (Hgm : (Z.gcd (N - 1) (q - 1) | m)).
  { apply (Z.gauss _ r).
    - rewrite <- Hm. apply Z.gcd_divide_l.
    - rewrite Z.gcd_comm. apply Z.coprime_prime_l; [assumption|]. intros D. apply Hn.
      eapply Z.divide_trans; [exact D|apply Z.gcd_divide_r]. }
  destruct Hgm as [c Ec]. pose proof (Z.gcd_nonneg (N - 1) (q - 1)).
  assert (Hpm : a ^ m mod q = 1).
  { rewrite Ec, Z.mul_comm. apply pow_one_mul; try assumption; nia. }
  assert (D : (q | Z.gcd (a ^ m - 1) N)).
  { apply Z.gcd_greatest; [|assumption]. apply Z.mod_divide; [lia|]. now rewrite <- Zminus_mod_idemp_l, Hpm, Zmod_0_l. }
  rewrite Hgcd in D. apply Z.divide_1_r_nonneg in D; lia.
Qed.

Context (k q1 q2 : Z) (H1 : Z.prime q1) (H2 : Z.prime q2) (Hne : q1 <> q2).
Context (Hk : 0 < k) (Hfact : N - 1 = q1 * q2 * k) (Hbig : N < (q1 * q2 + 1) * (q1 * q2 + 1)).
Context (G1 : Z.gcd (a ^ (q2 * k) - 1) N = 1) (G2 : Z.gcd (a ^ (q1 * k) - 1) N = 1).

(** Every divisor is 1 modulo [q1 * q2]. *)
Lemma divisor_one d : 0 <= d -> 1 < d -> (d | N) -> (q1 * q2 | d - 1).
Proof.
  intros Hd0. pattern d. apply Z_lt_induction; [clear d Hd0|lia]. intros d IH Hd HdN.
  destruct (Znumtheory.prime_dec d) as [Hp|Hp].
  - apply Znumtheory.prime_alt in Hp.
    assert (D1 : (q1 | d - 1)) by (apply (prime_divisor q1 (q2 * k) d); try assumption; nia).
    assert (D2 : (q2 | d - 1)) by (apply (prime_divisor q2 (q1 * k) d); try assumption; nia).
    destruct D1 as [c Ec]. rewrite Ec in *. rewrite Z.mul_comm. apply Z.mul_divide_mono_r.
    apply (Z.gauss _ q1); [now rewrite Z.mul_comm|]. apply Z.coprime_prime_l; [assumption|].
    intros D. apply Z.divide_prime_prime in D; congruence.
  - apply Znumtheory.not_prime_divide in Hp as (x & Hx & y & Ey); [|assumption].
    assert (Hy : 1 < y < d) by nia.
    destruct (IH x) as [u Eu]; [lia|lia|apply (Z.divide_trans _ d); [now exists y|assumption]|].
    destruct (IH y) as [v Ev]; [lia|lia|apply (Z.divide_trans _ d); [exists x; lia|assumption]|].
    exists (v * x + u). lia.
Qed.

Theorem pocklington : Z.prime N.
Proof.
  split; [assumption|]. intros d Hd [e Ee]. pose proof (Z.prime_ge_2 _ H1). pose proof (Z.prime_ge_2 _ H2).
  assert (He : 1 < e < N) by nia.
  destruct (divisor_one d) as [u Eu]; [lia|lia|now exists e|].
  destruct (divisor_one e) as [v Ev]; [lia|lia|exists d; lia|].
  assert (HF : 4 <= q1 * q2) by nia. clear G1 G2 Hfact. revert Hbig Eu Ev HF. generalize (q1 * q2) as f.
  intros f Hbig Eu Ev HF. assert (1 <= u) by nia. assert (1 <= v) by nia.
  assert (f + 1 <= d) by nia. assert (f + 1 <= e) by nia. nia.
Qed.
End Pocklington.

(** ** Certificates *)

(** With [c = a ^ k] the three powers of [a] are [c ^ q1], [c ^ q2] and [c ^ (q1 * q2)]. *)
Definition certificate (N a k q1 q2 : positive) : bool :=
  let n := Z.pos N in
  let c := pow_mod k (Z.pos a) n in
  let c1 := pow_mod q1 c n in
  (n - 1 =? Z.pos q1 * Z.pos q2 * Z.pos k) && (n <? (Z.pos q1 * Z.pos q2 + 1) * (Z.pos q1 * Z.pos q2 + 1)) &&
  (pow_mod q2 c1 n =? 1) && (Z.gcd (c1 - 1) n =? 1) && (Z.gcd (pow_mod q2 c n - 1) n =? 1) &&
  negb (Pos.eqb q1 q2) && (1 <? Z.pos a) && (1 <? n).

Lemma gcd_pow_mod x n : 1 < n -> Z.gcd (x mod n - 1) n = Z.gcd (x - 1) n.
Proof.
  intros Hn. rewrite <- (Z.gcd_mod_l (x mod n - 1)), <- (Z.gcd_mod_l (x - 1)). f_equal.
  now rewrite Zminus_mod_idemp_l.
Qed.

Lemma certificate_prime N a k q1 q2 :
  Z.prime (Z.pos q1) -> Z.prime (Z.pos q2) -> certificate N a k q1 q2 = true -> Z.prime (Z.pos N).
Proof.
  intros H1 H2. unfold certificate. rewrite !andb_true_iff, !Z.eqb_eq, !Z.ltb_lt, negb_true_iff, Pos.eqb_neq.
  rewrite !pow_mod_eq, !Z.mod_pow_l, <- !Z.pow_mul_r by lia.
  intros (((((((Hk & Hbig) & Hone) & G1) & G2) & Hne) & Ha) & Hn). rewrite !gcd_pow_mod in * by assumption.
  apply (pocklington (Z.pos N) (Z.pos a) Hn Ha) with (k := Z.pos k) (q1 := Z.pos q1) (q2 := Z.pos q2);
    try assumption; try lia; try congruence.
  - rewrite Z.mod_pow_l, <- Z.pow_mul_r in Hone by lia. rewrite Hk, <- Hone. do 2 f_equal. ring.
  - now rewrite Z.mul_comm.
  - now rewrite Z.mul_comm.
Qed.

(** Trial division by the numbers up to the root. *)
Definition small_prime (n : Z) : bool :=
  (1 <? n) && forallb (fun d => negb (n mod Z.of_nat d =? 0)) (seq 2 (Z.to_nat (Z.sqrt n) - 1)).

Lemma small_prime_prime n : small_prime n = true -> Z.prime n.
Proof.
  unfold small_prime. rewrite andb_true_iff, Z.ltb_lt, forallb_forall. intros [Hn H].
  assert (Hs : forall d, 1 < d -> d * d <= n -> ~ (d | n)).
  { intros d Hd Hdd [c Ec]. specialize (H (Z.to_nat d)). rewrite negb_true_iff, Z.eqb_neq, Z2Nat.id in H by lia.
    apply H; [|rewrite Ec; apply Z_mod_mult]. apply in_seq. pose proof (Z.sqrt_le_square n d ltac:(lia) ltac:(lia)). lia. }
  split; [assumption|]. intros d Hd [c Ec]. assert (1 < c) by nia.
  destruct (Z.le_gt_cases d c).
  - apply (Hs d); [lia|nia|now exists c].
  - apply (Hs c); [lia|nia|exists d; lia].
Qed.

(** ** The chain of primes *)

Ltac trial := apply small_prime_prime; vm_compute; reflexivity.

Lemma prime_55 : Z.prime 31757755568855353.
Proof. apply (certificate_prime _ 2 17752584 430751 4153); [trial|trial|vm_compute; reflexivity]. Qed.

Lemma prime_51 : Z.prime 1919519569386763.
Proof. apply (certificate_prime _ 2 1762782 8574133 127); [trial|trial|vm_compute; reflexivity]. Qed.

Lemma prime_116 : Z.prime 75445702479781427272750846543864801.
Proof.
  apply (certificate_prime _ 2 519165620632800 1919519569386763 75707); [apply prime_51|trial|vm_compute; reflexivity].
Qed.

Lemma prime_237 : Z.prime 74058212732561358302231226437062788676166966415465897661863160754340907.
Proof.
  apply (certificate_prime _ 2 30909282119527343802 75445702479781427272750846543864801 31757755568855353);
    [apply prime_116|apply prime_55|vm_compute; reflexivity].
Qed.

(** [2 ^ 255 - 19] is prime. *)
Lemma prime_25519 : Z.prime (2 ^ 255 - 19).
Proof.
  apply (certificate_prime _ 2 12 74058212732561358302231226437062788676166966415465897661863160754340907 65147);
    [apply prime_237|trial|vm_compute; reflexivity].
Qed.

(** Fermat's theorem for it. *)
Lemma fermat_25519 a : a mod (2 ^ 255 - 19) <> 0 -> a ^ (2 ^ 255 - 19 - 1) mod (2 ^ 255 - 19) = 1.
Proof. apply Z.fermat_nz, prime_25519. Qed.
