(* ===== verification/Curve25519.v ===== *)
(** * curve25519.h: arithmetic modulo 2^255 - 19 and the Montgomery ladder

    A number is five limbs of 51 bits in 64-bit words ([bits320]), or 32 bytes ([bits256]).
    The products are computed in 128-bit words.  The functions are translated with every
    wrap-around; the theorems show that none happens below [loose], that each operation is
    the one of the field, that [fcontract] gives the bytes of the least residue, that [crecip]
    is the inverse and that [cmult] runs the ladder of the curve.  [curve25519] is compiled
    from curve25519-donna-c64.c, whose functions have the same statements as those of
    curve25519.h. *)
From Stdlib Require Import ZArith Lia.
From stdpp Require Import base list numbers option.
From S2P Require Import Prelude Prime25519.
Open Scope Z_scope.

Abbreviation u128 := (uwrap 128).

(** ** Limbs *)

Record bits320 := mk320 { l0 : Z; l1 : Z; l2 : Z; l3 : Z; l4 : Z }.

(** curve25519.h:87-87 [fmul] *)
Definition MASK51 : Z := 0x7ffffffffffff.

(** curve25519.h:36-42 [fsum] *)
Definition fsum (a b : bits320) : bits320 :=
  mk320 (u64 (l0 a + l0 b)) (u64 (l1 a + l1 b)) (u64 (l2 a + l2 b)) (u64 (l3 a + l3 b)) (u64 (l4 a + l4 b)).

(** curve25519.h:44-52 [fdifference_backwards] The new value of [out], the difference of
    [input] and [out]. *)
Definition fdifference_backwards (out input : bits320) : bits320 :=
  let two54m152 := 2 ^ 54 - 152 in
  let two54m8 := 2 ^ 54 - 8 in
  let d c x y := u64 (u64 (y + c) - x) in
  mk320 (d two54m152 (l0 out) (l0 input)) (d two54m8 (l1 out) (l1 input)) (d two54m8 (l2 out) (l2 input))
    (d two54m8 (l3 out) (l3 input)) (d two54m8 (l4 out) (l4 input)).

(** curve25519.h:55-67 [fscalar_product] *)
Definition fscalar_product (input : bits320) (scalar : Z) : bits320 :=
  let low a := Z.land (u64 a) MASK51 in
  let next x a := u128 (u128 (x * scalar) + u64 (Z.shiftr a 51)) in
  let a0 := u128 (l0 input * scalar) in
  let a1 := next (l1 input) a0 in
  let a2 := next (l2 input) a1 in
  let a3 := next (l3 input) a2 in
  let a4 := next (l4 input) a3 in
  mk320 (u64 (low a0 + u128 (Z.shiftr a4 51 * 19))) (low a1) (low a2) (low a3) (low a4).

(** curve25519.h:86-95 [fmul] The carries that bring the five sums back to limbs. *)
Definition carry_limbs (t0 t1 t2 t3 t4 : Z) : bits320 :=
  let low t := Z.land (u64 t) MASK51 in
  let high t := u64 (Z.shiftr t 51) in
  let t1 := u128 (t1 + high t0) in
  let t2 := u128 (t2 + high t1) in
  let t3 := u128 (t3 + high t2) in
  let t4 := u128 (t4 + high t3) in
  let r0 := u64 (low t0 + u64 (high t4 * 19)) in
  let c := Z.shiftr r0 51 in
  let r0 := Z.land r0 MASK51 in
  let r1 := u64 (low t1 + c) in
  let c := Z.shiftr r1 51 in
  let r1 := Z.land r1 MASK51 in
  mk320 r0 r1 (u64 (low t2 + c)) (low t3) (low t4).

(** curve25519.h:77-77 [fmul] The product of two 64-bit words. *)
Definition mul128 (x y : Z) : Z := u128 (x * y).
Definition sum128 (l : list Z) : Z := foldl (fun s x => u128 (s + x)) 0 l.

(** curve25519.h:72-97 [fmul] *)
Definition fmul (in2 input : bits320) : bits320 :=
  let '(mk320 r0 r1 r2 r3 r4) := input in
  let '(mk320 s0 s1 s2 s3 s4) := in2 in
  let t0 := mul128 r0 s0 in
  let t1 := sum128 [mul128 r0 s1; mul128 r1 s0] in
  let t2 := sum128 [mul128 r0 s2; mul128 r2 s0; mul128 r1 s1] in
  let t3 := sum128 [mul128 r0 s3; mul128 r3 s0; mul128 r1 s2; mul128 r2 s1] in
  let t4 := sum128 [mul128 r0 s4; mul128 r4 s0; mul128 r3 s1; mul128 r1 s3; mul128 r2 s2] in
  let r4 := u64 (r4 * 19) in let r1 := u64 (r1 * 19) in
  let r2 := u64 (r2 * 19) in let r3 := u64 (r3 * 19) in
  let t0 := u128 (t0 + sum128 [mul128 r4 s1; mul128 r1 s4; mul128 r2 s3; mul128 r3 s2]) in
  let t1 := u128 (t1 + sum128 [mul128 r4 s2; mul128 r2 s4; mul128 r3 s3]) in
  let t2 := u128 (t2 + sum128 [mul128 r4 s3; mul128 r3 s4]) in
  let t3 := u128 (t3 + mul128 r4 s4) in
  carry_limbs t0 t1 t2 t3 t4.

(** curve25519.h:105-123 [fsquare_times] One turn of the loop. *)
Definition fsquare (input : bits320) : bits320 :=
  let '(mk320 r0 r1 r2 r3 r4) := input in
  let d0 := u64 (r0 * 2) in
  let d1 := u64 (r1 * 2) in
  let d2 := u64 (u64 (r2 * 2) * 19) in
  let d419 := u64 (r4 * 19) in
  let d4 := u64 (d419 * 2) in
  let t0 := sum128 [mul128 r0 r0; mul128 d4 r1; mul128 d2 r3] in
  let t1 := sum128 [mul128 d0 r1; mul128 d4 r2; mul128 r3 (u64 (r3 * 19))] in
  let t2 := sum128 [mul128 d0 r2; mul128 r1 r1; mul128 d4 r3] in
  let t3 := sum128 [mul128 d0 r3; mul128 d1 r2; mul128 r4 d419] in
  let t4 := sum128 [mul128 d0 r4; mul128 d1 r3; mul128 r2 r2] in
  carry_limbs t0 t1 t2 t3 t4.

(** curve25519.h:99-127 [fsquare_times] The loop [do ... while ( --count )]: one turn, and
    then as many as [count - 1] says in 64 bits. *)
Definition fsquare_times (input : bits320) (count : Z) : bits320 :=
  Nat.iter (S (Z.to_nat (u64 (count - 1)))) fsquare input.

(** ** Bytes *)

(** curve25519.h:129-134 [store_limb] *)
Definition store_limb (input : Z) : list Z :=
  fst (for_loop 8 0 (fun _ '(out, input) => (out ++ [Z.land input 0xff], Z.shiftr input 8)) ([], u64 input)).

(** curve25519.h:136-147 [load_limb] *)
Definition load_limb (input : list Z) : Z :=
  foldl (fun x i => Z.lor x (Z.shiftl (znth input i) (8 * i))) (znth input 0) [1; 2; 3; 4; 5; 6; 7].

(** curve25519.h:150-159 [fexpand] *)
Definition fexpand (basepoint : list Z) : bits320 :=
  let limb o s := Z.land (Z.shiftr (load_limb (drop o basepoint)) s) MASK51 in
  mk320 (limb 0%nat 0) (limb 6%nat 3) (limb 12%nat 6) (limb 19%nat 1) (limb 24%nat 12).

(** curve25519.h:161-168 [fcontract_iter] *)
Definition fcontract_iter (t : bits320) (flag : Z) : bits320 :=
  let '(mk320 t0 t1 t2 t3 t4) := t in
  let t1 := u128 (t1 + Z.shiftr t0 51) in let t0 := Z.land t0 MASK51 in
  let t2 := u128 (t2 + Z.shiftr t1 51) in let t1 := Z.land t1 MASK51 in
  let t3 := u128 (t3 + Z.shiftr t2 51) in let t2 := Z.land t2 MASK51 in
  let t4 := u128 (t4 + Z.shiftr t3 51) in let t3 := Z.land t3 MASK51 in
  let t0 := if negb (flag =? 0) then u128 (t0 + u128 (19 * Z.shiftr t4 51)) else t0 in
  let t4 := Z.land t4 MASK51 in
  mk320 t0 t1 t2 t3 t4.

(** curve25519.h:181-183 [fcontract] Limbs added to limbs of 128 bits. *)
Definition add_limbs (t : bits320) (a0 a1 a2 a3 a4 : Z) : bits320 :=
  mk320 (u128 (l0 t + a0)) (u128 (l1 t + a1)) (u128 (l2 t + a2)) (u128 (l3 t + a3)) (u128 (l4 t + a4)).

(** curve25519.h:179-185 [fcontract] The multiple of [p] that is left is subtracted: add 19,
    add [2 ^ 255 - 19], drop [2 ^ 255]. *)
Definition subtract_p (t : bits320) : bits320 :=
  let t := fcontract_iter (add_limbs t 19 0 0 0 0) 1 in
  let a := 0x8000000000000 - 1 in
  let t := add_limbs t (0x8000000000000 - 19) a a a a in
  fcontract_iter t 0.

(** curve25519.h:171-191 [fcontract] *)
Definition fcontract (input : bits320) : list Z :=
  let t := fcontract_iter (fcontract_iter input 1) 1 in
  let '(mk320 t0 t1 t2 t3 t4) := subtract_p t in
  let shl x n := u128 (Z.shiftl x n) in
  store_limb (Z.lor t0 (shl t1 51)) ++
  store_limb (Z.lor (Z.shiftr t1 13) (shl t2 38)) ++
  store_limb (Z.lor (Z.shiftr t2 26) (shl t3 25)) ++
  store_limb (Z.lor (Z.shiftr t3 39) (shl t4 12)).

(** ** The curve *)

(** curve25519.h:197-219 [fmonty] The coordinates of [2Q] and [Q + Q'] from those of [Q],
    [Q'] and [Q - Q']. *)
Definition fmonty (x z xprime zprime qmqp : bits320) : bits320 * bits320 * bits320 * bits320 :=
  let origx := x in
  let x := fsum x z in
  let z := fdifference_backwards z origx in
  let origxprime := xprime in
  let xprime := fsum xprime zprime in
  let zprime := fdifference_backwards zprime origxprime in
  let xxprime := fmul xprime z in
  let zzprime := fmul x zprime in
  let origxprime := xxprime in
  let xxprime := fsum xxprime zzprime in
  let zzprime := fdifference_backwards zzprime origxprime in
  let x3 := fsquare_times xxprime 1 in
  let z3 := fmul (fsquare_times zzprime 1) qmqp in
  let xx := fsquare_times x 1 in
  let zz := fsquare_times z 1 in
  let x2 := fmul xx zz in
  let zz := fdifference_backwards zz xx in
  let zzz := fscalar_product zz 121665 in
  let z2 := fmul zz (fsum zzz xx) in
  (x2, z2, x3, z3).

(** curve25519.h:225-233 [swap_conditional] *)
Definition swap_conditional (a b : bits320) (iswap : Z) : bits320 * bits320 :=
  let swap := u64 (- iswap) in
  let x f := Z.land swap (Z.lxor (f a) (f b)) in
  (mk320 (Z.lxor (l0 a) (x l0)) (Z.lxor (l1 a) (x l1)) (Z.lxor (l2 a) (x l2)) (Z.lxor (l3 a) (x l3)) (Z.lxor (l4 a) (x l4)),
   mk320 (Z.lxor (l0 b) (x l0)) (Z.lxor (l1 b) (x l1)) (Z.lxor (l2 b) (x l2)) (Z.lxor (l3 b) (x l3)) (Z.lxor (l4 b) (x l4))).

(** curve25519.h:251-261 [cmult] One bit of the secret; the pointers to the old and the new
    coordinates are exchanged at the end, and [fmonty] overwrites the old ones. *)
Definition cmult_bit (q : bits320) (bit : Z) (s : bits320 * bits320 * bits320 * bits320) :=
  let '(nqx, nqz, nqpqx, nqpqz) := s in
  let '(nqx, nqpqx) := swap_conditional nqx nqpqx bit in
  let '(nqz, nqpqz) := swap_conditional nqz nqpqz bit in
  let '(nqx2, nqz2, nqpqx2, nqpqz2) := fmonty nqx nqz nqpqx nqpqz q in
  let '(nqx2, nqpqx2) := swap_conditional nqx2 nqpqx2 bit in
  let '(nqz2, nqpqz2) := swap_conditional nqz2 nqpqz2 bit in
  (nqx2, nqz2, nqpqx2, nqpqz2).

(** curve25519.h:239-264 [cmult] The coordinates [x] and [z] of the multiple. *)
Definition cmult (secret : list Z) (q : bits320) : bits320 * bits320 :=
  let zero := mk320 0 0 0 0 0 in
  let one := mk320 1 0 0 0 0 in
  let '(nqx, nqz, _, _) :=
    for_loop 32 0 (fun i s =>
      let byte := znth secret (31 - i) in
      fst (for_loop 8 0 (fun _ '(s, byte) =>
        let bit := Z.shiftr byte 7 in
        (cmult_bit q bit s, u8 (Z.shiftl byte 1))) (s, byte))) (one, zero, q, one) in
  (nqx, nqz).

(** curve25519.h:267-292 [crecip] *)
Definition crecip (z : bits320) : bits320 :=
  let a := fsquare_times z 1 in
  let t0 := fsquare_times a 2 in
  let b := fmul t0 z in
  let a := fmul b a in
  let t0 := fsquare_times a 1 in
  let b := fmul t0 b in
  let t0 := fsquare_times b 5 in
  let b := fmul t0 b in
  let t0 := fsquare_times b 10 in
  let c := fmul t0 b in
  let t0 := fsquare_times c 20 in
  let t0 := fmul t0 c in
  let t0 := fsquare_times t0 10 in
  let b := fmul t0 b in
  let t0 := fsquare_times b 50 in
  let c := fmul t0 b in
  let t0 := fsquare_times c 100 in
  let t0 := fmul t0 c in
  let t0 := fsquare_times t0 50 in
  let t0 := fmul t0 b in
  let t0 := fsquare_times t0 5 in
  fmul t0 a.

(** curve25519.h:308-308 [rand256] The bits that make a private key: a multiple of 8 with bit 254 set. *)
Definition clamp (e : list Z) : list Z :=
  let e := zput e 0 (Z.land (znth e 0) 248) in
  let e := zput e 31 (Z.land (znth e 31) 127) in
  zput e 31 (Z.lor (znth e 31) 64).

(** curve25519.h:312-318 [curve25519_basepoint9] *)
Definition curve25519_basepoint9 : list Z := zput (replicate 32 0) 0 9.

(** curve25519-donna-c64.c:431-448 [curve25519_donna] *)
Definition curve25519_donna (secret basepoint : list Z) : list Z :=
  let e := clamp secret in
  let bp := fexpand basepoint in
  let '(x, z) := cmult e bp in
  let zmone := crecip z in
  fcontract (fmul x zmone).

(** ** Limbs and the number they stand for *)

(** The prime of the field. *)
Definition p : Z := 2 ^ 255 - 19.

Definition fe (a : bits320) : Z := l0 a + 2 ^ 51 * l1 a + 2 ^ 102 * l2 a + 2 ^ 153 * l3 a + 2 ^ 204 * l4 a.

Definition below (B : Z) (a : bits320) : Prop :=
  0 <= l0 a <= B /\ 0 <= l1 a <= B /\ 0 <= l2 a <= B /\ 0 <= l3 a <= B /\ 0 <= l4 a <= B.

(** What a product leaves, and what it takes: the largest limbs are the differences of two
    products. *)
Definition tight : bits320 -> Prop := below (2 ^ 51 + 2 ^ 14).
Definition loose : bits320 -> Prop := below (2 ^ 54 + 2 ^ 51 + 2 ^ 14).

Lemma below_mono A B a : A <= B -> below A a -> below B a.
Proof. unfold below. lia. Qed.

Lemma tight_loose a : tight a -> loose a.
Proof. apply below_mono. by vm_compute. Qed.

(** Powers of two as numerals. *)
Ltac pows :=
  change (2 ^ 51) with 2251799813685248 in *; change (2 ^ 54) with 18014398509481984 in *;
  change (2 ^ 64) with 18446744073709551616 in *; change (2 ^ 14) with 16384 in *;
  change (2 ^ 13) with 8192 in *.

Ltac num := repeat match goal with |- context [2 ^ ?n] => let v := eval vm_compute in (2 ^ n) in change (2 ^ n) with v end.
Ltac num_in H := repeat match type of H with context [2 ^ ?n] => let v := eval vm_compute in (2 ^ n) in change (2 ^ n) with v in H end.
Ltac nums := num; repeat match goal with H : context [2 ^ ?n] |- _ => num_in H end.

Lemma land_mask51 x : Z.land x MASK51 = x mod 2 ^ 51.
Proof. change MASK51 with (Z.ones 51). by rewrite Z.land_ones. Qed.

Lemma low_limb x : Z.land (u64 x) MASK51 = x mod 2 ^ 51.
Proof.
  rewrite land_mask51. unfold uwrap. apply Z.bits_inj'. intros i Hi.
  destruct (Z.lt_ge_cases i 51).
  - by rewrite !Z.mod_pow2_bits_low by lia.
  - by rewrite !Z.mod_pow2_bits_high by lia.
Qed.

Lemma high_limb x : Z.shiftr x 51 = x / 2 ^ 51.
Proof. by rewrite Z.shiftr_div_pow2. Qed.

(** Quotient and remainder as variables. *)
Lemma split51 x : exists q r, x / 2 ^ 51 = q /\ x mod 2 ^ 51 = r /\ x = 2 ^ 51 * q + r /\ 0 <= r < 2 ^ 51.
Proof.
  exists (x / 2 ^ 51), (x mod 2 ^ 51). split_and!; [done|done|by apply Z.div_mod|by apply Z.mod_pos_bound..].
Qed.

Ltac split_at x :=
  let q := fresh "q" in let r := fresh "r" in let E := fresh "E" in
  destruct (split51 x) as (q & r & -> & -> & E & ?).

(** The carries keep the number, less a multiple of [p]. *)
Lemma carry_limbs_spec t0 t1 t2 t3 t4 :
  0 <= t0 < 2 ^ 115 - 2 ^ 65 -> 0 <= t1 < 2 ^ 115 - 2 ^ 65 -> 0 <= t2 < 2 ^ 115 - 2 ^ 65 ->
  0 <= t3 < 2 ^ 115 - 2 ^ 65 -> 0 <= t4 < 26 * 2 ^ 106 ->
  tight (carry_limbs t0 t1 t2 t3 t4) /\
  exists k, fe (carry_limbs t0 t1 t2 t3 t4) + k * p = t0 + 2 ^ 51 * t1 + 2 ^ 102 * t2 + 2 ^ 153 * t3 + 2 ^ 204 * t4.
Proof.
  intros H0 H1 H2 H3 H4. unfold carry_limbs. cbv zeta. rewrite !low_limb, !high_limb.
  destruct (split51 t0) as (q0 & r0 & -> & -> & E0 & R0).
  rewrite (uwrap_small 64 q0) by (nums; lia). rewrite (uwrap_small 128 (t1 + q0)) by (nums; lia).
  destruct (split51 (t1 + q0)) as (q1 & r1 & -> & -> & E1 & R1).
  rewrite (uwrap_small 64 q1) by (nums; lia). rewrite (uwrap_small 128 (t2 + q1)) by (nums; lia).
  destruct (split51 (t2 + q1)) as (q2 & r2 & -> & -> & E2 & R2).
  rewrite (uwrap_small 64 q2) by (nums; lia). rewrite (uwrap_small 128 (t3 + q2)) by (nums; lia).
  destruct (split51 (t3 + q2)) as (q3 & r3 & -> & -> & E3 & R3).
  rewrite (uwrap_small 64 q3) by (nums; lia). rewrite (uwrap_small 128 (t4 + q3)) by (nums; lia).
  destruct (split51 (t4 + q3)) as (q4 & r4 & -> & -> & E4 & R4).
  rewrite (uwrap_small 64 q4) by (nums; lia). rewrite (uwrap_small 64 (q4 * 19)) by (nums; lia).
  rewrite (uwrap_small 64 (r0 + q4 * 19)) by (nums; lia).
  destruct (split51 (r0 + q4 * 19)) as (q5 & r5 & -> & -> & E5 & R5).
  rewrite (uwrap_small 64 (r1 + q5)) by (nums; lia).
  destruct (split51 (r1 + q5)) as (q6 & r6 & -> & -> & E6 & R6).
  rewrite (uwrap_small 64 (r2 + q6)) by (nums; lia).
  split.
  - unfold tight, below. cbn [l0 l1 l2 l3 l4]. nums. lia.
  - exists q4. unfold fe, p. cbn [l0 l1 l2 l3 l4]. nums. lia.
Qed.

(** ** Products *)

Lemma mul128_bound x y X Y : 0 <= x <= X -> 0 <= y <= Y -> 0 <= x * y <= X * Y.
Proof. nia. Qed.

Lemma mul128_eq x y X Y : X * Y < 2 ^ 128 -> 0 <= x <= X -> 0 <= y <= Y -> mul128 x y = x * y.
Proof. intros H Hx Hy. apply uwrap_small. pose proof (mul128_bound x y X Y Hx Hy). lia. Qed.

Lemma sum128_eq l : Forall (fun x => 0 <= x) l -> foldr Z.add 0 l < 2 ^ 128 -> sum128 l = foldr Z.add 0 l.
Proof.
  intros Hl. unfold sum128. assert (H : forall s, 0 <= s -> s + foldr Z.add 0 l < 2 ^ 128 ->
    foldl (fun s x => u128 (s + x)) s l = s + foldr Z.add 0 l).
  { induction Hl as [|x l Hx Hl IH]; intros s Hs; cbn [foldl foldr]; [lia|]. intros Hlt.
    assert (0 <= foldr Z.add 0 l) by (clear -Hl; induction Hl; cbn [foldr]; lia).
    rewrite uwrap_small by lia. rewrite IH by lia. lia. }
  intros Hlt. rewrite H by lia. lia.
Qed.

(** The bounds of all products of limbs. *)
Definition LOOSE : Z := 2 ^ 54 + 2 ^ 51 + 2 ^ 14.

Ltac product_bounds a b :=
  match a with
  | (?x, ?a') => match b with
    | (?y, ?b') => pose proof (mul128_bound x y LOOSE LOOSE ltac:(assumption) ltac:(assumption));
        product_bounds (x, tt) b'; product_bounds a' b
    | tt => idtac
    end
  | tt => idtac
  end.

Ltac mul_step :=
  match goal with
  | |- context [mul128 ?x ?y] => rewrite (mul128_eq x y (38 * LOOSE) (19 * LOOSE)) by (num; lia)
  end.

Ltac sum_step :=
  match goal with
  | |- context [sum128 ?l] =>
      rewrite (sum128_eq l) by (first [repeat apply list.Forall_cons_2; try apply list.Forall_nil_2; lia | cbn [foldr]; num; lia]); cbn [foldr]
  end.

Ltac abstract_products :=
  repeat match goal with
  | H : 0 <= ?x * ?y <= LOOSE * LOOSE |- _ => revert H; generalize (x * y); intros ? H
  end.

(** The product of two numbers, the terms beyond [2 ^ 255] brought back. *)
Lemma fe_mul s0 s1 s2 s3 s4 r0 r1 r2 r3 r4 :
  fe (mk320 s0 s1 s2 s3 s4) * fe (mk320 r0 r1 r2 r3 r4) =
  (r0 * s0 + 19 * (r4 * s1 + r1 * s4 + r2 * s3 + r3 * s2))
  + 2 ^ 51 * (r0 * s1 + r1 * s0 + 19 * (r4 * s2 + r2 * s4 + r3 * s3))
  + 2 ^ 102 * (r0 * s2 + r2 * s0 + r1 * s1 + 19 * (r4 * s3 + r3 * s4))
  + 2 ^ 153 * (r0 * s3 + r3 * s0 + r1 * s2 + r2 * s1 + 19 * (r4 * s4))
  + 2 ^ 204 * (r0 * s4 + r4 * s0 + r3 * s1 + r1 * s3 + r2 * s2)
  + p * (r1 * s4 + r2 * s3 + r3 * s2 + r4 * s1 + 2 ^ 51 * (r2 * s4 + r3 * s3 + r4 * s2)
         + 2 ^ 102 * (r3 * s4 + r4 * s3) + 2 ^ 153 * (r4 * s4)).
Proof. unfold fe, p. cbn [l0 l1 l2 l3 l4]. num. ring. Qed.

Lemma fmul_spec a b :
  loose a -> loose b -> tight (fmul a b) /\ exists k, fe (fmul a b) + k * p = fe a * fe b.
Proof.
  destruct a as [s0 s1 s2 s3 s4], b as [r0 r1 r2 r3 r4]. rewrite fe_mul.
  unfold loose, below. cbn [l0 l1 l2 l3 l4]. fold LOOSE.
  intros (S0 & S1 & S2 & S3 & S4) (R0 & R1 & R2 & R3 & R4).
  unfold fmul. cbv zeta. assert (HL : LOOSE = 20266198323183616) by by vm_compute.
  rewrite !(uwrap_small 64) by (num; lia). repeat mul_step.
  product_bounds (r0, (r1, (r2, (r3, (r4, tt))))) (s0, (s1, (s2, (s3, (s4, tt))))).
  clear HL S0 S1 S2 S3 S4 R0 R1 R2 R3 R4.
  rewrite ?(Z.mul_comm r1 19), ?(Z.mul_comm r2 19), ?(Z.mul_comm r3 19), ?(Z.mul_comm r4 19), <- !Z.mul_assoc.
  abstract_products. assert (EL : LOOSE * LOOSE < 41 * 2 ^ 103) by by vm_compute. num_in EL.
  repeat sum_step.
  rewrite !(uwrap_small 128) by (num; lia).
  match goal with |- tight (carry_limbs ?t0 ?t1 ?t2 ?t3 ?t4) /\ _ =>
    destruct (carry_limbs_spec t0 t1 t2 t3 t4) as (Ht & k & Ek); [num; lia..|] end.
  split; [done|]. eexists (k + _). rewrite Z.mul_add_distr_r, Z.add_assoc, Ek, (Z.mul_comm _ p).
  apply f_equal2; [|reflexivity]. num. ring.
Qed.

(** The words of one squaring are the products that [fmul] would sum, two at a time. *)
Lemma fsquare_spec a : loose a -> tight (fsquare a) /\ exists k, fe (fsquare a) + k * p = fe a * fe a.
Proof.
  destruct a as [r0 r1 r2 r3 r4]. rewrite fe_mul. unfold loose, below. cbn [l0 l1 l2 l3 l4]. fold LOOSE.
  intros (R0 & R1 & R2 & R3 & R4).
  unfold fsquare. cbv zeta. assert (HL : LOOSE = 20266198323183616) by by vm_compute.
  rewrite (uwrap_small 64 (r2 * 2)), (uwrap_small 64 (r4 * 19)) by (num; lia).
  rewrite !(uwrap_small 64) by (num; lia). repeat mul_step.
  product_bounds (r0, (r1, (r2, (r3, (r4, tt))))) (r0, (r1, (r2, (r3, (r4, tt))))).
  replace (r4 * 19 * 2 * r1) with (38 * (r1 * r4)) by ring. replace (r2 * 2 * 19 * r3) with (38 * (r2 * r3)) by ring.
  replace (r0 * 2 * r1) with (2 * (r0 * r1)) by ring. replace (r4 * 19 * 2 * r2) with (38 * (r2 * r4)) by ring.
  replace (r3 * (r3 * 19)) with (19 * (r3 * r3)) by ring. replace (r0 * 2 * r2) with (2 * (r0 * r2)) by ring.
  replace (r4 * 19 * 2 * r3) with (38 * (r3 * r4)) by ring. replace (r0 * 2 * r3) with (2 * (r0 * r3)) by ring.
  replace (r1 * 2 * r2) with (2 * (r1 * r2)) by ring. replace (r4 * (r4 * 19)) with (19 * (r4 * r4)) by ring.
  replace (r0 * 2 * r4) with (2 * (r0 * r4)) by ring. replace (r1 * 2 * r3) with (2 * (r1 * r3)) by ring.
  rewrite ?(Z.mul_comm r4 r3), ?(Z.mul_comm r4 r2), ?(Z.mul_comm r4 r1), ?(Z.mul_comm r4 r0),
    ?(Z.mul_comm r3 r2), ?(Z.mul_comm r3 r1), ?(Z.mul_comm r3 r0), ?(Z.mul_comm r2 r1), ?(Z.mul_comm r2 r0), ?(Z.mul_comm r1 r0).
  clear HL R0 R1 R2 R3 R4.
  assert (EL : LOOSE * LOOSE < 41 * 2 ^ 103) by by vm_compute. num_in EL.
  abstract_products. repeat sum_step.
  match goal with |- tight (carry_limbs ?t0 ?t1 ?t2 ?t3 ?t4) /\ _ =>
    destruct (carry_limbs_spec t0 t1 t2 t3 t4) as (Ht & k & Ek); [num; lia..|] end.
  split; [done|]. eexists (k + _). rewrite Z.mul_add_distr_r, Z.add_assoc, Ek, (Z.mul_comm _ p).
  apply f_equal2; [|reflexivity]. num. ring.
Qed.

(** ** The field *)

(** Equal modulo the prime. *)
Record eqp (x y : Z) : Prop := Eqp { eqp_eq : x mod p = y mod p }.
Infix "≡p" := eqp (at level 70).

#[export] Instance eqp_equiv : Equivalence eqp.
Proof.
  split.
  - by intros x.
  - intros x y [H]. by constructor.
  - intros x y z [H1] [H2]. constructor. congruence.
Qed.

#[export] Instance add_eqp : Proper (eqp ==> eqp ==> eqp) Z.add.
Proof. intros x x' [Hx] y y' [Hy]. constructor. by rewrite Zplus_mod, Hx, Hy, <- Zplus_mod. Qed.

#[export] Instance sub_eqp : Proper (eqp ==> eqp ==> eqp) Z.sub.
Proof. intros x x' [Hx] y y' [Hy]. constructor. by rewrite Zminus_mod, Hx, Hy, <- Zminus_mod. Qed.

#[export] Instance mul_eqp : Proper (eqp ==> eqp ==> eqp) Z.mul.
Proof. intros x x' [Hx] y y' [Hy]. constructor. by rewrite Zmult_mod, Hx, Hy, <- Zmult_mod. Qed.

#[export] Instance pow_eqp : Proper (eqp ==> eq ==> eqp) Z.pow.
Proof.
  intros x y H n ? <-. destruct (Z.lt_ge_cases n 0) as [Hn|Hn]; [by rewrite !Z.pow_neg_r|].
  revert n Hn. apply natlike_ind; [done|]. intros n Hn IH. rewrite !Z.pow_succ_r by lia. by apply mul_eqp.
Qed.

Lemma eqp_plus k x y : x + k * p = y -> x ≡p y.
Proof. intros <-. constructor. by rewrite Z.mod_add. Qed.

Lemma eqp_mod x : x mod p ≡p x.
Proof. constructor. by rewrite Zmod_mod. Qed.

Lemma fmul_ok a b : loose a -> loose b -> tight (fmul a b) /\ fe (fmul a b) ≡p fe a * fe b.
Proof. intros Ha Hb. destruct (fmul_spec a b Ha Hb) as (H & k & E). split; [done|]. by apply (eqp_plus k). Qed.

Lemma fsquare_ok a : loose a -> tight (fsquare a) /\ fe (fsquare a) ≡p fe a ^ 2.
Proof.
  intros Ha. destruct (fsquare_spec a Ha) as (H & k & E). split; [done|]. rewrite Z.pow_2_r. by apply (eqp_plus k).
Qed.

Lemma fsquare_times_ok a count :
  loose a -> 0 < count < 2 ^ 64 ->
  tight (fsquare_times a count) /\ fe (fsquare_times a count) ≡p fe a ^ (2 ^ count).
Proof.
  intros Ha Hc. unfold fsquare_times. rewrite uwrap_small by lia.
  replace count with (Z.of_nat (S (Z.to_nat (count - 1)))) at 3 by lia.
  generalize (Z.to_nat (count - 1)) as n. induction n as [|n IH].
  - by apply fsquare_ok.
  - change (Nat.iter (S (S n)) fsquare a) with (fsquare (Nat.iter (S n) fsquare a)). destruct IH as [IHt IHe].
    destruct (fsquare_ok _ (tight_loose _ IHt)) as [Ht He]. split; [done|]. rewrite He.
    rewrite IHe, <- Z.pow_mul_r by lia.
    replace (Z.of_nat (S (S n))) with (Z.of_nat (S n) + 1) by lia. by rewrite Z.pow_add_r by lia.
Qed.

Lemma fsum_wide a b : below (2 ^ 51 + 2 ^ 30) a -> tight b -> loose (fsum a b) /\ fe (fsum a b) = fe a + fe b.
Proof.
  destruct a, b. unfold tight, loose, below, fsum. cbn [l0 l1 l2 l3 l4]. intros Ha Hb.
  rewrite !(uwrap_small 64) by (nums; lia). split; [nums; lia|]. unfold fe. cbn [l0 l1 l2 l3 l4]. ring.
Qed.

Lemma fsum_ok a b : tight a -> tight b -> loose (fsum a b) /\ fe (fsum a b) = fe a + fe b.
Proof. intros Ha Hb. apply fsum_wide; [|done]. revert Ha. apply below_mono. by vm_compute. Qed.

Lemma fdifference_ok out a :
  tight out -> tight a -> loose (fdifference_backwards out a) /\ fe (fdifference_backwards out a) ≡p fe a - fe out.
Proof.
  destruct out, a. unfold tight, loose, below, fdifference_backwards. cbn [l0 l1 l2 l3 l4]. intros Ha Hb.
  rewrite !(uwrap_small 64 (_ + _)) by (nums; lia). rewrite !(uwrap_small 64) by (nums; lia).
  split; [nums; lia|]. apply (eqp_plus (-8)). unfold fe, p. cbn [l0 l1 l2 l3 l4]. num. ring.
Qed.

Lemma fscalar_product_ok a scalar :
  loose a -> 0 <= scalar < 2 ^ 20 ->
  below (2 ^ 51 + 2 ^ 30) (fscalar_product a scalar) /\ fe (fscalar_product a scalar) ≡p fe a * scalar.
Proof.
  destruct a as [a0 a1 a2 a3 a4]. unfold loose, below, fscalar_product. cbv zeta. cbn [l0 l1 l2 l3 l4]. fold LOOSE.
  intros (A0 & A1 & A2 & A3 & A4) Hs. rewrite !low_limb, !high_limb.
  assert (E : fe (mk320 a0 a1 a2 a3 a4) * scalar = a0 * scalar + 2 ^ 51 * (a1 * scalar) + 2 ^ 102 * (a2 * scalar)
    + 2 ^ 153 * (a3 * scalar) + 2 ^ 204 * (a4 * scalar)) by (unfold fe; cbn [l0 l1 l2 l3 l4]; ring).
  rewrite E. clear E.
  assert (B : forall x, 0 <= x <= LOOSE -> 0 <= x * scalar <= LOOSE * 2 ^ 20) by nia.
  apply B in A0, A1, A2, A3, A4. clear B Hs. revert A0 A1 A2 A3 A4.
  generalize (a0 * scalar) as b0, (a1 * scalar) as b1, (a2 * scalar) as b2, (a3 * scalar) as b3, (a4 * scalar) as b4.
  intros b0 b1 b2 b3 b4 B0 B1 B2 B3 B4. replace (LOOSE * 2 ^ 20) with 21250649172930583330816 in * by by vm_compute.
  rewrite (uwrap_small 128 b0), (uwrap_small 128 b1), (uwrap_small 128 b2), (uwrap_small 128 b3), (uwrap_small 128 b4) by (num; lia).
  destruct (split51 b0) as (q0 & r0 & -> & -> & E0 & R0).
  rewrite (uwrap_small 64 q0), (uwrap_small 128 (b1 + q0)) by (nums; lia).
  destruct (split51 (b1 + q0)) as (q1 & r1 & -> & -> & E1 & R1).
  rewrite (uwrap_small 64 q1), (uwrap_small 128 (b2 + q1)) by (nums; lia).
  destruct (split51 (b2 + q1)) as (q2 & r2 & -> & -> & E2 & R2).
  rewrite (uwrap_small 64 q2), (uwrap_small 128 (b3 + q2)) by (nums; lia).
  destruct (split51 (b3 + q2)) as (q3 & r3 & -> & -> & E3 & R3).
  rewrite (uwrap_small 64 q3), (uwrap_small 128 (b4 + q3)) by (nums; lia).
  destruct (split51 (b4 + q3)) as (q4 & r4 & -> & -> & E4 & R4).
  rewrite (uwrap_small 128 (q4 * 19)), (uwrap_small 64 (r0 + q4 * 19)) by (nums; lia).
  cbn [l0 l1 l2 l3 l4]. split; [nums; lia|]. apply (eqp_plus q4). unfold fe, p. cbn [l0 l1 l2 l3 l4]. nums. lia.
Qed.

(** ** Inversion *)

(** [a] is a power of the number [z]. *)
Definition power (z : bits320) (n : Z) (a : bits320) : Prop := tight a /\ fe a ≡p fe z ^ n.

Lemma power_mul z m n a b : 0 <= m -> 0 <= n -> power z m a -> power z n b -> power z (m + n) (fmul a b).
Proof.
  intros Hm Hn [Ta Ea] [Tb Eb]. destruct (fmul_ok a b (tight_loose _ Ta) (tight_loose _ Tb)) as [H E].
  split; [done|]. by rewrite E, Ea, Eb, Z.pow_add_r.
Qed.

Lemma power_square z m a c : 0 <= m -> 0 < c < 2 ^ 64 -> power z m a -> power z (m * 2 ^ c) (fsquare_times a c).
Proof.
  intros Hm Hc [Ta Ea]. destruct (fsquare_times_ok a c (tight_loose _ Ta) Hc) as [H E].
  split; [done|]. by rewrite E, Ea, Z.pow_mul_r by lia.
Qed.

(** [c] squarings and a product: the next exponent of the chain. *)
Definition exponent_ok (m c n k : Z) : bool :=
  (0 <=? m) && (0 <=? n) && (0 <? c) && (c <? 2 ^ 64) && (m * 2 ^ c + n =? k).

Lemma power_step z m c n k a b :
  exponent_ok m c n k = true -> power z m a -> power z n b -> power z k (fmul (fsquare_times a c) b).
Proof.
  unfold exponent_ok. intros H Ha Hb. rewrite !andb_true_iff in H. destruct_and?. zbool. subst k.
  apply power_mul; [apply Z.mul_nonneg_nonneg; lia|done| |done]. by apply power_square.
Qed.

Ltac chain t e H := assert (e : power _ _ t) by exact H; clearbody t.

Lemma crecip_power z : tight z -> power z (2 ^ 255 - 21) (crecip z).
Proof.
  intros Hz. assert (P1 : power z 1 z) by (split; [done|by rewrite Z.pow_1_r]).
  unfold crecip. cbv zeta.
  set (a1 := fsquare_times z 1). chain a1 A1 (power_square z 1 z 1 ltac:(lia) ltac:(lia) P1).
  set (b1 := fmul (fsquare_times a1 2) z). chain b1 B1 (power_step z 2 2 1 9 a1 z eq_refl A1 P1).
  set (a2 := fmul b1 a1). chain a2 A2 (power_mul z 9 2 b1 a1 ltac:(lia) ltac:(lia) B1 A1).
  set (b2 := fmul (fsquare_times a2 1) b1). chain b2 B2 (power_step z 11 1 9 (2 ^ 5 - 1) a2 b1 eq_refl A2 B1).
  set (b3 := fmul (fsquare_times b2 5) b2). chain b3 B3 (power_step z (2 ^ 5 - 1) 5 (2 ^ 5 - 1) (2 ^ 10 - 1) b2 b2 eq_refl B2 B2).
  set (c1 := fmul (fsquare_times b3 10) b3). chain c1 C1 (power_step z (2 ^ 10 - 1) 10 (2 ^ 10 - 1) (2 ^ 20 - 1) b3 b3 eq_refl B3 B3).
  set (t1 := fmul (fsquare_times c1 20) c1). chain t1 T1 (power_step z (2 ^ 20 - 1) 20 (2 ^ 20 - 1) (2 ^ 40 - 1) c1 c1 eq_refl C1 C1).
  set (b4 := fmul (fsquare_times t1 10) b3). chain b4 B4 (power_step z (2 ^ 40 - 1) 10 (2 ^ 10 - 1) (2 ^ 50 - 1) t1 b3 eq_refl T1 B3).
  set (c2 := fmul (fsquare_times b4 50) b4). chain c2 C2 (power_step z (2 ^ 50 - 1) 50 (2 ^ 50 - 1) (2 ^ 100 - 1) b4 b4 eq_refl B4 B4).
  set (t2 := fmul (fsquare_times c2 100) c2). chain t2 T2 (power_step z (2 ^ 100 - 1) 100 (2 ^ 100 - 1) (2 ^ 200 - 1) c2 c2 eq_refl C2 C2).
  set (t3 := fmul (fsquare_times t2 50) b4). chain t3 T3 (power_step z (2 ^ 200 - 1) 50 (2 ^ 50 - 1) (2 ^ 250 - 1) t2 b4 eq_refl T2 B4).
  exact (power_step z (2 ^ 250 - 1) 5 11 (2 ^ 255 - 21) t3 a2 eq_refl T3 A2).
Qed.

Lemma crecip_inverse_lemma z :
  tight z -> fe z mod p <> 0 -> tight (crecip z) /\ (fe (crecip z) * fe z) mod p = 1.
Proof.
  intros Hz Hnz. destruct (crecip_power z Hz) as [Ht He]. split; [done|].
  assert (E : fe (crecip z) * fe z ≡p fe z ^ (p - 1)).
  { rewrite He, Z.mul_comm. change (p - 1) with (Z.succ (2 ^ 255 - 21)).
    rewrite Z.pow_succ_r by (apply Z.leb_le; reflexivity). reflexivity. }
  destruct E as [->]. by apply fermat_25519.
Qed.

(** [C35] The field of the curve: for limbs in the range that products leave, [crecip] gives
    limbs in that range and the inverse modulo the prime [p] of every number that is not a
    multiple of [p]. *)
Theorem crecip_inverse z :
  tight z -> fe z mod p <> 0 -> tight (crecip z) /\ (fe (crecip z) * fe z) mod p = 1.
Proof. exact (crecip_inverse_lemma z). Qed.

(** ** Bytes of numbers *)

Lemma le_val_drop l k : bytes l -> le_val (drop k l) = le_val l / 2 ^ (8 * Z.of_nat k).
Proof.
  intros Hl. revert k. induction Hl as [|b l Hb Hl IH]; intros [|k]; cbn [drop le_val]; cbv beta in *.
  - by rewrite Z.div_1_r.
  - by rewrite Z.div_0_l by lia.
  - by rewrite Z.div_1_r.
  - rewrite IH. replace (8 * Z.of_nat (S k)) with (8 + 8 * Z.of_nat k) by lia.
    rewrite Z.pow_add_r by lia. change (2 ^ 8) with 256.
    rewrite <- Z.div_div by (first [done | apply Z.pow_pos_nonneg; lia]). f_equal. dmlia.
Qed.

Lemma load_limb_eq l : bytes l -> (8 <= length l)%nat -> load_limb l = le_val l mod 2 ^ 64.
Proof.
  intros Hl Hlen. do 8 (destruct l as [|? l]; [cbn [length] in Hlen; lia|]).
  rewrite !list.Forall_cons in Hl. destruct_and?. unfold load_limb. cbn [foldl].
  repeat match goal with |- context [znth ?l ?i] =>
    let v := eval cbv in (znth l i) in change (znth l i) with v end.
  repeat match goal with |- context [8 * Z.pos ?k] => let v := eval vm_compute in (8 * Z.pos k) in change (8 * Z.pos k) with v end.
  repeat match goal with |- context [Z.lor ?x (Z.shiftl ?y ?n)] =>
    lazymatch x with context [Z.lor _ _] => fail | _ => rewrite (lor_shiftl x y n) by (num; lia) end end.
  cbn [le_val]. nums.
  match goal with |- context [le_val ?l'] => pose proof (le_val_range l' ltac:(done)); generalize dependent (le_val l') end.
  intros n Hn. apply (Z.mod_unique _ _ n); lia.
Qed.

Lemma fexpand_ok b :
  bytes b -> length b = 32%nat -> below (2 ^ 51 - 1) (fexpand b) /\ fe (fexpand b) = le_val b mod 2 ^ 255.
Proof.
  intros Hb Hl. unfold fexpand. rewrite !load_limb_eq by (rewrite ?length_drop; (lia || by apply list.Forall_drop)).
  rewrite !le_val_drop, !land_mask51, !Z.shiftr_div_pow2 by (done || lia).
  repeat match goal with |- context [8 * Z.of_nat ?k] => let v := eval vm_compute in (8 * Z.of_nat k) in change (8 * Z.of_nat k) with v end.
  pose proof (le_val_range b Hb) as Hr. rewrite Hl in Hr. change (8 * Z.of_nat 32) with 256 in Hr.
  revert Hr. generalize (le_val b) as n. intros n Hr.
  assert (L : forall a s, 0 <= a -> 0 <= s <= 12 -> (n / 2 ^ a) mod 2 ^ 64 / 2 ^ s mod 2 ^ 51 = n / 2 ^ (a + s) mod 2 ^ 51).
  { intros a s Ha Hs. apply Z.bits_inj'. intros i Hi. destruct (Z.lt_ge_cases i 51).
    - rewrite !Z.mod_pow2_bits_low, !Z.div_pow2_bits, Z.mod_pow2_bits_low, Z.div_pow2_bits by lia. f_equal. lia.
    - by rewrite !Z.mod_pow2_bits_high by lia. }
  rewrite !L by lia. change (2 ^ (0 + 0)) with 1. rewrite Z.div_1_r.
  change (48 + 3) with 51. change (96 + 6) with 102. change (152 + 1) with 153. change (192 + 12) with 204.
  split.
  - unfold below. cbn [l0 l1 l2 l3 l4].
    assert (B : forall x, 0 <= x mod 2 ^ 51 <= 2 ^ 51 - 1) by (intros x; pose proof (Z.mod_pos_bound x (2 ^ 51)); lia).
    split_and!; apply B.
  - unfold fe. cbn [l0 l1 l2 l3 l4].
    replace (2 ^ 255) with (2 ^ 51 * (2 ^ 51 * (2 ^ 51 * (2 ^ 51 * 2 ^ 51)))) by by vm_compute.
    rewrite !Z.rem_mul_r, !Z.div_div by by vm_compute.
    change (2 ^ 51 * 2 ^ 51 * 2 ^ 51 * 2 ^ 51) with (2 ^ 204). change (2 ^ 51 * 2 ^ 51 * 2 ^ 51) with (2 ^ 153).
    change (n / (2 ^ 51 * 2 ^ 51)) with (n / 2 ^ 102). num. ring.
Qed.

(** [store_limb] writes the eight bytes of the word. *)
Lemma store_limb_eq x : store_limb x = le_bytes 8 (u64 x).
Proof.
  unfold store_limb. generalize (u64 x) as y. intros y.
  assert (H : forall n i out y, fst (for_loop n i (fun _ '(out, input) => (out ++ [Z.land input 0xff], Z.shiftr input 8)) (out, y))
    = out ++ le_bytes n y).
  { clear. induction n as [|n IH]; intros i out y; cbn -[Z.land le_bytes]; unfold for_loop; fold (@for_loop (list Z * Z)).
    - by rewrite app_nil_r.
    - rewrite IH, <- app_assoc. unfold le_bytes; fold le_bytes. cbn [app]. do 2 f_equal.
      change 0xff with (Z.ones 8). by rewrite Z.land_ones. }
  by rewrite H.
Qed.

(** ** The bytes of a number modulo [p] *)

(** [t] is the number [v] with limbs that fit, the lowest one excepted. *)
Lemma fcontract_iter_spec t flag :
  below (2 ^ 65) t ->
  let t' := fcontract_iter t flag in
  fe t' = fe t mod 2 ^ 255 + (if flag =? 0 then 0 else 19 * (fe t / 2 ^ 255)) /\
  0 <= l1 t' < 2 ^ 51 /\ 0 <= l2 t' < 2 ^ 51 /\ 0 <= l3 t' < 2 ^ 51 /\ 0 <= l4 t' < 2 ^ 51 /\
  0 <= l0 t' < 2 ^ 51 + (if flag =? 0 then 0 else 19 * (fe t / 2 ^ 255)).
Proof.
  destruct t as [t0 t1 t2 t3 t4]. unfold below. cbn [l0 l1 l2 l3 l4]. intros (H0 & H1 & H2 & H3 & H4).
  unfold fcontract_iter. rewrite !land_mask51, !high_limb.
  destruct (split51 t0) as (q0 & r0 & -> & -> & E0 & R0). rewrite (uwrap_small 128 (t1 + q0)) by (nums; lia).
  destruct (split51 (t1 + q0)) as (q1 & r1 & -> & -> & E1 & R1). rewrite (uwrap_small 128 (t2 + q1)) by (nums; lia).
  destruct (split51 (t2 + q1)) as (q2 & r2 & -> & -> & E2 & R2). rewrite (uwrap_small 128 (t3 + q2)) by (nums; lia).
  destruct (split51 (t3 + q2)) as (q3 & r3 & -> & -> & E3 & R3). rewrite (uwrap_small 128 (t4 + q3)) by (nums; lia).
  destruct (split51 (t4 + q3)) as (q4 & r4 & -> & -> & E4 & R4).
  rewrite (uwrap_small 128 (19 * q4)), (uwrap_small 128 (r0 + 19 * q4)) by (nums; lia).
  assert (E : fe (mk320 t0 t1 t2 t3 t4) = 2 ^ 255 * q4 + fe (mk320 r0 r1 r2 r3 r4)).
  { unfold fe. cbn [l0 l1 l2 l3 l4]. nums. lia. }
  assert (B : 0 <= fe (mk320 r0 r1 r2 r3 r4) < 2 ^ 255) by (unfold fe; cbn [l0 l1 l2 l3 l4]; nums; lia).
  rewrite <- (Z.mod_unique_pos _ _ _ _ B E), <- (Z.div_unique_pos _ _ _ _ B E).
  unfold fe. destruct (Z.eqb_spec flag 0) as [->|Hf]; cbn [negb l0 l1 l2 l3 l4]; nums; lia.
Qed.

(** The words of 64 bits out of limbs of 51 bits. *)
Lemma pack_limbs t0 t1 t2 t3 t4 :
  below (2 ^ 51 - 1) (mk320 t0 t1 t2 t3 t4) ->
  let shl x n := u128 (Z.shiftl x n) in
  store_limb (Z.lor t0 (shl t1 51)) ++ store_limb (Z.lor (Z.shiftr t1 13) (shl t2 38)) ++
  store_limb (Z.lor (Z.shiftr t2 26) (shl t3 25)) ++ store_limb (Z.lor (Z.shiftr t3 39) (shl t4 12))
  = le_bytes 32 (fe (mk320 t0 t1 t2 t3 t4)).
Proof.
  unfold below. cbn [l0 l1 l2 l3 l4]. intros (H0 & H1 & H2 & H3 & H4). cbv zeta.
  rewrite !store_limb_eq, !(uwrap_small 128), !Z.shiftr_div_pow2 by (rewrite ?Z.shiftl_mul_pow2; nums; lia).
  rewrite !lor_shiftl by (nums; dmlia).
  rewrite <- (le_bytes_val (_ ++ _)) by (repeat apply list.Forall_app_2; apply le_bytes_bytes).
  rewrite !length_app, !le_bytes_length. change (8 + (8 + (8 + 8)))%nat with 32%nat. f_equal.
  rewrite !le_val_app, !le_bytes_length, !le_val_bytes.
  change (2 ^ (8 * Z.of_nat 8)) with (2 ^ 64). unfold uwrap. rewrite !Zmod_mod.
  assert (S : forall n x, 0 <= n -> exists q r, x / 2 ^ n = q /\ x = 2 ^ n * q + r /\ 0 <= r < 2 ^ n).
  { intros n x Hn. exists (x / 2 ^ n), (x mod 2 ^ n). split_and!; [done|apply Z.div_mod; lia|apply Z.mod_pos_bound; lia..]. }
  destruct (S 13 t1 ltac:(lia)) as (a & b & -> & Ea & Rb). destruct (S 26 t2 ltac:(lia)) as (c & d & -> & Ec & Rd).
  destruct (S 39 t3 ltac:(lia)) as (e & g & -> & Ee & Rg). clear S.
  rewrite <- (Z.mod_unique_pos _ (2 ^ 64) a (t0 + 2 ^ 51 * b)) by (nums; lia).
  rewrite <- (Z.mod_unique_pos _ (2 ^ 64) c (a + 2 ^ 38 * d)) by (nums; lia).
  rewrite <- (Z.mod_unique_pos _ (2 ^ 64) e (c + 2 ^ 25 * g)) by (nums; lia).
  rewrite (Z.mod_small (e + 2 ^ 12 * t4)) by (nums; lia).
  unfold fe. cbn [l0 l1 l2 l3 l4]. nums. lia.
Qed.

Lemma add_limbs_ok t a0 a1 a2 a3 a4 :
  below (2 ^ 66) t -> below (2 ^ 64) (mk320 a0 a1 a2 a3 a4) ->
  add_limbs t a0 a1 a2 a3 a4 = mk320 (l0 t + a0) (l1 t + a1) (l2 t + a2) (l3 t + a3) (l4 t + a4).
Proof.
  unfold below, add_limbs. cbn [l0 l1 l2 l3 l4]. intros Ht Ha. rewrite !uwrap_small by (nums; lia). done.
Qed.

Lemma fcontract_iter_1 t :
  below (2 ^ 65) t ->
  let t' := fcontract_iter t 1 in
  fe t' = fe t mod 2 ^ 255 + 19 * (fe t / 2 ^ 255) /\ fe t' ≡p fe t /\ below (2 ^ 51 + 19 * (fe t / 2 ^ 255)) t'.
Proof.
  intros Ht. destruct (fcontract_iter_spec t 1 Ht) as (E & B). cbv zeta in *.
  change (1 =? 0) with false in *. cbv iota in *. split; [done|split].
  - apply (eqp_plus (fe t / 2 ^ 255)). rewrite E. pose proof (Z.div_mod (fe t) (2 ^ 255) ltac:(lia)). unfold p. nums. lia.
  - assert (0 <= fe t / 2 ^ 255) by (apply Z.div_pos; [unfold fe, below in *; nums; lia|lia]). unfold below. lia.
Qed.

(** Two rounds of carries leave a number below [2 ^ 255]. *)
Lemma carry_twice a :
  below (2 ^ 64 - 1) a ->
  let t := fcontract_iter (fcontract_iter a 1) 1 in
  fe t ≡p fe a /\ 0 <= fe t < 2 ^ 255 /\ below (2 ^ 52) t.
Proof.
  intros Ha. cbv zeta. assert (Hv : 0 <= fe a < 2 ^ 269) by (unfold fe, below in *; nums; lia).
  assert (Hq : 0 <= fe a / 2 ^ 255 < 2 ^ 14) by (nums; dmlia).
  destruct (fcontract_iter_1 a) as (E1 & C1 & B1); [revert Ha; apply below_mono; lia|].
  pose proof (Z.mod_pos_bound (fe a) (2 ^ 255) ltac:(lia)) as Hm.
  assert (V1 : 0 <= fe (fcontract_iter a 1) < 2 ^ 255 + 2 ^ 20) by (rewrite E1; nums; lia).
  destruct (fcontract_iter_1 (fcontract_iter a 1)) as (E2 & C2 & B2); [revert B1; apply below_mono; nums; lia|].
  revert V1 E1 B1 C1 E2 C2 B2. generalize (fcontract_iter a 1). intros b V1 E1 B1 C1.
  generalize (fcontract_iter b 1). intros c E2 C2 B2. split; [by rewrite C2|].
  assert (H : fe b / 2 ^ 255 = 0 \/ fe b / 2 ^ 255 = 1) by (clear - V1; nums; dmlia).
  split; [rewrite E2; clear - V1; nums; dmlia|]. revert B2. apply below_mono. nums. lia.
Qed.

Lemma subtract_p_ok b :
  0 <= fe b < 2 ^ 255 -> below (2 ^ 52) b -> fe (subtract_p b) = fe b mod p /\ below (2 ^ 51 - 1) (subtract_p b).
Proof.
  intros V2 B2. unfold subtract_p. cbv zeta.
  rewrite (add_limbs_ok b) by (unfold below in *; cbn [l0 l1 l2 l3 l4]; nums; lia).
  assert (Hs2 : exists s2, s2 = mk320 (l0 b + 19) (l1 b + 0) (l2 b + 0) (l3 b + 0) (l4 b + 0)) by by eexists.
  destruct Hs2 as [s2 Es2]. rewrite <- Es2.
  assert (Fs : fe s2 = fe b + 19) by (subst s2; unfold fe; cbn [l0 l1 l2 l3 l4]; ring).
  assert (Bs : below (2 ^ 53) s2) by (subst s2; unfold below in *; cbn [l0 l1 l2 l3 l4]; nums; lia).
  clear Es2. destruct (fcontract_iter_1 s2) as (E3 & _ & B3); [revert Bs; apply below_mono; lia|].
  revert E3 B3. generalize (fcontract_iter s2 1). intros b3 E3 B3.
  assert (V3 : (fe b < p -> fe b3 = fe b + 19) /\ (p <= fe b -> fe b3 = fe b - p + 19) /\ fe s2 / 2 ^ 255 < 2).
  { rewrite E3, Fs. clear - V2. unfold p. nums. dmlia. }
  assert (B3' : below (2 ^ 52) b3) by (revert B3; apply below_mono; nums; lia). clear E3 B3 B2 Bs Fs.
  rewrite (add_limbs_ok b3) by (unfold below in *; cbn [l0 l1 l2 l3 l4]; nums; lia).
  set (c0 := 0x8000000000000 - 19). set (c1 := 0x8000000000000 - 1).
  assert (Hs3 : exists s3, s3 = mk320 (l0 b3 + c0) (l1 b3 + c1) (l2 b3 + c1) (l3 b3 + c1) (l4 b3 + c1)) by by eexists.
  destruct Hs3 as [s3 Es3]. rewrite <- Es3.
  assert (Fs : fe s3 = fe b3 + (2 ^ 255 - 19)) by (subst s3; unfold fe, c0, c1; cbn [l0 l1 l2 l3 l4]; num; ring).
  assert (Bs : below (2 ^ 53) s3) by (subst s3; unfold below, c0, c1 in *; cbn [l0 l1 l2 l3 l4]; nums; lia).
  clear Es3. destruct (fcontract_iter_spec s3 0) as (E4 & B4); [revert Bs; apply below_mono; lia|].
  change (0 =? 0) with true in *. cbv iota in *. split; [|unfold below; lia].
  rewrite E4, Fs, Z.add_0_r. clear - V2 V3. destruct V3 as (Hlt & Hge & _).
  destruct (Z.lt_ge_cases (fe b) p) as [Hp|Hp].
  - rewrite Hlt by done. rewrite (Z.mod_small (fe b) p) by lia.
    replace (fe b + 19 + (2 ^ 255 - 19)) with (fe b + 1 * 2 ^ 255) by ring.
    rewrite Z.mod_add, Z.mod_small by lia. done.
  - rewrite Hge by done. rewrite <- (Z.mod_unique_pos (fe b) p 1 (fe b - p)) by (unfold p in *; nums; lia).
    replace (fe b - p + 19 + (2 ^ 255 - 19)) with (fe b - p + 1 * 2 ^ 255) by ring.
    rewrite Z.mod_add, Z.mod_small by (unfold p in *; nums; lia). done.
Qed.

Lemma fcontract_reduces_lemma a :
  below (2 ^ 64 - 1) a -> fcontract a = le_bytes 32 (fe a mod p).
Proof.
  intros Ha. unfold fcontract. destruct (carry_twice a Ha) as ([<-] & V & B).
  destruct (subtract_p_ok _ V B) as [<- B']. destruct (subtract_p _) as [t0 t1 t2 t3 t4].
  by apply pack_limbs.
Qed.

(** [fcontract] is exact: for every five 64-bit limbs, however far from reduced, it
    writes the 32 bytes of the least residue modulo [p] of the number they stand for; its
    128-bit words do not overflow. *)
Theorem fcontract_reduces a :
  below (2 ^ 64 - 1) a -> fcontract a = le_bytes 32 (fe a mod p).
Proof. exact (fcontract_reduces_lemma a). Qed.

(** ** The ladder *)

(** Coordinates [X : Z] of [Q] and of [Q'], residues modulo [p]. *)
Definition point_pair : Type := Z * Z * Z * Z.

(** The doubling of [Q] and the sum [Q + Q'] on a Montgomery curve with [(A - 2) / 4 =
    121665], where [q] is the coordinate of the difference [Q - Q']. *)
Definition double_add (q : Z) (s : point_pair) : point_pair :=
  let '(x, z, x', z') := s in
  let u := (x' + z') * (x - z) in
  let v := (x + z) * (x' - z') in
  let aa := (x + z) ^ 2 in
  let bb := (x - z) ^ 2 in
  let e := aa - bb in
  (aa * bb mod p, e * (aa + 121665 * e) mod p, (u + v) ^ 2 mod p, q * (u - v) ^ 2 mod p).

Definition swap_points (b : bool) (s : point_pair) : point_pair :=
  let '(x, z, x', z') := s in if b then (x', z', x, z) else s.

Definition ladder_bit (q : Z) (s : point_pair) (b : bool) : point_pair :=
  swap_points b (double_add q (swap_points b s)).

(** The bits of a secret, the highest first. *)
Definition secret_bits (secret : list Z) : list bool :=
  map (fun i => Z.testbit (le_val secret) (255 - i)) (seqZ 0 256).

(** The multiple of the point with coordinate [q] by the secret. *)
Definition ladder (q : Z) (secret : list Z) : Z * Z :=
  let '(x, z, _, _) := foldl (ladder_bit q) (1, 0, q, 1) (secret_bits secret) in (x, z).

(** The limbs of the four coordinates stand for the residues. *)
Definition stands (s : bits320 * bits320 * bits320 * bits320) (r : point_pair) : Prop :=
  let '(x, z, x', z') := s in
  tight x /\ tight z /\ tight x' /\ tight z' /\ (fe x mod p, fe z mod p, fe x' mod p, fe z' mod p) = r.

Lemma eqp_residue x y : x ≡p y -> x mod p = y mod p.
Proof. by intros []. Qed.

Lemma residue_eqp x y : x mod p = y -> x ≡p y.
Proof. intros <-. by rewrite eqp_mod. Qed.

Lemma fmonty_stands x z x' z' q r :
  tight q -> stands (x, z, x', z') r -> stands (fmonty x z x' z' q) (double_add (fe q mod p) r).
Proof.
  intros Hq (Hx & Hz & Hx' & Hz' & <-). unfold fmonty. cbv zeta.
  destruct (fsum_ok x z Hx Hz) as [L1 E1]. destruct (fdifference_ok z x Hz Hx) as [L2 E2].
  destruct (fsum_ok x' z' Hx' Hz') as [L3 E3]. destruct (fdifference_ok z' x' Hz' Hx') as [L4 E4].
  destruct (fmul_ok _ _ L3 L2) as [L5 E5]. destruct (fmul_ok _ _ L1 L4) as [L6 E6].
  destruct (fsum_ok _ _ L5 L6) as [L7 E7]. destruct (fdifference_ok _ _ L6 L5) as [L8 E8].
  destruct (fsquare_times_ok _ 1 L7 ltac:(done)) as [L9 E9]. destruct (fsquare_times_ok _ 1 L8 ltac:(done)) as [L10 E10].
  destruct (fmul_ok _ _ (tight_loose _ L10) (tight_loose _ Hq)) as [L11 E11].
  destruct (fsquare_times_ok _ 1 L1 ltac:(done)) as [L12 E12]. destruct (fsquare_times_ok _ 1 L2 ltac:(done)) as [L13 E13].
  destruct (fmul_ok _ _ (tight_loose _ L12) (tight_loose _ L13)) as [L14 E14].
  destruct (fdifference_ok _ _ L13 L12) as [L15 E15].
  destruct (fscalar_product_ok _ 121665 L15 ltac:(done)) as [L16 E16].
  destruct (fsum_wide _ _ L16 L12) as [L17 E17]. destruct (fmul_ok _ _ L15 L17) as [L18 E18].
  unfold stands, double_add. split_and!; try done.
  change (2 ^ 1) with 2 in *. rewrite !E7, !E1, !E3, !E17 in *.
  f_equal; [f_equal; [f_equal|]|]; apply eqp_residue.
  - by rewrite E14, E12, E13, E2, !eqp_mod.
  - rewrite E18, E16, E15, E12, E13, E2, !eqp_mod. by rewrite (Z.mul_comm _ 121665), (Z.add_comm (121665 * _)).
  - by rewrite E9, E5, E6, E2, E4, !eqp_mod.
  - by rewrite E11, E10, E8, E5, E6, E2, E4, !eqp_mod, Z.mul_comm.
Qed.

Lemma swap_conditional_eq a b bit :
  below (2 ^ 64 - 1) a -> below (2 ^ 64 - 1) b ->
  swap_conditional a b (c_bool bit) = if bit then (b, a) else (a, b).
Proof.
  intros Ha Hb. unfold swap_conditional. destruct bit; cbn [c_bool].
  - change (u64 (- (1))) with (Z.ones 64).
    assert (L : forall x y, 0 <= x <= 2 ^ 64 - 1 -> 0 <= y <= 2 ^ 64 - 1 -> Z.land (Z.ones 64) (Z.lxor x y) = Z.lxor x y).
    { intros x y Hx Hy. rewrite Z.land_comm, Z.land_ones by lia. apply Z.mod_small. split; [by apply Z.lxor_nonneg; lia|].
      apply testbit_bound; [lia|apply Z.lxor_nonneg; lia|]. intros i Hi.
      by rewrite Z.lxor_spec, (testbit_small x 64), (testbit_small y 64) by lia. }
    unfold below in *. rewrite !L by lia. destruct a, b; cbn [l0 l1 l2 l3 l4].
    rewrite !(Z.lxor_comm _ (Z.lxor _ _)), !Z.lxor_assoc, !Z.lxor_nilpotent, !Z.lxor_0_r.
    rewrite <- !Z.lxor_assoc. f_equal; f_equal.
    all: try (by rewrite Z.lxor_comm, <- Z.lxor_assoc, Z.lxor_nilpotent, Z.lxor_0_l).
  - change (u64 (- (0))) with 0. rewrite !Z.land_0_l, !Z.lxor_0_r. by destruct a, b.
Qed.

Lemma tight_word a : tight a -> below (2 ^ 64 - 1) a.
Proof. apply below_mono. by vm_compute. Qed.

Lemma cmult_bit_stands q s r b :
  tight q -> stands s r -> stands (cmult_bit q (c_bool b) s) (ladder_bit (fe q mod p) r b).
Proof.
  intros Hq. destruct s as [[[x z] x'] z']. intros Hs. pose proof Hs as (Hx & Hz & Hx' & Hz' & Er).
  unfold cmult_bit, ladder_bit. rewrite !swap_conditional_eq by by apply tight_word.
  destruct b; cbv beta iota.
  - assert (Hsw : stands (x', z', x, z) (swap_points true r)) by (subst r; by split_and!).
    pose proof (fmonty_stands x' z' x z q _ Hq Hsw) as Hm. clear Er Hs Hsw.
    destruct (double_add _ _) as [[[a b] c] d]. destruct (fmonty x' z' x z q) as [[[x2 z2] x3] z3].
    destruct Hm as (T2 & T2' & T3 & T3' & [= <- <- <- <-]).
    rewrite (swap_conditional_eq x2 x3 true), (swap_conditional_eq z2 z3 true) by by apply tight_word.
    by split_and!.
  - pose proof (fmonty_stands x z x' z' q r Hq Hs) as Hm.
    assert (Esw : swap_points false r = r) by by destruct r as [[[? ?] ?] ?]. rewrite Esw.
    destruct (fmonty x z x' z' q) as [[[x2 z2] x3] z3]. pose proof Hm as (T2 & T2' & T3 & T3' & _).
    rewrite (swap_conditional_eq x2 x3 false), (swap_conditional_eq z2 z3 false) by by apply tight_word.
    destruct (double_add _ _) as [[[? ?] ?] ?]. exact Hm.
Qed.

(** The bits of one byte. *)
Lemma cmult_byte_stands q n : forall i s byte r,
  tight q -> 0 <= byte < 256 -> stands s r -> Z.of_nat n <= 8 ->
  stands (fst (for_loop n i (fun _ '(s, byte) =>
    let bit := Z.shiftr byte 7 in (cmult_bit q bit s, u8 (Z.shiftl byte 1))) (s, byte)))
    (foldl (ladder_bit (fe q mod p)) r (map (fun k => Z.testbit byte (7 - k)) (seqZ 0 (Z.of_nat n)))).
Proof.
  induction n as [|n IH]; intros i s byte r Hq Hb Hs Hn; [exact Hs|].
  rewrite seqZ_cons by lia. cbn [map foldl].
  replace (map _ (seqZ (Z.succ 0) (Z.pred (Z.of_nat (S n)))))
    with (map (fun k => Z.testbit (u8 (Z.shiftl byte 1)) (7 - k)) (seqZ 0 (Z.of_nat n))).
  - apply IH; [done|by apply (uwrap_range 8)| |lia]. replace (Z.shiftr byte 7) with (c_bool (Z.testbit byte 7)).
    + by apply cmult_bit_stands.
    + rewrite Z.testbit_eqb, Z.shiftr_div_pow2 by lia. change (2 ^ 7) with 128.
      destruct (Z.eqb_spec ((byte / 128) mod 2) 1); cbn [c_bool]; dmlia.
  - replace (Z.pred (Z.of_nat (S n))) with (Z.of_nat n) by lia. rewrite <- Z.add_1_l, <- fmap_add_seqZ, map_map.
    apply map_ext_in. intros k Hk. apply list_elem_of_In, elem_of_seqZ in Hk.
    rewrite uwrap_testbit by lia. replace (7 - k <? 8) with true by (symmetry; apply Z.ltb_lt; lia).
    cbn [andb]. rewrite Z.shiftl_spec by lia. f_equal. lia.
Qed.

Lemma cmult_ladder_lemma secret q :
  bytes secret -> length secret = 32%nat -> tight q ->
  let '(x, z) := cmult secret q in
  tight x /\ tight z /\ (fe x mod p, fe z mod p) = ladder (fe q mod p) secret.
Proof.
  intros Hb Hl Hq. unfold cmult, ladder. set (body := fun i s => _).
  assert (H : stands (for_loop 32 0 body (mk320 1 0 0 0 0, mk320 0 0 0 0 0, q, mk320 1 0 0 0 0))
    (foldl (ladder_bit (fe q mod p)) (1, 0, fe q mod p, 1)
      (map (fun i => Z.testbit (le_val secret) (255 - i)) (seqZ 0 (8 * 32))))).
  { pose proof (for_loop_inv (fun i s => stands s (foldl (ladder_bit (fe q mod p)) (1, 0, fe q mod p, 1)
      (map (fun i => Z.testbit (le_val secret) (255 - i)) (seqZ 0 (8 * i)))))
      32 0 body (mk320 1 0 0 0 0, mk320 0 0 0 0 0, q, mk320 1 0 0 0 0)) as H.
    cbv beta in H. change (0 + Z.of_nat 32) with 32 in H. apply H; clear H.
    - intros j s Hj Hs. replace (8 * (j + 1)) with (8 * j + 8) by lia.
      rewrite seqZ_app, map_app, foldl_app by lia. unfold body.
      assert (Hbyte : 0 <= znth secret (31 - j) < 256) by (by apply Forall_znth).
      pose proof (cmult_byte_stands q 8 0 s _ _ Hq Hbyte Hs ltac:(lia)) as Hm. 
      assert (E : map (fun i => Z.testbit (le_val secret) (255 - i)) (seqZ (0 + 8 * j) 8)
        = map (fun k => Z.testbit (znth secret (31 - j)) (7 - k)) (seqZ 0 8)); [|rewrite E; exact Hm].
      replace (0 + 8 * j) with (8 * j + 0) by lia. rewrite <- fmap_add_seqZ, map_map. apply map_ext_in.
      intros k Hk. apply list_elem_of_In, elem_of_seqZ in Hk. rewrite le_val_testbit by (done || lia). f_equal; [f_equal|]; dmlia.
    - split_and!; try done; unfold tight, below; cbn [l0 l1 l2 l3 l4]; lia. }
  unfold secret_bits. change (8 * 32) with 256 in H.
  destruct (foldl _ _ _) as [[[X Z] X'] Z']. destruct (for_loop 32 0 body _) as [[[x z] x'] z'].
  destruct H as (Hx & Hz & _ & _ & E). split_and!; try done. congruence.
Qed.

(** The ladder.  For a point in limbs and a secret of 32 bytes, [cmult] computes on
    limbs exactly what the Montgomery ladder computes with residues modulo [p]: for each of
    the 256 bits a conditional exchange, one doubling and one differential addition.  The
    exchanges without branches are exchanges, and no word overflows on the way. *)
Theorem cmult_ladder secret q :
  bytes secret -> length secret = 32%nat -> tight q ->
  let '(x, z) := cmult secret q in
  tight x /\ tight z /\ (fe x mod p, fe z mod p) = ladder (fe q mod p) secret.
Proof. exact (cmult_ladder_lemma secret q). Qed.

Lemma clamp_length e : length (clamp e) = length e.
Proof. unfold clamp. by rewrite !zput_length. Qed.

Lemma clamp_bytes e : bytes e -> bytes (clamp e).
Proof.
  intros He. unfold clamp.
  assert (L : forall x m, 0 <= x < 256 -> 0 <= m < 256 -> 0 <= Z.land x m < 256).
  { intros x m Hx Hm. split; [apply Z.land_nonneg; lia|]. apply (testbit_bound _ 8); [lia|apply Z.land_nonneg; lia|].
    intros i Hi. by rewrite Z.land_spec, (testbit_small x 8) by (try change (2 ^ 8) with 256; lia). }
  assert (H1 : bytes (zput e 0 (Z.land (znth e 0) 248))).
  { apply Forall_zput; [done|]. apply L; [by apply Forall_znth|lia]. }
  assert (H2 : bytes (zput (zput e 0 (Z.land (znth e 0) 248)) 31 (Z.land (znth (zput e 0 (Z.land (znth e 0) 248)) 31) 127))).
  { apply Forall_zput; [done|]. apply L; [by apply Forall_znth|lia]. }
  apply Forall_zput; [done|]. split; [apply Z.lor_nonneg; split; [apply (Forall_znth (fun b => 0 <= b < 256)); [lia|done]|lia]|].
  apply (testbit_bound _ 8); [lia|apply Z.lor_nonneg; split; [apply (Forall_znth (fun b => 0 <= b < 256)); [lia|done]|lia]|].
  intros i Hi. rewrite Z.lor_spec, (testbit_small _ 8) by (first [apply (Forall_znth (fun b => 0 <= b < 256)); [lia|done] | done]).
  by rewrite (testbit_small 64 8).
Qed.

Lemma curve25519_donna_lemma secret basepoint :
  bytes secret -> length secret = 32%nat -> bytes basepoint -> length basepoint = 32%nat ->
  let '(x, z) := ladder ((le_val basepoint mod 2 ^ 255) mod p) (clamp secret) in
  curve25519_donna secret basepoint = le_bytes 32 (x * z ^ (p - 2) mod p).
Proof.
  intros Hs Hls Hb Hlb. destruct (fexpand_ok basepoint Hb Hlb) as [B E].
  assert (Hq : tight (fexpand basepoint)) by (revert B; apply below_mono; lia).
  unfold curve25519_donna. pose proof (cmult_ladder_lemma (clamp secret) (fexpand basepoint)
    (clamp_bytes secret Hs) ltac:(by rewrite clamp_length) Hq) as H.
  destruct (cmult (clamp secret) (fexpand basepoint)) as [x z]. destruct H as (Hx & Hz & Hl).
  rewrite <- E, <- Hl. destruct (crecip_power z Hz) as [Hr Er].
  destruct (fmul_ok _ _ (tight_loose _ Hx) (tight_loose _ Hr)) as [Hm Em].
  rewrite fcontract_reduces_lemma by by apply tight_word. f_equal. apply eqp_residue.
  change (p - 2) with (2 ^ 255 - 21). by rewrite Em, Er, !eqp_mod.
Qed.

Lemma curve25519_donna_bytes secret basepoint :
  bytes secret -> length secret = 32%nat -> bytes basepoint -> length basepoint = 32%nat ->
  bytes (curve25519_donna secret basepoint) /\ length (curve25519_donna secret basepoint) = 32%nat.
Proof.
  intros H1 H2 H3 H4. pose proof (curve25519_donna_lemma secret basepoint H1 H2 H3 H4) as H.
  destruct (ladder _ _) as [x z]. rewrite H. split; [apply le_bytes_bytes|apply le_bytes_length].
Qed.

(** [C34] What the function of the library computes: the ladder on the clamped secret, and the
    quotient of its coordinates. *)
Theorem curve25519_donna_ladder secret basepoint :
  bytes secret -> length secret = 32%nat -> bytes basepoint -> length basepoint = 32%nat ->
  let '(x, z) := ladder ((le_val basepoint mod 2 ^ 255) mod p) (clamp secret) in
  curve25519_donna secret basepoint = le_bytes 32 (x * z ^ (p - 2) mod p).
Proof. exact (curve25519_donna_lemma secret basepoint). Qed.

(** ** The bounds of the comments

    The comment of [fmul] allows limbs below [2 ^ 55].  With the largest of them the carry of
    the first sum no longer fits in its 64-bit word, and the product is wrong.  The callers
    stay below [loose]. *)
Example fmul_limit :
  let a := mk320 (2 ^ 55 - 1) (2 ^ 55 - 1) (2 ^ 55 - 1) (2 ^ 55 - 1) (2 ^ 55 - 1) in
  (fe (fmul a a) mod p =? (fe a * fe a) mod p) = false.
Proof. vm_compute. reflexivity. Qed.

Lemma crecip_inverse_witness :
  tight (fexpand curve25519_basepoint9) /\
  (fe (crecip (fexpand curve25519_basepoint9)) * fe (fexpand curve25519_basepoint9)) mod p = 1.
Proof.
  assert (H : tight (fexpand curve25519_basepoint9)) by (vm_compute; repeat split; discriminate).
  split; [exact H|]. apply (crecip_inverse _ H). vm_compute. discriminate.
Defined.

Lemma fcontract_reduces_witness :
  let a := mk320 (2 ^ 64 - 1) (2 ^ 64 - 1) (2 ^ 64 - 1) (2 ^ 64 - 1) (2 ^ 64 - 1) in
  below (2 ^ 64 - 1) a /\ fcontract a = le_bytes 32 (fe a mod p).
Proof.
  assert (H : below (2 ^ 64 - 1) (mk320 (2 ^ 64 - 1) (2 ^ 64 - 1) (2 ^ 64 - 1) (2 ^ 64 - 1) (2 ^ 64 - 1))).
  { vm_compute. repeat split; discriminate. }
  split; [exact H|]. exact (fcontract_reduces _ H).
Defined.

Lemma cmult_ladder_witness :
  length (clamp (replicate 32 77)) = 32%nat /\
  let '(x, z) := cmult (clamp (replicate 32 77)) (fexpand curve25519_basepoint9) in
  tight x /\ tight z /\
  (fe x mod p, fe z mod p) = ladder (fe (fexpand curve25519_basepoint9) mod p) (clamp (replicate 32 77)).
Proof.
  split; [reflexivity|]. apply cmult_ladder.
  - apply clamp_bytes. repeat constructor; lia.
  - reflexivity.
  - vm_compute. repeat split; discriminate.
Defined.

Lemma curve25519_donna_ladder_witness :
  length curve25519_basepoint9 = 32%nat /\
  let '(x, z) := ladder ((le_val curve25519_basepoint9 mod 2 ^ 255) mod p) (clamp (replicate 32 5)) in
  curve25519_donna (replicate 32 5) curve25519_basepoint9 = le_bytes 32 (x * z ^ (p - 2) mod p).
Proof.
  split; [reflexivity|]. apply curve25519_donna_ladder.
  - repeat constructor; lia.
  - reflexivity.
  - repeat constructor; lia.
  - reflexivity.
Defined.
