(* ===== verification/Sha256.v ===== *)
(** * curve25519.h: SHA-256 in pieces

    The state of the hash keeps the chaining value, the number of bits of the full blocks and
    a buffer with the rest of the message.  The theorems: the 64 rounds on a rotating array
    are the rounds on eight working variables of the standard, and however the message is cut
    into pieces, the result is the hash of the padded message. *)
From Stdlib Require Import ZArith Lia.
From stdpp Require Import base list numbers option.
From S2P Require Import Prelude.
Open Scope Z_scope.

(** ** Words *)

(** curve25519.h:358-362 [LOAD32H] *)
Definition LOAD32H (y : list Z) : Z :=
  Z.lor (Z.lor (Z.lor (Z.shiftl (Z.land (znth y 0) 255) 24) (Z.shiftl (Z.land (znth y 1) 255) 16))
    (Z.shiftl (Z.land (znth y 2) 255) 8)) (Z.land (znth y 3) 255).

Definition byte_of (x n : Z) : Z := u8 (Z.land (Z.shiftr x n) 255).

(** curve25519.h:354-356 [STORE32H] *)
Definition STORE32H (x : Z) : list Z := [byte_of x 24; byte_of x 16; byte_of x 8; u8 (Z.land x 255)].

(** curve25519.h:364-368 [STORE64H] *)
Definition STORE64H (x : Z) : list Z :=
  [byte_of x 56; byte_of x 48; byte_of x 40; byte_of x 32; byte_of x 24; byte_of x 16; byte_of x 8; u8 (Z.land x 255)].

(** curve25519.h:377-377 [RORc] *)
Definition RORc (x y : Z) : Z :=
  let y := Z.land y 31 in
  Z.land (Z.lor (Z.shiftr (Z.land x 0xFFFFFFFF) y) (u32 (Z.shiftl x (32 - y)))) 0xFFFFFFFF.
(** curve25519.h:378-378 [Ch] *)
Definition Ch (x y z : Z) : Z := Z.lxor z (Z.land x (Z.lxor y z)).
(** curve25519.h:379-379 [Maj] *)
Definition Maj (x y z : Z) : Z := Z.lor (Z.land (Z.lor x y) z) (Z.land x y).
(** curve25519.h:381-381 [R] *)
Definition R (x n : Z) : Z := Z.shiftr (Z.land x 0xFFFFFFFF) n.
(** curve25519.h:382-382 [Sigma0] *)
Definition Sigma0 (x : Z) : Z := Z.lxor (Z.lxor (RORc x 2) (RORc x 13)) (RORc x 22).
(** curve25519.h:383-383 [Sigma1] *)
Definition Sigma1 (x : Z) : Z := Z.lxor (Z.lxor (RORc x 6) (RORc x 11)) (RORc x 25).
(** curve25519.h:384-384 [Gamma0] *)
Definition Gamma0 (x : Z) : Z := Z.lxor (Z.lxor (RORc x 7) (RORc x 18)) (R x 3).
(** curve25519.h:385-385 [Gamma1] *)
Definition Gamma1 (x : Z) : Z := Z.lxor (Z.lxor (RORc x 17) (RORc x 19)) (R x 10).

(** curve25519.h:404-467 [sha256_vcompress] The constants of the rounds, as the calls of [RND]
    list them. *)
Definition round_constants : list Z :=
  [ (* 428a2f98 71374491 b5c0fbcf e9b5dba5 3956c25b 59f111f1 923f82a4 ab1c5ed5 *)
   1116352408; 1899447441; 3049323471; 3921009573; 961987163; 1508970993; 2453635748; 2870763221;
   (* d807aa98 12835b01 243185be 550c7dc3 72be5d74 80deb1fe 9bdc06a7 c19bf174 *)
   3624381080; 310598401; 607225278; 1426881987; 1925078388; 2162078206; 2614888103; 3248222580;
   (* e49b69c1 efbe4786 0fc19dc6 240ca1cc 2de92c6f 4a7484aa 5cb0a9dc 76f988da *)
   3835390401; 4022224774; 264347078; 604807628; 770255983; 1249150122; 1555081692; 1996064986;
   (* 983e5152 a831c66d b00327c8 bf597fc7 c6e00bf3 d5a79147 06ca6351 14292967 *)
   2554220882; 2821834349; 2952996808; 3210313671; 3336571891; 3584528711; 113926993; 338241895;
   (* 27b70a85 2e1b2138 4d2c6dfc 53380d13 650a7354 766a0abb 81c2c92e 92722c85 *)
   666307205; 773529912; 1294757372; 1396182291; 1695183700; 1986661051; 2177026350; 2456956037;
   (* a2bfe8a1 a81a664b c24b8b70 c76c51a3 d192e819 d6990624 f40e3585 106aa070 *)
   2730485921; 2820302411; 3259730800; 3345764771; 3516065817; 3600352804; 4094571909; 275423344;
   (* 19a4c116 1e376c08 2748774c 34b0bcb5 391c0cb3 4ed8aa4a 5b9cca4f 682e6ff3 *)
   430227734; 506948616; 659060556; 883997877; 958139571; 1322822218; 1537002063; 1747873779;
   (* 748f82ee 78a5636f 84c87814 8cc70208 90befffa a4506ceb bef9a3f7 c67178f2 *)
   1955562222; 2024104815; 2227730452; 2361852424; 2428436474; 2756734187; 3204031479; 3329325298].

(** ** Compression *)

(** curve25519.h:393-396 [sha256_vcompress] The words of the block and those made of them. *)
Definition message_words (buf : list Z) : list Z :=
  let W := for_loop 16 0 (fun i W => zput W i (LOAD32H (drop (Z.to_nat (4 * i)) buf))) (replicate 64 0) in
  for_loop 48 16 (fun i W =>
    zput W i (u32 (Gamma1 (znth W (i - 2)) + znth W (i - 7) + Gamma0 (znth W (i - 15)) + znth W (i - 16)))) W.

(** curve25519.h:398-402 [RND] Round [i]: the names of the eight words turn by one place in
    each call. *)
Definition RND (W : list Z) (i : Z) (S : list Z) : list Z :=
  let at_ j := (j - i) mod 8 in
  let s j := znth S (at_ j) in
  let t0 := u32 (s 7 + Sigma1 (s 4) + Ch (s 4) (s 5) (s 6) + znth round_constants i + znth W i) in
  let t1 := u32 (Sigma0 (s 0) + Maj (s 0) (s 1) (s 2)) in
  let S := zput S (at_ 3) (u32 (s 3 + t0)) in
  zput S (at_ 7) (u32 (t0 + t1)).

(** curve25519.h:388-472 [sha256_vcompress] The new state. *)
Definition sha256_vcompress (state buf : list Z) : list Z :=
  let S := for_loop 8 0 (fun i S => zput S i (znth state i)) (replicate 8 0) in
  let W := message_words buf in
  let S := for_loop 64 0 (RND W) S in
  for_loop 8 0 (fun i state => zput state i (u32 (znth state i + znth S i))) state.

(** ** Processing *)

(** curve25519.h:330-330 [struct sha256_vstate] *)
Record sha256_vstate := mkSha { length : Z; state : list Z; curlen : Z; buf : list Z }.

(** curve25519.h:474-486 [sha256_vinit] *)
Definition sha256_vinit (md : sha256_vstate) : sha256_vstate :=
  mkSha 0 [0x6A09E667; 0xBB67AE85; 0x3C6EF372; 0xA54FF53A; 0x510E527F; 0x9B05688C; 0x1F83D9AB; 0x5BE0CD19] 0 (buf md).

(** [memcpy(mem + o, x, ...)] *)
Definition memcpy_at (mem : list Z) (o : Z) (x : list Z) : list Z :=
  take (Z.to_nat o) mem ++ x ++ drop (Z.to_nat o + List.length x) mem.

(** curve25519.h:493-514 [sha256_vprocess] The loop over the input; [None] when the fuel is
    spent. *)
Fixpoint process_loop (fuel : nat) (md : sha256_vstate) (input : list Z) : option sha256_vstate :=
  let inlen := Z.of_nat (List.length input) in
  if 0 <? inlen then
    match fuel with
    | O => None
    | S fuel =>
        if (curlen md =? 0) && (64 <=? inlen) then
          let md := mkSha (u64 (length md + 64 * 8)) (sha256_vcompress (state md) (take 64 input)) (curlen md) (buf md) in
          process_loop fuel md (drop 64 input)
        else
          let n := Z.min inlen (u32 (64 - curlen md)) in
          let b := memcpy_at (buf md) (curlen md) (take (Z.to_nat n) input) in
          let md := mkSha (length md) (state md) (u32 (curlen md + n)) b in
          let md :=
            if curlen md =? 64 then
              mkSha (u64 (length md + 8 * 64)) (sha256_vcompress (state md) (buf md)) 0 (buf md)
            else md in
          process_loop fuel md (drop (Z.to_nat n) input)
    end
  else Some md.

(** curve25519.h:488-516 [sha256_vprocess] The returned value and the state. *)
Definition sha256_vprocess (fuel : nat) (md : sha256_vstate) (input : list Z) : option (Z * sha256_vstate) :=
  if 64 <? curlen md then Some (-1, md)
  else md ← process_loop fuel md input; Some (0, md).

(** curve25519.h:528-529 [sha256_vdone] Zeros appended up to [last]. *)
Definition pad_zeros (md : sha256_vstate) (last : Z) : sha256_vstate :=
  let n := Z.to_nat (last - curlen md) in
  mkSha (length md) (state md) (Z.max (curlen md) last) (memcpy_at (buf md) (curlen md) (replicate n 0)).

(** curve25519.h:518-540 [sha256_vdone] The returned value, the hash and the state. *)
Definition sha256_vdone (md : sha256_vstate) : Z * list Z * sha256_vstate :=
  if 64 <=? curlen md then (-1, [], md)
  else
    let md := mkSha (u64 (length md + u32 (curlen md * 8))) (state md) (curlen md) (buf md) in
    let md := mkSha (length md) (state md) (curlen md + 1) (memcpy_at (buf md) (curlen md) [0x80]) in
    let md :=
      if 56 <? curlen md then
        let md := pad_zeros md 64 in
        mkSha (length md) (sha256_vcompress (state md) (buf md)) 0 (buf md)
      else md in
    let md := pad_zeros md 56 in
    let md := mkSha (length md) (state md) (curlen md) (memcpy_at (buf md) 56 (STORE64H (length md))) in
    let md := mkSha (length md) (sha256_vcompress (state md) (buf md)) (curlen md) (buf md) in
    (0, for_loop 8 0 (fun i out => out ++ STORE32H (znth (state md) i)) [], md).

(** The bytes of a new object on the stack are not specified. *)
Definition stack_state (garbage : list Z) : sha256_vstate := mkSha 0 [] 0 garbage.

(** curve25519.h:542-553 [vcalc_sha256] *)
Definition vcalc_sha256 (garbage src : list Z) : option (list Z) :=
  let md := sha256_vinit (stack_state garbage) in
  '(_, md) ← sha256_vprocess (List.length src) md src;
  let '(_, hash, _) := sha256_vdone md in Some hash.

(** curve25519.h:555-563 [vcalc_sha256cat] *)
Definition vcalc_sha256cat (garbage src : list Z) (src2 : option (list Z)) : option (list Z) :=
  let md := sha256_vinit (stack_state garbage) in
  '(_, md) ← sha256_vprocess (List.length src) md src;
  md ← match src2 with
       | Some src2 => '(_, md) ← sha256_vprocess (List.length src2) md src2; Some md
       | None => Some md
       end;
  let '(_, hash, _) := sha256_vdone md in Some hash.

(** curve25519.h:565-578 [vupdate_sha256] The hash so far and the state to continue with. *)
Definition vupdate_sha256 (st : sha256_vstate) (src : option (list Z)) : option (list Z * sha256_vstate) :=
  let zeros := mkSha 0 (replicate 8 0) 0 (replicate 64 0) in
  md ← match src with
       | None => Some (sha256_vinit zeros)
       | Some src => '(_, md) ← sha256_vprocess (List.length src) st src; Some md
       end;
  let '(_, hash, _) := sha256_vdone md in Some (hash, md).

Example sha256_abc :
  vcalc_sha256 (replicate 64 0) [97; 98; 99] = Some
    [186; 120; 22; 191; 143; 1; 207; 234; 65; 65; 64; 222; 93; 174; 34; 35;
     176; 3; 97; 163; 150; 23; 122; 156; 180; 16; 255; 97; 242; 0; 21; 173].
Proof. vm_compute. reflexivity. Qed.

(** ** The standard

    FIPS 180-4, written without the tables and the writers of the code.  The constants are the
    first 32 bits of the fractional parts of the square roots of the first eight primes and of
    the cube roots of the first 64. *)

Definition primes : list Z := filter (fun n => forallb (fun d => negb (n mod d =? 0)) (seqZ 2 (n - 2)) = true) (seqZ 2 310).

(** The largest number of at most 36 bits whose [k]th power is at most [n]. *)
Definition root_below (k n : Z) : Z :=
  foldl (fun r i => if (r + 2 ^ (35 - i)) ^ k <=? n then r + 2 ^ (35 - i) else r) 0 (seqZ 0 36).

Definition IV : list Z := Eval vm_compute in map (fun q => root_below 2 (q * 2 ^ 64) mod 2 ^ 32) (take 8 primes).
Definition K : list Z := Eval vm_compute in map (fun q => root_below 3 (q * 2 ^ 96) mod 2 ^ 32) primes.

(** The [n] bytes of a number, the highest first. *)
Definition be_bytes (n : nat) (x : Z) : list Z := rev (le_bytes n x).

(** Rotations, the two choices of bits, the schedule of 64 words and the rounds on the eight
    working variables. *)
Definition rotr (n x : Z) : Z := x / 2 ^ n + 2 ^ (32 - n) * (x mod 2 ^ n).
Definition ch (x y z : Z) : Z := Z.lxor (Z.land x y) (Z.land (Z.lnot x) z).
Definition maj (x y z : Z) : Z := Z.lxor (Z.lxor (Z.land x y) (Z.land x z)) (Z.land y z).
Definition big_sigma0 (x : Z) : Z := Z.lxor (Z.lxor (rotr 2 x) (rotr 13 x)) (rotr 22 x).
Definition big_sigma1 (x : Z) : Z := Z.lxor (Z.lxor (rotr 6 x) (rotr 11 x)) (rotr 25 x).
Definition small_sigma0 (x : Z) : Z := Z.lxor (Z.lxor (rotr 7 x) (rotr 18 x)) (x / 2 ^ 3).
Definition small_sigma1 (x : Z) : Z := Z.lxor (Z.lxor (rotr 17 x) (rotr 19 x)) (x / 2 ^ 10).

(** The word of four bytes, the highest first. *)
Definition be_word (b : list Z) (i : Z) : Z :=
  2 ^ 24 * znth b (4 * i) + 2 ^ 16 * znth b (4 * i + 1) + 2 ^ 8 * znth b (4 * i + 2) + znth b (4 * i + 3).

Definition next_word (W : list Z) : Z :=
  let t := Z.of_nat (List.length W) in
  u32 (small_sigma1 (znth W (t - 2)) + znth W (t - 7) + small_sigma0 (znth W (t - 15)) + znth W (t - 16)).

Definition schedule (block : list Z) : list Z :=
  Nat.iter 48 (fun W => W ++ [next_word W]) (map (be_word block) (seqZ 0 16)).

Definition round (v : list Z) (kw : Z * Z) : list Z :=
  match v with
  | [a; b; c; d; e; f; g; h] =>
      let t1 := h + big_sigma1 e + ch e f g + fst kw + snd kw in
      let t2 := big_sigma0 a + maj a b c in
      [u32 (t1 + t2); a; b; c; u32 (d + t1); e; f; g]
  | _ => v
  end.

Definition compress (h block : list Z) : list Z :=
  zip_with (fun x y => u32 (x + y)) h (foldl round h (zip K (schedule block))).

(** The constants of the code are those of the standard, and so are its writers. *)
Lemma constants_standard : K = round_constants.
Proof. reflexivity. Qed.

Lemma byte_of_shift x n : byte_of x n = u8 (Z.shiftr x n).
Proof. unfold byte_of. change 255 with (Z.ones 8). rewrite Z.land_ones by done. unfold uwrap. apply Zmod_mod. Qed.

Lemma STORE32H_be x : STORE32H x = be_bytes 4 x.
Proof.
  unfold STORE32H. change (u8 (Z.land x 255)) with (byte_of x 0). rewrite !byte_of_shift. unfold be_bytes. change (le_bytes 4 x) with [u8 x; u8 (Z.shiftr x 8); u8 (Z.shiftr (Z.shiftr x 8) 8); u8 (Z.shiftr (Z.shiftr (Z.shiftr x 8) 8) 8)]. cbn [rev app]. rewrite !Z.shiftr_shiftr by lia. reflexivity.
Qed.

Lemma STORE64H_be x : STORE64H x = be_bytes 8 x.
Proof.
  unfold STORE64H. change (u8 (Z.land x 255)) with (byte_of x 0). rewrite !byte_of_shift. unfold be_bytes. change (le_bytes 8 x) with [u8 x; u8 (Z.shiftr x 8); u8 (Z.shiftr (Z.shiftr x 8) 8); u8 (Z.shiftr (Z.shiftr (Z.shiftr x 8) 8) 8); u8 (Z.shiftr (Z.shiftr (Z.shiftr (Z.shiftr x 8) 8) 8) 8); u8 (Z.shiftr (Z.shiftr (Z.shiftr (Z.shiftr (Z.shiftr x 8) 8) 8) 8) 8); u8 (Z.shiftr (Z.shiftr (Z.shiftr (Z.shiftr (Z.shiftr (Z.shiftr x 8) 8) 8) 8) 8) 8); u8 (Z.shiftr (Z.shiftr (Z.shiftr (Z.shiftr (Z.shiftr (Z.shiftr (Z.shiftr x 8) 8) 8) 8) 8) 8) 8)]. cbn [rev app]. rewrite !Z.shiftr_shiftr by lia. reflexivity.
Qed.

Lemma be_bytes_bytes n x : bytes (be_bytes n x).
Proof. unfold be_bytes. apply Forall_rev, le_bytes_bytes. Qed.

Lemma be_bytes_length n x : List.length (be_bytes n x) = n.
Proof. unfold be_bytes. by rewrite length_rev, le_bytes_length. Qed.

Definition word (x : Z) : Prop := 0 <= x < 2 ^ 32.

Lemma u32_word x : word (u32 x).
Proof. by apply (uwrap_range 32). Qed.

Lemma RORc_rotr n x : 0 < n < 32 -> word x -> RORc x n = rotr n x.
Proof.
  intros Hn Hx. unfold word in Hx. unfold RORc, rotr. cbv zeta. change 0xFFFFFFFF with (Z.ones 32).
  change 31 with (Z.ones 5). rewrite !Z.land_ones by lia. rewrite (Z.mod_small n), (Z.mod_small x) by (change (2 ^ 5) with 32; lia).
  rewrite Z.shiftr_div_pow2 by lia. assert (P : 2 ^ 32 = 2 ^ n * 2 ^ (32 - n)) by (rewrite <- Z.pow_add_r by lia; f_equal; lia).
  assert (0 < 2 ^ n) by lia. assert (0 < 2 ^ (32 - n)) by lia.
  pose proof (Z.mod_pos_bound x (2 ^ n) ltac:(lia)). pose proof (Z.div_mod x (2 ^ n) ltac:(lia)) as D.
  assert (E : u32 (Z.shiftl x (32 - n)) = Z.shiftl (x mod 2 ^ n) (32 - n)).
  { rewrite !Z.shiftl_mul_pow2 by lia. unfold uwrap. symmetry. apply (Z.mod_unique_pos _ _ (x / 2 ^ n)); nia. }
  rewrite E, lor_shiftl by (try lia; nia). apply Z.mod_small. nia.
Qed.

Lemma Ch_ch x y z : Ch x y z = ch x y z.
Proof.
  unfold Ch, ch. apply Z.bits_inj'. intros i Hi. rewrite !Z.lxor_spec, !Z.land_spec, Z.lxor_spec, Z.lnot_spec by done.
  by destruct (Z.testbit x i), (Z.testbit y i), (Z.testbit z i).
Qed.

Lemma Maj_maj x y z : Maj x y z = maj x y z.
Proof.
  unfold Maj, maj. apply Z.bits_inj'. intros i Hi. rewrite !Z.lxor_spec, !Z.lor_spec, !Z.land_spec, Z.lor_spec by done.
  by destruct (Z.testbit x i), (Z.testbit y i), (Z.testbit z i).
Qed.

Lemma sigmas x : word x ->
  Sigma0 x = big_sigma0 x /\ Sigma1 x = big_sigma1 x /\ Gamma0 x = small_sigma0 x /\ Gamma1 x = small_sigma1 x.
Proof.
  intros Hx. unfold Sigma0, Sigma1, Gamma0, Gamma1, R. rewrite !RORc_rotr by (done || lia).
  change 0xFFFFFFFF with (Z.ones 32). rewrite !Z.land_ones, !(Z.mod_small x), !Z.shiftr_div_pow2 by (done || lia). done.
Qed.

Lemma LOAD32H_be b i :
  bytes b -> 0 <= i -> LOAD32H (drop (Z.to_nat (4 * i)) b) = be_word b i.
Proof.
  intros Hb Hi. unfold LOAD32H, be_word.
  assert (E : forall k, 0 <= k -> znth (drop (Z.to_nat (4 * i)) b) k = znth b (4 * i + k)).
  { intros k Hk. unfold znth, aget. destruct (Z.leb_spec 0 k); [|lia]. destruct (Z.leb_spec 0 (4 * i + k)); [|lia].
    rewrite lookup_drop. replace (Z.to_nat (4 * i) + Z.to_nat k)%nat with (Z.to_nat (4 * i + k)) by lia. done. }
  rewrite !E, Z.add_0_r by lia. change 255 with (Z.ones 8). rewrite !Z.land_ones by lia.
  assert (B : forall k, 0 <= znth b k < 2 ^ 8) by (intros k; by apply Forall_znth).
  rewrite !(Z.mod_small (znth b _)) by apply B.
  pose proof (B (4 * i)). pose proof (B (4 * i + 1)). pose proof (B (4 * i + 2)). pose proof (B (4 * i + 3)).
  change (2 ^ 8) with 256 in *. change (2 ^ 16) with 65536. change (2 ^ 24) with 16777216.
  generalize dependent (znth b (4 * i)). generalize dependent (znth b (4 * i + 1)).
  generalize dependent (znth b (4 * i + 2)). generalize dependent (znth b (4 * i + 3)). clear. intros x3 H3 x2 H2 x1 H1 x0 H0.
  rewrite !Z.shiftl_mul_pow2 by lia. replace (x0 * 2 ^ 24) with (2 ^ 24 * x0) by lia.
  rewrite (lor_mul x0 (x1 * 2 ^ 16) 24) by (change (2 ^ 24) with 16777216; change (2 ^ 16) with 65536; lia).
  replace (2 ^ 24 * x0 + x1 * 2 ^ 16) with (2 ^ 16 * (256 * x0 + x1)) by (change (2 ^ 24) with 16777216; change (2 ^ 16) with 65536; lia).
  rewrite (lor_mul _ (x2 * 2 ^ 8) 16) by (change (2 ^ 16) with 65536; change (2 ^ 8) with 256; lia).
  replace (2 ^ 16 * (256 * x0 + x1) + x2 * 2 ^ 8) with (2 ^ 8 * (65536 * x0 + 256 * x1 + x2))
    by (change (2 ^ 16) with 65536; change (2 ^ 8) with 256; lia).
  rewrite (lor_mul _ x3 8) by (change (2 ^ 8) with 256; lia). change (2 ^ 8) with 256. lia.
Qed.

Lemma be_word_range b i : bytes b -> word (be_word b i).
Proof.
  intros Hb. assert (B : forall k, 0 <= znth b k < 256) by (intros k; by apply Forall_znth).
  pose proof (B (4 * i)). pose proof (B (4 * i + 1)). pose proof (B (4 * i + 2)). pose proof (B (4 * i + 3)).
  unfold word, be_word. change (2 ^ 8) with 256. change (2 ^ 16) with 65536. change (2 ^ 24) with 16777216.
  change (2 ^ 32) with 4294967296. lia.
Qed.

(** The array of 64 words holds the schedule as far as it is computed. *)
Definition filled (W L : list Z) : Prop :=
  List.length W = 64%nat /\ (List.length L <= 64)%nat /\ Forall word L /\
  forall j, 0 <= j < Z.of_nat (List.length L) -> znth W j = znth L j.

Lemma znth_snoc L x j : 0 <= j <= Z.of_nat (List.length L) ->
  znth (L ++ [x]) j = if j =? Z.of_nat (List.length L) then x else znth L j.
Proof.
  intros Hj. unfold znth, aget. destruct (Z.leb_spec 0 j); [|lia]. destruct (Z.eqb_spec j (Z.of_nat (List.length L))) as [->|].
  - by rewrite lookup_app_r, Nat2Z.id, Nat.sub_diag by lia.
  - by rewrite lookup_app_l by lia.
Qed.

Lemma filled_put W L x :
  filled W L -> (List.length L < 64)%nat -> word x -> filled (zput W (Z.of_nat (List.length L)) x) (L ++ [x]).
Proof.
  intros (HW & HL & Hw & H) Hlt Hx. split_and!.
  - by rewrite zput_length.
  - rewrite length_app. cbn [List.length]. lia.
  - by apply list.Forall_app_2; [|apply list.Forall_cons_2].
  - intros j Hj. rewrite length_app in Hj. cbn [List.length] in Hj. rewrite znth_zput, znth_snoc by lia.
    destruct (Z.eqb_spec (Z.of_nat (List.length L)) j) as [->|]; [by rewrite Z.eqb_refl|].
    destruct (Z.eqb_spec j (Z.of_nat (List.length L))); [lia|]. apply H. lia.
Qed.

Lemma message_words_schedule b : bytes b -> filled (message_words b) (schedule b).
Proof.
  intros Hb. unfold message_words, schedule. cbv zeta.
  set (W1 := for_loop 16 0 _ _). set (body := fun i W => zput W i _).
  assert (H16 : filled W1 (map (be_word b) (seqZ 0 16))).
  { pose proof (for_loop_inv (fun i W => filled W (map (be_word b) (seqZ 0 i))) 16 0
      (fun i W => zput W i (LOAD32H (drop (Z.to_nat (4 * i)) b))) (replicate 64 0)) as H.
    cbv beta in H. change (0 + Z.of_nat 16) with 16 in H. apply H; clear H.
    - intros j W Hj HW. rewrite seqZ_app, map_app by lia. cbn [seqZ map]. rewrite LOAD32H_be by (done || lia).
      replace j with (Z.of_nat (List.length (map (be_word b) (seqZ 0 j)))) at 1 by (rewrite length_map, length_seqZ; lia).
      apply filled_put; [done|rewrite length_map, length_seqZ; lia|by apply be_word_range].
    - change (map (be_word b) (seqZ 0 0)) with (@nil Z). split_and!; [done|cbn; lia|constructor|]. intros j Hj. cbn in Hj. lia. }
  clearbody W1. assert (Hn : forall n, (n <= 48)%nat ->
    filled (for_loop n 16 body W1) (Nat.iter n (fun W => W ++ [next_word W]) (map (be_word b) (seqZ 0 16))) /\
    List.length (Nat.iter n (fun W => W ++ [next_word W]) (map (be_word b) (seqZ 0 16))) = (16 + n)%nat).
  { induction n as [|n IH]; intros Hn; [done|]. destruct IH as [IH Hlen]; [lia|]. rewrite for_loop_snoc.
    change (Nat.iter (S n) (fun W => W ++ [next_word W]) (map (be_word b) (seqZ 0 16)))
      with ((fun W => W ++ [next_word W]) (Nat.iter n (fun W => W ++ [next_word W]) (map (be_word b) (seqZ 0 16)))).
    revert IH Hlen. generalize (for_loop n 16 body W1) as W.
    generalize (Nat.iter n (fun W => W ++ [next_word W]) (map (be_word b) (seqZ 0 16))) as L. intros L W IH Hlen.
    split; [|rewrite length_app, Hlen; cbn [List.length]; lia]. cbv beta.
    assert (E : body (16 + Z.of_nat n) W = zput W (Z.of_nat (List.length L)) (next_word L)).
    { unfold body, next_word. replace (16 + Z.of_nat n) with (Z.of_nat (List.length L)) by lia. cbv zeta.
      pose proof IH as (_ & _ & Hw & Hz). rewrite !Hz by lia.
      assert (Hr : forall k, word (znth L k)) by (intros k; by apply Forall_znth).
      destruct (sigmas (znth L (Z.of_nat (List.length L) - 15)) (Hr _)) as (_ & _ & -> & _).
      destruct (sigmas (znth L (Z.of_nat (List.length L) - 2)) (Hr _)) as (_ & _ & _ & ->). done. }
    rewrite E. apply filled_put; [done|lia|apply u32_word]. }
  apply (Hn 48%nat). lia.
Qed.

(** ** The rounds *)

(** Before round [i] the array holds the working variables, turned by [i] places. *)
Definition turned (i : Z) (S v : list Z) : Prop :=
  List.length S = 8%nat /\ List.length v = 8%nat /\ Forall word v /\
  forall j, 0 <= j < 8 -> znth S ((j - i) mod 8) = znth v j.

Lemma turn_eq j k i : 0 <= j < 8 -> 0 <= k < 8 -> (((j - i) mod 8) =? ((k - i) mod 8)) = (j =? k).
Proof. intros Hj Hk. destruct (Z.eqb_spec j k) as [->|Hne]; [by rewrite Z.eqb_refl|]. apply Z.eqb_neq. dmlia. Qed.

Lemma RND_round W i S v :
  turned i S v -> word (znth W i) ->
  turned (i + 1) (RND W i S) (round v (znth round_constants i, znth W i)).
Proof.
  intros (HS & Hv & Hw & H) HW. do 8 (destruct v as [|? v]; [done|]). destruct v; [|done].
  rewrite !list.Forall_cons in Hw. destruct_and?.
  assert (Hi : forall j, 0 <= (j - i) mod 8 < 8) by (intros j; apply Z.mod_pos_bound; lia).
  unfold RND. cbv zeta. rewrite !H by lia.
  repeat match goal with |- context [znth (?x :: ?l) ?k] =>
    let e := eval cbv in (znth (x :: l) k) in change (znth (x :: l) k) with e end.
  rewrite Ch_ch, Maj_maj. destruct (sigmas z) as (-> & _); [done|]. destruct (sigmas z3) as (_ & -> & _); [done|].
  cbn [round fst snd]. set (t1 := z6 + big_sigma1 z3 + ch z3 z4 z5 + znth round_constants i + znth W i).
  set (t2 := big_sigma0 z + maj z z0 z1).
  assert (Ed : u32 (z2 + u32 t1) = u32 (z2 + t1)) by (unfold uwrap; by rewrite Zplus_mod_idemp_r).
  assert (Eh : u32 (u32 t1 + u32 t2) = u32 (t1 + t2)) by (unfold uwrap; by rewrite <- Zplus_mod).
  rewrite Ed, Eh. split_and!.
  - by rewrite !zput_length.
  - done.
  - rewrite !list.Forall_cons. split_and!; try done; apply u32_word.
  - intros j Hj. assert (Ej : (j - (i + 1)) mod 8 = ((if j =? 0 then 7 else j - 1) - i) mod 8).
    { destruct (Z.eqb_spec j 0) as [->|]; [dmlia|]. f_equal. lia. }
    rewrite Ej, !znth_zput by (rewrite ?zput_length, HS; apply Hi).
    assert (Hk : 0 <= (if j =? 0 then 7 else j - 1) < 8) by (destruct (Z.eqb_spec j 0); lia).
    rewrite !turn_eq, H by lia. clear - Hj.
    assert (j = 0 \/ j = 1 \/ j = 2 \/ j = 3 \/ j = 4 \/ j = 5 \/ j = 6 \/ j = 7) as Hc by lia.
    by destruct Hc as [->|[->|[->|[->|[->|[->|[->| ->]]]]]]].
Qed.

Lemma foldl_zip_loop W L n : forall v,
  (n <= 64)%nat -> filled W L -> List.length L = 64%nat ->
  forall S, turned 0 S v -> turned (Z.of_nat n) (for_loop n 0 (RND W) S)
    (foldl round v (take n (zip round_constants L))).
Proof.
  induction n as [|n IH]; intros v Hn HF HL S HS; [exact HS|].
  rewrite for_loop_snoc. replace (Z.of_nat (Datatypes.S n)) with (Z.of_nat n + 1) by lia. rewrite Z.add_0_l.
  pose proof HF as (_ & _ & Hw & Hz).
  assert (Hc : round_constants !! n = Some (znth round_constants (Z.of_nat n))).
  { unfold znth, aget. destruct (Z.leb_spec 0 (Z.of_nat n)); [|lia]. rewrite Nat2Z.id.
    destruct (lookup_lt_is_Some_2 round_constants n) as [x ->]; [cbn; lia|done]. }
  assert (HLn : L !! n = Some (znth L (Z.of_nat n))).
  { unfold znth, aget. destruct (Z.leb_spec 0 (Z.of_nat n)); [|lia]. rewrite Nat2Z.id.
    destruct (lookup_lt_is_Some_2 L n) as [x ->]; [lia|done]. }
  rewrite (take_S_r _ _ (znth round_constants (Z.of_nat n), znth W (Z.of_nat n))).
  - rewrite foldl_app. cbn [foldl]. apply RND_round; [apply IH; (done || lia)|]. rewrite Hz by lia. by apply Forall_znth.
  - apply lookup_zip_with_Some. exists (znth round_constants (Z.of_nat n)), (znth L (Z.of_nat n)).
    rewrite Hz by lia. done.
Qed.

Lemma vcompress_reference st b :
  List.length st = 8%nat -> Forall word st -> bytes b ->
  sha256_vcompress st b = compress st b.
Proof.
  intros Hl Hw Hb. unfold sha256_vcompress, compress. rewrite constants_standard. cbv zeta.
  set (S0 := for_loop 8 0 (fun i S => zput S i (znth st i)) (replicate 8 0)).
  assert (E0 : S0 = st) by (do 8 (destruct st as [|? st]; [done|]); destruct st; [|done]; reflexivity).
  assert (H0 : turned 0 S0 st).
  { rewrite E0. split_and!; try done. intros j Hj. by rewrite Z.sub_0_r, Z.mod_small. }
  pose proof (message_words_schedule b Hb) as HF.
  assert (HL : List.length (schedule b) = 64%nat).
  { unfold schedule. assert (H : forall n l, List.length (Nat.iter n (fun W => W ++ [next_word W]) l) = (List.length l + n)%nat).
    { induction n as [|n IH]; intros l; [cbn; lia|].
      change (Nat.iter (S n) (fun W => W ++ [next_word W]) l) with (Nat.iter n (fun W => W ++ [next_word W]) l ++ [next_word (Nat.iter n (fun W => W ++ [next_word W]) l)]).
      rewrite length_app, IH. cbn [List.length]. lia. }
    rewrite H, length_map, length_seqZ. done. }
  pose proof (foldl_zip_loop (message_words b) (schedule b) 64 st (le_n _) HF HL S0 H0) as (HS & Hv & _ & Hr).
  rewrite take_ge in Hv, Hr by (rewrite length_zip_with, HL; cbn; lia).
  revert HS Hr Hv. generalize (for_loop 64 0 (RND (message_words b)) S0) as S64.
  generalize (foldl round st (zip round_constants (schedule b))) as v. intros v S64 HS Hr Hv.
  assert (E : forall j, 0 <= j < 8 -> znth S64 j = znth v j).
  { intros j Hj. rewrite <- Hr by done. f_equal. change (Z.of_nat 64) with 64. dmlia. }
  clear - Hl Hv E HS. do 8 (destruct st as [|? st]; [done|]). destruct st; [|done].
  do 8 (destruct v as [|? v]; [done|]). destruct v; [|done].
  do 8 (destruct S64 as [|? S64]; [done|]). destruct S64; [|done].
  assert (z15 = z7) as -> by exact (E 0 ltac:(lia)). assert (z16 = z8) as -> by exact (E 1 ltac:(lia)).
  assert (z17 = z9) as -> by exact (E 2 ltac:(lia)). assert (z18 = z10) as -> by exact (E 3 ltac:(lia)).
  assert (z19 = z11) as -> by exact (E 4 ltac:(lia)). assert (z20 = z12) as -> by exact (E 5 ltac:(lia)).
  assert (z21 = z13) as -> by exact (E 6 ltac:(lia)). assert (z22 = z14) as -> by exact (E 7 ltac:(lia)).
  reflexivity.
Qed.

(** Compression.  On eight words and a block of bytes [sha256_vcompress] is the
    compression of the standard: the rounds on an array whose names turn are the rounds on
    eight working variables that shift, the tricks for the choices of bits are their
    definitions, and the array of words is the message schedule. *)
Theorem sha256_vcompress_reference st b :
  List.length st = 8%nat -> Forall word st -> bytes b ->
  sha256_vcompress st b = compress st b.
Proof. exact (vcompress_reference st b). Qed.

Lemma sha256_vcompress_reference_witness :
  let block := [97; 98; 99; 128] ++ replicate 59 0 ++ [24] in
  let st := [0x6A09E667; 0xBB67AE85; 0x3C6EF372; 0xA54FF53A; 0x510E527F; 0x9B05688C; 0x1F83D9AB; 0x5BE0CD19] in
  List.length st = 8%nat /\ sha256_vcompress st block = compress st block.
Proof.
  split; [reflexivity|]. apply sha256_vcompress_reference.
  - reflexivity.
  - repeat constructor; discriminate.
  - repeat constructor; lia.
Defined.

(** ** Cutting the message *)

Abbreviation len := List.length.

(** The value after [q] blocks of a message, for a compression [f]. *)
Fixpoint hash_blocks_with (f : list Z -> list Z -> list Z) (q : nat) (h : list Z) (m : list Z) : list Z :=
  match q with O => h | S q => hash_blocks_with f q (f h (take 64 m)) (drop 64 m) end.

Abbreviation hash_blocks := (hash_blocks_with sha256_vcompress).

Lemma hash_blocks_snoc q : forall h m,
  hash_blocks (S q) h m = sha256_vcompress (hash_blocks q h m) (take 64 (drop (64 * q) m)).
Proof.
  induction q as [|q IH]; intros h m; [done|]. change (hash_blocks (S (S q)) h m)
    with (hash_blocks (S q) (sha256_vcompress h (take 64 m)) (drop 64 m)).
  rewrite IH, drop_drop. change (hash_blocks (S q) h m) with (hash_blocks q (sha256_vcompress h (take 64 m)) (drop 64 m)).
  replace (64 + 64 * q)%nat with (64 * S q)%nat by lia. done.
Qed.

Lemma hash_blocks_app q : forall h m x, (64 * q <= len m)%nat -> hash_blocks q h (m ++ x) = hash_blocks q h m.
Proof.
  induction q as [|q IH]; intros h m x Hl; [done|]. cbn [hash_blocks_with].
  rewrite take_app_le, drop_app_le by lia. apply IH. rewrite length_drop. lia.
Qed.

Lemma hash_blocks_add q q' : forall h m, hash_blocks (q + q') h m = hash_blocks q' (hash_blocks q h m) (drop (64 * q) m).
Proof.
  induction q as [|q IH]; intros h m; [done|]. cbn [Nat.add hash_blocks_with]. rewrite IH, drop_drop.
  by replace (64 + 64 * q)%nat with (64 * S q)%nat by lia.
Qed.

(** What the state means: the message [m] has been read so far. *)
Record holds_at (q r : nat) (m : list Z) (md : sha256_vstate) : Prop := {
  at_len : len m = (64 * q + r)%nat;
  at_rest : (r < 64)%nat;
  at_bits : length md = u64 (512 * Z.of_nat q);
  at_state : state md = hash_blocks q IV m;
  at_cur : curlen md = Z.of_nat r;
  at_buf : take r (buf md) = drop (64 * q) m;
  at_size : len (buf md) = 64%nat }.

Definition holds (m : list Z) (md : sha256_vstate) : Prop := exists q r, holds_at q r m md.

Lemma u64_add_blocks q : u64 (u64 (512 * Z.of_nat q) + 64 * 8) = u64 (512 * Z.of_nat (S q)).
Proof. unfold uwrap. rewrite Zplus_mod_idemp_l. f_equal. lia. Qed.

Lemma memcpy_at_length mem o x :
  0 <= o -> (Z.to_nat o + len x <= len mem)%nat -> len (memcpy_at mem o x) = len mem.
Proof. intros Ho Hl. unfold memcpy_at. rewrite !length_app, length_take, length_drop. lia. Qed.

Lemma memcpy_at_take mem r x :
  (r + len x <= len mem)%nat -> take (r + len x) (memcpy_at mem (Z.of_nat r) x) = take r mem ++ x.
Proof.
  intros Hl. unfold memcpy_at. rewrite Nat2Z.id, app_assoc.
  rewrite take_app_length'; [done|]. rewrite length_app, length_take. lia.
Qed.

(** A whole block of the input, the buffer empty. *)
Lemma absorb_block m md x :
  holds m md -> curlen md = 0 -> len x = 64%nat ->
  holds (m ++ x) (mkSha (u64 (length md + 64 * 8)) (sha256_vcompress (state md) x) (curlen md) (buf md)).
Proof.
  intros (q & r & []) Hc Hx. assert (r = 0%nat) as -> by lia. exists (S q), 0%nat.
  split; cbn [length state curlen buf]; try done; try (clear; lia).
  - rewrite length_app. lia.
  - by rewrite at_bits0, u64_add_blocks.
  - rewrite hash_blocks_snoc, hash_blocks_app, at_state0 by lia. f_equal.
    rewrite drop_app_length' by lia. by rewrite take_ge by lia.
  - rewrite drop_ge by (rewrite length_app; lia). done.
Qed.

(** A piece of the input into the buffer, which is compressed when it is full. *)
Lemma absorb_piece m md x :
  holds m md -> (0 < len x)%nat -> curlen md + Z.of_nat (len x) <= 64 ->
  let b := memcpy_at (buf md) (curlen md) x in
  let md := mkSha (length md) (state md) (u32 (curlen md + Z.of_nat (len x))) b in
  holds (m ++ x)
    (if curlen md =? 64 then mkSha (u64 (length md + 8 * 64)) (sha256_vcompress (state md) (buf md)) 0 (buf md) else md).
Proof.
  intros (q & r & []) Hx Hn. cbv zeta. cbn [length state curlen buf]. rewrite at_cur0 in *.
  rewrite uwrap_small by lia.
  assert (Hb : take (r + len x) (memcpy_at (buf md) (Z.of_nat r) x) = drop (64 * q) (m ++ x)).
  { rewrite memcpy_at_take by lia. rewrite at_buf0, drop_app_le by lia. done. }
  assert (Hs : len (memcpy_at (buf md) (Z.of_nat r) x) = 64%nat).
  { rewrite memcpy_at_length; lia. }
  destruct (Z.eqb_spec (Z.of_nat r + Z.of_nat (len x)) 64) as [E|E].
  - exists (S q), 0%nat. split; cbn [length state curlen buf]; try done; try (clear; lia).
    + rewrite length_app. lia.
    + by rewrite at_bits0, u64_add_blocks.
    + rewrite hash_blocks_snoc, hash_blocks_app, at_state0 by lia. f_equal.
      rewrite <- Hb. rewrite !take_ge by (rewrite ?length_take; lia). done.
    + rewrite drop_ge by (rewrite length_app; lia). done.
  - exists q, (r + len x)%nat. split; cbn [length state curlen buf]; try done; try (clear; lia).
    + rewrite length_app. lia.
    + lia.
    + by rewrite at_state0, hash_blocks_app by lia.
Qed.

(** The loop ends and has read its input. *)
Lemma process_loop_holds fuel : forall m md input,
  holds m md -> (len input <= fuel)%nat ->
  exists md', process_loop fuel md input = Some md' /\ holds (m ++ input) md'.
Proof.
  induction fuel as [|fuel IH]; intros m md input Hm Hf.
  - destruct input; [|cbn [len] in Hf; lia]. exists md. by rewrite app_nil_r.
  - cbn [process_loop]. destruct (Z.ltb_spec 0 (Z.of_nat (len input))) as [Hpos|Hpos].
    2: { destruct input; [|cbn [len] in Hpos; lia]. exists md. by rewrite app_nil_r. }
    pose proof Hm as (q & r & Hat). pose proof (at_cur _ _ _ _ Hat) as Hc. pose proof (at_rest _ _ _ _ Hat) as Hr.
    destruct (Z.eqb_spec (curlen md) 0) as [E0|E0]; [destruct (Z.leb_spec 64 (Z.of_nat (len input))) as [E1|E1]|]; cbn [andb].
    1: { destruct (IH (m ++ take 64 input) _ (drop 64 input)
          (absorb_block m md (take 64 input) Hm E0 ltac:(rewrite length_take; lia))) as (md' & E & H).
         { rewrite length_drop. lia. }
         exists md'. split; [exact E|]. by rewrite <- app_assoc, take_drop in H. }
    all: set (n := Z.min _ _); assert (Hn : 0 < n /\ n <= Z.of_nat (len input) /\ curlen md + n <= 64)
      by (unfold n; rewrite uwrap_small by lia; lia).
    all: assert (Hlen : len (take (Z.to_nat n) input) = Z.to_nat n) by (rewrite length_take; lia).
    all: pose proof (absorb_piece m md (take (Z.to_nat n) input) Hm ltac:(lia) ltac:(lia)) as Hp; cbv zeta in Hp.
    all: rewrite Hlen, Z2Nat.id in Hp by lia.
    all: destruct (IH _ _ (drop (Z.to_nat n) input) Hp) as (md' & E & H); [rewrite length_drop; lia|].
    all: exists md'; split; [exact E|by rewrite <- app_assoc, take_drop in H].
Qed.

(** ** The padded message *)

Definition padding (m : list Z) : list Z :=
  [0x80] ++ replicate (Z.to_nat ((55 - Z.of_nat (len m)) mod 64)) 0 ++ be_bytes 8 (8 * Z.of_nat (len m)).

Definition digest_with (f : list Z -> list Z -> list Z) (m : list Z) : list Z :=
  let padded := m ++ padding m in
  concat (map (be_bytes 4) (hash_blocks_with f (len padded / 64) IV padded)).

(** The hash of the standard. *)
Definition sha256 (m : list Z) : list Z := digest_with compress m.
Abbreviation digest := (digest_with sha256_vcompress).

Lemma round_words v kw : len v = 8%nat /\ Forall word v -> len (round v kw) = 8%nat /\ Forall word (round v kw).
Proof.
  intros [Hl Hw]. do 8 (destruct v as [|? v]; [done|]). destruct v; [|done].
  rewrite !list.Forall_cons in Hw. destruct_and?. split; [done|]. cbn [round].
  rewrite !list.Forall_cons. split_and!; try done; apply u32_word.
Qed.

Lemma compress_words h b : len h = 8%nat -> Forall word h -> len (compress h b) = 8%nat /\ Forall word (compress h b).
Proof.
  intros Hl Hw. unfold compress. assert (H : forall l v, len v = 8%nat /\ Forall word v -> len (foldl round v l) = 8%nat).
  { induction l as [|x l IH]; intros v Hv; [by destruct Hv|]. cbn [foldl]. apply IH. by apply round_words. }
  split; [rewrite length_zip_with, H; [lia|done]|].
  generalize (foldl round h (zip K (schedule b))). clear.
  induction h as [|x h IH]; intros [|y l]; cbn; constructor; [apply u32_word|done].
Qed.

Lemma hash_blocks_reference q : forall h m,
  bytes m -> len h = 8%nat -> Forall word h -> hash_blocks q h m = hash_blocks_with compress q h m.
Proof.
  induction q as [|q IH]; intros h m Hm Hl Hw; [done|]. cbn [hash_blocks_with].
  rewrite vcompress_reference by (try done; by apply list.Forall_take).
  destruct (compress_words h (take 64 m) Hl Hw). apply IH; [by apply list.Forall_drop|done|done].
Qed.

Lemma digest_sha256 m : bytes m -> digest m = sha256 m.
Proof.
  intros Hm. unfold sha256, digest_with. cbv zeta. rewrite hash_blocks_reference; [done| |done|].
  - apply list.Forall_app_2; [done|]. unfold padding. apply list.Forall_app_2; [repeat constructor; lia|]. apply list.Forall_app_2; [|apply be_bytes_bytes].
    apply list.Forall_forall. intros x Hx. apply elem_of_replicate in Hx as [-> _]. lia.
  - repeat constructor; discriminate.
Qed.


Lemma vcompress_length st b : len (sha256_vcompress st b) = len st.
Proof.
  unfold sha256_vcompress. cbv zeta. generalize (for_loop 64 0 (RND (message_words b)) (for_loop 8 0 (fun i S => zput S i (znth st i)) (replicate 8 0))) as S.
  intros S. apply (for_loop_inv (fun _ s => len s = len st) 8 0); [|done].
  intros j s _ Hs. by rewrite zput_length.
Qed.

Lemma hash_blocks_length q : forall h m, len (hash_blocks q h m) = len h.
Proof. induction q as [|q IH]; intros h m; [done|]. cbn [hash_blocks_with]. by rewrite IH, vcompress_length. Qed.


Lemma store_words st : len st = 8%nat ->
  for_loop 8 0 (fun i out => out ++ STORE32H (znth st i)) [] = concat (map (be_bytes 4) st).
Proof.
  intros H. rewrite <- (map_ext _ _ STORE32H_be). do 8 (destruct st as [|? st]; [done|]). destruct st; [|done]. reflexivity.
Qed.

(** One buffer filled with the rest of the message, zeros and a last piece. *)
Lemma fill_buffer mem (r n : nat) x y z :
  len mem = 64%nat -> (r + len x + len y + len z = 64)%nat -> n = (r + len x + len y)%nat ->
  memcpy_at (memcpy_at (memcpy_at mem (Z.of_nat r) x) (Z.of_nat (r + len x)) y) (Z.of_nat n) z
    = take r mem ++ x ++ y ++ z.
Proof.
  intros Hm Hl ->. set (m1 := memcpy_at mem (Z.of_nat r) x). set (m2 := memcpy_at m1 (Z.of_nat (r + len x)) y).
  assert (L1 : len m1 = 64%nat) by (unfold m1; rewrite memcpy_at_length; lia).
  assert (L2 : len m2 = 64%nat) by (unfold m2; rewrite memcpy_at_length; lia).
  pose proof (memcpy_at_take mem r x ltac:(lia)) as E1. pose proof (memcpy_at_take m1 (r + len x) y ltac:(lia)) as E2.
  pose proof (memcpy_at_take m2 (r + len x + len y) z ltac:(lia)) as E3. fold m1 in E1. fold m2 in E2.
  rewrite E2, E1, take_ge in E3 by (rewrite memcpy_at_length; lia). by rewrite E3, <- !app_assoc.
Qed.

Lemma fill_buffer2 mem (r n : nat) x y :
  len mem = 64%nat -> (r + len x + len y = 64)%nat -> n = (r + len x)%nat ->
  memcpy_at (memcpy_at mem (Z.of_nat r) x) (Z.of_nat n) y = take r mem ++ x ++ y.
Proof.
  intros Hm Hl ->. set (m1 := memcpy_at mem (Z.of_nat r) x).
  assert (L1 : len m1 = 64%nat) by (unfold m1; rewrite memcpy_at_length; lia).
  pose proof (memcpy_at_take mem r x ltac:(lia)) as E1. pose proof (memcpy_at_take m1 (r + len x) y ltac:(lia)) as E2.
  fold m1 in E1. rewrite E1, take_ge in E2 by (rewrite memcpy_at_length; lia). by rewrite E2, <- !app_assoc.
Qed.

Lemma padding_length m q r :
  len m = (64 * q + r)%nat -> (r < 64)%nat ->
  len (m ++ padding m) = (if (r <? 56)%nat then 64 * (q + 1) else 64 * (q + 2))%nat /\
  Z.to_nat ((55 - Z.of_nat (len m)) mod 64) = (if (r <? 56)%nat then 55 - r else (63 - r) + 56)%nat.
Proof.
  intros Hm Hr. unfold padding. rewrite !length_app, length_replicate, Hm. change (len [128]) with 1%nat.
  rewrite be_bytes_length.
  assert (E : (55 - Z.of_nat (64 * q + r)) mod 64 = Z.of_nat (if (r <? 56)%nat then 55 - r else (63 - r) + 56)).
  { destruct (Nat.ltb_spec r 56).
    - symmetry. apply (Z.mod_unique _ _ (- Z.of_nat q)); lia.
    - symmetry. apply (Z.mod_unique _ _ (- Z.of_nat q - 1)); lia. }
  rewrite E, Nat2Z.id. destruct (Nat.ltb_spec r 56); lia.
Qed.

#[local] Opaque sha256_vcompress.

(** The end of the message: the buffer is padded, and the hash is the one of the standard. *)
Lemma vdone_digest m md :
  holds m md -> exists md', sha256_vdone md = (0, digest m, md').
Proof.
  intros (q & r & Hat). pose proof Hat as [Hl Hr Hbits Hst Hcur Hbuf Hsize]. destruct (padding_length m q r Hl Hr) as [HL HZ].
  assert (Hlen8 : len (state md) = 8%nat) by (by rewrite Hst, hash_blocks_length).
  assert (Hd : forall k, hash_blocks (q + k) IV (m ++ padding m) = hash_blocks k (state md) (take r (buf md) ++ padding m)).
  { intros k. rewrite hash_blocks_add, hash_blocks_app, <- Hst by lia. f_equal. rewrite drop_app_le, Hbuf by lia. done. }
  assert (Hb : u64 (length md + u32 (curlen md * 8)) = u64 (8 * Z.of_nat (len m))).
  { rewrite Hbits, Hcur, (uwrap_small 32) by lia. unfold uwrap. rewrite Zplus_mod_idemp_l. f_equal. lia. }
  unfold sha256_vdone. rewrite Hcur in *. destruct (Z.leb_spec 64 (Z.of_nat r)); [lia|].
  cbn [length state curlen buf]. rewrite Hb.
  assert (E64 : STORE64H (u64 (8 * Z.of_nat (len m))) = be_bytes 8 (8 * Z.of_nat (len m))).
  { rewrite STORE64H_be. unfold be_bytes. f_equal. apply le_bytes_mod. change (8 * Z.of_nat 8) with 64. unfold uwrap. apply Zmod_mod. }
  eexists. f_equal. f_equal.
  rewrite store_words by (cbn [state]; rewrite vcompress_length; destruct (_ <? _); cbn [pad_zeros state length]; rewrite ?vcompress_length; done).
  unfold digest_with. cbv zeta. f_equal. f_equal. rewrite HL. unfold pad_zeros.
  replace (Z.of_nat r + 1) with (Z.of_nat (r + 1)) in * by lia. unfold padding in *. rewrite HZ in *.
  destruct (Nat.ltb_spec r 56) as [Hlt|Hge].
  - destruct (Z.ltb_spec 56 (Z.of_nat (r + 1))); [lia|]. cbn [length state curlen buf].
    rewrite E64. set (L := be_bytes 8 (8 * Z.of_nat (len m))) in *. assert (HLl : len L = 8%nat) by apply be_bytes_length. clearbody L.
    rewrite Nat.mul_comm, Nat.div_mul, Hd by lia. cbn [hash_blocks_with]. f_equal.
    replace (Z.to_nat (56 - Z.of_nat (r + 1))) with (55 - r)%nat by lia.
    rewrite (fill_buffer (buf md) r 56 [128]) by (rewrite ?length_replicate; cbn [len]; lia).
    symmetry. apply take_ge. rewrite !length_app, length_take, length_replicate. cbn [len]. lia.
  - destruct (Z.ltb_spec 56 (Z.of_nat (r + 1))); [|lia]. cbn [length state curlen buf].
    rewrite E64. set (L := be_bytes 8 (8 * Z.of_nat (len m))) in *. assert (HLl : len L = 8%nat) by apply be_bytes_length. clearbody L.
    rewrite Nat.mul_comm, Nat.div_mul, Hd by lia. cbn [hash_blocks_with].
    replace (Z.to_nat (64 - Z.of_nat (r + 1))) with (63 - r)%nat by lia.
    change (Z.to_nat (56 - 0)) with 56%nat.
    assert (E1 : memcpy_at (memcpy_at (buf md) (Z.of_nat r) [128]) (Z.of_nat (r + 1)) (replicate (63 - r) 0)
      = take r (buf md) ++ [128] ++ replicate (63 - r) 0).
    { apply fill_buffer2; rewrite ?length_replicate; cbn [len]; lia. }
    rewrite E1. set (B := take r (buf md) ++ [128] ++ replicate (63 - r) 0).
    assert (HB : len B = 64%nat) by (unfold B; rewrite !length_app, length_take, length_replicate; cbn [len]; lia).
    assert (E2 : take r (buf md) ++ [128] ++ replicate (63 - r + 56) 0 ++ L = B ++ replicate 56 0 ++ L).
    { unfold B. rewrite replicate_add. by rewrite <- !app_assoc. }
    rewrite E2. clearbody B. clear E2 Hd.
    rewrite (take_app_length' B (replicate 56 0 ++ L) 64), (drop_app_length' B (replicate 56 0 ++ L) 64) by exact (eq_sym HB).
    match goal with |- ?f ?x ?y = ?f ?x ?z => enough (E : y = z) by (rewrite E; reflexivity) end.
    pose proof (length_replicate 56 0) as H56.
    etrans; [apply (fill_buffer2 B 0 56 (replicate 56 0) L HB); [rewrite H56; lia|by rewrite H56]|].
    change (take 0 B ++ replicate 56 0 ++ L) with (replicate 56 0 ++ L).
    symmetry. apply take_ge. rewrite length_app, H56. lia.
Qed.

(** ** The interface *)

Lemma init_holds garbage : len garbage = 64%nat -> holds [] (sha256_vinit (stack_state garbage)).
Proof. intros Hg. exists 0%nat, 0%nat. split; try done; cbn; lia. Qed.

(** One call reads its input to the end, with as many turns as it has bytes. *)
Lemma vprocess_holds m md input :
  holds m md ->
  exists md', sha256_vprocess (len input) md input = Some (0, md') /\ holds (m ++ input) md'.
Proof.
  intros Hm. destruct (process_loop_holds (len input) m md input Hm (le_n _)) as (md' & E & H).
  exists md'. split; [|done]. unfold sha256_vprocess. rewrite E. destruct Hm as (q & r & []).
  destruct (Z.ltb_spec 64 (curlen md)); [lia|done].
Qed.

Lemma vcalc_sha256_ok garbage a :
  len garbage = 64%nat -> bytes a -> vcalc_sha256 garbage a = Some (sha256 a).
Proof.
  intros Hg Ha. rewrite <- digest_sha256 by done. pose proof (init_holds garbage Hg) as H0.
  destruct (vprocess_holds [] _ a H0) as (md1 & E1 & H1). cbn [app] in H1.
  destruct (vdone_digest _ _ H1) as [x1 D1]. unfold vcalc_sha256. rewrite E1, !bind_Some. cbn beta iota. by rewrite D1.
Qed.

Lemma sha256_bytes a : bytes (sha256 a) /\ len (sha256 a) = 32%nat.
Proof.
  unfold sha256, digest_with. cbv zeta. set (st := hash_blocks_with _ _ _ _).
  assert (Hl : len st = 8%nat /\ Forall word st).
  { assert (H : forall q h m, len h = 8%nat -> Forall word h -> len (hash_blocks_with compress q h m) = 8%nat /\ Forall word (hash_blocks_with compress q h m)).
    { induction q as [|q IH]; intros h m Hh Hw; [done|]. cbn [hash_blocks_with]. destruct (compress_words h (take 64 m) Hh Hw). by apply IH. }
    apply H; [done|]. repeat constructor; discriminate. }
  destruct Hl as [Hl _]. split.
  - generalize st. clear. induction st as [|x st IH]; [constructor|]. cbn [map concat]. apply list.Forall_app_2; [|done].
    apply be_bytes_bytes.
  - do 8 (destruct st as [|? st]; [done|]). by destruct st.
Qed.

(** [C38] The hash of a message in one or in two pieces is the [sha256] of the standard, whose
    constants, padding and order of bytes are written down apart from the code: the
    blocks of the padded message compressed one after the other, wherever the cut between the
    pieces falls.  The bytes left in the buffer of the stack have no influence. *)
Theorem vcalc_sha256cat_digest garbage a b :
  len garbage = 64%nat -> bytes a -> bytes b ->
  vcalc_sha256 garbage a = Some (sha256 a) /\
  vcalc_sha256cat garbage a None = Some (sha256 a) /\
  vcalc_sha256cat garbage a (Some b) = Some (sha256 (a ++ b)).
Proof.
  intros Hg Ha Hb. rewrite <- !digest_sha256 by (done || by apply list.Forall_app_2). pose proof (init_holds garbage Hg) as H0.
  destruct (vprocess_holds [] _ a H0) as (md1 & E1 & H1). cbn [app] in H1.
  destruct (vprocess_holds a md1 b H1) as (md2 & E2 & H2).
  destruct (vdone_digest _ _ H1) as [x1 D1]. destruct (vdone_digest _ _ H2) as [x2 D2].
  unfold vcalc_sha256, vcalc_sha256cat. rewrite E1, !bind_Some. cbn beta iota.
  rewrite E2, !bind_Some. cbn beta iota. by rewrite D1, D2.
Qed.

Lemma vcalc_sha256cat_digest_witness :
  len (replicate 64 7) = 64%nat /\
  (vcalc_sha256 (replicate 64 7) [97] = Some (sha256 [97]) /\
   vcalc_sha256cat (replicate 64 7) [97] None = Some (sha256 [97]) /\
   vcalc_sha256cat (replicate 64 7) [97] (Some [98; 99]) = Some (sha256 ([97] ++ [98; 99]))).
Proof. split; [reflexivity|]. apply (vcalc_sha256cat_digest (replicate 64 7) [97] [98; 99]); [reflexivity|repeat constructor; lia|repeat constructor; lia]. Defined.

(** The calls of [vupdate_sha256] for a message that arrives in pieces: the first one without
    input starts the hash, the others give the hash of what has arrived. *)
Fixpoint update_all (st : sha256_vstate) (pieces : list (list Z)) : option (list (list Z)) :=
  match pieces with
  | [] => Some []
  | x :: pieces =>
      '(hash, st) ← vupdate_sha256 st (Some x);
      hashes ← update_all st pieces; Some (hash :: hashes)
  end.

(** The digests of the message after each piece. *)
Fixpoint prefix_digests (m : list Z) (pieces : list (list Z)) : list (list Z) :=
  match pieces with
  | [] => []
  | x :: pieces => sha256 (m ++ x) :: prefix_digests (m ++ x) pieces
  end.

Lemma update_all_digests m st pieces :
  holds m st -> bytes m -> Forall (fun x => bytes x) pieces -> update_all st pieces = Some (prefix_digests m pieces).
Proof.
  revert m st. induction pieces as [|x pieces IH]; intros m st Hm Hb Hp; [done|].
  apply list.Forall_cons in Hp as [Hx Hp]. cbn [update_all prefix_digests]. unfold vupdate_sha256.
  destruct (vprocess_holds m st x Hm) as (md & E & H). rewrite E. do 2 step.
  destruct (vdone_digest _ _ H) as [y D]. rewrite D. step. rewrite (IH _ _ H) by (done || by apply list.Forall_app_2).
  by rewrite digest_sha256 by by apply list.Forall_app_2.
Qed.

(** A running hash: after the first call, every call with a piece of the message gives
    the digest of all that has arrived so far, and the state it returns is not disturbed by
    the padding of that digest. *)
Theorem vupdate_sha256_running st0 pieces :
  Forall (fun x => bytes x) pieces ->
  exists st, vupdate_sha256 st0 None = Some (sha256 [], st) /\
    update_all st pieces = Some (prefix_digests [] pieces).
Proof.
  intros Hp. rewrite <- digest_sha256 by constructor. unfold vupdate_sha256. set (md := sha256_vinit _).
  assert (H : holds [] md) by (exists 0%nat, 0%nat; split; try done; cbn; lia).
  destruct (vdone_digest _ _ H) as [y D]. exists md. step. rewrite D. split; [done|]. by apply update_all_digests.
Qed.

Lemma vupdate_sha256_running_witness :
  exists st, vupdate_sha256 (stack_state []) None = Some (sha256 [], st) /\
    update_all st [[97]; [98; 99]] = Some (prefix_digests [] [[97]; [98; 99]]).
Proof. apply vupdate_sha256_running. repeat constructor; lia. Defined.
