(* ===== verification/Cards.v ===== *)
(** * cards777.c: the encrypted deck

    The cards of a hand are keys: card [i] is a private key whose second byte is [i].  The
    dealer multiplies each key by the hash of a secret shared with each player; every other
    player shuffles the deck and multiplies each entry by a random factor.  To open a card the
    players divide their factors out again, and the owner removes the shared secret.  The
    theorems: a card that went through any number of players comes back, the owner finds it,
    the audit trail validates, and the deck has every card once.

    Random bytes come in as lists, one element for each call of [randombytes].  Not modelled
    here: the shares of the factors ([cards777_calcmofn], [cards777_recover] and the part of
    [cards777_encode] that makes them), which are made by libgfshare, and the tests. *)
From Stdlib Require Import ZArith Lia.
From stdpp Require Import base list numbers option.
From S2P Require Import Prelude Curve25519 Sha256.
Open Scope Z_scope.

(** [memcmp(a, b, ...) == 0] *)
Definition memeq (a b : list Z) : bool := bool_decide (a = b).

(** The first eight bytes as a number. *)
Definition txid (b : list Z) : Z := le_val (take 8 b).

Definition zero256 : list Z := replicate 32 0.

(** ** Keys *)

(** NXT777.c:225-230 [curve25519] *)
Definition curve25519 (mysecret theirpublic : list Z) : list Z := curve25519_donna mysecret theirpublic.

(** curve25519.h:303-310 [rand256] *)
Definition rand256 (privkeyflag : bool) (randval : list Z) : list Z :=
  if privkeyflag then clamp randval else randval.

(** curve25519.h:320-327 [curve25519_keypair] The private and the public key. *)
Definition curve25519_keypair (randval : list Z) : list Z * list Z :=
  let privkey := rand256 true randval in (privkey, curve25519 privkey curve25519_basepoint9).

(** curve25519.h:580-588 [curve25519_shared] *)
Definition curve25519_shared (privkey otherpub : list Z) : option (list Z) :=
  vcalc_sha256 (replicate 64 0) (curve25519 privkey otherpub).

(** ** Cards *)

(** cards777.c:48-56 [cards777_initcrypt] *)
Definition cards777_initcrypt (data privkey pubkey : list Z) (invert : bool) : option (list Z) :=
  hash ← curve25519_shared privkey pubkey;
  let hexp := fexpand hash in
  let hexp := if invert then crecip hexp else hexp in
  Some (fcontract (fmul (fexpand data) hexp)).

(** cards777.c:58-76 [cards777_cardpriv] *)
Definition cards777_cardpriv (playerpriv : list Z) (cardpubs : list (list Z)) (numcards : Z) (cipher : list Z)
  : option (list Z) :=
  r ← for_ret (Z.to_nat numcards) 0 (fun i _ =>
    cardpub ← aget cardpubs i;
    cardpriv ← cards777_initcrypt cipher playerpriv cardpub true;
    let checkpub := curve25519 cardpriv curve25519_basepoint9 in
    if memeq checkpub cardpub then Some (inr cardpriv) else Some (inl tt)) tt;
  Some (match r with inl _ => zero256 | inr cardpriv => cardpriv end).

(** cards777.c:78-93 [cards777_checkcard] The returned value and [*cardprivp]. *)
Definition cards777_checkcard (playerpriv : list Z) (cardpubs : list (list Z)) (numcards : Z) (card : list Z)
  : option (Z * list Z) :=
  cardpriv ← cards777_cardpriv playerpriv cardpubs numcards card;
  Some (if negb (txid cardpriv =? 0) then (znth cardpriv 1, cardpriv) else (-1, zero256)).

(** cards777.c:95-119 [cards777_validate] *)
Definition cards777_validate (cardpriv final : list Z) (audit : list (list Z)) (numplayers : Z) (playerpub : list Z)
  : option Z :=
  val ← for_loopM (Z.to_nat (numplayers - 1)) 0 (fun k val =>
    let i := numplayers - 1 - k in
    a ← aget audit i;
    Some (fmul (fexpand a) val)) (fexpand final);
  let checkcard := fcontract val in
  a0 ← aget audit 0;
  if negb (memeq checkcard a0) then Some (-1)
  else
    ver ← cards777_initcrypt cardpriv cardpriv playerpub false;
    if negb (memeq checkcard ver) then Some (-1) else Some (znth cardpriv 1).

(** ** Shuffling and layers *)

(** hostnet777.c:29-29 [CARDS777_MAXCARDS] *)
Definition CARDS777_MAXCARDS : Z := 52.

(** cards777.c:124-135 [cards777_shuffle] The permutation that the random bytes give. *)
Definition shuffle_permi (numcards : Z) (rands : list Z) : option (list Z) :=
  let blank := replicate (Z.to_nat CARDS777_MAXCARDS) 0 in
  desti ← for_loopM (Z.to_nat numcards) 0 (fun i desti => aset desti i i) blank;
  '(permi, _) ← for_loopM (Z.to_nat numcards) 0 (fun i '(permi, desti) =>
    x ← aget rands i;
    let pos := Z.rem x ((numcards - 1 - i) + 1) in
    d ← aget desti pos;
    permi ← aset permi i d;
    last ← aget desti (numcards - 1 - i);
    desti ← aset desti pos last;
    desti ← aset desti (numcards - 1 - i) (-1);
    Some (permi, desti)) (blank, desti);
  Some permi.

(** cards777.c:121-148 [cards777_shuffle] *)
Definition cards777_shuffle (cards : list (list Z)) (numcards N : Z) (rands : list Z) : option (list (list Z)) :=
  permi ← shuffle_permi numcards rands;
  for_loopM (Z.to_nat numcards) 0 (fun i shuffled =>
    for_loopM (Z.to_nat N) 0 (fun j shuffled =>
      q ← aget permi i;
      card ← aget cards (q * N + j);
      Some (shuffled ++ [card])) shuffled) [].

(** cards777.c:158-159 [cards777_layer] The random factor of an entry: the quotient of the
    coordinates of a random multiple of the base point. *)
Definition layer_factor (randval : list Z) : bits320 :=
  let '(x, z) := cmult (rand256 true randval) (fexpand curve25519_basepoint9) in
  fmul x (crecip z).

(** cards777.c:160-162 [cards777_layer] One entry: the new card and the factor that takes it
    back. *)
Definition layer_card (x_z : bits320) (incard : list Z) : list Z * list Z :=
  let z_x := crecip x_z in
  (fcontract (fmul z_x (fexpand incard)), fcontract x_z).

(** cards777.c:154-165 [cards777_layer] The loops over the arrays [layered] and [xoverz]; the
    factors, which the code makes from random values as [layer_factor] does, are an argument, so
    that what is proved holds for every source of random values. *)
Definition cards777_layer (incards : list (list Z)) (numcards N : Z) (factors : list bits320)
  : option (list (list Z) * list (list Z)) :=
  for_loopM (Z.to_nat numcards) 0 (fun i s =>
    for_loopM (Z.to_nat N) 0 (fun k '(layered, xoverz) =>
      let nonz := Z.of_nat (len layered) in
      factor ← aget factors nonz;
      incard ← aget incards nonz;
      let '(l, x) := layer_card factor incard in
      Some (layered ++ [l], xoverz ++ [x])) s) ([], []).

(** cards777.c:270-276 [cards777_encode] What a player does to the deck: the new deck, the
    factors, and the shuffled deck they belong to (the shares are left out). *)
Definition encode_deck (ciphers : list (list Z)) (numcards N : Z) (rands : list Z) (factors : list bits320) :=
  shuffled ← cards777_shuffle ciphers numcards N rands;
  '(encoded, xoverz) ← cards777_layer shuffled numcards N factors;
  Some (encoded, xoverz, shuffled).

(** cards777.c:313-336 [cards777_decode] The card and the factor used ([*seedp]). *)
Definition cards777_decode (xoverz : list (list Z)) (destplayer : Z) (cipher : list Z) (outcards : list (list Z))
    (numcards N : Z) : option (list Z * list Z) :=
  r ← for_ret (Z.to_nat numcards) 0 (fun i _ =>
    let ind := i * N + destplayer in
    out ← aget outcards ind;
    if memeq out cipher then
      x ← aget xoverz ind;
      Some (inr (fcontract (fmul (fexpand x) (fexpand cipher)), x))
    else Some (inl tt)) tt;
  Some (match r with inl _ => (zero256, zero256) | inr r => r end).

(** ** The deck *)

(** cards777.c:211-213 [cards777_pubkeys] A public key hashed to a factor. *)
Definition pubkey_factor (pubkey : list Z) : option bits320 :=
  hash ← vcalc_sha256 (replicate 64 0) pubkey;
  Some (fexpand (clamp hash)).

(** cards777.c:202-224 [cards777_pubkeys] The product of the factors of all cards; a mismatch
    with [cmppubkey] is printed only. *)
Definition cards777_pubkeys (pubkeys : list (list Z)) (numcards : Z) : option (list Z) :=
  let bp := zput zero256 0 9 in
  prod ← for_loopM (Z.to_nat numcards) 0 (fun i prod =>
    pubkey ← aget pubkeys i;
    hexp ← pubkey_factor pubkey;
    Some (fmul prod hexp)) (fmul (fexpand bp) (crecip (fexpand bp)));
  Some (fcontract prod).

(** The variables of the loop of [cards777_initdeck]: the two arrays as far as they are written
    (so [num] is the number of [deck_cardpubs]), [mask] and [prod]. *)
Record deck := mkDeck { deck_cards : list (list Z); deck_cardpubs : list (list Z); deck_mask : Z; deck_prod : bits320 }.

(** cards777.c:237-258 [cards777_initdeck] One turn of the loop. *)
Definition initdeck_step (numcards : Z) (playerpubs : list (list Z)) (randval : list Z) (s : deck) : option deck :=
  let '(privkey, pubkey) := curve25519_keypair randval in
  let i := znth privkey 1 in
  if (i <? numcards) && (Z.land (Z.shiftl 1 i) (deck_mask s) =? 0) then
    row ← mapM (M:=option) (fun playerpub => cards777_initcrypt privkey privkey playerpub false) playerpubs;
    hexp ← pubkey_factor pubkey;
    Some (mkDeck (deck_cards s ++ row) (deck_cardpubs s ++ [pubkey]) (Z.lor (deck_mask s) (Z.shiftl 1 i))
      (fmul (deck_prod s) hexp))
  else Some s.

(** cards777.c:235-259 [cards777_initdeck] The loop until the mask is full; [None] also when
    the random values end before that. *)
Fixpoint initdeck_loop (numcards : Z) (playerpubs : list (list Z)) (rands : list (list Z)) (s : deck) : option deck :=
  if deck_mask s =? Z.shiftl 1 numcards - 1 then Some s
  else
    match rands with
    | [] => None
    | r :: rands => s ← initdeck_step numcards playerpubs r s; initdeck_loop numcards playerpubs rands s
    end.

(** cards777.c:226-266 [cards777_initdeck] The cards, the public keys and the product. *)
Definition cards777_initdeck (numcards : Z) (playerpubs : list (list Z)) (rands : list (list Z))
  : option (list (list Z) * list (list Z) * list Z) :=
  let bp := fexpand curve25519_basepoint9 in
  s ← initdeck_loop numcards playerpubs rands (mkDeck [] [] 0 (fmul bp (crecip bp)));
  Some (deck_cards s, deck_cardpubs s, fcontract (deck_prod s)).

#[local] Opaque fmul fcontract crecip cmult fexpand vcalc_sha256 curve25519_donna.

(** ** Numbers of the field in bytes *)

Definition b256 (b : list Z) : Prop := bytes b /\ len b = 32%nat.
Definition canonical (b : list Z) : Prop := b256 b /\ le_val b < p.

(** The value of 32 bytes in the field, and the bytes of a value. *)
Definition fv (b : list Z) : Z := le_val b mod 2 ^ 255.
Definition cbytes (v : Z) : list Z := le_bytes 32 (v mod p).

Lemma p_pos : 1 < p /\ p < 2 ^ 255.
Proof. by vm_compute. Qed.

Lemma cbytes_b256 v : b256 (cbytes v).
Proof. split; [apply le_bytes_bytes|apply le_bytes_length]. Qed.

Lemma cbytes_value v : le_val (cbytes v) = v mod p.
Proof.
  unfold cbytes. rewrite le_val_bytes. change (8 * Z.of_nat 32) with 256. apply Z.mod_small.
  pose proof (Z.mod_pos_bound v p ltac:(destruct p_pos; lia)). destruct p_pos as [_ Hp].
  change (2 ^ 255) with 57896044618658097711785492504343953926634992332820282019728792003956564819968 in Hp.
  change (2 ^ 256) with 115792089237316195423570985008687907853269984665640564039457584007913129639936. lia.
Qed.

Lemma cbytes_canonical v : canonical (cbytes v).
Proof. split; [apply cbytes_b256|]. rewrite cbytes_value. apply Z.mod_pos_bound. destruct p_pos. lia. Qed.

Lemma fv_cbytes v : fv (cbytes v) = v mod p.
Proof.
  unfold fv. rewrite cbytes_value. apply Z.mod_small. pose proof (Z.mod_pos_bound v p ltac:(destruct p_pos; lia)).
  destruct p_pos. lia.
Qed.

Lemma canonical_bytes b : canonical b -> cbytes (fv b) = b.
Proof.
  intros [[Hb Hl] Hp]. pose proof (le_val_range b Hb) as Hr. destruct p_pos.
  unfold cbytes, fv. rewrite (Z.mod_small _ (2 ^ 255)), Z.mod_small by lia. rewrite <- Hl. by apply le_bytes_val.
Qed.

Lemma cbytes_eqp v w : v ≡p w -> cbytes v = cbytes w.
Proof. intros [E]. unfold cbytes. by rewrite E. Qed.

Lemma fexpand_fv b : b256 b -> tight (fexpand b) /\ fe (fexpand b) = fv b.
Proof.
  intros [Hb Hl]. destruct (fexpand_ok b Hb Hl) as [B E]. split; [|done].
  revert B. apply below_mono. lia.
Qed.

Lemma fcontract_cbytes a : tight a -> fcontract a = cbytes (fe a).
Proof. intros Ha. by apply fcontract_reduces_lemma, tight_word. Qed.

Lemma mul_cbytes a b : tight a -> tight b -> fcontract (fmul a b) = cbytes (fe a * fe b).
Proof.
  intros Ha Hb. destruct (fmul_ok a b (tight_loose _ Ha) (tight_loose _ Hb)) as [T E].
  rewrite fcontract_cbytes by done. by apply cbytes_eqp.
Qed.

(** ** Layers *)

Definition good_factor (f : bits320) : Prop := tight f /\ fe f mod p <> 0.

Lemma crecip_factor f : good_factor f -> tight (crecip f) /\ fe (crecip f) * fe f ≡p 1.
Proof.
  intros [Hf Hnz]. destruct (crecip_power f Hf) as [T _]. split; [done|]. constructor.
  rewrite (proj2 (crecip_inverse_lemma f Hf Hnz)). symmetry. apply Z.mod_small. destruct p_pos. lia.
Qed.

(** One entry through a layer and back. *)
Lemma layer_card_ok f incard :
  good_factor f -> b256 incard ->
  let '(l, x) := layer_card f incard in
  canonical l /\ b256 x /\ (canonical incard -> fcontract (fmul (fexpand x) (fexpand l)) = incard).
Proof.
  intros Hf Hin. unfold layer_card. cbv zeta. destruct (crecip_factor f Hf) as [Tr Er]. pose proof Hf as [Tf _].
  destruct (fexpand_fv incard Hin) as [Ti Ei]. rewrite (mul_cbytes _ _ Tr Ti), (fcontract_cbytes f Tf).
  split; [apply cbytes_canonical|]. split; [apply cbytes_b256|]. intros Hc.
  destruct (fexpand_fv _ (cbytes_b256 (fe f))) as [T1 E1].
  destruct (fexpand_fv _ (cbytes_b256 (fe (crecip f) * fe (fexpand incard)))) as [T2 E2].
  rewrite mul_cbytes, E1, E2, !fv_cbytes, Ei by done. rewrite <- (canonical_bytes incard Hc) at 2.
  apply cbytes_eqp. rewrite !eqp_mod, Z.mul_assoc, (Z.mul_comm (fe f)), Er. by rewrite Z.mul_1_l.
Qed.

(** A loop whose body ignores its index. *)
Lemma for_loopM_const {S} (f : S -> option S) n : forall i (s : S),
  for_loopM n i (fun _ => f) s = Nat.iter n (fun r => r ≫= f) (Some s).
Proof.
  induction n as [|n IH]; intros i s; [done|]. rewrite for_loopM_snoc, IH.
  change (Nat.iter (Datatypes.S n) (fun r => r ≫= f) (Some s)) with (Nat.iter n (fun r => r ≫= f) (Some s) ≫= f). done.
Qed.

Lemma iter_None {S} (f : S -> option S) n : Nat.iter n (fun r => r ≫= f) None = None.
Proof. induction n as [|n IH]; [done|]. change (Nat.iter n (fun r => r ≫= f) None ≫= f = None). by rewrite IH. Qed.

Lemma iter_nested {S} (f : S -> option S) m n : forall s,
  Nat.iter m (fun r => r ≫= (fun s => Nat.iter n (fun r => r ≫= f) (Some s))) s = Nat.iter (m * n) (fun r => r ≫= f) s.
Proof.
  induction m as [|m IH]; intros s; [done|].
  change (Nat.iter (Datatypes.S m) (fun r => r ≫= (fun s => Nat.iter n (fun r => r ≫= f) (Some s))) s)
    with (Nat.iter m (fun r => r ≫= (fun s => Nat.iter n (fun r => r ≫= f) (Some s))) s
          ≫= (fun s => Nat.iter n (fun r => r ≫= f) (Some s))).
  rewrite IH. replace (Datatypes.S m * n)%nat with (n + m * n)%nat by lia. rewrite Nat.iter_add.
  destruct (Nat.iter (m * n) _ s) as [t|]; [done|]. by rewrite iter_None.
Qed.

Lemma layer_entries incards factors n :
  (n <= len incards)%nat -> (n <= len factors)%nat ->
  Nat.iter n (fun r => r ≫= (fun '(layered, xoverz) =>
      let nonz := Z.of_nat (len layered) in
      factor ← aget factors nonz;
      incard ← aget incards nonz;
      let '(l, x) := layer_card factor incard in
      Some (layered ++ [l], xoverz ++ [x]))) (Some ([], []))
  = Some (zip_with (fun f c => fst (layer_card f c)) (take n factors) (take n incards),
          zip_with (fun f c => snd (layer_card f c)) (take n factors) (take n incards)).
Proof.
  induction n as [|n IH]; intros Hi Hf; [done|].
  match goal with |- Nat.iter (Datatypes.S n) ?g ?s = _ => change (g (Nat.iter n g s) = Some (zip_with (fun f c => fst (layer_card f c)) (take (Datatypes.S n) factors) (take (Datatypes.S n) incards),
          zip_with (fun f c => snd (layer_card f c)) (take (Datatypes.S n) factors) (take (Datatypes.S n) incards))) end.
  rewrite IH by lia. cbv beta. rewrite bind_Some. cbv beta iota zeta.
  rewrite length_zip_with, !length_take, !Nat.min_l by lia.
  destruct (lookup_lt_is_Some_2 factors n) as [f Ef]; [lia|]. destruct (lookup_lt_is_Some_2 incards n) as [c Ec]; [lia|].
  assert (E : forall A (l : list A), aget l (Z.of_nat n) = l !! n).
  { intros A l. unfold aget. destruct (Z.leb_spec 0 (Z.of_nat n)); [|lia]. by rewrite Nat2Z.id. }
  rewrite !E, Ef, Ec, !bind_Some. destruct (layer_card f c) as [l x] eqn:El.
  rewrite (take_S_r _ _ f Ef), (take_S_r _ _ c Ec), !zip_with_app by (rewrite !length_take; lia).
  cbn [zip_with]. by rewrite El.
Qed.

(** The whole layer, entry by entry. *)
Lemma layer_eq incards (numcards N : nat) factors :
  len incards = (numcards * N)%nat -> len factors = (numcards * N)%nat ->
  cards777_layer incards (Z.of_nat numcards) (Z.of_nat N) factors
  = Some (zip_with (fun f c => fst (layer_card f c)) factors incards,
          zip_with (fun f c => snd (layer_card f c)) factors incards).
Proof.
  intros Hi Hf. unfold cards777_layer. rewrite !Nat2Z.id.
  set (body := fun '(layered, xoverz) => _).
  assert (E : forall m i s, for_loopM m i (fun (_ : Z) s => for_loopM N 0 (fun (_ : Z) => body) s) s
    = Nat.iter (m * N) (fun r => r ≫= body) (Some s)).
  { intros m i s. rewrite <- iter_nested, <- for_loopM_const with (i := i). 
    assert (X : forall m i s, for_loopM m i (fun (_ : Z) s => for_loopM N 0 (fun (_ : Z) => body) s) s
      = for_loopM m i (fun (_ : Z) s => Nat.iter N (fun r => r ≫= body) (Some s)) s).
    { clear. induction m as [|m IH]; intros i s; [done|]. rewrite !for_loopM_S, for_loopM_const.
      destruct (Nat.iter N _ (Some s)) as [t|]; [|done]. by rewrite !bind_Some, IH. }
    apply X. }
  transitivity (Nat.iter (numcards * N) (fun r => r ≫= body) (Some ([], []))).
  { rewrite <- (E numcards 0). reflexivity. }
  unfold body. rewrite layer_entries by lia. by rewrite !take_ge by lia.
Qed.

(** ** Columns: the cards as one player sees them *)

Definition dget (deck : list (list Z)) (i : Z) : list Z := match aget deck i with Some c => c | None => [] end.

Definition column (n N : nat) (deck : list (list Z)) (j : Z) : list (list Z) :=
  map (fun i => dget deck (i * Z.of_nat N + j)) (seqZ 0 (Z.of_nat n)).

Lemma aget_dget deck i : 0 <= i < Z.of_nat (len deck) -> aget deck i = Some (dget deck i).
Proof. intros Hi. unfold dget. by destruct (aget_range deck i Hi) as [x ->]. Qed.

Lemma index_range (n N : nat) i j : 0 <= i < Z.of_nat n -> 0 <= j < Z.of_nat N -> 0 <= i * Z.of_nat N + j < Z.of_nat (n * N).
Proof. nia. Qed.

Lemma aget_zip {A B C} (f : A -> B -> C) l k i :
  aget (zip_with f l k) i = x ← aget l i; y ← aget k i; Some (f x y).
Proof. unfold aget. destruct (0 <=? i); [|done]. by rewrite lookup_zip_with. Qed.

Lemma dget_Forall (P : list Z -> Prop) deck i : Forall P deck -> 0 <= i < Z.of_nat (len deck) -> P (dget deck i).
Proof.
  intros HF Hi. pose proof (aget_dget deck i Hi) as E. unfold aget in E. destruct (0 <=? i); [|done]. by eapply Forall_lookup_1.
Qed.

(** A search that succeeds at [k] first. *)
Lemma for_ret_at {R} n (body : Z -> unit -> option (unit + R)) k r : forall i,
  i <= k < i + Z.of_nat n -> (forall j, i <= j < k -> body j tt = Some (inl tt)) -> body k tt = Some (inr r) ->
  for_ret n i body tt = Some (inr r).
Proof.
  induction n as [|n IH]; intros i Hk Hb Hr; [lia|]. rewrite for_ret_S.
  destruct (Z.eq_dec i k) as [->|Hne]; [by rewrite Hr|]. rewrite Hb by lia. rewrite bind_Some.
  apply IH; [lia| |done]. intros j Hj. apply Hb. lia.
Qed.

(** One layer taken off again. *)
Lemma decode_layer (n N : nat) shuffled factors i j :
  len shuffled = (n * N)%nat -> len factors = (n * N)%nat ->
  Forall canonical shuffled -> Forall good_factor factors ->
  let enc := zip_with (fun f c => fst (layer_card f c)) factors shuffled in
  let xz := zip_with (fun f c => snd (layer_card f c)) factors shuffled in
  NoDup (column n N enc j) -> 0 <= i < Z.of_nat n -> 0 <= j < Z.of_nat N ->
  exists seed, cards777_decode xz j (dget enc (i * Z.of_nat N + j)) enc (Z.of_nat n) (Z.of_nat N)
    = Some (dget shuffled (i * Z.of_nat N + j), seed).
Proof.
  intros Hs Hf HC HF enc xz Hnd Hi Hj.
  assert (Hle : len enc = (n * N)%nat) by (unfold enc; rewrite length_zip_with; lia).
  assert (Hlx : len xz = (n * N)%nat) by (unfold xz; rewrite length_zip_with; lia).
  pose proof (index_range n N i j Hi Hj) as Hk. set (k := i * Z.of_nat N + j) in *.
  exists (dget xz k). unfold cards777_decode. rewrite Nat2Z.id.
  rewrite (for_ret_at n _ i (fcontract (fmul (fexpand (dget xz k)) (fexpand (dget enc k))), dget xz k)); [|lia| |].
  - rewrite bind_Some. do 2 f_equal. clear Hnd.
    assert (E : exists f, good_factor f /\ dget enc k = fst (layer_card f (dget shuffled k)) /\ dget xz k = snd (layer_card f (dget shuffled k))).
    { destruct (aget_range factors k) as [f Ef]; [lia|]. exists f. split_and!.
      - unfold aget in Ef. destruct (0 <=? k); [|done]. by eapply Forall_lookup_1.
      - unfold dget at 1. unfold enc. by rewrite aget_zip, Ef, (aget_dget shuffled) by lia.
      - unfold dget at 1. unfold xz. by rewrite aget_zip, Ef, (aget_dget shuffled) by lia. }
    destruct E as (f & Gf & -> & ->).
    pose proof (dget_Forall _ _ k HC ltac:(lia)) as Hc. pose proof (layer_card_ok f (dget shuffled k) Gf (proj1 Hc)) as H.
    destruct (layer_card f (dget shuffled k)) as [l x]. destruct H as (_ & _ & H). cbn [fst snd]. by apply H.
  - intros i' Hi'. pose proof (index_range n N i' j ltac:(lia) Hj) as Hk'.
    rewrite (aget_dget enc) by lia. rewrite bind_Some. unfold memeq. rewrite bool_decide_eq_false_2; [done|].
    intros E. assert (Hin : forall m, 0 <= m < Z.of_nat n -> column n N enc j !! Z.to_nat m = Some (dget enc (m * Z.of_nat N + j))).
    { intros m Hm. unfold column. rewrite list_lookup_fmap, lookup_seqZ_lt by lia. cbn [fmap option_fmap option_map]. do 3 f_equal. lia. }
    pose proof (NoDup_lookup _ _ _ _ Hnd (Hin i' ltac:(lia)) ltac:(rewrite E; apply (Hin i); lia)). lia.
  - rewrite (aget_dget enc) by lia. rewrite bind_Some. unfold memeq. rewrite bool_decide_eq_true_2 by done.
    by rewrite (aget_dget xz) by lia.
Qed.

(** ** The permutation *)

(** An element replaced by the last one. *)
Lemma swap_last (l : list Z) (pos : nat) d x : l !! pos = Some d -> <[pos := x]> l ++ [d] ≡ₚ l ++ [x].
Proof.
  intros H. rewrite insert_take_drop by (apply lookup_lt_Some in H; done).
  rewrite <- (take_drop_middle l pos d H) at 3. rewrite <- !app_assoc. cbn [app].
  apply Permutation_app_head. transitivity (x :: d :: drop (S pos) l).
  - constructor. symmetry. apply Permutation_cons_append.
  - apply (Permutation_cons_append (d :: drop (S pos) l) x).
Qed.

(** What is left of [desti] and what is already in [permi]. *)
Definition drawn (numcards i : Z) (permi desti : list Z) : Prop :=
  len permi = 52%nat /\ len desti = 52%nat /\
  take (Z.to_nat (numcards - i)) desti ++ take (Z.to_nat i) permi ≡ₚ seqZ 0 numcards.

Lemma aget_nat {A} (l : list A) i : 0 <= i -> aget l i = l !! Z.to_nat i.
Proof. intros Hi. unfold aget. by destruct (Z.leb_spec 0 i); [|lia]. Qed.

Lemma aset_nat {A} (l : list A) i x : 0 <= i < Z.of_nat (len l) -> aset l i x = Some (<[Z.to_nat i := x]> l).
Proof. intros Hi. unfold aset. destruct (Z.leb_spec 0 i); [|lia]. by destruct (Z.ltb_spec i (Z.of_nat (len l))); [|lia]. Qed.

Lemma drawn_step numcards i permi desti x :
  0 <= i < numcards -> numcards <= 52 -> 0 <= x -> drawn numcards i permi desti ->
  let pos := Z.rem x ((numcards - 1 - i) + 1) in
  exists permi' desti',
    (d ← aget desti pos;
     permi ← aset permi i d;
     last ← aget desti (numcards - 1 - i);
     desti ← aset desti pos last;
     desti ← aset desti (numcards - 1 - i) (-1);
     Some (permi, desti)) = Some (permi', desti') /\ drawn numcards (i + 1) permi' desti'.
Proof.
  intros Hi Hn Hx (Hp & Hd & HP) pos. set (m := Z.to_nat (numcards - 1 - i)).
  assert (Hpos : 0 <= pos < numcards - i) by (unfold pos; pose proof (Z.rem_bound_pos x (numcards - 1 - i + 1)); lia).
  destruct (lookup_lt_is_Some_2 desti (Z.to_nat pos)) as [d Ed]; [lia|].
  destruct (lookup_lt_is_Some_2 desti m) as [last El]; [lia|].
  rewrite (aget_nat desti pos), Ed, bind_Some, aset_nat, bind_Some, (aget_nat desti (numcards - 1 - i)) by lia.
  fold m. rewrite El, bind_Some.
  rewrite aset_nat, bind_Some, aset_nat, bind_Some by (rewrite ?length_insert; lia).
  do 2 eexists. split; [reflexivity|]. unfold drawn. rewrite !length_insert. split_and!; [done|done|].
  rewrite <- HP. replace (Z.to_nat (numcards - (i + 1))) with m by lia. replace (Z.to_nat (numcards - i)) with (S m) by lia.
  replace (Z.to_nat (i + 1)) with (S (Z.to_nat i)) by lia. fold m.
  rewrite (take_insert_ge _ m _ (-1)) by lia.
  rewrite (take_S_r (<[Z.to_nat i := d]> permi) _ d) by (by rewrite list_lookup_insert_eq by lia).
  rewrite (take_insert_ge permi) by lia. rewrite (take_S_r desti m last El).
  rewrite app_assoc, (Permutation_app_comm _ [d]), app_assoc, (Permutation_app_comm [d]).
  apply Permutation_app_tail. destruct (decide (Z.to_nat pos = m)) as [E|E].
  - rewrite E in Ed. rewrite Ed in El. injection El as ->. rewrite E, take_insert_ge by lia. done.
  - rewrite take_insert_lt by lia. apply swap_last. rewrite lookup_take_lt by lia. done.
Qed.

(** The array [permi] is a permutation of the cards. *)
Lemma shuffle_permi_ok (n : nat) rands :
  Z.of_nat n <= 52 -> (n <= len rands)%nat -> Forall (fun x => 0 <= x) rands ->
  exists permi, shuffle_permi (Z.of_nat n) rands = Some permi /\ take n permi ≡ₚ seqZ 0 (Z.of_nat n) /\ len permi = 52%nat.
Proof.
  intros Hn Hl Hr. unfold shuffle_permi. rewrite Nat2Z.id. set (blank := replicate _ 0).
  destruct (for_loopM_inv (fun i d => len d = 52%nat /\ take (Z.to_nat i) d = seqZ 0 i) n 0 (fun i desti => aset desti i i) blank)
    as (desti & -> & Hd & Ed).
  { intros j d Hj [Hd Ed]. exists (<[Z.to_nat j := j]> d). rewrite aset_nat by lia. split; [done|].
    rewrite length_insert. split; [done|]. replace (Z.to_nat (j + 1)) with (S (Z.to_nat j)) by lia.
    rewrite (take_S_r _ _ j) by (by rewrite list_lookup_insert_eq by lia). rewrite take_insert_ge, Ed by lia.
    rewrite (seqZ_app 0 j 1) by lia. done. }
  { done. }
  rewrite bind_Some. rewrite Z.add_0_l in Ed.
  match goal with |- context [for_loopM n 0 ?b (blank, desti)] =>
    destruct (for_loopM_inv (fun i '(permi, desti) => drawn (Z.of_nat n) i permi desti) n 0 b (blank, desti))
      as ([permi d'] & -> & Hp & _ & HP) end.
  { intros j [permi d'] Hj HD. destruct (aget_range rands j) as [x Ex]; [lia|]. rewrite Ex, bind_Some.
    assert (Hx : 0 <= x). { rewrite aget_nat in Ex by lia. by eapply Forall_lookup_1 in Ex. }
    destruct (drawn_step (Z.of_nat n) j permi d' x ltac:(lia) Hn Hx HD) as (p' & d'' & E & HD'). cbv zeta in E.
    exists (p', d''). by rewrite E. }
  { split_and!; [done|done|]. rewrite Z.sub_0_r, Ed. cbn [take]. by rewrite app_nil_r. }
  rewrite bind_Some. exists permi. split_and!; [done| |done].
  rewrite Z.add_0_l, Z.sub_diag in HP. by rewrite Nat2Z.id in HP.
Qed.

(** The shuffled deck: the rows of the cards in the order of the permutation. *)
Lemma shuffle_ok (n N : nat) cards rands :
  Z.of_nat n <= 52 -> (n <= len rands)%nat -> Forall (fun x => 0 <= x) rands -> len cards = (n * N)%nat ->
  exists shuffled,
    cards777_shuffle cards (Z.of_nat n) (Z.of_nat N) rands = Some shuffled /\ len shuffled = (n * N)%nat /\
    (forall P, Forall P cards -> Forall P shuffled) /\
    forall j, 0 <= j < Z.of_nat N -> column n N shuffled j ≡ₚ column n N cards j.
Proof.
  intros Hn Hl Hr Hc. destruct (shuffle_permi_ok n rands Hn Hl Hr) as (permi & E & HP & Hlp).
  unfold cards777_shuffle. rewrite E, bind_Some, !Nat2Z.id.
  assert (Hperm : forall i, 0 <= i < Z.of_nat n -> aget permi i = Some (znth permi i) /\ 0 <= znth permi i < Z.of_nat n).
  { intros i Hi. rewrite aget_znth by lia. split; [done|].
    assert (Hin : znth permi i ∈ take n permi).
    { apply list_elem_of_lookup. exists (Z.to_nat i). rewrite lookup_take_lt by lia.
      pose proof (aget_znth permi i ltac:(lia)) as Ei. by rewrite aget_nat in Ei by lia. }
    rewrite HP in Hin. apply elem_of_seqZ in Hin. lia. }
  set (g k := dget cards (znth permi (k / Z.of_nat N) * Z.of_nat N + k mod Z.of_nat N)).
  destruct (for_loopM_inv (fun i s => s = map g (seqZ 0 (i * Z.of_nat N))) n 0 (fun i shuffled =>
    for_loopM N 0 (fun j shuffled =>
      q ← aget permi i;
      card ← aget cards (q * Z.of_nat N + j);
      Some (shuffled ++ [card])) shuffled) []) as (s & Es & Hs).
  { intros i s Hi ->. destruct (Hperm i ltac:(lia)) as [Ep Hq].
    match goal with |- exists u, for_loopM N 0 ?b ?s0 = _ /\ _ =>
      destruct (for_loopM_inv (fun j s => s = map g (seqZ 0 (i * Z.of_nat N + j))) N 0 b s0) as (t & Et & Ht) end.
    - intros j s Hj ->. rewrite Ep, bind_Some, (aget_dget cards) by (pose proof (index_range n N (znth permi i) j Hq ltac:(lia)); lia).
      rewrite bind_Some. eexists. split; [done|]. rewrite Z.add_assoc, seqZ_snoc, map_app by nia. cbn [map]. do 2 f_equal.
      unfold g. rewrite Z.add_0_l. rewrite <- (Z.div_unique_pos (i * Z.of_nat N + j) (Z.of_nat N) i j), <- (Z.mod_unique_pos (i * Z.of_nat N + j) (Z.of_nat N) i j) by lia. done.
    - by rewrite Z.add_0_r.
    - exists t. split; [done|]. rewrite Ht. do 2 f_equal. lia. }
  { done. }
  exists s. split; [exact Es|]. rewrite Z.add_0_l in Hs.
  assert (Hlen : len s = (n * N)%nat) by (rewrite Hs, length_map, length_seqZ; lia).
  assert (Hentry : forall i j, 0 <= i < Z.of_nat n -> 0 <= j < Z.of_nat N ->
    dget s (i * Z.of_nat N + j) = dget cards (znth permi i * Z.of_nat N + j)).
  { intros i j Hi Hj. pose proof (index_range n N i j Hi Hj) as Hk. unfold dget at 1. rewrite Hs, aget_nat by lia.
    rewrite list_lookup_fmap, lookup_seqZ_lt by lia. cbn [fmap option_fmap option_map]. unfold g.
    rewrite Z2Nat.id, Z.add_0_l by lia.
    by rewrite <- (Z.div_unique_pos (i * Z.of_nat N + j) (Z.of_nat N) i j), <- (Z.mod_unique_pos (i * Z.of_nat N + j) (Z.of_nat N) i j) by lia. }
  split; [done|]. split.
  - intros P HF. rewrite Hs. apply list.Forall_forall. intros c Hin. apply list_elem_of_fmap in Hin as (k & -> & Hk).
    apply elem_of_seqZ in Hk. unfold g. assert (0 < Z.of_nat N) by nia.
    pose proof (Z.mod_pos_bound k (Z.of_nat N) ltac:(lia)) as Hm.
    assert (Hd : 0 <= k / Z.of_nat N < Z.of_nat n) by (split; [apply Z.div_pos; lia|apply Z.div_lt_upper_bound; lia]).
    destruct (Hperm _ Hd) as [_ Hq]. pose proof (index_range n N _ _ Hq Hm). apply dget_Forall; [done|lia].
  - intros j Hj. unfold column.
    assert (E1 : map (fun i => dget s (i * Z.of_nat N + j)) (seqZ 0 (Z.of_nat n))
      = map (fun q => dget cards (q * Z.of_nat N + j)) (take n permi)).
    { apply list_eq. intros k. rewrite !list_lookup_fmap. destruct (Nat.lt_ge_cases k n).
      - rewrite lookup_seqZ_lt, lookup_take_lt by lia. pose proof (Hperm (Z.of_nat k) ltac:(lia)) as [Ep _].
        rewrite aget_nat, Nat2Z.id in Ep by lia. rewrite Ep. cbn [fmap option_fmap option_map].
        by rewrite Z.add_0_l, Hentry by lia.
      - by rewrite lookup_seqZ_ge, lookup_take_ge by lia. }
    rewrite E1. by apply Permutation_map.
Qed.

(** ** The deck goes round the table *)

(** The deck encoded by one player after the other; each keeps its new deck and its
    factors. *)
Fixpoint encode_all (n N : nat) (deck : list (list Z)) (players : list (list Z * list bits320))
  : option (list (list Z) * list (list (list Z) * list (list Z))) :=
  match players with
  | [] => Some (deck, [])
  | (rands, factors) :: players =>
      '(enc, xz, _) ← encode_deck deck (Z.of_nat n) (Z.of_nat N) rands factors;
      '(final, layers) ← encode_all n N enc players;
      Some (final, (enc, xz) :: layers)
  end.

(** A card opened for player [j]: the players take off their layers, the last one first. *)
Fixpoint decode_all (n N : nat) (layers : list (list (list Z) * list (list Z))) (j : Z) (cipher : list Z)
  : option (list Z) :=
  match layers with
  | [] => Some cipher
  | (enc, xz) :: layers =>
      cipher ← decode_all n N layers j cipher;
      '(cipher, _) ← cards777_decode xz j cipher enc (Z.of_nat n) (Z.of_nat N);
      Some cipher
  end.

Definition player_ok (n N : nat) (player : list Z * list bits320) : Prop :=
  (n <= len (fst player))%nat /\ Forall (fun x => 0 <= x) (fst player) /\
  len (snd player) = (n * N)%nat /\ Forall good_factor (snd player).

Lemma encode_deck_ok (n N : nat) deck player :
  Z.of_nat n <= 52 -> len deck = (n * N)%nat -> Forall canonical deck -> player_ok n N player ->
  exists shuffled,
    let enc := zip_with (fun f c => fst (layer_card f c)) (snd player) shuffled in
    let xz := zip_with (fun f c => snd (layer_card f c)) (snd player) shuffled in
    encode_deck deck (Z.of_nat n) (Z.of_nat N) (fst player) (snd player) = Some (enc, xz, shuffled) /\
    len shuffled = (n * N)%nat /\ Forall canonical shuffled /\ len enc = (n * N)%nat /\ Forall canonical enc /\
    forall j, 0 <= j < Z.of_nat N -> column n N shuffled j ≡ₚ column n N deck j.
Proof.
  intros Hn Hl HC (Hr & Hpos & Hf & HF). destruct (shuffle_ok n N deck (fst player) Hn Hr Hpos Hl) as (sh & E & Hls & HP & Hcol).
  exists sh. cbv zeta. unfold encode_deck. rewrite E, bind_Some, layer_eq by done. split; [done|].
  split; [done|]. split; [by apply HP|]. split; [rewrite length_zip_with; lia|]. split; [|done].
  specialize (HP _ HC). rewrite <- Hls in Hf. clear - HF HP Hf. revert Hf. generalize dependent (snd player).
  induction HP as [|c sh Hc HP IH]; intros [|f fs] HF Hf; try done; try constructor.
  - apply list.Forall_cons in HF as [Hg _]. pose proof (layer_card_ok f c Hg (proj1 Hc)) as H.
    destruct (layer_card f c). by destruct H.
  - apply list.Forall_cons in HF as [_ HF]. injection Hf as Hf. by apply IH.
Qed.

Lemma mapM_perm {A B} (f : A -> option B) l l' r :
  l ≡ₚ l' -> mapM f l = Some r -> exists r', mapM f l' = Some r' /\ r ≡ₚ r'.
Proof.
  intros HP. revert r. induction HP as [|x l l' _ IH|x y l|l1 l2 l3 _ IH1 _ IH2]; intros r.
  - intros [= <-]. by exists [].
  - intros H. apply mapM_Some in H. apply Forall2_cons_inv_l in H as (y & r' & Hx & H & ->).
    destruct (IH r') as (r'' & E & HP'); [by apply mapM_Some|]. exists (y :: r''). split; [|by constructor]. apply mapM_Some.
    constructor; [done|]. by apply mapM_Some.
  - intros H. apply mapM_Some in H. apply Forall2_cons_inv_l in H as (a & r' & Ha & H & ->).
    apply Forall2_cons_inv_l in H as (b & r'' & Hb & H & ->). exists (b :: a :: r''). split; [|constructor].
    apply mapM_Some. constructor; [done|]. constructor; [done|]. done.
  - intros H. destruct (IH1 _ H) as (r2 & E2 & P2). destruct (IH2 _ E2) as (r3 & E3 & P3).
    exists r3. split; [done|by transitivity r2].
Qed.

(** The cards of one layer decoded are the shuffled cards. *)
Lemma decode_column (n N : nat) shuffled factors j :
  len shuffled = (n * N)%nat -> len factors = (n * N)%nat ->
  Forall canonical shuffled -> Forall good_factor factors ->
  let enc := zip_with (fun f c => fst (layer_card f c)) factors shuffled in
  let xz := zip_with (fun f c => snd (layer_card f c)) factors shuffled in
  NoDup (column n N enc j) -> 0 <= j < Z.of_nat N ->
  mapM (M:=option) (fun c => '(c, _) ← cards777_decode xz j c enc (Z.of_nat n) (Z.of_nat N); Some c) (column n N enc j)
    = Some (column n N shuffled j).
Proof.
  intros Hs Hf HC HF enc xz Hnd Hj. apply mapM_Some. unfold column. apply Forall2_fmap. apply Forall_Forall2_diag.
  apply list.Forall_forall. intros i Hi. apply elem_of_seqZ in Hi.
  destruct (decode_layer n N shuffled factors i j Hs Hf HC HF Hnd ltac:(lia) Hj) as [seed E].
  fold enc xz in E. rewrite E. done.
Qed.

Lemma mapM_bind {A B C} (f : A -> option B) (g : B -> option C) l r s :
  mapM f l = Some r -> mapM g r = Some s -> mapM (fun x => y ← f x; g y) l = Some s.
Proof.
  intros Hf Hg. apply mapM_Some in Hf. apply mapM_Some in Hg. apply mapM_Some. revert s Hg.
  induction Hf as [|x y l r Hx Hf IH]; intros s Hg.
  - by apply Forall2_nil_inv_l in Hg as ->.
  - apply Forall2_cons_inv_l in Hg as (z & s' & Hy & Hg & ->). constructor; [by rewrite Hx|by apply IH].
Qed.

(** [C13] The cards come back.  A deck of at most 52 cards, with one entry for each of [N]
    players, goes through any number of shuffles and layers; all of them succeed.  When for
    player [j] no two entries of any encoded deck are equal, taking the layers off again
    recovers the entries of player [j]: every card of the deck exactly once. *)
Theorem cards_come_back (n N : nat) deck players :
  Z.of_nat n <= 52 -> len deck = (n * N)%nat -> Forall canonical deck -> Forall (player_ok n N) players ->
  exists final layers,
    encode_all n N deck players = Some (final, layers) /\
    forall j, 0 <= j < Z.of_nat N -> Forall (fun l => NoDup (column n N (fst l) j)) layers ->
      exists opened, mapM (decode_all n N layers j) (column n N final j) = Some opened /\
        opened ≡ₚ column n N deck j.
Proof.
  intros Hn. revert deck. induction players as [|player players IH]; intros deck Hl HC HP.
  - exists deck, []. split; [done|]. intros j Hj _. exists (column n N deck j). split; [|done].
    apply mapM_Some, Forall_Forall2_diag, list.Forall_forall. done.
  - apply list.Forall_cons in HP as [Hp HP].
    destruct (encode_deck_ok n N deck player Hn Hl HC Hp) as (sh & E & Hls & HCs & Hle & HCe & Hcol).
    destruct player as [rands factors]. cbn [fst snd] in *. cbn [encode_all]. rewrite E, bind_Some. cbv beta iota.
    set (enc := zip_with (fun f c => fst (layer_card f c)) factors sh) in *.
    set (xz := zip_with (fun f c => snd (layer_card f c)) factors sh) in *.
    destruct (IH enc Hle HCe HP) as (final & layers & -> & Hdec). exists final, ((enc, xz) :: layers).
    split; [done|]. intros j Hj Hnd. apply list.Forall_cons in Hnd as [Hnd Hnds]. cbn [fst] in Hnd.
    destruct (Hdec j Hj Hnds) as (opened & Eo & HPo). destruct Hp as (_ & _ & Hf & HF). cbn [snd] in *.
    pose proof (decode_column n N sh factors j Hls Hf HCs HF Hnd Hj) as Ed. fold enc xz in Ed.
    destruct (mapM_perm _ _ opened _ (Permutation_sym HPo) Ed) as (r & Er & HPr).
    exists r. split; [|by rewrite <- HPr, Hcol]. exact (mapM_bind _ _ _ _ _ Eo Er).
Qed.

Lemma cards_come_back_witness :
  let deck := [cbytes 5; cbytes 7] in
  let players := [([3], [mk320 2 0 0 0 0; mk320 3 0 0 0 0]); ([250], [mk320 9 1 0 0 0; mk320 4 0 0 0 0])] in
  exists final layers,
    encode_all 1 2 deck players = Some (final, layers) /\
    forall j, 0 <= j < Z.of_nat 2 -> Forall (fun l => NoDup (column 1 2 (fst l) j)) layers ->
      exists opened, mapM (decode_all 1 2 layers j) (column 1 2 final j) = Some opened /\
        opened ≡ₚ column 1 2 deck j.
Proof.
  apply cards_come_back.
  - discriminate.
  - reflexivity.
  - apply list.Forall_cons_2; [apply cbytes_canonical|]. apply list.Forall_cons_2; [apply cbytes_canonical|constructor].
  - assert (G : forall a b, 0 <= a < 100 -> 0 <= b < 2 -> 0 < a -> good_factor (mk320 a b 0 0 0)).
    { intros a b Ha Hb Hpos. split; [unfold tight, below; cbn [l0 l1 l2 l3 l4]; lia|].
      unfold fe. cbn [l0 l1 l2 l3 l4]. rewrite Z.mod_small; [lia|]. split; [lia|].
      apply Z.lt_trans with (2 ^ 60); [|vm_compute; reflexivity]. change (2 ^ 51) with 2251799813685248. lia. }
    apply list.Forall_cons_2; [|apply list.Forall_cons_2; [|constructor]].
    + split_and!; [cbn; lia|apply list.Forall_cons_2; [lia|constructor]|reflexivity|].
      apply list.Forall_cons_2; [apply G; lia|]. apply list.Forall_cons_2; [apply G; lia|constructor].
    + split_and!; [cbn; lia|apply list.Forall_cons_2; [lia|constructor]|reflexivity|].
      apply list.Forall_cons_2; [apply G; lia|]. apply list.Forall_cons_2; [apply G; lia|constructor].
Defined.

(** ** Shared secrets *)

(** The factor that two keys share. *)
Definition shared_factor (privkey pubkey : list Z) : bits320 := fexpand (sha256 (curve25519 privkey pubkey)).

Lemma basepoint_b256 : b256 curve25519_basepoint9.
Proof. split; [repeat constructor; lia|done]. Qed.

Lemma curve25519_b256 priv pub : b256 priv -> b256 pub -> b256 (curve25519 priv pub).
Proof. intros [H1 H2] [H3 H4]. by apply curve25519_donna_bytes. Qed.

Lemma shared_tight priv pub : tight (shared_factor priv pub).
Proof. apply fexpand_fv, sha256_bytes. Qed.

Lemma initcrypt_eq data priv pub invert :
  b256 data -> b256 priv -> b256 pub ->
  cards777_initcrypt data priv pub invert
  = Some (cbytes (fv data * fe (if invert then crecip (shared_factor priv pub) else shared_factor priv pub))).
Proof.
  intros Hd Hp Hq. unfold cards777_initcrypt, curve25519_shared.
  rewrite vcalc_sha256_ok by (done || apply curve25519_b256; done). rewrite bind_Some. cbv zeta. fold (shared_factor priv pub).
  destruct (fexpand_fv data Hd) as [Td Ed]. f_equal. pose proof (shared_tight priv pub) as Ts.
  assert (tight (if invert then crecip (shared_factor priv pub) else shared_factor priv pub)).
  { destruct invert; [|done]. by destruct (crecip_power _ Ts). }
  by rewrite mul_cbytes, Ed by done.
Qed.

(** What player [i] finds when it removes the secret it shares with the owner of a key. *)
Definition removed (cipher playerpriv cardpub : list Z) : list Z :=
  cbytes (fv cipher * fe (crecip (shared_factor playerpriv cardpub))).

(** Opening a card.  The dealer encrypts the key [c] of a card, whose public key is
    entry [i] of the deck, for the player with public key [pub].  The player who holds the
    private key of [pub], so that both compute the same point, recovers exactly [c] and with
    it the number of the card, unless an earlier entry of the deck passes the same test or
    the hash of the shared point is zero in the field. *)
Theorem checkcard_opens playerpriv pub c cardpubs (numcards i : Z) :
  b256 playerpriv -> b256 pub -> canonical c -> txid c <> 0 -> Forall b256 cardpubs ->
  0 <= i < numcards -> numcards <= Z.of_nat (len cardpubs) ->
  dget cardpubs i = curve25519 c curve25519_basepoint9 ->
  curve25519 playerpriv (dget cardpubs i) = curve25519 c pub ->
  exists card, cards777_initcrypt c c pub false = Some card /\
    ((forall k, 0 <= k < i -> curve25519 (removed card playerpriv (dget cardpubs k)) curve25519_basepoint9 <> dget cardpubs k) ->
     fe (shared_factor c pub) mod p <> 0 ->
     cards777_checkcard playerpriv cardpubs numcards card = Some (znth c 1, c)).
Proof.
  intros Hp Hq Hc Ht HF Hi Hn Epub Eagree. pose proof (proj1 Hc) as Hcb.
  rewrite (initcrypt_eq c c pub false) by done. eexists. split; [reflexivity|]. intros Hearly Hnz.
  set (card := cbytes _) in *. assert (Hcard : b256 card) by apply cbytes_b256.
  assert (Hpub : forall k, 0 <= k < numcards -> b256 (dget cardpubs k)) by (intros k Hk; apply dget_Forall; [done|lia]).
  assert (Er : removed card playerpriv (dget cardpubs i) = c).
  { unfold removed. assert (Es : shared_factor playerpriv (dget cardpubs i) = shared_factor c pub) by (unfold shared_factor; by rewrite Eagree).
    rewrite Es. rewrite <- (canonical_bytes c Hc) at 2. apply cbytes_eqp. unfold card. rewrite fv_cbytes.
    destruct (crecip_factor (shared_factor c pub)) as [_ Ef]; [split; [apply shared_tight|done]|].
    rewrite eqp_mod, <- Z.mul_assoc, (Z.mul_comm (fe (shared_factor c pub))), Ef. by rewrite Z.mul_1_r. }
  clearbody card. assert (Ec : cards777_cardpriv playerpriv cardpubs numcards card = Some c).
  { unfold cards777_cardpriv. rewrite (for_ret_at _ _ i c); [reflexivity|lia| |].
    - intros k Hk. rewrite (aget_dget cardpubs), bind_Some, initcrypt_eq, bind_Some by first [exact Hcard|exact Hp|apply Hpub; lia|lia].
      cbv zeta. fold (removed card playerpriv (dget cardpubs k)). unfold memeq.
      rewrite bool_decide_eq_false_2; [reflexivity|]. apply Hearly. lia.
    - rewrite (aget_dget cardpubs), bind_Some, initcrypt_eq, bind_Some by first [exact Hcard|exact Hp|apply Hpub; lia|lia].
      cbv zeta. fold (removed card playerpriv (dget cardpubs i)). rewrite Er. unfold memeq.
      rewrite bool_decide_eq_true_2; [reflexivity|symmetry; exact Epub]. }
  unfold cards777_checkcard. rewrite Ec, bind_Some. apply Z.eqb_neq in Ht. rewrite Ht. reflexivity.
Qed.

Lemma checkcard_opens_witness :
  let c := clamp (replicate 32 5) in
  let pub := curve25519 c curve25519_basepoint9 in
  b256 c /\
  exists card, cards777_initcrypt c c pub false = Some card /\
    ((forall k, 0 <= k < 0 -> curve25519 (removed card c (dget [pub] k)) curve25519_basepoint9 <> dget [pub] k) ->
     fe (shared_factor c pub) mod p <> 0 ->
     cards777_checkcard c [pub] 1 card = Some (znth c 1, c)).
Proof.
  assert (Hc : b256 (clamp (replicate 32 5))).
  { split; [apply clamp_bytes; repeat constructor; lia|]. rewrite clamp_length. reflexivity. }
  assert (Hpub : b256 (curve25519 (clamp (replicate 32 5)) curve25519_basepoint9)) by (apply curve25519_b256; [exact Hc|apply basepoint_b256]).
  split; [exact Hc|]. apply checkcard_opens.
  - exact Hc.
  - exact Hpub.
  - split; [exact Hc|]. vm_compute. reflexivity.
  - vm_compute. discriminate.
  - constructor; [exact Hpub|constructor].
  - split; discriminate || reflexivity.
  - discriminate.
  - reflexivity.
  - reflexivity.
Defined.

(** The audit of a card on every branch. *)
Lemma validate_eq c final a0 seeds pub :
  b256 c -> b256 final -> b256 a0 -> Forall b256 seeds -> b256 pub ->
  cards777_validate c final (a0 :: seeds) (1 + Z.of_nat (len seeds)) pub
  = Some (if bool_decide (a0 = cbytes (foldr (fun s v => fv s * v) (fv final) seeds)) &&
             bool_decide (a0 = cbytes (fv c * fe (shared_factor c pub)))
          then znth c 1 else -1).
Proof.
  intros Hc Hf Ha Hs Hp. unfold cards777_validate.
  replace (Z.to_nat (1 + Z.of_nat (len seeds) - 1)) with (len seeds) by lia.
  match goal with |- context [for_loopM ?n 0 ?b ?s0] =>
    destruct (for_loopM_inv (fun k v => tight v /\
      fe v ≡p foldr (fun s v => fv s * v) (fv final) (drop (len seeds - Z.to_nat k) seeds)) n 0 b s0) as (v & -> & Tv & Ev) end.
  - intros k v Hk [Tv Ev]. set (m := (len seeds - Z.to_nat (k + 1))%nat).
    destruct (lookup_lt_is_Some_2 seeds m) as [a Ea]; [unfold m; lia|].
    assert (Eg : aget (a0 :: seeds) (1 + Z.of_nat (len seeds) - 1 - k) = Some a).
    { rewrite aget_nat by lia. replace (Z.to_nat (1 + Z.of_nat (len seeds) - 1 - k)) with (S m) by (unfold m; lia). done. }
    rewrite Eg, bind_Some. eexists. split; [reflexivity|].
    assert (Hab : b256 a) by (by eapply Forall_lookup_1). destruct (fexpand_fv a Hab) as [Ta Efa].
    destruct (fmul_ok (fexpand a) v (tight_loose _ Ta) (tight_loose _ Tv)) as [Tm Em]. split; [done|].
    fold m. rewrite (drop_S seeds a m Ea). replace (S m) with (len seeds - Z.to_nat k)%nat by (unfold m; lia).
    cbn [foldr]. by rewrite Em, Efa, Ev.
  - destruct (fexpand_fv final Hf) as [Tf Ef]. split; [done|]. by rewrite drop_ge, Ef by lia.
  - replace (len seeds - Z.to_nat (0 + Z.of_nat (len seeds)))%nat with 0%nat in Ev by lia. rewrite drop_0 in Ev.
    rewrite bind_Some. cbv zeta. change (aget (a0 :: seeds) 0) with (Some a0). rewrite bind_Some.
    rewrite fcontract_cbytes by done. rewrite (cbytes_eqp _ _ Ev). set (w := cbytes (foldr _ _ _)).
    unfold memeq. destruct (decide (a0 = w)) as [->|Hne].
    + rewrite (bool_decide_eq_true_2 (w = w)) by done. cbn [negb andb].
      rewrite initcrypt_eq, bind_Some by done. by destruct (bool_decide _).
    + rewrite (bool_decide_eq_false_2 (w = a0)) by congruence. by rewrite (bool_decide_eq_false_2 (a0 = w)).
Qed.

(** [C14] The audit.  [cards777_validate] multiplies the final card by the factors of all
    players and accepts, with the number of the card, exactly when the product is the audited
    card and that card is the key encrypted for the player; in every other case it returns
    -1. *)
Theorem validate_spec c final a0 seeds pub :
  b256 c -> b256 final -> b256 a0 -> Forall b256 seeds -> b256 pub ->
  cards777_validate c final (a0 :: seeds) (1 + Z.of_nat (len seeds)) pub
  = Some (if bool_decide (a0 = cbytes (foldr (fun s v => fv s * v) (fv final) seeds)) &&
             bool_decide (a0 = cbytes (fv c * fe (shared_factor c pub)))
          then znth c 1 else -1).
Proof. exact (validate_eq c final a0 seeds pub). Qed.

Lemma validate_spec_witness :
  b256 (cbytes 7) /\
  cards777_validate (cbytes 7) (cbytes 5) (cbytes 35 :: [cbytes 7]) (1 + Z.of_nat (len [cbytes 7])) (cbytes 9)
  = Some (if bool_decide (cbytes 35 = cbytes (foldr (fun s v => fv s * v) (fv (cbytes 5)) [cbytes 7])) &&
             bool_decide (cbytes 35 = cbytes (fv (cbytes 7) * fe (shared_factor (cbytes 7) (cbytes 9))))
          then znth (cbytes 7) 1 else -1).
Proof.
  split; [apply cbytes_b256|]. apply validate_spec.
  - apply cbytes_b256.
  - apply cbytes_b256.
  - apply cbytes_b256.
  - constructor; [apply cbytes_b256|constructor].
  - apply cbytes_b256.
Defined.

(** ** The deck is complete *)

(** The cards for the players, the factor of a public key, and the deck that holds the keys
    [privs] in this order. *)
Definition deal_row (playerpubs : list (list Z)) (k : list Z) : list (list Z) :=
  map (fun pub => cbytes (fv k * fe (shared_factor k pub))) playerpubs.
Definition pub_factor (pub : list Z) : bits320 := fexpand (clamp (sha256 pub)).
Definition public (k : list Z) : list Z := curve25519 k curve25519_basepoint9.
Definition card_index (k : list Z) : Z := znth k 1.

Definition unit_factor : bits320 := fmul (fexpand curve25519_basepoint9) (crecip (fexpand curve25519_basepoint9)).

Record deck_of (numcards : Z) (playerpubs privs : list (list Z)) (s : deck) : Prop := {
  of_cards : deck_cards s = concat (map (deal_row playerpubs) privs);
  of_pubs : deck_cardpubs s = map public privs;
  of_prod : deck_prod s = foldl (fun v pub => fmul v (pub_factor pub)) unit_factor (map public privs);
  of_range : Forall (fun k => b256 k /\ 0 <= card_index k < numcards) privs;
  of_distinct : base.NoDup (map card_index privs);
  of_mask : 0 <= deck_mask s /\ forall j, 0 <= j -> Z.testbit (deck_mask s) j = bool_decide (j ∈ map card_index privs) }.

Lemma mapM_total {A B} (f : A -> option B) g l : Forall (fun x => f x = Some (g x)) l -> mapM f l = Some (map g l).
Proof. induction 1 as [|x l Hx _ IH]; [done|]. cbn. by rewrite Hx, IH. Qed.

Lemma pubkey_factor_ok pub : bytes pub -> pubkey_factor pub = Some (pub_factor pub).
Proof. intros H. unfold pubkey_factor. by rewrite vcalc_sha256_ok by done. Qed.

(** A key whose index is new joins the deck; any other key changes nothing. *)
Lemma initdeck_step_ok numcards playerpubs privs s r :
  numcards <= 52 -> Forall b256 playerpubs -> b256 r -> deck_of numcards playerpubs privs s ->
  exists s', initdeck_step numcards playerpubs r s = Some s' /\
    deck_of numcards playerpubs
      (if (card_index (clamp r) <? numcards) && negb (bool_decide (card_index (clamp r) ∈ map card_index privs))
       then privs ++ [clamp r] else privs) s'.
Proof.
  intros Hn Hpl Hr D. unfold initdeck_step, curve25519_keypair, rand256. fold (card_index (clamp r)). fold (public (clamp r)).
  assert (Hc : b256 (clamp r)) by (destruct Hr; split; [by apply clamp_bytes|by rewrite clamp_length]).
  assert (Hi : 0 <= card_index (clamp r)) by (apply (Forall_znth (fun x => 0 <= x)); [lia|]; destruct Hc as [Hc _]; eapply list.Forall_impl; [exact Hc|cbn; lia]).
  destruct D as [D1 D2 D3 D4 D5 [D6 D7]]. set (k := clamp r) in *. clearbody k.
  assert (Em : (Z.land (Z.shiftl 1 (card_index k)) (deck_mask s) =? 0) = negb (bool_decide (card_index k ∈ map card_index privs))).
  { rewrite <- D7, Z.land_comm, Z.shiftl_1_l, land_pow2 by lia.
    destruct (Z.testbit _ _); [|done]. apply Z.eqb_neq. pose proof (Z.pow_pos_nonneg 2 (card_index k)). lia. }
  rewrite Em. destruct (Z.ltb_spec (card_index k) numcards) as [Hlt|]; cbn [andb]; [|by eexists].
  case_bool_decide as Hin; cbn [negb]; [by eexists|].
  rewrite (mapM_total _ (fun pub => cbytes (fv k * fe (shared_factor k pub))))
    by (eapply list.Forall_impl; [exact Hpl|]; intros pub Hpub; by rewrite initcrypt_eq).
  rewrite bind_Some, pubkey_factor_ok, bind_Some by (apply curve25519_b256; [done|apply basepoint_b256]).
  eexists. split; [reflexivity|]. split; cbn [deck_cards deck_cardpubs deck_prod deck_mask].
  - rewrite D1, map_app, concat_app. cbn [map concat]. by rewrite app_nil_r.
  - by rewrite D2, map_app.
  - by rewrite D3, map_app, foldl_app.
  - apply list.Forall_app_2; [done|]. by apply list.Forall_cons_2.
  - rewrite map_app. apply list.NoDup_app. split_and!; [done| |apply list.NoDup_singleton].
    intros j Hj. cbn. rewrite list_elem_of_singleton. congruence.
  - split; [apply Z.lor_nonneg; split; [done|]; rewrite Z.shiftl_1_l; by apply Z.pow_nonneg|].
    intros j Hj. rewrite Z.lor_spec, D7, Z.shiftl_1_l, Z.pow2_bits_eqb, map_app by done. cbn [map].
    apply eq_true_iff_eq. rewrite orb_true_iff, !bool_decide_eq_true, Z.eqb_eq, elem_of_app, list_elem_of_singleton.
    by intuition.
Qed.

Lemma full_mask numcards playerpubs privs s :
  0 <= numcards -> deck_of numcards playerpubs privs s ->
  (deck_mask s = Z.shiftl 1 numcards - 1 <-> forall i, 0 <= i < numcards -> i ∈ map card_index privs).
Proof.
  intros Hn [_ _ _ D4 _ [D6 D7]]. rewrite Z.shiftl_1_l, Z.sub_1_r, <- Z.ones_equiv. split.
  - intros E i Hi. specialize (D7 i ltac:(lia)). rewrite E, Z.ones_spec_low in D7 by lia.
    symmetry in D7. by apply bool_decide_eq_true in D7.
  - intros H. apply Z.bits_inj'. intros j Hj. rewrite D7 by done. destruct (Z.lt_ge_cases j numcards).
    + rewrite Z.ones_spec_low by lia. apply bool_decide_eq_true_2, H. lia.
    + rewrite Z.ones_spec_high by lia. apply bool_decide_eq_false_2. intros Hin. apply list_elem_of_fmap in Hin as (k & -> & Hk).
      rewrite list.Forall_forall in D4. apply D4 in Hk. lia.
Qed.

Lemma initdeck_loop_total numcards playerpubs rands : forall privs s,
  0 <= numcards <= 52 -> Forall b256 playerpubs -> Forall b256 rands -> deck_of numcards playerpubs privs s ->
  (forall i, 0 <= i < numcards -> i ∈ map card_index privs \/ i ∈ map card_index (map clamp rands)) ->
  exists privs' s', initdeck_loop numcards playerpubs rands s = Some s' /\ deck_of numcards playerpubs privs' s' /\
    (forall i, 0 <= i < numcards -> i ∈ map card_index privs') /\
    (forall k, k ∈ privs' -> k ∈ privs \/ k ∈ map clamp rands).
Proof.
  induction rands as [|r rands IH]; intros privs s Hn Hpl Hr D Hall; cbn [initdeck_loop];
    destruct (Z.eqb_spec (deck_mask s) (Z.shiftl 1 numcards - 1)) as [E|E];
    try (exists privs, s; split_and!; [done|done|by apply (full_mask _ _ _ _ (proj1 Hn) D)|tauto]).
  - destruct E. apply (full_mask _ _ _ _ (proj1 Hn) D). intros i Hi. destruct (Hall i Hi) as [|Hx]; [done|]. by apply elem_of_nil in Hx.
  - apply list.Forall_cons in Hr as [Hr1 Hr].
    destruct (initdeck_step_ok numcards playerpubs privs s r ltac:(lia) Hpl Hr1 D) as (s1 & E1 & D1). rewrite E1, bind_Some.
    destruct (IH _ s1 Hn Hpl Hr D1) as (privs' & s' & E2 & D2 & H2 & H3).
    + intros i Hi. cbn [map] in Hall. destruct (Hall i Hi) as [Hin|Hin].
      * left. destruct (_ && _); [|done]. rewrite map_app, elem_of_app. by left.
      * apply elem_of_cons in Hin as [->|]; [|by right]. left.
        destruct (Z.ltb_spec (card_index (clamp r)) numcards); [|lia]. case_bool_decide as Hin; cbn [negb andb]; [done|].
        rewrite map_app, elem_of_app. right. by apply list_elem_of_singleton.
    + exists privs', s'. split_and!; [done|done|done|]. intros k Hk. cbn [map]. rewrite elem_of_cons.
      destruct (H3 k Hk) as [Hx|Hx]; [|by tauto]. destruct (_ && _); [|by left].
      apply elem_of_app in Hx as [Hx|Hx]; [by left|]. apply list_elem_of_singleton in Hx. by tauto.
Qed.

(** The product of the factors in the order of the list. *)
Lemma pubkeys_product pubs : Forall b256 pubs ->
  cards777_pubkeys pubs (Z.of_nat (len pubs)) = Some (fcontract (foldl (fun v pub => fmul v (pub_factor pub)) unit_factor pubs)).
Proof.
  intros Hp. unfold cards777_pubkeys. cbv zeta. change (zput zero256 0 9) with curve25519_basepoint9. fold unit_factor. rewrite Nat2Z.id.
  destruct (for_loopM_inv (fun i v => v = foldl (fun v pub => fmul v (pub_factor pub)) unit_factor (take (Z.to_nat i) pubs))
    (len pubs) 0 (fun i prod => pubkey ← aget pubs i; hexp ← pubkey_factor pubkey; Some (fmul prod hexp)) unit_factor)
    as (v & -> & Hv).
  - intros i v Hi Hv. destruct (lookup_lt_is_Some_2 pubs (Z.to_nat i)) as [x Ex]; [lia|].
    rewrite aget_nat, Ex, bind_Some, pubkey_factor_ok, bind_Some by first [lia|exact (proj1 (Forall_lookup_1 _ _ _ _ Hp Ex))].
    eexists. split; [reflexivity|]. replace (Z.to_nat (i + 1)) with (S (Z.to_nat i)) by lia.
    rewrite (take_S_r _ _ _ Ex), foldl_app. cbn [foldl]. by rewrite Hv.
  - done.
  - rewrite bind_Some, Hv. by rewrite take_ge by lia.
Qed.

(** [C15] The dealer's deck.  When every index below [numcards] occurs among the random keys
    the loop of [cards777_initdeck] ends, and then the deck has exactly one key of each
    index: its public keys and encrypted cards are those of the keys, row by row, and the
    product of all factors is what [cards777_pubkeys] computes from the public keys alone. *)
Theorem initdeck_complete numcards playerpubs rands :
  0 <= numcards <= 52 -> Forall b256 playerpubs -> Forall b256 rands ->
  (forall i, 0 <= i < numcards -> exists r, r ∈ rands /\ card_index (clamp r) = i) ->
  exists privs prod,
    cards777_initdeck numcards playerpubs rands
    = Some (concat (map (deal_row playerpubs) privs), map public privs, prod) /\
    map card_index privs ≡ₚ seqZ 0 numcards /\
    (forall k, k ∈ privs -> exists r, r ∈ rands /\ k = clamp r) /\
    cards777_pubkeys (map public privs) numcards = Some prod.
Proof.
  intros Hn Hpl Hr Hall. unfold cards777_initdeck. cbv zeta. fold unit_factor.
  destruct (initdeck_loop_total numcards playerpubs rands [] (mkDeck [] [] 0 unit_factor) Hn Hpl Hr)
    as (privs & s & -> & [D1 D2 D3 D4 D5 _] & Hfull & Hfrom).
  - split; cbn; [done|done|done|constructor|constructor|]. split; [done|]. intros j Hj. by rewrite Z.testbit_0_l.
  - intros i Hi. right. destruct (Hall i Hi) as (r & Hr1 & <-). apply list_elem_of_fmap. exists (clamp r). split; [done|].
    apply list_elem_of_fmap. by exists r.
  - assert (HP : map card_index privs ≡ₚ seqZ 0 numcards).
    { apply NoDup_Permutation; [done|apply NoDup_seqZ|]. intros i. rewrite elem_of_seqZ. split; [|intros Hi; apply Hfull; lia].
      intros Hi. apply list_elem_of_fmap in Hi as (k & -> & Hk). rewrite list.Forall_forall in D4. destruct (D4 k Hk). lia. }
    exists privs, (fcontract (deck_prod s)). split_and!.
    + rewrite bind_Some. by rewrite D1, D2.
    + exact HP.
    + intros k Hk. destruct (Hfrom k Hk) as [Hx|Hx]; [by apply elem_of_nil in Hx|].
      apply list_elem_of_fmap in Hx as (r & -> & Hx). by exists r.
    + assert (El : len privs = Z.to_nat numcards) by (apply Permutation_length in HP; by rewrite length_map, length_seqZ in HP).
      replace numcards with (Z.of_nat (len (map public privs))) at 1 by (rewrite length_map; lia).
      rewrite pubkeys_product, D3; [done|]. apply List.Forall_map. eapply list.Forall_impl; [exact D4|].
      intros k [Hk _]. by apply curve25519_b256, basepoint_b256.
Qed.

(** The random values of a deck of two cards, with one value that is not used. *)
Definition two_rands : list (list Z) := [1 :: 1 :: replicate 30 7; replicate 32 200; 1 :: 0 :: replicate 30 9].

Lemma initdeck_complete_witness :
  exists privs prod,
    cards777_initdeck 2 [cbytes 9; cbytes 5] two_rands
    = Some (concat (map (deal_row [cbytes 9; cbytes 5]) privs), map public privs, prod) /\
    map card_index privs ≡ₚ seqZ 0 2 /\
    (forall k, k ∈ privs -> exists r, r ∈ two_rands /\ k = clamp r) /\
    cards777_pubkeys (map public privs) 2 = Some prod.
Proof.
  apply initdeck_complete.
  - lia.
  - apply list.Forall_cons_2; [apply cbytes_b256|]. apply list.Forall_cons_2; [apply cbytes_b256|constructor].
  - repeat apply list.Forall_cons_2; try (split; [repeat constructor; lia|reflexivity]). constructor.
  - intros i Hi. assert (i = 0 \/ i = 1) as [->| ->] by lia.
    + exists (1 :: 0 :: replicate 30 9). split; [unfold two_rands; rewrite !elem_of_cons; tauto|reflexivity].
    + exists (1 :: 1 :: replicate 30 7). split; [unfold two_rands; rewrite !elem_of_cons; tauto|reflexivity].
Defined.
