(* ===== verification/Utils.v ===== *)
(** * utils777.c: hexadecimal and base-32 text, string cleaning, small sets, dates

    A C string is the list of its bytes without the terminator ([text]); a buffer that a
    function reads past its string, or writes, is a list of bytes whose accesses are checked.
    The functions on floating-point numbers, the sort wrappers around [qsort] and those that
    only allocate are not modelled; neither are the diagnostics. *)
From Stdlib Require Import ZArith Lia.
From stdpp Require Import base list numbers option.
From S2P Require Import Prelude Bits.
Open Scope Z_scope.

Abbreviation text := (list Z) (only parsing).

(** The string at the start of a buffer; [None] when no terminator follows. *)
Fixpoint c_str (mem : list Z) : option text :=
  match mem with
  | [] => None
  | c :: mem => if c =? 0 then Some [] else s ← c_str mem; Some (c :: s)
  end.

(** ** Quotes and escapes *)

(** utils777.c:142-167 [stringifyM] *)
Definition stringifyM (str : option text) : option text :=
  match str with
  | None => None
  | Some [] => Some []
  | Some str => Some ([34] ++ concat (map (fun c => if c =? 34 then [92; 34] else [c]) str) ++ [34])
  end.

(** utils777.c:180-188 [unstringify] The loop: a backslash before [t], [n], [b] or [r] goes
    away with the letter, a backslash before a quote goes away. *)
Fixpoint unescape (str : text) : text :=
  match str with
  | c :: ((d :: str2) as str1) =>
      if (c =? 92) && ((d =? 116) || (d =? 110) || (d =? 98) || (d =? 114)) then unescape str2
      else if (c =? 92) && (d =? 34) then 34 :: unescape str2
      else c :: unescape str1
  | _ => str
  end.

(** utils777.c:170-191 [unstringify] *)
Definition unstringify (str : option text) : option text :=
  match str with
  | None => None
  | Some [] => Some []
  | Some str =>
      let n := length str in
      Some (unescape (if (znth str 0 =? 34) && (znth str (Z.of_nat n - 1) =? 34) then drop 1 (take (n - 1) str) else str))
  end.

(** utils777.c:193-213 [safecopy] The returned count and the buffer. *)
Definition safecopy (dest : list Z) (src : option text) (len : Z) : option (Z * list Z) :=
  if Z.of_nat (length dest) <? len then None
  else
    let n := Z.to_nat len in
    let dest := replicate n 0 ++ drop n dest in
    match src with
    | None => Some (-1, dest)
    | Some src =>
        let i := Z.min len (Z.of_nat (length src)) in
        let dest := take (Z.to_nat i) src ++ drop (Z.to_nat i) dest in
        if i =? len then Some (-1, dest) else dest ← aset dest i 0; Some (i, dest)
    end.

(** The upper-case hexadecimal digits of a number, at least two of them. *)
Fixpoint hex_upper (n : nat) (x : Z) : text :=
  match n with
  | O => []
  | S n => hex_upper n (x / 16) ++ [if x mod 16 <? 10 then 48 + x mod 16 else 55 + x mod 16]
  end.
Definition sprintf_02X (x : Z) : text := hex_upper (if x <? 256 then 2 else 8) x.

(** utils777.c:215-232 [escape_code] A [char] above 127 is negative. *)
Definition escape_code (str : text) : text :=
  concat (map (fun b =>
    let c := i8 b in
    if ((48 <=? c) && (c <=? 57)) || ((97 <=? c) && (c <=? 122)) || ((65 <=? c) && (c <=? 90)) then [b]
    else 37 :: sprintf_02X (u32 c)) str).

(** utils777.c:234-243 [is_zeroes] *)
Definition is_zeroes (str : option text) : bool :=
  match str with None => true | Some str => forallb (fun c => c =? 48) str end.

(** utils777.c:253-262 [has_backslash] *)
Definition has_backslash (str : option text) : bool :=
  match str with None => false | Some str => existsb (fun c => c =? 92) str end.

(** utils777.c:273-287 [reverse_hexstr] Every byte of the copy is written when the length is
    even. *)
Definition reverse_hexstr (str : text) : option text :=
  let n := Z.of_nat (length str) in
  for_loopM (Z.to_nat ((n + 1) / 2)) 0 (fun k rev =>
    let i := 2 * k in
    let next := if i + 1 <? n then znth str (i + 1) else 0 in
    rev ← aset rev (n - 2 - i) (znth str i);
    aset rev (n - 1 - i) next) (replicate (length str) 0).

(** ** Hexadecimal *)

(** utils777.c:289-297 [hexbyte] *)
Definition hexbyte (c : Z) : Z :=
  let c := Z.land c 15 in
  if c <? 10 then 48 + c else if c <? 16 then 97 + c - 10 else 0.

(** utils777.c:299-306 [_unhex] *)
Definition _unhex (c : Z) : Z :=
  if (48 <=? c) && (c <=? 57) then c - 48 else if (97 <=? c) && (c <=? 102) then c - 97 + 10 else -1.

(** utils777.c:308-317 [is_hexstr] *)
Definition is_hexstr (str : option text) : bool :=
  match str with None | Some [] => false | Some str => forallb (fun c => negb (_unhex c <? 0)) str end.

(** utils777.c:319-327 [unhex] *)
Definition unhex (c : Z) : Z := let hex := _unhex c in hex.

(** utils777.c:329-329 [_decode_hex] *)
Definition _decode_hex (hex : list Z) : option Z :=
  h0 ← aget hex 0; h1 ← aget hex 1; Some (u8 (Z.lor (Z.shiftl (unhex h0) 4) (unhex h1))).

(** utils777.c:331-357 [decode_hex] The returned count and the bytes; [hex] is the buffer
    with the string. *)
Definition decode_hex (bytes : list Z) (n : Z) (hex : list Z) : option (Z * list Z) :=
  str ← c_str hex;
  if negb (is_hexstr (Some str)) then
    if Z.of_nat (length bytes) <? n then None else Some (n, replicate (Z.to_nat n) 0 ++ drop (Z.to_nat n) bytes)
  else
    odd ← (if n =? 0 then Some true
           else a ← aget hex (n * 2 + 1);
                if a =? 0 then b ← aget hex (n * 2); Some (negb (b =? 0)) else Some false);
    let adjust := c_bool odd in
    bytes ← (if truth adjust then h ← aget hex 0; aset bytes 0 (u8 (unhex h)) else Some bytes);
    bytes ← for_loopM (Z.to_nat n) 0 (fun i bytes =>
      b ← _decode_hex (drop (Z.to_nat (adjust + i * 2)) hex); aset bytes (adjust + i) b) bytes;
    Some (n + adjust, bytes).

(** utils777.c:359-376 [init_hexbytes_noT] The returned count and the string. *)
Definition init_hexbytes_noT (message : list Z) (len : Z) : option (Z * text) :=
  if len =? 0 then Some (1, [])
  else
    hexbytes ← for_loopM (Z.to_nat len) 0 (fun i hexbytes =>
      m ← aget message i;
      Some (hexbytes ++ [hexbyte (Z.land (Z.shiftr m 4) 15); hexbyte (Z.land m 15)])) [];
    Some (i32 len * 2 + 1, hexbytes).

(** utils777.c:495-513 [conv_datastr] The length, and the data unless the null pointer is
    returned. *)
Definition conv_datastr (data : list Z) (datastr : list Z) : option (Z * option (list Z)) :=
  str ← c_str datastr;
  if is_hexstr (Some str) then
    let datalen := Z.of_nat (length str) in
    if (1 <? datalen) && (Z.land datalen 1 =? 0) then
      '(_, data) ← decode_hex data (Z.shiftr datalen 1) datastr; Some (Z.shiftr datalen 1, Some data)
    else Some (0, None)
  else Some (0, None).

(** utils777.c:515-524 [is_decimalstr] *)
Definition is_decimalstr (str : option text) : Z :=
  match str with
  | None => 0
  | Some str => if forallb (fun c => negb ((c <? 48) || (57 <? c))) str then Z.of_nat (length str) else 0
  end.

(** utils777.c:535-547 [stringbits] *)
Definition stringbits (str : option text) : Z :=
  match str with
  | None => 0
  | Some str =>
      let n := Z.min 8 (Z.of_nat (length str)) in
      for_loop (Z.to_nat n) 0 (fun k bits =>
        let i := n - 1 - k in u64 (Z.lor (Z.shiftl bits 8) (Z.land (znth str i) 255))) 0
  end.

(** ** Base 32 and base 64 *)

(** utils777.c:378-385 [base32byte] *)
Definition base32byte (val : Z) : Z :=
  if val <? 26 then 65 + val else if val <? 32 then 50 + val - 26 else -1.

(** utils777.c:387-394 [unbase32] *)
Definition unbase32 (c : Z) : Z :=
  if (65 <=? c) && (c <=? 90) then c - 65 else if (50 <=? c) && (c <=? 55) then c - 50 + 26 else -1.

(** utils777.c:396-408 [init_base32] [val5] is an [int]: four bytes. *)
Definition init_base32 (token : list Z) (len : Z) : option text :=
  '(tokenstr, _) ← for_loopM (Z.to_nat len) 0 (fun i '(tokenstr, offset) =>
    '(val5, offset) ← for_loopM 5 0 (fun j '(val5, offset) =>
      b ← GETBIT token offset;
      val5 ← (if negb (b =? 0) then SETBIT val5 offset else Some val5);
      Some (val5, offset + 1)) ([0; 0; 0; 0], offset);
    Some (tokenstr ++ [u8 (base32byte (i32 (le_val val5)))], offset)) ([], 0);
  Some tokenstr.

(** utils777.c:410-431 [decode_base32] The returned number of bits and the token. *)
Definition decode_base32 (token : list Z) (tokenstr : list Z) (len : Z) : option (Z * list Z) :=
  r ← for_ret (Z.to_nat len) 0 (fun i '(token, offset) =>
    c ← aget tokenstr i;
    let val5 := unbase32 c in
    if 0 <=? val5 then
      s ← for_loopM 5 0 (fun j '(token, offset) =>
        b ← GETBIT (le_bytes 4 val5) j;
        token ← (if negb (b =? 0) then SETBIT token offset else CLEARBIT token offset);
        Some (token, offset + 1)) (token, offset);
      Some (inl s)
    else Some (inr token)) (token, 0);
  match r with
  | inr token => Some (-1, token)
  | inl (token, offset) =>
      token ← for_loopM (Z.to_nat ((- offset) mod 8)) offset (fun offset token => CLEARBIT token offset) token;
      Some (offset + (- offset) mod 8, token)
  end.

(** utils777.c:480-493 [safechar64] *)
Definition safechar64 (x : Z) : Z :=
  let x := Z.rem x 64 in
  if x <? 26 then x + 97 else if x <? 52 then x + 65 - 26 else if x <? 62 then x + 48 - 52
  else if x =? 62 then 95 else 45.

(** ** White space *)

(** utils777.c:433-446 [_stripwhite] The string that is left and its length. *)
Definition _stripwhite (buf : option text) (accept : Z) : Z * option text :=
  match buf with
  | None => (0, None)
  | Some buf =>
      let s := filter (fun c => (i8 c = accept) \/ (c <> 32 /\ c <> 10 /\ c <> 13 /\ c <> 9 /\ c <> 8)) buf in
      (Z.of_nat (length s), Some s)
  end.

(** utils777.c:464-478 [stripstr] *)
Definition stripstr (buf : list Z) (len : Z) : Z * text :=
  let s := filter (fun c => c <> 32 /\ c <> 10 /\ c <> 13 /\ c <> 9 /\ c <> 34) (take (Z.to_nat len) buf) in
  (Z.of_nat (length s), s).

(** ** Sets of nonzero numbers *)

(** utils777.c:941-962 [find_uint64] The index and the first empty slot, -1 for none. *)
Definition find_uint64 (nums : list Z) (max val : Z) : option (Z * Z) :=
  r ← for_ret (Z.to_nat max) 0 (fun i (_ : unit) =>
    x ← aget nums i;
    if x =? 0 then Some (inr (-1, i)) else if x =? val then Some (inr (i, -1)) else Some (inl tt)) tt;
  Some (match r with inl _ => (-1, -1) | inr r => r end).

(** utils777.c:964-974 [add_uint64] *)
Definition add_uint64 (nums : list Z) (max val : Z) : option (Z * list Z) :=
  '(i, emptyslot) ← find_uint64 nums max val;
  if 0 <=? i then Some (i, nums)
  else if 0 <=? emptyslot then nums ← aset nums emptyslot val; Some (emptyslot, nums)
  else Some (-1, nums).

(** utils777.c:976-985 [remove_uint64] *)
Definition remove_uint64 (nums : list Z) (max val : Z) : option (Z * list Z) :=
  '(i, _) ← find_uint64 nums max val;
  if 0 <=? i then nums ← aset nums i 0; Some (i, nums) else Some (-1, nums).

(** utils777.c:549-563 [find_uint32] The functions on narrower numbers are the same. *)
Definition find_uint32 := find_uint64.
(** utils777.c:565-575 [add_uint32] *)
Definition add_uint32 := add_uint64.
(** utils777.c:577-586 [remove_uint32] *)
Definition remove_uint32 := remove_uint64.
(** utils777.c:588-602 [find_uint16] *)
Definition find_uint16 := find_uint64.
(** utils777.c:604-614 [add_uint16] *)
Definition add_uint16 := add_uint64.
(** utils777.c:616-625 [remove_uint16] *)
Definition remove_uint16 := remove_uint64.

(** ** Numbers in bytes *)

(** utils777.c:911-918 [_emit_uint] *)
Definition _emit_uint (data : list Z) (offset x size : Z) : option (Z * list Z) :=
  '(data, _) ← for_loopM (Z.to_nat size) 0 (fun i '(data, x) =>
    data ← aset data (offset + i) (Z.land x 255); Some (data, Z.shiftr x 8)) (data, x);
  Some (offset + size, data).

(** utils777.c:920-939 [_decode_uint] The new offset and the number stored. *)
Definition _decode_uint (size : Z) (data : list Z) (offset : Z) : option (Z * option Z) :=
  if size =? 1 then x ← aget data offset; Some (offset + 1, Some x)
  else
    x ← for_loopM (Z.to_nat size) 0 (fun i x =>
      b ← aget data (offset + size - i); Some (u64 (Z.lor (Z.shiftl x 8) b))) 0;
    if size =? 2 then Some (offset + size, Some (u16 x))
    else if size =? 4 then Some (offset + size, Some (u32 x))
    else if size =? 8 then Some (offset + size, Some x)
    else Some (-1, None).

(** ** Dates as numbers YYYYMMDD *)

(** utils777.c:987-998 [is_DST] *)
Definition is_DST (datenum : Z) : bool :=
  let month := Z.rem (Z.quot datenum 100) 100 in
  let day := Z.rem datenum 100 in
  if (4 <=? month) && (month <=? 9) then true
  else if (month =? 3) && (29 <=? day) then true
  else if (month =? 10) && (day <? 25) then true else false.

(** utils777.c:1000-1006 [extract_datenum] The returned value and the three parts. *)
Definition extract_datenum (datenum : Z) : Z * (Z * Z * Z) :=
  let y := Z.quot datenum 10000 in
  let m := Z.rem (Z.quot datenum 100) 100 in
  let d := Z.rem datenum 100 in
  (if (2000 <=? y) && (y <=? 2038) && (1 <=? m) && (m <=? 12) && (1 <=? d) && (d <=? 31) then datenum else -1, (y, m, d)).

(** utils777.c:1010-1010 [calc_datenum] *)
Definition calc_datenum (year month day : Z) : Z := i32 (year * 10000 + month * 100 + day).

(** utils777.c:1039-1039 [ecb_decrdate] *)
Definition lastday : list Z := [0; 31; 28; 31; 30; 31; 30; 31; 31; 30; 31; 30; 31].

(** utils777.c:1037-1062 [ecb_decrdate] The returned value with the three parts, or -1; the
    text is left out. *)
Definition ecb_decrdate (datenum : Z) : option (Z * option (Z * Z * Z)) :=
  let year := Z.quot datenum 10000 in
  let month := Z.rem (Z.quot datenum 100) 100 in
  let day := Z.rem datenum 100 - 1 in
  r ← (if day <=? 0 then
         let month := month - 1 in
         r ← (if month <=? 0 then
                let year := year - 1 in
                if year <? 2000 then Some None else Some (Some (year, 12))
              else Some (Some (year, month)));
         match r with
         | None => Some None
         | Some (year, month) =>
             day ← aget lastday month;
             Some (Some (year, month, if (month =? 2) && (Z.rem year 4 =? 0) then day + 1 else day))
         end
       else Some (Some (year, month, day)));
  match r with
  | None => Some (-1, None)
  | Some (year, month, day) => Some (i32 (year * 10000 + month * 100 + day), Some (year, month, day))
  end.

(** ** Lemmas on strings and digits *)

Lemma c_str_app s g : Forall (fun c => c <> 0) s -> c_str (s ++ 0 :: g) = Some s.
Proof.
  induction 1 as [|c s Hc _ IH]; [done|]. cbn [app c_str]. destruct (Z.eqb_spec c 0); [done|]. by rewrite IH.
Qed.

Lemma hexbyte_digit x : 0 <= x < 16 -> _unhex (hexbyte x) = x /\ hexbyte x <> 0.
Proof.
  intros Hx. assert (x = 0 \/ x = 1 \/ x = 2 \/ x = 3 \/ x = 4 \/ x = 5 \/ x = 6 \/ x = 7 \/ x = 8 \/ x = 9 \/ x = 10 \/
    x = 11 \/ x = 12 \/ x = 13 \/ x = 14 \/ x = 15) as H by lia.
  by repeat destruct H as [->|H]; subst.
Qed.

Lemma nibbles b : 0 <= b < 256 -> 0 <= Z.land (Z.shiftr b 4) 15 < 16 /\ 0 <= Z.land b 15 < 16 /\
  Z.lor (Z.shiftl (Z.land (Z.shiftr b 4) 15) 4) (Z.land b 15) = b.
Proof.
  intros Hb. change 15 with (Z.ones 4). rewrite !Z.land_ones, Z.shiftr_div_pow2, Z.lor_comm, lor_shiftl by (try lia; dmlia).
  change (2 ^ 4) with 16. split_and!; dmlia.
Qed.

(** The two digits of a byte, and the text of a list of bytes. *)
Definition digits (b : Z) : text := [hexbyte (Z.land (Z.shiftr b 4) 15); hexbyte (Z.land b 15)].
Definition hexstr (m : list Z) : text := concat (map digits m).

Lemma digits_decode b g : 0 <= b < 256 -> _decode_hex (digits b ++ g) = Some b.
Proof.
  intros Hb. destruct (nibbles b Hb) as (H1 & H2 & E). unfold _decode_hex, unhex.
  change (aget (digits b ++ g) 0) with (Some (hexbyte (Z.land (Z.shiftr b 4) 15))).
  change (aget (digits b ++ g) 1) with (Some (hexbyte (Z.land b 15))). rewrite !bind_Some.
  rewrite (proj1 (hexbyte_digit _ H1)), (proj1 (hexbyte_digit _ H2)), E. f_equal. by apply uwrap_small.
Qed.

Lemma hexstr_length m : length (hexstr m) = (2 * length m)%nat.
Proof. induction m as [|b m IH]; [done|]. change (S (S (length (hexstr m))) = (2 * S (length m))%nat). lia. Qed.

Lemma hexstr_digits m : bytes m -> Forall (fun c => c <> 0 /\ 0 <= _unhex c) (hexstr m).
Proof.
  induction 1 as [|b m Hb _ IH]; [constructor|]. destruct (nibbles b Hb) as (H1 & H2 & _).
  destruct (hexbyte_digit _ H1), (hexbyte_digit _ H2).
  apply list.Forall_cons_2; [split; lia|]. apply list.Forall_cons_2; [split; lia|done].
Qed.

Lemma hexstr_is_hex m : bytes m -> m <> [] -> is_hexstr (Some (hexstr m)) = true.
Proof.
  intros Hm Hne. pose proof (hexstr_digits _ Hm) as H.
  replace (is_hexstr (Some (hexstr m))) with (forallb (fun c => negb (_unhex c <? 0)) (hexstr m)) by (by destruct m).
  apply forallb_forall. intros c Hc. rewrite list.Forall_forall in H. apply list_elem_of_In, H in Hc.
  by destruct (Z.ltb_spec (_unhex c) 0); [lia|].
Qed.

(** Reading an array element by element. *)
Lemma aget_app_l {A} (l g : list A) i : 0 <= i < Z.of_nat (length l) -> aget (l ++ g) i = aget l i.
Proof. intros Hi. unfold aget. destruct (Z.leb_spec 0 i); [|done]. apply lookup_app_l. lia. Qed.

Lemma aget_app_r {A} (l g : list A) i : Z.of_nat (length l) <= i -> aget (l ++ g) i = aget g (i - Z.of_nat (length l)).
Proof.
  intros Hi. unfold aget. destruct (Z.leb_spec 0 i); [|lia]. destruct (Z.leb_spec 0 (i - Z.of_nat (length l))); [|lia].
  rewrite lookup_app_r by lia. f_equal. lia.
Qed.

Lemma aset_app_r {A} (l g : list A) i x :
  Z.of_nat (length l) <= i -> aset (l ++ g) i x = g' ← aset g (i - Z.of_nat (length l)) x; Some (l ++ g').
Proof.
  intros Hi. unfold aset. rewrite length_app, Nat2Z.inj_add. destruct (Z.leb_spec 0 i); [|lia].
  destruct (Z.leb_spec 0 (i - Z.of_nat (length l))); [|lia]. cbn [andb].
  destruct (Z.ltb_spec i (Z.of_nat (length l) + Z.of_nat (length g))), (Z.ltb_spec (i - Z.of_nat (length l)) (Z.of_nat (length g))); try lia; [|done].
  rewrite bind_Some. f_equal. replace (Z.to_nat i) with (length l + Z.to_nat (i - Z.of_nat (length l)))%nat by lia. by rewrite insert_app_r.
Qed.

(** The loop that fills a buffer from the front. *)
Lemma fill_loop {A} (f : Z -> option A) l dest :
  (length l <= length dest)%nat -> (forall i x, aget l i = Some x -> f i = Some x) ->
  for_loopM (length l) 0 (fun i d => x ← f i; aset d i x) dest = Some (l ++ drop (length l) dest).
Proof.
  intros Hl Hf.
  destruct (for_loopM_inv (fun i d => d = take (Z.to_nat i) l ++ drop (Z.to_nat i) dest) (length l) 0
    (fun i d => x ← f i; aset d i x) dest) as (d & -> & ->).
  - intros i d Hi ->. destruct (aget_range l i) as [x Ex]; [lia|]. rewrite (Hf i x Ex), bind_Some.
    destruct (lookup_lt_is_Some_2 dest (Z.to_nat i)) as [y Ey]; [lia|].
    eexists. rewrite aset_app_r, (drop_S dest y) by (try exact Ey; rewrite length_take; lia).
    rewrite length_take. replace (i - Z.of_nat (Z.to_nat i `min` length l)) with 0 by lia. cbn.
    split; [reflexivity|]. replace (Z.to_nat (i + 1)) with (S (Z.to_nat i)) by lia.
    apply aget_Some in Ex as [_ Ex]. by rewrite (take_S_r _ _ _ Ex), <- app_assoc.
  - by rewrite drop_0.
  - rewrite Z.add_0_l, Nat2Z.id. by rewrite firstn_all.
Qed.

Lemma init_hexbytes_prefix m g :
  Z.of_nat (length m) < 2 ^ 30 -> init_hexbytes_noT (m ++ g) (Z.of_nat (length m)) = Some (2 * Z.of_nat (length m) + 1, hexstr m).
Proof.
  intros Hm. change (2 ^ 30) with 1073741824 in Hm. unfold init_hexbytes_noT.
  destruct (Z.eqb_spec (Z.of_nat (length m)) 0) as [E|_]; [destruct m; [done|cbn in E; lia]|]. rewrite Nat2Z.id.
  match goal with |- context [for_loopM ?n 0 ?b []] =>
    destruct (for_loopM_inv (fun i h => h = hexstr (take (Z.to_nat i) m)) n 0 b []) as (h & -> & ->) end.
  - intros i h Hi ->. rewrite aget_app_l by lia. destruct (aget_range m i) as [x Ex]; [lia|]. rewrite Ex, bind_Some. eexists. split; [reflexivity|].
    apply aget_Some in Ex as [_ Ex]. replace (Z.to_nat (i + 1)) with (S (Z.to_nat i)) by lia. unfold hexstr.
    by rewrite (take_S_r _ _ _ Ex), map_app, concat_app.
  - done.
  - rewrite bind_Some, Z.add_0_l, Nat2Z.id, firstn_all. rewrite swrap_small; [|lia|change (2 ^ (32 - 1)) with 2147483648; lia].
    do 2 f_equal. lia.
Qed.

Lemma init_hexbytes_eq m :
  Z.of_nat (length m) < 2 ^ 30 -> init_hexbytes_noT m (Z.of_nat (length m)) = Some (2 * Z.of_nat (length m) + 1, hexstr m).
Proof. intros Hm. pose proof (init_hexbytes_prefix m [] Hm) as E. by rewrite app_nil_r in E. Qed.

Lemma hexstr_split m i b : aget m i = Some b -> exists g, drop (Z.to_nat (2 * i)) (hexstr m) = digits b ++ g.
Proof.
  intros H. apply aget_Some in H as [Hi Hm]. exists (hexstr (drop (S (Z.to_nat i)) m)).
  pose proof (take_drop_middle m (Z.to_nat i) b Hm) as E. rewrite <- E at 1. unfold hexstr. rewrite map_app, concat_app.
  apply lookup_lt_Some in Hm. rewrite drop_app_length'; [done|]. pose proof (hexstr_length (take (Z.to_nat i) m)) as HL.
  unfold hexstr in HL. rewrite HL, length_take. lia.
Qed.

Lemma decode_hexstr m dest x g :
  bytes m -> m <> [] -> (length m <= length dest)%nat ->
  decode_hex dest (Z.of_nat (length m)) (hexstr m ++ 0 :: x :: g) = Some (Z.of_nat (length m), m ++ drop (length m) dest).
Proof.
  intros Hb Hne Hd. unfold decode_hex. assert (Hm : 0 < Z.of_nat (length m)) by (destruct m; [done|cbn; lia]).
  rewrite c_str_app, bind_Some, hexstr_is_hex by (done || (eapply list.Forall_impl; [by apply hexstr_digits|]; cbn; tauto)).
  cbn [negb]. destruct (Z.eqb_spec (Z.of_nat (length m)) 0); [lia|].
  rewrite (aget_app_r _ _ (Z.of_nat (length m) * 2 + 1)), (aget_app_r _ _ (Z.of_nat (length m) * 2)) by (rewrite hexstr_length; lia).
  rewrite hexstr_length.
  replace (Z.of_nat (length m) * 2 + 1 - Z.of_nat (2 * length m)) with 1 by lia.
  replace (Z.of_nat (length m) * 2 - Z.of_nat (2 * length m)) with 0 by lia.
  change (aget (0 :: x :: g) 1) with (Some x). change (aget (0 :: x :: g) 0) with (Some 0). rewrite !bind_Some.
  replace (if x =? 0 then Some (negb (0 =? 0)) else Some false) with (Some false) by (by destruct (x =? 0)).
  rewrite bind_Some. cbn [c_bool truth Z.eqb negb]. rewrite bind_Some, Nat2Z.id.
  match goal with |- context [for_loopM _ 0 ?b dest] =>
    change b with (fun i d => c ← _decode_hex (drop (Z.to_nat (i * 2)) (hexstr m ++ 0 :: x :: g)); aset d i c) end.
  rewrite (fill_loop (fun i => _decode_hex (drop (Z.to_nat (i * 2)) (hexstr m ++ 0 :: x :: g))) m dest Hd); [by rewrite bind_Some, Z.add_0_r|].
  intros i b Eb. destruct (hexstr_split m i b Eb) as [r Er]. pose proof Eb as [Hi Hl]%aget_Some. apply lookup_lt_Some in Hl.
  rewrite drop_app_le by (rewrite hexstr_length; lia). replace (i * 2) with (2 * i) by lia. rewrite Er, <- app_assoc.
  apply digits_decode. apply aget_Some in Eb as [_ Eb]. eapply Forall_lookup_1 in Eb; [|exact Hb]. exact Eb.
Qed.

(** [C32] Hexadecimal text.  Decoding what [init_hexbytes_noT] writes gives the bytes back,
    provided one more byte of memory follows the terminator: [decode_hex] reads it. *)
Theorem hex_roundtrip m dest x g :
  bytes m -> 0 < Z.of_nat (length m) < 2 ^ 30 -> (length m <= length dest)%nat ->
  exists s, init_hexbytes_noT m (Z.of_nat (length m)) = Some (2 * Z.of_nat (length m) + 1, s) /\
    decode_hex dest (Z.of_nat (length m)) (s ++ 0 :: x :: g) = Some (Z.of_nat (length m), m ++ drop (length m) dest).
Proof.
  intros Hb Hm Hd. exists (hexstr m). split; [apply init_hexbytes_eq; apply Hm|].
  apply decode_hexstr; [done|intros ->; cbn in Hm; lia|done].
Qed.

Lemma hex_roundtrip_witness :
  bytes [0; 254; 17] /\
  exists s, init_hexbytes_noT [0; 254; 17] (Z.of_nat (length [0; 254; 17])) = Some (2 * Z.of_nat (length [0; 254; 17]) + 1, s) /\
    decode_hex [9; 9; 9; 9] (Z.of_nat (length [0; 254; 17])) (s ++ 0 :: 5 :: [])
    = Some (Z.of_nat (length [0; 254; 17]), [0; 254; 17] ++ drop (length [0; 254; 17]) [9; 9; 9; 9]).
Proof.
  split; [repeat constructor; lia|]. apply hex_roundtrip.
  - repeat constructor; lia.
  - split; reflexivity.
  - cbn. lia.
Defined.

(** Text that is not hexadecimal decodes to zeroes; after an odd number of digits the first
    digit is a byte of its own and the count is one more; a buffer that ends with the
    terminator is read past its end. *)
Example decode_hex_not_hex : decode_hex [1; 2; 3] 2 [71; 72; 0; 0; 0] = Some (2, [0; 0; 3]).
Proof. reflexivity. Qed.
Example decode_hex_odd : decode_hex [9; 9; 9] 1 [97; 98; 99; 0] = Some (2, [10; 188; 9]).
Proof. reflexivity. Qed.
Example decode_hex_overread : decode_hex [9] 1 [97; 98; 0] = None.
Proof. reflexivity. Qed.

(** ** Reversing the bytes of a hexadecimal string *)

Lemma hexstr_digit m k b : aget m k = Some b ->
  znth (hexstr m) (2 * k) = hexbyte (Z.land (Z.shiftr b 4) 15) /\ znth (hexstr m) (2 * k + 1) = hexbyte (Z.land b 15).
Proof.
  intros H. destruct (hexstr_split m k b H) as [g E]. apply aget_Some in H as [Hk _].
  assert (Q : forall j, 0 <= j -> aget (hexstr m) (2 * k + j) = aget (digits b ++ g) j).
  { intros j Hj. rewrite <- E. unfold aget. destruct (Z.leb_spec 0 (2 * k + j)), (Z.leb_spec 0 j); try lia.
    rewrite lookup_drop. f_equal. lia. }
  split; unfold znth.
  - rewrite <- (Z.add_0_r (2 * k)). by rewrite Q.
  - by rewrite Q.
Qed.

Lemma aset_second {A} (x y z : A) l : aset (x :: y :: l) 1 z = Some (x :: z :: l).
Proof. unfold aset. cbn [length]. by destruct (Z.ltb_spec 1 (Z.of_nat (S (S (length l))))); [|lia]. Qed.

(** Byte order of a transaction id.  [reverse_hexstr] turns the text of some bytes into
    the text of the bytes in reverse order. *)
Theorem reverse_hexstr_spec m : reverse_hexstr (hexstr m) = Some (hexstr (rev m)).
Proof.
  unfold reverse_hexstr. rewrite hexstr_length. replace (Z.to_nat ((Z.of_nat (2 * length m) + 1) / 2)) with (length m) by dmlia.
  match goal with |- context [for_loopM ?n 0 ?b ?s] =>
    destruct (for_loopM_inv (fun k r => r = replicate (2 * (length m - Z.to_nat k)) 0 ++ hexstr (rev (take (Z.to_nat k) m))) n 0 b s)
      as (r & -> & ->) end.
  - intros k r Hk ->. set (q := (length m - Z.to_nat (k + 1))%nat).
    destruct (aget_range m k) as [b Eb]; [lia|]. destruct (hexstr_digit m k b Eb) as [E0 E1].
    destruct (Z.ltb_spec (2 * k + 1) (Z.of_nat (2 * length m))); [|lia]. rewrite E0, E1.
    replace (2 * (length m - Z.to_nat k))%nat with (2 * q + 2)%nat by lia.
    rewrite replicate_add, <- app_assoc. change (replicate 2 0) with [0; 0]. eexists. split.
    + rewrite aset_app_r, length_replicate by (rewrite length_replicate; lia).
      replace (Z.of_nat (2 * length m) - 2 - 2 * k - Z.of_nat (2 * q)) with 0 by lia.
      change (aset ([0; 0] ++ ?t) 0 ?d) with (Some (d :: 0 :: t)). rewrite !bind_Some.
      rewrite aset_app_r, length_replicate by (rewrite length_replicate; lia).
      replace (Z.of_nat (2 * length m) - 1 - 2 * k - Z.of_nat (2 * q)) with 1 by lia.
      rewrite aset_second. reflexivity.
    + apply aget_Some in Eb as [_ Eb]. replace (Z.to_nat (k + 1)) with (S (Z.to_nat k)) by lia.
      rewrite (take_S_r _ _ _ Eb), rev_app_distr. done.
  - by rewrite app_nil_r, Nat.sub_0_r.
  - rewrite Z.add_0_l, Nat2Z.id, Nat.sub_diag, firstn_all. done.
Qed.

(** ** Quoting *)

(** No backslash before a letter that [unstringify] drops. *)
Fixpoint plain (s : text) : bool :=
  match s with
  | c :: ((d :: _) as s1) => negb ((c =? 92) && ((d =? 116) || (d =? 110) || (d =? 98) || (d =? 114))) && plain s1
  | _ => true
  end.

Definition escaped (s : text) : text := concat (map (fun c => if c =? 34 then [92; 34] else [c]) s).

Lemma unescape_escaped s : plain s = true -> unescape (escaped s) = s.
Proof.
  induction s as [|c s IH]; [done|]. intros Hp.
  assert (Hs : plain s = true) by (destruct s; [done|]; cbn in Hp; by apply andb_true_iff in Hp as [_ Hp]).
  specialize (IH Hs). change (escaped (c :: s)) with ((if c =? 34 then [92; 34] else [c]) ++ escaped s).
  destruct (Z.eqb_spec c 34) as [->|Hc]; [change (34 :: unescape (escaped s) = 34 :: s); by rewrite IH|]. cbn [app].
  destruct s as [|d s]; [done|]. change (escaped (d :: s)) with ((if d =? 34 then [92; 34] else [d]) ++ escaped s) in *.
  cbn [plain] in Hp. apply andb_true_iff in Hp as [Hp _]. apply negb_true_iff in Hp.
  destruct (Z.eqb_spec d 34) as [->|Hd]; cbn [app] in *.
  - change (unescape (c :: 92 :: 34 :: escaped s)) with
      (if (c =? 92) && false then unescape (34 :: escaped s) else if (c =? 92) && false then 34 :: unescape (34 :: escaped s) else c :: unescape (92 :: 34 :: escaped s)).
    rewrite andb_false_r. by rewrite IH.
  - change (unescape (c :: d :: escaped s)) with
      (if (c =? 92) && ((d =? 116) || (d =? 110) || (d =? 98) || (d =? 114)) then unescape (escaped s)
       else if (c =? 92) && (d =? 34) then 34 :: unescape (escaped s) else c :: unescape (d :: escaped s)).
    apply Z.eqb_neq in Hd. rewrite Hp, Hd, andb_false_r. by rewrite IH.
Qed.

(** Quoting and unquoting a string is the identity as long as no backslash stands
    before one of the letters [b], [n], [r], [t]. *)
Theorem stringify_roundtrip s : plain s = true -> unstringify (stringifyM (Some s)) = Some s.
Proof.
  intros Hp. destruct s as [|c s]; [done|]. change (stringifyM (Some (c :: s))) with (Some ([34] ++ escaped (c :: s) ++ [34])).
  set (e := escaped (c :: s)). cbn [app unstringify]. set (q := 34 :: e ++ [34]).
  assert (Hq : length q = S (S (length e))) by (unfold q; cbn; rewrite length_app; cbn; lia).
  assert (E : (znth q (Z.of_nat (length q) - 1) =? 34) = true).
  { rewrite Hq. replace (Z.of_nat (S (S (length e))) - 1) with (Z.of_nat (length (34 :: e))) by (cbn; lia).
    unfold znth, q. change (34 :: e ++ [34]) with ((34 :: e) ++ [34]). rewrite aget_app_r, Z.sub_diag by lia. done. }
  rewrite E. change (znth q 0 =? 34) with true. cbn [andb]. rewrite Hq.
  replace (drop 1 (take (S (S (length e)) - 1) q)) with e; [unfold e; by rewrite unescape_escaped|].
  unfold q. replace (S (S (length e)) - 1)%nat with (S (length e)) by lia. cbn [take drop]. by rewrite take_app_length.
Qed.

Lemma stringify_roundtrip_witness : plain [97; 34; 92; 34; 34] = true /\ unstringify (stringifyM (Some [97; 34; 92; 34; 34])) = Some [97; 34; 92; 34; 34].
Proof. split; [reflexivity|]. apply stringify_roundtrip. reflexivity. Defined.

(** A file name such as [C:\temp] loses the backslash and the letter. *)
Example unstringify_drops : unstringify (stringifyM (Some [67; 58; 92; 116; 101])) = Some [67; 58; 101].
Proof. reflexivity. Qed.

(** The escape of a byte above 127 has eight digits. *)
Example escape_code_sign : escape_code [65; 32; 228] = [65; 37; 50; 48; 37; 70; 70; 70; 70; 70; 70; 69; 52].
Proof. reflexivity. Qed.

(** ** Sets: the members, then empty slots *)

Lemma find_in (l : list Z) k pre val : val <> 0 -> Forall (fun x => x <> 0) l ->
  forall n, n = (length l + k)%nat ->
  for_ret n (Z.of_nat (length pre)) (fun i (_ : unit) =>
    x ← aget (pre ++ l ++ replicate k 0) i;
    if x =? 0 then Some (inr (-1, i)) else if x =? val then Some (inr (i, -1)) else Some (inl tt)) tt
  = Some (match list_find (fun x => x = val) l with
          | Some (i, _) => inr (Z.of_nat (length pre) + Z.of_nat i, -1)
          | None => if (0 <? k)%nat then inr (-1, Z.of_nat (length pre) + Z.of_nat (length l)) else inl tt
          end).
Proof.
  intros Hv Hl. revert pre. induction Hl as [|x l Hx Hl IH]; intros pre n ->.
  - destruct k as [|k]; [done|]. change (length [] + S k)%nat with (S k). rewrite for_ret_S, aget_app_r, Z.sub_diag by lia.
    change (aget ([] ++ replicate (S k) 0) 0) with (Some 0). rewrite bind_Some. change (0 =? 0) with true. cbv iota. rewrite bind_Some. cbn [length list_find].
    change (0 <? S k)%nat with true. do 3 f_equal. lia.
  - change (length (x :: l) + k)%nat with (S (length l + k)). rewrite for_ret_S, aget_app_r, Z.sub_diag by lia.
    change (aget ((x :: l) ++ replicate k 0) 0) with (Some x). rewrite bind_Some.
    destruct (Z.eqb_spec x 0); [done|]. cbn [list_find]. destruct (Z.eqb_spec x val) as [->|Hne].
    + rewrite decide_True by done. rewrite bind_Some. do 3 f_equal. cbn. lia.
    + rewrite decide_False by done. rewrite bind_Some. specialize (IH (pre ++ [x]) _ eq_refl).
      rewrite length_app, <- app_assoc in IH. cbn [length app] in IH.
      replace (Z.of_nat (length pre) + 1) with (Z.of_nat (length pre + 1)) by lia. cbn [app]. rewrite IH.
      destruct (list_find _ l) as [[i y]|]; cbn; [do 3 f_equal; lia|]. destruct k; cbn; [done|]. do 3 f_equal. lia.
Qed.

Lemma find_uint64_eq l k val : val <> 0 -> Forall (fun x => x <> 0) l ->
  find_uint64 (l ++ replicate k 0) (Z.of_nat (length l + k)) val
  = Some (match list_find (fun x => x = val) l with
          | Some (i, _) => (Z.of_nat i, -1)
          | None => (-1, if (0 <? k)%nat then Z.of_nat (length l) else -1)
          end).
Proof.
  intros Hv Hl. unfold find_uint64. rewrite Nat2Z.id. pose proof (find_in l k [] val Hv Hl _ eq_refl) as E.
  change (Z.of_nat (length (@nil Z))) with 0 in E. cbn [app] in E. rewrite E, bind_Some.
  destruct (list_find _ l) as [[i y]|]; [done|]. by destruct k.
Qed.

(** A set of nonzero numbers.  Adding to an array whose members stand before its empty
    slots finds the member or stores the number in the first empty slot, and the array keeps
    this form; a full array is left alone and -1 returned. *)
Theorem add_uint64_spec l k val : val <> 0 -> Forall (fun x => x <> 0) l ->
  add_uint64 (l ++ replicate k 0) (Z.of_nat (length l + k)) val
  = Some (match list_find (fun x => x = val) l, k with
          | Some (i, _), _ => (Z.of_nat i, l ++ replicate k 0)
          | None, S k => (Z.of_nat (length l), (l ++ [val]) ++ replicate k 0)
          | None, O => (-1, l ++ replicate 0 0)
          end).
Proof.
  intros Hv Hl. unfold add_uint64. rewrite find_uint64_eq by done. rewrite bind_Some. destruct (list_find _ l) as [[i y]|].
  - by destruct (Z.leb_spec 0 (Z.of_nat i)); [|lia].
  - cbn [Z.leb Z.compare]. destruct k as [|k]; [done|]. cbn [Nat.ltb Nat.leb].
    destruct (Z.leb_spec 0 (Z.of_nat (length l))); [|lia]. rewrite aset_app_r, Z.sub_diag by lia.
    change (aset (replicate (S k) 0) 0 val) with (Some (val :: replicate k 0)). rewrite !bind_Some.
    by rewrite <- app_assoc.
Qed.

Lemma add_uint64_spec_witness :
  (7 <> 0 /\ Forall (fun x => x <> 0) [5; 9]) /\
  add_uint64 ([5; 9] ++ replicate 2 0) (Z.of_nat (length [5; 9] + 2)) 7
  = Some (match list_find (fun x => x = 7) [5; 9], 2%nat with
          | Some (i, _), _ => (Z.of_nat i, [5; 9] ++ replicate 2 0)
          | None, S k => (Z.of_nat (length [5; 9]), ([5; 9] ++ [7]) ++ replicate k 0)
          | None, O => (-1, [5; 9] ++ replicate 0 0)
          end).
Proof. split; [split; [done|repeat constructor; lia]|]. apply add_uint64_spec; [done|repeat constructor; lia]. Defined.

(** Removing a member leaves a hole; the members behind it are no longer found, and adding
    one of them again stores it twice. *)
Example remove_hides :
  remove_uint64 [5; 9; 7; 0] 4 9 = Some (1, [5; 0; 7; 0]) /\ find_uint64 [5; 0; 7; 0] 4 7 = Some (-1, 1) /\
  add_uint64 [5; 0; 7; 0] 4 7 = Some (1, [5; 7; 7; 0]).
Proof. done. Qed.

(** ** Numbers in bytes: the reader starts one byte too late *)

Example emit_decode_differ :
  exists data, _emit_uint [0; 0; 0; 0; 0] 0 258 4 = Some (4, data) /\ _decode_uint 4 data 0 = Some (4, Some 1).
Proof. exists [2; 1; 0; 0; 0]. done. Qed.

(** ** Base 32: the writer sets bits of the wrong number *)

Example init_base32_wrong : init_base32 [32; 0] 2 = Some [65; 255].
Proof. reflexivity. Qed.

(** ** Dates *)

(** The reference is the Gregorian calendar, written without the table of the code: leap years,
    the lengths of the months, the days of the first [n] months of a year and of the first [n]
    years from 2000 on, and the number of days since the first of January 2000. *)
Definition leap (y : Z) : bool := (y mod 4 =? 0) && (negb (y mod 100 =? 0) || (y mod 400 =? 0)).
Definition month_days (y m : Z) : Z :=
  match m with
  | 2 => if leap y then 29 else 28
  | 4 | 6 | 9 | 11 => 30
  | _ => 31
  end.
Fixpoint days_of_months (y : Z) (n : nat) : Z :=
  match n with O => 0 | S n => days_of_months y n + month_days y (Z.of_nat n + 1) end.
Fixpoint days_of_years (n : nat) : Z :=
  match n with O => 0 | S n => days_of_years n + days_of_months (2000 + Z.of_nat n) 12 end.
Definition day_number (y m d : Z) : Z := days_of_years (Z.to_nat (y - 2000)) + days_of_months y (Z.to_nat (m - 1)) + d - 1.
Definition valid_date (y m d : Z) : Prop := 2000 <= y <= 2099 /\ 1 <= m <= 12 /\ 1 <= d <= month_days y m.

(** The twelve months. *)
Lemma months m : 1 <= m <= 12 -> m = 1 \/ m = 2 \/ m = 3 \/ m = 4 \/ m = 5 \/ m = 6 \/ m = 7 \/ m = 8 \/ m = 9 \/ m = 10 \/ m = 11 \/ m = 12.
Proof. lia. Qed.

Lemma month_days_range y m : 1 <= m <= 12 -> 28 <= month_days y m <= 31.
Proof. intros Hm. pose proof (months m Hm) as H; destruct_or! H; subst m; cbn; destruct (leap y); lia. Qed.

(** In these years every fourth is a leap year. *)
Lemma leap_2000 y : 2000 <= y <= 2099 -> leap y = (y mod 4 =? 0).
Proof.
  intros Hy. unfold leap. destruct (Z.eqb_spec (y mod 4) 0); [|done]. destruct (Z.eqb_spec (y mod 100) 0); [|done]. cbn [negb orb andb].
  assert (y = 2000) as -> by dmlia. done.
Qed.

Lemma lastday_calendar y m : 2000 <= y <= 2099 -> 1 <= m <= 12 ->
  znth lastday m + (if (m =? 2) && (y mod 4 =? 0) then 1 else 0) = month_days y m.
Proof. intros Hy Hm. rewrite <- leap_2000 by done. pose proof (months m Hm) as H; destruct_or! H; subst m; cbn; by destruct (leap y). Qed.

Lemma days_of_months_nonneg y n : 0 <= days_of_months y n.
Proof. induction n as [|n IH]; cbn [days_of_months]; [done|]. assert (0 <= month_days y (Z.of_nat n + 1)); [|lia]. unfold month_days. repeat case_match; lia. Qed.

Lemma days_of_years_nonneg n : 0 <= days_of_years n.
Proof. induction n as [|n IH]; cbn [days_of_years]; [done|]. pose proof (days_of_months_nonneg (2000 + Z.of_nat n) 12). lia. Qed.

Lemma datenum_parts y m d :
  2000 <= y <= 2099 -> 1 <= m <= 12 -> 1 <= d <= 31 ->
  Z.quot (calc_datenum y m d) 10000 = y /\ Z.rem (Z.quot (calc_datenum y m d) 100) 100 = m /\ Z.rem (calc_datenum y m d) 100 = d.
Proof.
  intros Hy Hm Hd. unfold calc_datenum. rewrite swrap_small by (try lia; change (2 ^ (32 - 1)) with 2147483648; lia).
  rewrite !Z.quot_div_nonneg, !Z.rem_mod_nonneg by (try lia; dmlia). split_and!; dmlia.
Qed.

(** [C33] The day before.  For a date of the Gregorian calendar from 2000 to 2099 [ecb_decrdate]
    returns the valid date whose day number is one less, and -1 for the first of January 2000. *)
Theorem ecb_decrdate_spec y m d :
  valid_date y m d ->
  if day_number y m d =? 0 then ecb_decrdate (calc_datenum y m d) = Some (-1, None)
  else exists y' m' d', ecb_decrdate (calc_datenum y m d) = Some (calc_datenum y' m' d', Some (y', m', d')) /\
         valid_date y' m' d' /\ day_number y' m' d' = day_number y m d - 1.
Proof.
  intros (Hy & Hm & Hd). pose proof (month_days_range y m Hm) as Hr. destruct (datenum_parts y m d Hy Hm) as (E1 & E2 & E3); [lia|].
  pose proof (days_of_months_nonneg y (Z.to_nat (m - 1))) as Hdb. pose proof (days_of_years_nonneg (Z.to_nat (y - 2000))) as Hyb.
  unfold ecb_decrdate. rewrite E1, E2, E3. destruct (Z.leb_spec (d - 1) 0) as [Hd1|Hd1].
  2: { replace (day_number y m d =? 0) with false by (symmetry; apply Z.eqb_neq; unfold day_number; lia).
       rewrite bind_Some. exists y, m, (d - 1). unfold valid_date, day_number, calc_datenum. split_and!; try done; lia. }
  assert (d = 1) as -> by lia. destruct (Z.leb_spec (m - 1) 0) as [Hm1|Hm1].
  - assert (m = 1) as -> by lia. destruct (Z.ltb_spec (y - 1) 2000) as [Hy1|Hy1]; [by assert (y = 2000) as -> by lia|].
    assert (Ey : days_of_years (Z.to_nat (y - 2000)) = days_of_years (Z.to_nat (y - 1 - 2000)) + days_of_months (y - 1) 12).
    { replace (Z.to_nat (y - 2000)) with (S (Z.to_nat (y - 1 - 2000))) by lia. cbn [days_of_years]. do 2 f_equal. lia. }
    change (days_of_months (y - 1) 12) with (days_of_months (y - 1) 11 + 31) in Ey.
    pose proof (days_of_months_nonneg (y - 1) 11). pose proof (days_of_years_nonneg (Z.to_nat (y - 1 - 2000))).
    unfold day_number. rewrite Ey. change (days_of_months y (Z.to_nat (1 - 1))) with 0.
    replace (_ =? 0) with false by (symmetry; apply Z.eqb_neq; lia). rewrite bind_Some.
    change (aget lastday 12) with (Some 31). change (12 =? 2) with false. rewrite !bind_Some. cbn [andb].
    exists (y - 1), 12, 31. split; [done|]. split; [unfold valid_date; cbn [month_days]; lia|]. change (Z.to_nat (12 - 1)) with 11%nat. lia.
  - assert (Ed : days_of_months y (Z.to_nat (m - 1)) = days_of_months y (Z.to_nat (m - 1 - 1)) + month_days y (m - 1)).
    { replace (Z.to_nat (m - 1)) with (S (Z.to_nat (m - 1 - 1))) by lia. cbn [days_of_months]. do 2 f_equal. lia. }
    pose proof (month_days_range y (m - 1) ltac:(lia)) as Hr1. pose proof (days_of_months_nonneg y (Z.to_nat (m - 1 - 1))).
    replace (day_number y m 1 =? 0) with false by (symmetry; apply Z.eqb_neq; unfold day_number; lia).
    rewrite !bind_Some, aget_znth, bind_Some by (cbn; lia). rewrite bind_Some.
    exists y, (m - 1), (month_days y (m - 1)). rewrite Z.rem_mod_nonneg by lia. split.
    + rewrite <- lastday_calendar by lia. destruct (_ && _); [|rewrite Z.add_0_r]; done.
    + split; [unfold valid_date; lia|]. unfold day_number. rewrite Ed. lia.
Qed.

Lemma ecb_decrdate_spec_witness :
  valid_date 2016 3 1 /\
  exists y' m' d', ecb_decrdate (calc_datenum 2016 3 1) = Some (calc_datenum y' m' d', Some (y', m', d')) /\
    valid_date y' m' d' /\ day_number y' m' d' = day_number 2016 3 1 - 1.
Proof.
  assert (H : valid_date 2016 3 1) by (unfold valid_date; cbn [month_days]; lia). split; [exact H|]. exact (ecb_decrdate_spec 2016 3 1 H).
Defined.
