(* ===== verification/Hand.v ===== *)
(** * pangea777.c: from the new deck to the open cards

    The commands that bring a hand from the announcement of a deck to the cards: every
    handler is a function of the node ([Pangea.node]) and of what the command carries, and
    appends the commands it sends to [out].  [slot] is [hn->client->H.slot] (the server's
    slot is the same field of the union), [privkey] the node's key, [now] the clock, and the
    random bytes of the deck and of the layers come in as arguments.

    Not modelled: the text around a command, the shares of the layers ([sharenrs],
    [allshares]), which nothing reads back here, the coin addresses of [pangea_ready], and
    checks whose only effect is a message on the console. *)
From Stdlib Require Import ZArith Lia String.
From stdpp Require Import base list numbers option.
From S2P Require Import Prelude Bits Curve25519 Cards Pangea Summary Funds FundsPots FundsPay Poker Utils.
Open Scope Z_scope.

Abbreviation len := List.length.

(** ** Compression of the audit trail *)

(** pangea777.c:678-680 [pangea_zbuf] The number of zeroes from [data[i]] on, at most 16; [data[i]] is one of them. *)
Definition zero_run (data : list Z) (i : Z) : option Z :=
  r ← for_ret 15 1 (fun j (_ : unit) =>
    x ← aget data (i + j); if negb (x =? 0) then Some (inr j) else Some (inl tt)) tt;
  Some (match r with inl _ => 16 | inr j => j end).

(** pangea777.c:668-685 [pangea_zbuf] The loop, with fuel for the bytes that are left. *)
Fixpoint zbuf_loop (fuel : nat) (data : list Z) (i datalen : Z) : option (list Z) :=
  if i <? datalen then
    match fuel with
    | O => None
    | S fuel =>
        x ← aget data i;
        if negb (x =? 0) then
          rest ← zbuf_loop fuel data (i + 1) datalen;
          Some (hexbyte (Z.land (Z.shiftr x 4) 15) :: hexbyte (Z.land x 15) :: rest)
        else
          j ← zero_run data i;
          rest ← zbuf_loop fuel data (i + j) datalen;
          Some (90 :: 65 + j :: rest)
    end
  else Some [].

(** pangea777.c:666-688 [pangea_zbuf] *)
Definition pangea_zbuf (data : list Z) (datalen : Z) : option (list Z) :=
  zbuf_loop (Z.to_nat datalen) data 0 datalen.

(** pangea777.c:693-701 [pangea_unzbuf] The loop; two characters are read in every turn. *)
Fixpoint unzbuf_loop (fuel : nat) (hexstr : list Z) (i len2 : Z) : option (list Z) :=
  if i <? len2 then
    match fuel with
    | O => None
    | S fuel =>
        c ← aget hexstr i;
        if c =? 90 then
          d ← aget hexstr (i + 1);
          rest ← unzbuf_loop fuel hexstr (i + 2) len2;
          Some (replicate (Z.to_nat (i8 d - 65)) 0 ++ rest)
        else
          b ← _decode_hex (drop (Z.to_nat i) hexstr);
          rest ← unzbuf_loop fuel hexstr (i + 2) len2;
          Some (b :: rest)
    end
  else Some [].

(** pangea777.c:690-707 [pangea_unzbuf] The bytes written to a buffer of [size] bytes. *)
Definition pangea_unzbuf (size : Z) (hexstr : list Z) (n : Z) : option (list Z) :=
  buf ← unzbuf_loop (Z.to_nat n) hexstr 0 n;
  if size <? Z.of_nat (len buf) then None else Some buf.

(** ** Memory *)

(** The entries in some bytes, and [src] copied over the start of [dst]. *)
Fixpoint entries (n : nat) (data : list Z) : list (list Z) :=
  match n with O => [] | S n => take 32 data :: entries n (drop 32 data) end.
Definition overlay {A} (src dst : list A) : option (list A) :=
  if (len src <=? len dst)%nat then Some (src ++ drop (len src) dst) else None.

(** pangea777.c:39-39 [PANGEA_HANDGAP] *)
Definition PANGEA_HANDGAP : Z := 30.

(** The 64-bit number at the start of some bytes. *)
Definition first64 (data : list Z) : option Z := if (len data <? 8)%nat then None else Some (txid data).

(** pangea777.c:569-583 [pangea_rwaudit] With [saveflag]: the trail of a card is stored. *)
Definition save_audit (audit audits : list (list Z)) (cardi destplayer N : Z) : option (list (list Z)) :=
  for_loopM (Z.to_nat N) 0 (fun i audits =>
    a ← aget audit i; aset audits ((cardi * N + destplayer) * N + i) a) audits.

(** pangea777.c:578-582 [pangea_rwaudit] Without [saveflag]: the trail of a card is read. *)
Definition load_audit (audits : list (list Z)) (cardi destplayer N : Z) : option (list (list Z)) :=
  for_loopM (Z.to_nat N) 0 (fun i audit =>
    a ← aget audits ((cardi * N + destplayer) * N + i); Some (audit ++ [a])) [].

(** pangea777.c:359-372 [pangea_clearhand] *)
Definition pangea_clearhand (nd : node) : option node :=
  let d := dp nd in
  final ← overlay (replicate (Z.to_nat (dN d * numcards d)) zero256) (final (hand d));
  cardpubs ← overlay (replicate (Z.to_nat (1 + numcards d)) zero256) (cardpubs (hand d));
  let h := mkHand zero256 cardpubs final (replicate 5 zero256) (replicate 9 (replicate 2 zero256)) (replicate 9 0)
    (replicate 9 0) 0 0 0 0 (replicate 9 0) (replicate 10 0) (replicate 9 0)
    0 0 0 0 0 0 0 0 0 (replicate 9 0) (replicate 9 0) (replicate 9 0) (replicate 9 0)
    0 0 (replicate 5 255) (replicate 9 (replicate 255 0)) (replicate 9 (replicate 7 255)) in
  Some (on_priv (fun p => p.[hole <- [255; 255]].[cardis <- [255; 255]].[holecards <- replicate 2 zero256])
         (on_hand (fun _ => h) nd)).

Section Handlers.
Context (slot : Z) (privkey : list Z) (now : Z).

(** pangea777.c:403-407 [pangea_newdeck] The public keys of the players in the order of the game. *)
Definition players_pubs (nd : node) : option (list (list Z)) :=
  for_loopM (Z.to_nat (dN (dp nd))) 0 (fun i pubs =>
    s ← pangea_slot (sp nd) i; pub ← aget (playerpubs (sp nd)) s; Some (pubs ++ [pub])) [].

(** pangea777.c:384-420 [pangea_newdeck] [rands] are the random bytes of the deck. *)
Definition pangea_newdeck (rands : list (list Z)) (nd : node) : option node :=
  nd ← pangea_clearhand nd;
  _ ← for_loopM (Z.to_nat (dN (dp nd))) 0 (fun i (_ : Z) =>
    s ← pangea_slot (sp nd) i; aget (balances (sp nd)) s) 0;
  '(_, d, s) ← pangea_neworder (dp nd) (sp nd) None 0;
  let nd := mkNode s d (priv nd) (out nd) in
  pubs ← players_pubs nd;
  order ← for_loopM (Z.to_nat (dN d)) 0 (fun i l => a ← aget (active s) i; Some (l ++ [a])) [];
  '(cards, cardpubs', prod) ← cards777_initdeck (numcards d) pubs rands;
  outs ← overlay cards (outcards (priv nd));
  keys ← overlay (cardpubs' ++ [prod]) (cardpubs (hand d));
  let nd := on_priv (fun p => p.[outcards <- outs])
    (on_hand (fun h => h.[cardpubs <- keys].[checkprod <- prod].[startdecktime <- u32 now])
      (on_dp (fun d => d.[newhand <- [123]]) nd)) in
  Some nd.[out <- out nd ++ [Newhand order (concat (take (Z.to_nat (numcards d + 1)) keys))]].

(** pangea777.c:422-453 [pangea_anotherhand] *)
Definition pangea_anotherhand (rands : list (list Z)) (nd : node) : option (Z * node) :=
  '(n, activej) ← for_loopM (Z.to_nat (numaddrs (sp nd))) 0 (fun i '(n, activej) =>
    b ← aget (balances (sp nd)) i;
    Some (if negb (b =? 0) then (n + 1, if activej <? 0 then i else activej) else (n, activej))) (0, -1);
  if n =? 1 then Some (1, nd) else nd ← pangea_newdeck rands nd; Some (n, nd).

(** pangea777.c:455-487 [pangea_newhand] [order] is the array [active] of the command. *)
Definition pangea_newhand (nd : node) (data : option (list Z)) (order : option (list Z)) : option (Z * node) :=
  match data with
  | Some data =>
      if negb (Z.of_nat (len data) =? (numcards (dp nd) + 1) * 32) then Some (-1, nd)
      else
        nd ← (if negb (slot =? 0) then
                nd ← pangea_clearhand nd;
                '(_, d, s) ← (match order with
                              | Some l => if (Z.to_nat CARDS777_MAXPLAYERS <? len l)%nat then None
                                          else pangea_neworder (dp nd) (sp nd) (Some l) (Z.of_nat (len l))
                              | None => pangea_neworder (dp nd) (sp nd) None 0
                              end);
                Some (mkNode s d (priv nd) (out nd))
              else Some nd);
        if dN (dp nd) =? 0 then None
        else
          let nd := on_dp (fun d => d.[button <- numhands d mod dN d].[numhands <- u32 (numhands d + 1)]) nd in
          keys ← overlay (entries (Z.to_nat (numcards (dp nd) + 1)) data) (cardpubs (hand (dp nd)));
          prod ← cards777_pubkeys keys (numcards (dp nd));
          let nd := on_dp (fun d => d.[summary <- []].[summaries <- 0].[mismatches <- 0])
                     (on_hand (fun h => h.[cardpubs <- keys].[checkprod <- prod]) nd) in
          if 0 <=? myind (sp nd) then
            nd ← summary_add nd CARDS777_START (le_bytes 4 (u32 (numhands (dp nd) - 1))) data;
            nd ← pangea_sendcmd slot nd "gotdeck" (-1) (take 8 prod) (cardi (hand (dp nd))) (userinput_starttime (hand (dp nd)));
            Some (0, nd)
          else Some (0, nd)
  | None => Some (-1, nd)
  end.

(** pangea777.c:494-499 [pangea_checkstart] Everybody has reported the product of the deck. *)
Definition all_agree (d : pubdata) : option bool :=
  r ← for_ret (Z.to_nat (dN d)) 0 (fun i (_ : unit) =>
    x ← aget (othercardpubs (hand d)) i;
    if x =? txid (checkprod (hand d)) then Some (inl tt) else Some (inr tt)) tt;
  Some (match r with inl _ => true | inr _ => false end).

(** The first [n] entries of an array as bytes. *)
Definition bytes_of (n : Z) (l : list (list Z)) : option (list Z) :=
  if (Z.to_nat n <=? len l)%nat then Some (concat (take (Z.to_nat n) l)) else None.

(** pangea777.c:489-508 [pangea_checkstart] *)
Definition pangea_checkstart (nd : node) : option node :=
  let d := dp nd in
  if negb (txid (checkprod (hand d)) =? 0) && negb (znth (newhand d) 0 =? 0) && (encodestarted (hand d) =? 0) then
    all ← all_agree d;
    if Bool.eqb all true then
      let nd := on_hand (fun h => h.[encodestarted <- u32 now]) nd in
      b ← pangea_slotB (sp nd);
      data ← bytes_of (dN d * numcards d) (outcards (priv nd));
      pangea_sendcmd slot nd "encoded" b data (dN d * numcards d) (-1)
    else Some nd
  else Some nd.

(** pangea777.c:510-527 [pangea_gotdeck] *)
Definition pangea_gotdeck (nd : node) (data : list Z) (senderind : Z) : option (Z * node) :=
  x ← first64 data;
  pubs ← aset (othercardpubs (hand (dp nd))) senderind x;
  nd ← pangea_checkstart (on_hand (fun h => h.[othercardpubs <- pubs]) nd);
  Some (0, nd).

(** pangea777.c:1018-1033 [pangea_ping] *)
Definition pangea_ping (nd : node) (data : list Z) (senderind : Z) : option (Z * node) :=
  x ← first64 data;
  pubs ← aset (othercardpubs (hand (dp nd))) senderind x;
  Some (0, on_hand (fun h => h.[othercardpubs <- pubs]) nd).

(** ** Layers and cards *)

(** pangea777.c:585-622 [pangea_card] [dest] is the field of the command. *)
Definition pangea_card (nd : node) (data : option (list Z)) (dest cardi senderind : Z) : option (Z * node) :=
  let N := dN (dp nd) in
  match data with
  | Some data =>
      if negb (Z.of_nat (len data) =? 32 * N) then Some (-1, nd)
      else
        auds ← save_audit (entries (Z.to_nat N) data) (audits (priv nd)) cardi dest N;
        audit ← load_audit auds cardi dest N;
        let nd := on_priv (fun p => p.[audits <- auds]) nd in
        a0 ← aget audit 0;
        ind ← pangea_ind (sp nd) slot;
        '(card, cardpriv) ← cards777_checkcard privkey (cardpubs (hand (dp nd))) (numcards (dp nd)) a0;
        '(valid, nd) ← (if 0 <=? card then
            if N =? 0 then None
            else
              let selector := Z.quot cardi N in
              holes ← aset (holecards (priv nd)) selector cardpriv;
              cis ← aset (cardis (priv nd)) selector (u8 cardi);
              hs ← aset (hole (priv nd)) selector (znth cardpriv 1);
              row ← aget (hands (hand (dp nd))) ind;
              row ← aset row (5 + selector) (znth cardpriv 1);
              rows ← aset (hands (hand (dp nd))) ind row;
              Some (1, on_priv (fun p => p.[holecards <- holes].[cardis <- cis].[hole <- hs])
                        (on_hand (fun h => h.[hands <- rows]) nd))
          else Some (-1, nd));
        nd ← (if cardi <? N * 2 then pangea_sendcmd slot nd "facedown" (-1) (le_bytes 4 (u32 cardi)) cardi valid
              else pangea_sendcmd slot nd "faceup" (-1) cardpriv cardi 255);
        Some (0, nd)
  | None => Some (-1, nd)
  end.

(** pangea777.c:647-647 [pangea_decoded] One player's factor is taken off a card: the audit trail of the card afterwards. *)
Definition peel (nd : node) (audit : list (list Z)) (destplayer : Z) : option (list (list Z)) :=
  a0 ← aget audit 0;
  '(cipher, seed) ← cards777_decode (xoverz (priv nd)) destplayer a0 (outcards (priv nd)) (numcards (dp nd)) (dN (dp nd));
  audit ← aset audit (myind (sp nd)) seed;
  aset audit 0 cipher.

(** pangea777.c:624-664 [pangea_decoded] *)
Definition pangea_decoded (nd : node) (data : option (list Z)) (cardi turni : Z) : option (Z * node) :=
  let N := dN (dp nd) in
  match data with
  | Some data =>
      if negb (Z.of_nat (len data) =? 32 * N) then Some (-1, nd)
      else if (cardi <? N * 2) || (N * 2 + 5 <=? cardi) then Some (-1, nd)
      else
        destplayer ← pangea_ind (sp nd) 0;
        auds ← save_audit (entries (Z.to_nat N) data) (audits (priv nd)) cardi destplayer N;
        audit ← load_audit auds cardi destplayer N;
        let nd := on_priv (fun p => p.[audits <- auds]) nd in
        ind ← pangea_ind (sp nd) slot;
        if turni =? ind then
          if negb (slot =? pangea_slotA (sp nd)) then
            audit ← peel nd audit destplayer;
            auds ← save_audit audit (audits (priv nd)) cardi destplayer N;
            let nd := on_priv (fun p => p.[audits <- auds]) nd in
            nd ← pangea_sendcmd slot nd "decoded" (-1) (concat audit) cardi (pangea_prevnode (sp nd));
            Some (0, nd)
          else
            a0 ← aget audit 0;
            '(card, cardpriv) ← cards777_checkcard privkey (cardpubs (hand (dp nd))) (numcards (dp nd)) a0;
            if 0 <=? card then
              nd ← pangea_sendcmd slot nd "faceup" (-1) cardpriv cardi (if negb (txid cardpriv =? 0) then 255 else -1);
              Some (0, nd)
            else Some (0, nd)
        else Some (0, nd)
  | None => Some (-1, nd)
  end.

(** pangea777.c:727-736 [pangea_preflop] The factor of a middle player is taken off every hole
    card. *)
Definition preflop_peel (nd : node) : option node :=
  let N := dN (dp nd) in
  for_loopM (Z.to_nat (N * 2)) 0 (fun cardi nd =>
    for_loopM (Z.to_nat N) 0 (fun destplayer nd =>
      audit ← load_audit (audits (priv nd)) cardi destplayer N;
      audit ← peel nd audit destplayer;
      auds ← save_audit audit (audits (priv nd)) cardi destplayer N;
      Some (on_priv (fun p => p.[audits <- auds]) nd)) nd) nd.

(** pangea777.c:762-774 [pangea_preflop] The last player sends the cards to their owners. *)
Definition preflop_deal (nd : node) (dest : Z) : option node :=
  let N := dN (dp nd) in
  for_loopM 2 0 (fun iter nd =>
    for_loopM (Z.to_nat N) 0 (fun i nd =>
      let cardi := iter * N + i in
      let destplayer := u32 (button (dp nd) + i) mod N in
      audit ← load_audit (audits (priv nd)) cardi destplayer N;
      audit ← peel nd audit destplayer;
      auds ← save_audit audit (audits (priv nd)) cardi destplayer N;
      let nd := on_priv (fun p => p.[audits <- auds]) nd in
      ind ← pangea_ind (sp nd) slot;
      if destplayer =? ind then '(_, nd) ← pangea_card nd (Some (concat audit)) dest cardi destplayer; Some nd
      else pangea_sendcmd slot nd "card" destplayer (concat audit) cardi (-1)) nd) nd.

(** pangea777.c:709-777 [pangea_preflop] [dest] is the field of the command; the compressed
    trail goes to the previous player. *)
Definition pangea_preflop (nd : node) (data : option (list Z)) (dest : Z) : option (Z * node) :=
  let N := dN (dp nd) in
  match data with
  | Some data =>
      if negb (Z.of_nat (len data) =? 2 * N * (N * N * 32)) then Some (-1, nd)
      else
        auds ← overlay (entries (Z.to_nat (2 * N * (N * N))) data) (audits (priv nd));
        let nd := on_priv (fun p => p.[audits <- auds]) nd in
        b ← pangea_slotB (sp nd);
        if negb (slot =? pangea_slotA (sp nd)) && negb (slot =? b) then
          nd ← preflop_peel nd;
          zbuf ← pangea_zbuf (concat (audits (priv nd))) (2 * N * (N * N * 32));
          nd ← pangea_sendcmd slot nd "preflop" (pangea_prevnode (sp nd)) zbuf (N * 2 * N) (-1);
          Some (0, nd)
        else nd ← preflop_deal nd dest; Some (0, nd)
  | None => Some (-1, nd)
  end.

(** pangea777.c:779-816 [pangea_encoded] [rands] and [factors] are the random choices of the
    shuffle and of the layer. *)
Definition pangea_encoded (rands : list Z) (factors : list bits320) (nd : node) (data : option (list Z)) (dest : Z)
    : option (Z * node) :=
  let N := dN (dp nd) in
  let n := numcards (dp nd) in
  match data with
  | Some data =>
      if negb (Z.of_nat (len data) =? n * N * 32) then Some (-1, nd)
      else
        '(encoded, xz, _) ← encode_deck (entries (Z.to_nat (n * N)) data) n N rands factors;
        outs ← overlay encoded (outcards (priv nd));
        xzs ← overlay xz (xoverz (priv nd));
        let nd := on_priv (fun p => p.[outcards <- outs].[xoverz <- xzs]) nd in
        ind ← pangea_ind (sp nd) slot;
        if 0 <? ind then
          data ← bytes_of (n * N) outs;
          if ind <? numactive (sp nd) - 1 then
            nd ← pangea_sendcmd slot nd "encoded" (pangea_nextnode (sp nd)) data (N * n) (-1); Some (0, nd)
          else
            fin ← overlay (take (Z.to_nat (N * n)) outs) (final (hand (dp nd)));
            let nd := on_hand (fun h => h.[final <- fin]) nd in
            nd ← pangea_sendcmd slot nd "final" (-1) data (N * n) (-1);
            nd ← for_loopM (Z.to_nat (2 * N)) 0 (fun cardi nd =>
              for_loopM (Z.to_nat N) 0 (fun destplayer nd =>
                audit ← load_audit (audits (priv nd)) cardi destplayer N;
                f ← aget fin (cardi * N + destplayer);
                audit ← aset audit 0 f;
                auds ← save_audit audit (audits (priv nd)) cardi destplayer N;
                Some (on_priv (fun p => p.[audits <- auds]) nd)) nd) nd;
            trail ← bytes_of (2 * N * (N * N)) (audits (priv nd));
            '(_, nd) ← pangea_preflop nd (Some trail) dest;
            Some (0, nd)
        else Some (0, nd)
  | None => Some (-1, nd)
  end.

(** pangea777.c:818-829 [pangea_final] *)
Definition pangea_final (nd : node) (data : option (list Z)) : option (Z * node) :=
  let n := numcards (dp nd) * dN (dp nd) in
  match data with
  | Some data =>
      if negb (Z.of_nat (len data) =? n * 32) then Some (-1, nd)
      else fin ← overlay (entries (Z.to_nat n) data) (final (hand (dp nd))); Some (0, on_hand (fun h => h.[final <- fin]) nd)
  | None => Some (-1, nd)
  end.

(** pangea777.c:940-946 [pangea_serverstate] The number of players who have both hole cards. *)
Definition players_ready (d : pubdata) : option Z :=
  for_loopM (Z.to_nat (dN d)) 0 (fun i n =>
    m ← aget (havemasks (hand d)) i; Some (if bitweight m =? 2 then n + 1 else n)) 0.

(** pangea777.c:831-854 [pangea_facedown] [turni] is the number that says the card is valid. *)
Definition pangea_facedown (nd : node) (data : option (list Z)) (cardi turni senderind : Z) : option (Z * node) :=
  match data with
  | Some data =>
      if negb (Z.of_nat (len data) =? 4) then Some (-1, nd)
      else
        nd ← (if 0 <? turni then
                if (cardi <? 0) || (64 <=? cardi) then None
                else
                  m ← aget (havemasks (hand (dp nd))) senderind;
                  ms ← aset (havemasks (hand (dp nd))) senderind (i64 (Z.lor m (Z.shiftl 1 cardi)));
                  Some (on_hand (fun h => h.[havemasks <- ms]) nd)
              else Some nd);
        n ← players_ready (dp nd);
        if (slot =? pangea_slotA (sp nd)) && (n =? dN (dp nd)) then
          nd ← pangea_startbets slot nd (dN (dp nd) * 2); Some (0, nd)
        else Some (0, nd)
  | None => Some (-1, nd)
  end.

(** pangea777.c:856-875 [pangea_rank] *)
Definition pangea_rank (nd : node) (senderind : Z) : option (Z * node) :=
  let h := hand (dp nd) in
  r ← aget (handranks h) senderind;
  if negb (r =? 0) then Some (r, nd)
  else
    row ← aget (hands h) senderind;
    '(full, row) ← (r ← for_ret 7 0 (fun i row =>
        row ← (if i <? 5 then c ← aget (community h) i; aset row i c else Some row);
        x ← aget row i;
        if x =? 255 then Some (inr row) else Some (inl row)) row;
      Some (match r with inl row => (true, row) | inr row => (false, row) end));
    rows ← aset (hands h) senderind row;
    let nd := on_hand (fun h => h.[hands <- rows]) nd in
    if Bool.eqb full true then
      '(score, _) ← set_handstr (Some row) 0;
      ranks ← aset (handranks h) senderind score;
      Some (score, on_hand (fun h => h.[handranks <- ranks].[handmask <- u32 (Z.lor (handmask h) (Z.shiftl 1 senderind))]) nd)
    else Some (0, nd).

(** pangea777.c:877-927 [pangea_faceup] *)
Definition pangea_faceup (nd : node) (data : option (list Z)) (cardi turni senderind : Z) : option (Z * node) :=
  let N := dN (dp nd) in
  match data with
  | Some data =>
      if negb (Z.of_nat (len data) =? 32) then Some (-1, nd)
      else if 0 <=? i32 turni then
        let tmp := Z.lor (u16 (Z.shiftl cardi 8)) (Z.land turni 255) in
        nd ← summary_add nd CARDS777_FACEUP (le_bytes 2 tmp) data;
        if (N * 2 <=? cardi) && (cardi <? N * 2 + 5) then
          let k := cardi - N * 2 in
          comm ← aset (community (hand (dp nd))) k (znth data 1);
          rows ← for_loopM (Z.to_nat N) 0 (fun i rows =>
            row ← aget rows i; row ← aset row k (znth data 1); aset rows i row) (hands (hand (dp nd)));
          comm256 ← aset (community256 (hand (dp nd))) k data;
          let nd := on_hand (fun h => h.[community <- comm].[hands <- rows].[community256 <- comm256]) nd in
          ind ← pangea_ind (sp nd) slot;
          nd ← (if senderind =? ind then '(_, nd) ← pangea_rank nd senderind; Some nd else Some nd);
          if (slot =? pangea_slotA (sp nd)) && (N * 2 + 2 <=? cardi) && (cardi <? N * 2 + 5) then
            nd ← pangea_startbets slot nd (cardi + 1); Some (0, nd)
          else Some (0, nd)
        else if cardi <? N * 2 then
          if N =? 0 then None
          else
            let selector := Z.quot cardi N in
            cs ← aget (cards (hand (dp nd))) senderind;
            cs ← aset cs selector data;
            cards' ← aset (cards (hand (dp nd))) senderind cs;
            row ← aget (hands (hand (dp nd))) senderind;
            row ← aset row (5 + selector) (znth data 1);
            rows ← aset (hands (hand (dp nd))) senderind row;
            '(_, nd) ← pangea_rank (on_hand (fun h => h.[cards <- cards'].[hands <- rows]) nd) senderind;
            Some (0, nd)
        else Some (0, nd)
      else Some (0, nd)
  | None => Some (-1, nd)
  end.

(** pangea777.c:949-954 [pangea_serverstate] All buyins are in range. *)
Definition buyins_ok (nd : node) : option bool :=
  r ← for_ret (Z.to_nat (dN (dp nd))) 0 (fun i (_ : unit) =>
    s ← pangea_slot (sp nd) i;
    b ← aget (balances (sp nd)) s;
    if (u64 b <? u64 (minbuyin (dp nd) * bigblind (dp nd))) || (u64 (maxbuyin (dp nd) * bigblind (dp nd)) <? u64 b)
    then Some (inr tt) else Some (inl tt)) tt;
  Some (match r with inl _ => true | inr _ => false end).

(** pangea777.c:929-973 [pangea_serverstate] *)
Definition pangea_serverstate (rands1 rands2 : list (list Z)) (nd : node) : option node :=
  nd ← (if negb (finished (hand (dp nd)) =? 0) && (u32 (finished (hand (dp nd)) + PANGEA_HANDGAP) <? now)
        then '(_, nd) ← pangea_anotherhand rands1 nd; Some nd else Some nd);
  let d := dp nd in
  if (betstarted (hand d) =? 0) && (znth (newhand d) 0 =? 0) then
    n ← players_ready d;
    if n <? dN d then
      ok ← buyins_ok nd;
      if Bool.eqb ok true && (numhands d <? 2) then
        if u32 (startdecktime (hand d) + 60) <? now then pangea_newdeck rands2 nd else Some nd
      else Some nd
    else Some nd
  else pangea_checkstart nd.

End Handlers.

(** ** The compressed trail can be read back *)

(** A piece of the compressed text: a byte in two digits, or a run of zeroes. *)
Inductive token := Byte (b : Z) | Run (j : Z).
Definition tok_ok (t : token) : Prop := match t with Byte b => 0 <= b < 256 | Run j => 1 <= j <= 16 end.
Definition tok_text (t : token) : list Z := match t with Byte b => digits b | Run j => [90; 65 + j] end.
Definition tok_bytes (t : token) : list Z := match t with Byte b => [b] | Run j => replicate (Z.to_nat j) 0 end.
Definition toks_text (l : list token) : list Z := concat (map tok_text l).
Definition toks_bytes (l : list token) : list Z := concat (map tok_bytes l).

Lemma toks_text_length l : len (toks_text l) = (2 * len l)%nat.
Proof.
  induction l as [|t l IH]; [done|]. change (len (tok_text t ++ toks_text l) = (2 * S (len l))%nat).
  rewrite length_app, IH. destruct t; cbn; lia.
Qed.

Lemma hexbyte_not_Z x : 0 <= x < 16 -> hexbyte x <> 90.
Proof. intros Hx E. pose proof (proj1 (hexbyte_digit x Hx)) as H. rewrite E in H. cbn in H. lia. Qed.

Lemma aget_at {A} (pre l : list A) k : 0 <= k -> aget (pre ++ l) (Z.of_nat (len pre) + k) = aget l k.
Proof. intros Hk. rewrite aget_app_r by lia. f_equal. lia. Qed.

Lemma unzbuf_tokens l : Forall tok_ok l -> forall fuel pre post, (len l <= fuel)%nat ->
  unzbuf_loop fuel (pre ++ toks_text l ++ post) (Z.of_nat (len pre)) (Z.of_nat (len pre) + 2 * Z.of_nat (len l))
  = Some (toks_bytes l).
Proof.
  induction 1 as [|t l Ht Hl IH]; intros fuel pre post Hf.
  - destruct fuel; cbn [unzbuf_loop len]; by destruct (Z.ltb_spec (Z.of_nat (len pre)) (Z.of_nat (len pre) + 2 * Z.of_nat 0)); [lia|].
  - destruct fuel as [|fuel]; [cbn in Hf; lia|]. cbn [len] in Hf. cbn [unzbuf_loop].
    destruct (Z.ltb_spec (Z.of_nat (len pre)) (Z.of_nat (len pre) + 2 * Z.of_nat (len (t :: l)))); [|cbn in *; lia].
    specialize (IH fuel (pre ++ tok_text t) post ltac:(lia)). rewrite length_app, <- app_assoc in IH.
    change (toks_text (t :: l)) with (tok_text t ++ toks_text l). rewrite <- (app_assoc (tok_text t)).
    replace (Z.of_nat (len pre + len (tok_text t))) with (Z.of_nat (len pre) + 2) in IH by (destruct t; cbn; lia).
    replace (Z.of_nat (len pre) + 2 * Z.of_nat (len (t :: l))) with (Z.of_nat (len pre) + 2 + 2 * Z.of_nat (len l)) by (cbn; lia).
    pose proof (aget_at pre (tok_text t ++ toks_text l ++ post) 0 ltac:(lia)) as E0. rewrite Z.add_0_r in E0. rewrite E0.
    destruct t as [b|j]; cbn [tok_text tok_ok] in *.
    + destruct (nibbles b Ht) as (H1 & H2 & _). change (aget (digits b ++ toks_text l ++ post) 0) with (Some (hexbyte (Z.land (Z.shiftr b 4) 15))).
      rewrite bind_Some. apply hexbyte_not_Z, Z.eqb_neq in H1. rewrite H1.
      rewrite drop_app_length', digits_decode, bind_Some, IH by (done || lia). done.
    + change (aget ([90; 65 + j] ++ toks_text l ++ post) 0) with (Some 90). rewrite bind_Some. change (90 =? 90) with true. cbv iota.
      rewrite aget_at by lia. change (aget ([90; 65 + j] ++ toks_text l ++ post) 1) with (Some (65 + j)).
      rewrite bind_Some, IH, bind_Some. rewrite swrap_small by (change (2 ^ (8 - 1)) with 128; lia).
      by replace (65 + j - 65) with j by lia.
Qed.

Lemma zero_run_spec data i :
  0 <= i -> i + 15 < Z.of_nat (len data) -> aget data i = Some 0 ->
  exists j, zero_run data i = Some j /\ 1 <= j <= 16 /\ forall k, 0 <= k < j -> aget data (i + k) = Some 0.
Proof.
  intros Hi Hl H0. unfold zero_run.
  assert (G : forall n j, 1 <= j -> j + Z.of_nat n = 16 -> (forall k, 0 <= k < j -> aget data (i + k) = Some 0) ->
    exists j', (r ← for_ret n j (fun j (_ : unit) =>
      x ← aget data (i + j); if negb (x =? 0) then Some (inr j) else Some (inl tt)) tt;
      Some (match r with inl _ => 16 | inr j => j end)) = Some j' /\ 1 <= j' <= 16 /\
      forall k, 0 <= k < j' -> aget data (i + k) = Some 0).
  { induction n as [|n IH]; intros j Hj Hn Hz.
    - exists 16. split; [done|]. split; [lia|]. intros k Hk. apply Hz. lia.
    - rewrite for_ret_S. destruct (aget_range data (i + j)) as [x Ex]; [lia|]. rewrite Ex, bind_Some.
      destruct (Z.eqb_spec x 0) as [->|Hx]; cbn [negb]; rewrite bind_Some.
      + destruct (IH (j + 1)) as (j' & E & Hj'); [lia|lia| |by exists j'].
        intros k Hk. destruct (Z.eq_dec k j) as [->|]; [done|]. apply Hz. lia.
      + exists j. split; [done|]. split; [lia|]. exact Hz. }
  apply (G 15%nat 1); [lia|done|]. intros k Hk. by replace (i + k) with i by lia.
Qed.

(** What the compressor writes: tokens for the bytes from [i] on, with the zeroes that follow
    the last byte when it is a zero. *)
Lemma zbuf_tokens data datalen :
  bytes data -> datalen + 15 <= Z.of_nat (len data) ->
  forall fuel i, 0 <= i -> (Z.to_nat (datalen - i) <= fuel)%nat ->
  exists l, zbuf_loop fuel data i datalen = Some (toks_text l) /\ Forall tok_ok l /\
    Z.of_nat (len l) <= Z.max 0 (datalen - i) /\
    (forall k, 0 <= k < Z.of_nat (len (toks_bytes l)) -> aget (toks_bytes l) k = aget data (i + k)) /\
    (i < datalen -> let e := i + Z.of_nat (len (toks_bytes l)) in
      datalen <= e <= datalen + 15 /\ (datalen < e -> forall k, datalen - 1 <= k < e -> aget data k = Some 0)) /\
    (datalen <= i -> l = []).
Proof.
  intros Hb Hl. induction fuel as [|fuel IH]; intros i Hi Hf.
  - exists []. cbn [zbuf_loop]. destruct (Z.ltb_spec i datalen); [lia|]. split_and!; try done; cbn; intros; lia.
  - cbn [zbuf_loop]. destruct (Z.ltb_spec i datalen) as [Hlt|Hge].
    2: { exists []. split_and!; try done; cbn; intros; lia. }
    destruct (aget_range data i) as [x Ex]; [lia|]. rewrite Ex, bind_Some.
    assert (Hx : 0 <= x < 256) by (apply aget_Some in Ex as [_ Ex]; exact (Forall_lookup_1 _ _ _ _ Hb Ex)).
    destruct (Z.eqb_spec x 0) as [->|Hne]; cbn [negb].
    + destruct (zero_run_spec data i Hi ltac:(lia) Ex) as (j & -> & Hj & Hz). rewrite bind_Some.
      destruct (IH (i + j)) as (l & -> & Hok & Hlen & Hget & Hend & Hnil); [lia|lia|]. exists (Run j :: l).
      assert (Eb : toks_bytes (Run j :: l) = replicate (Z.to_nat j) 0 ++ toks_bytes l) by done.
      rewrite Eb, length_app, length_replicate. split_and!.
      * done.
      * by apply list.Forall_cons_2.
      * cbn [len]. lia.
      * intros k Hk. destruct (Z.lt_ge_cases k j) as [Hkj|Hkj].
        -- rewrite aget_app_l, aget_replicate by (rewrite ?length_replicate; lia). symmetry. apply Hz. lia.
        -- rewrite aget_app_r, length_replicate, Hget by (rewrite ?length_replicate; lia). f_equal. lia.
      * intros _. cbv zeta. destruct (Z.lt_ge_cases (i + j) datalen) as [Hlt'|Hge'].
        -- destruct (Hend Hlt') as [He1 He2]. split; [lia|]. intros He k Hk. apply He2; lia.
        -- rewrite (Hnil Hge'). cbn. split; [lia|]. intros He k Hk. replace k with (i + (k - i)) by lia. apply Hz. lia.
      * lia.
    + destruct (IH (i + 1)) as (l & -> & Hok & Hlen & Hget & Hend & Hnil); [lia|lia|]. rewrite bind_Some. exists (Byte x :: l).
      change (toks_bytes (Byte x :: l)) with (x :: toks_bytes l). cbn [len]. split_and!.
      * done.
      * by apply list.Forall_cons_2.
      * lia.
      * intros k Hk. destruct (Z.eq_dec k 0) as [->|].
        -- rewrite Z.add_0_r, Ex. done.
        -- change (x :: toks_bytes l) with ([x] ++ toks_bytes l). rewrite aget_app_r, Hget by (cbn; lia). f_equal. cbn. lia.
      * intros _. cbv zeta. destruct (Z.lt_ge_cases (i + 1) datalen) as [Hlt'|Hge'].
        -- destruct (Hend Hlt') as [He1 He2]. split; [lia|]. intros He k Hk. apply He2; lia.
        -- rewrite (Hnil Hge'). cbn. split; [lia|]. lia.
      * lia.
Qed.

(** The audit trail on the wire.  Expanding a compressed trail gives the trail back, and
    as many of the zeroes behind it as the last run took along: none when the last byte of
    the trail or the byte behind it is not zero.  The text is at most twice as long as the
    trail. *)
Theorem zbuf_roundtrip data datalen size :
  bytes data -> 0 < datalen -> datalen + 15 <= Z.of_nat (len data) -> datalen + 15 <= size ->
  exists z k, pangea_zbuf data datalen = Some z /\ Z.of_nat (len z) <= 2 * datalen /\ 0 <= k <= 15 /\
    pangea_unzbuf size z (Z.of_nat (len z)) = Some (take (Z.to_nat (datalen + k)) data) /\
    (0 < k -> aget data (datalen - 1) = Some 0 /\ aget data datalen = Some 0).
Proof.
  intros Hb Hd Hl Hs. unfold pangea_zbuf.
  destruct (zbuf_tokens data datalen Hb Hl (Z.to_nat datalen) 0) as (l & -> & Hok & Hlen & Hget & Hend & _); [lia|lia|].
  destruct (Hend Hd) as [He1 He2]. clear Hend. rewrite Z.add_0_l in *. set (e := Z.of_nat (len (toks_bytes l))) in *.
  exists (toks_text l), (e - datalen). split; [done|]. rewrite toks_text_length. split; [lia|]. split; [lia|]. split.
  - unfold pangea_unzbuf. pose proof (unzbuf_tokens l Hok (2 * len l) [] [] ltac:(lia)) as E.
    change (Z.of_nat (len (@nil Z))) with 0 in E. cbn [app] in E. rewrite app_nil_r, Z.add_0_l in E.
    replace (Z.of_nat (2 * len l)) with (2 * Z.of_nat (len l)) by lia. replace (Z.to_nat (2 * Z.of_nat (len l))) with (2 * len l)%nat by lia.
    rewrite E, bind_Some. fold e. destruct (Z.ltb_spec size e); [lia|]. f_equal.
    replace (datalen + (e - datalen)) with e by lia. apply list_eq. intros k. destruct (Nat.lt_ge_cases k (len (toks_bytes l))) as [Hk|Hk].
    + specialize (Hget (Z.of_nat k) ltac:(lia)). rewrite Z.add_0_l in Hget. rewrite lookup_take_lt by lia.
      unfold aget in Hget. destruct (Z.leb_spec 0 (Z.of_nat k)); [|lia]. by rewrite Nat2Z.id in Hget.
    + rewrite lookup_ge_None_2 by done. rewrite lookup_take_ge by lia. done.
  - intros Hk. split; apply He2; lia.
Qed.

Lemma zbuf_roundtrip_witness :
  let data := [1; 0; 0; 18] ++ replicate 20 0 in
  bytes data /\
  exists z k, pangea_zbuf data 4 = Some z /\ Z.of_nat (len z) <= 2 * 4 /\ 0 <= k <= 15 /\
    pangea_unzbuf 19 z (Z.of_nat (len z)) = Some (take (Z.to_nat (4 + k)) data) /\
    (0 < k -> aget data (4 - 1) = Some 0 /\ aget data 4 = Some 0).
Proof.
  split; [repeat constructor; lia|]. apply zbuf_roundtrip.
  - repeat constructor; lia.
  - lia.
  - cbn. lia.
  - lia.
Defined.

(** A trail that ends with a zero in a buffer with zeroes behind it comes back longer. *)
Example zbuf_grows : exists z, pangea_zbuf ([7; 0] ++ replicate 20 0) 2 = Some z /\ pangea_unzbuf 100 z (Z.of_nat (len z)) = Some (7 :: replicate 16 0).
Proof. exists [48; 55; 90; 81]. done. Qed.

(** ** Starting to encode *)

Section Start.
Context (slot : Z) (now : Z).

(** A server that has announced a deck: the table is in order, the deck has its cards. *)
Record deck_ready (nd : node) : Prop := {
  rd_seats : seats_ok (dp nd) (sp nd);
  rd_two : 2 <= dN (dp nd);
  rd_slot : 0 <= slot < numaddrs (sp nd);
  rd_pubs : len (playerpubs (sp nd)) = 9%nat;
  rd_others : len (othercardpubs (hand (dp nd))) = 9%nat;
  rd_cards : (Z.to_nat (dN (dp nd) * numcards (dp nd)) <= len (outcards (priv nd)))%nat;
  rd_prod : txid (checkprod (hand (dp nd))) <> 0;
  rd_new : znth (newhand (dp nd)) 0 <> 0 }.

(** The command that hands the deck to the second player. *)
Definition encoded_cmd (nd : node) : option event :=
  b ← pangea_slotB (sp nd);
  s ← pangea_slot (sp nd) b;
  pub ← aget (playerpubs (sp nd)) s;
  data ← bytes_of (dN (dp nd) * numcards (dp nd)) (outcards (priv nd));
  Some (Sendcmd "encoded" (Some pub) data (dN (dp nd) * numcards (dp nd)) (-1)).

(** Everybody has reported the product, as a boolean. *)
Definition agreed (nd : node) : bool :=
  forallb (fun i => znth (othercardpubs (hand (dp nd))) i =? txid (checkprod (hand (dp nd)))) (seqZ 0 (dN (dp nd))).

Lemma slotB_one d s : seats_ok d s -> 2 <= dN d -> pangea_slotB s = Some 1.
Proof.
  intros [Ha Hs Hn Hm Hh Hd Hda Hsub HN HM Hme] H2. unfold CARDS777_MAXPLAYERS in Hm. unfold pangea_slotB.
  rewrite aget_znth, bind_Some by lia. apply search_at; [lia|done|lia|]. apply aget_znth. lia.
Qed.

Lemma ind_total d s k : seats_ok d s -> 0 <= k < numaddrs s -> exists i, pangea_ind s k = Some i.
Proof.
  intros [Ha Hs Hn Hm Hh Hd Hda Hsub HN HM Hme] Hk. unfold CARDS777_MAXPLAYERS in Hm. unfold pangea_ind, pangea_search.
  rewrite aget_znth, bind_Some by lia. destruct (array_search_spec (active s) (numactive s) (znth (addrs s) k)) as (i & E & _); [lia|]. by exists i.
Qed.

Lemma send_encoded nd nd1 :
  deck_ready nd -> sp nd1 = sp nd -> priv nd1 = priv nd -> dN (dp nd1) = dN (dp nd) -> numcards (dp nd1) = numcards (dp nd) ->
  exists ev, encoded_cmd nd = Some ev /\
    (b ← pangea_slotB (sp nd1);
     data ← bytes_of (dN (dp nd1) * numcards (dp nd1)) (outcards (priv nd1));
     pangea_sendcmd slot nd1 "encoded" b data (dN (dp nd1) * numcards (dp nd1)) (-1)) = Some nd1.[out <- out nd1 ++ [ev]].
Proof.
  intros [H1 H2 H3 H4 H5 H6 H7 H8] E1 E2 E3 E4. unfold encoded_cmd, pangea_sendcmd. rewrite E1, E2, E3, E4, (slotB_one _ _ H1 H2), !bind_Some.
  destruct (slot_total _ _ 1 H1 ltac:(lia)) as (k & Ek & Hk & _). destruct (aget_range (playerpubs (sp nd)) k) as [pub Ep]; [lia|].
  unfold bytes_of. destruct (Nat.leb_spec (Z.to_nat (dN (dp nd) * numcards (dp nd))) (len (outcards (priv nd)))); [|lia].
  destruct (ind_total _ _ slot H1 H3) as [i Ei]. eexists. split; [by rewrite Ek, bind_Some, Ep, !bind_Some|].
  rewrite bind_Some, Ei, bind_Some. change (1 <? 0) with false. cbv iota. by rewrite Ek, bind_Some, Ep, !bind_Some.
Qed.

Lemma all_agree_eq nd : len (othercardpubs (hand (dp nd))) = 9%nat -> dN (dp nd) <= 9 -> all_agree (dp nd) = Some (agreed nd).
Proof.
  intros Hl HN. unfold all_agree, agreed.
  assert (G : forall n i, 0 <= i -> i + Z.of_nat n <= 9 ->
    for_ret n i (fun i (_ : unit) => x ← aget (othercardpubs (hand (dp nd))) i;
      if x =? txid (checkprod (hand (dp nd))) then Some (inl tt) else Some (inr tt)) tt
    = Some (if forallb (fun i => znth (othercardpubs (hand (dp nd))) i =? txid (checkprod (hand (dp nd)))) (seqZ i (Z.of_nat n)) then inl tt else inr tt)).
  { induction n as [|n IH]; intros i Hi Hn; [done|]. rewrite for_ret_S, aget_znth, bind_Some by lia.
    rewrite (seqZ_cons i) by lia. cbn [forallb]. replace (Z.succ i) with (i + 1) by lia. replace (Z.pred (Z.of_nat (S n))) with (Z.of_nat n) by lia.
    destruct (znth _ i =? _); rewrite bind_Some; [apply IH; lia|done]. }
  destruct (Z.le_gt_cases 0 (dN (dp nd))).
  - rewrite G by lia. rewrite Z2Nat.id by lia. rewrite bind_Some. by destruct (forallb _ _).
  - rewrite seqZ_nil by lia. by replace (Z.to_nat (dN (dp nd))) with 0%nat by lia.
Qed.

Definition report (nd : node) (senderind : Z) : node :=
  on_hand (fun h => h.[othercardpubs <- zput (othercardpubs h) senderind (txid (checkprod h))]) nd.

Lemma report_ready nd s : deck_ready nd -> deck_ready (report nd s).
Proof. intros [H1 H2 H3 H4 H5 H6 H7 H8]. split; try done; [by destruct H1|].
  change (len (zput (othercardpubs (hand (dp nd))) s (txid (checkprod (hand (dp nd))))) = 9%nat). by rewrite zput_length.
Qed.

Lemma players9 nd : deck_ready nd -> dN (dp nd) <= 9.
Proof. intros [[Ha Hs Hn Hm Hh Hd Hda Hsub HN HM Hme] _ _ _ _ _ _ _]. unfold CARDS777_MAXPLAYERS in Hm. lia. Qed.

(** One report: the deck goes out when it is the last one that was missing. *)
Lemma gotdeck_step nd s data ev :
  deck_ready nd -> encoded_cmd nd = Some ev -> 0 <= s < dN (dp nd) -> first64 data = Some (txid (checkprod (hand (dp nd)))) ->
  pangea_gotdeck slot now nd data s
  = Some (0, if agreed (report nd s) && (encodestarted (hand (dp nd)) =? 0)
             then (on_hand (fun h => h.[encodestarted <- u32 now]) (report nd s)).[out <- out nd ++ [ev]] else report nd s).
Proof.
  intros HR Hev Hs Hd. pose proof (players9 nd HR) as H9. pose proof (report_ready nd s HR) as HR1.
  set (nd1 := on_hand (fun h => h.[encodestarted <- u32 now]) (report nd s)).
  destruct (send_encoded nd nd1 HR) as (ev' & Eev & Esend); [done..|]. assert (ev' = ev) as -> by congruence.
  unfold pangea_gotdeck. rewrite Hd, bind_Some. unfold aset. rewrite (rd_others _ HR). change (Z.of_nat 9) with 9.
  destruct (Z.leb_spec 0 s), (Z.ltb_spec s 9); try lia. cbn [andb]. rewrite bind_Some.
  replace (<[Z.to_nat s := _]> _) with (zput (othercardpubs (hand (dp nd))) s (txid (checkprod (hand (dp nd))))).
  2: { unfold zput, aset. rewrite (rd_others _ HR). change (Z.of_nat 9) with 9. destruct (Z.leb_spec 0 s), (Z.ltb_spec s 9); try lia. done. }
  change (on_hand (fun h => h.[othercardpubs <- zput (othercardpubs (hand (dp nd))) s (txid (checkprod (hand (dp nd))))]) nd) with (report nd s).
  unfold pangea_checkstart.
  pose proof (rd_prod _ HR1) as Hp. pose proof (rd_new _ HR1) as Hn. apply Z.eqb_neq in Hp, Hn. rewrite Hp, Hn.
  change (encodestarted (hand (dp (report nd s)))) with (encodestarted (hand (dp nd))). cbn [negb andb].
  destruct (encodestarted (hand (dp nd)) =? 0); [|by rewrite andb_false_r]. rewrite andb_true_r.
  rewrite (all_agree_eq (report nd s)), bind_Some by first [exact (rd_others _ HR1)|exact H9].
  destruct (agreed (report nd s)); [|done]. cbn [Bool.eqb]. fold nd1. 
  change (dN (dp (report nd s)) * numcards (dp (report nd s))) with (dN (dp nd1) * numcards (dp nd1)).
  change (priv (report nd s)) with (priv nd1). cbv zeta. rewrite Esend, bind_Some. done.
Qed.

(** The reports of several players. *)
Fixpoint gotdeck_all (nd : node) (msgs : list (list Z * Z)) : option node :=
  match msgs with
  | [] => Some nd
  | (data, senderind) :: msgs => '(_, nd) ← pangea_gotdeck slot now nd data senderind; gotdeck_all nd msgs
  end.

Lemma forallb_ext_in {A} (f g : A -> bool) l : (forall x, x ∈ l -> f x = g x) -> forallb f l = forallb g l.
Proof.
  induction l as [|x l IH]; intros H; [done|]. cbn. rewrite (H x) by apply list_elem_of_here. rewrite IH; [done|].
  intros y Hy. apply H. by apply list_elem_of_further.
Qed.

(** Player [i] has reported the product, before or in the messages. *)
Definition has_reported (nd : node) (msgs : list (list Z * Z)) (i : Z) : bool :=
  (znth (othercardpubs (hand (dp nd))) i =? txid (checkprod (hand (dp nd)))) || bool_decide (i ∈ map snd msgs).

Lemma gotdeck_run msgs : forall nd ev,
  deck_ready nd -> encoded_cmd nd = Some ev -> u32 now <> 0 ->
  Forall (fun m => 0 <= snd m < dN (dp nd) /\ first64 (fst m) = Some (txid (checkprod (hand (dp nd))))) msgs ->
  (encodestarted (hand (dp nd)) = 0 -> agreed nd = false) ->
  exists nd', gotdeck_all nd msgs = Some nd' /\
    let start := forallb (has_reported nd msgs) (seqZ 0 (dN (dp nd))) && (encodestarted (hand (dp nd)) =? 0) in
    out nd' = out nd ++ (if start then [ev] else []) /\
    encodestarted (hand (dp nd')) = if start then u32 now else encodestarted (hand (dp nd)).
Proof.
  induction msgs as [|[data s] msgs IH]; intros nd ev HR Hev Hnow HF Hag; cbn [gotdeck_all].
  - exists nd. split; [done|]. cbv zeta.
    replace (forallb (has_reported nd []) (seqZ 0 (dN (dp nd))) && (encodestarted (hand (dp nd)) =? 0)) with false; [by rewrite app_nil_r|].
    symmetry. destruct (Z.eqb_spec (encodestarted (hand (dp nd))) 0) as [E|E]; [|apply andb_false_r]. rewrite andb_true_r, <- (Hag E).
    apply forallb_ext_in. intros i _. unfold has_reported. cbn [map]. rewrite bool_decide_eq_false_2 by apply not_elem_of_nil. apply orb_false_r.
  - apply list.Forall_cons in HF as [[Hs Hd] HF]. cbn [fst snd] in *. rewrite (gotdeck_step nd s data ev) by done. rewrite bind_Some.
    assert (Estart : forallb (has_reported nd ((data, s) :: msgs)) (seqZ 0 (dN (dp nd)))
        = forallb (has_reported (report nd s) msgs) (seqZ 0 (dN (dp nd)))).
    { apply forallb_ext_in. intros i Hi. apply elem_of_seqZ in Hi. unfold has_reported. cbn [map snd].
      change (othercardpubs (hand (dp (report nd s)))) with (zput (othercardpubs (hand (dp nd))) s (txid (checkprod (hand (dp nd))))).
      change (checkprod (hand (dp (report nd s)))) with (checkprod (hand (dp nd))).
      pose proof (players9 nd HR). rewrite znth_zput by (rewrite (rd_others _ HR); lia). apply eq_true_iff_eq.
      rewrite !orb_true_iff, !bool_decide_eq_true, elem_of_cons, !Z.eqb_eq. destruct (Z.eqb_spec s i) as [->|Hne]; split; [tauto|tauto| |tauto]. intros [?|[?|?]]; [by left|congruence|by right]. }
    rewrite Estart. destruct (agreed (report nd s) && (encodestarted (hand (dp nd)) =? 0)) eqn:Eb.
    + apply andb_true_iff in Eb as [Ea Ee]. set (m := _.[out <- _]).
      assert (HRm : deck_ready m) by (destruct (report_ready nd s HR) as [H1 ? ? ? ? ? ? ?]; split; try done; by destruct H1).
      destruct (IH m ev HRm Hev Hnow HF) as (nd' & -> & Ho & He); [done|]. exists nd'. split; [done|].
      cbv zeta in *. change (encodestarted (hand (dp m))) with (u32 now) in *. apply Z.eqb_neq in Hnow. rewrite Hnow, andb_false_r in *.
      rewrite Ho, He, Ee. replace (forallb _ _) with true; [by rewrite app_nil_r|].
      symmetry. apply forallb_forall. intros i Hi. unfold agreed in Ea. rewrite forallb_forall in Ea. specialize (Ea i Hi).
      unfold has_reported. by rewrite Ea.
    + destruct (IH (report nd s) ev (report_ready nd s HR) Hev Hnow HF) as (nd' & -> & Ho & He).
      { change (encodestarted (hand (dp (report nd s)))) with (encodestarted (hand (dp nd))). intros E. by rewrite E, andb_true_r in Eb. }
      exists nd'. split; [done|]. exact (conj Ho He).
Qed.

(** [C16] The deck goes out once, and it does go out.  However the players' reports of the
    product are ordered and repeated, the server sends exactly one "encoded" command, with
    the whole deck, to the second player, as soon as every player has reported; before that
    it sends nothing. *)
Theorem gotdeck_starts_encoding nd msgs :
  deck_ready nd -> u32 now <> 0 -> encodestarted (hand (dp nd)) = 0 -> agreed nd = false ->
  Forall (fun m => 0 <= snd m < dN (dp nd) /\ first64 (fst m) = Some (txid (checkprod (hand (dp nd))))) msgs ->
  exists ev nd', encoded_cmd nd = Some ev /\ gotdeck_all nd msgs = Some nd' /\
    let start := forallb (has_reported nd msgs) (seqZ 0 (dN (dp nd))) in
    out nd' = out nd ++ (if start then [ev] else []) /\ encodestarted (hand (dp nd')) = if start then u32 now else 0.
Proof.
  intros HR Hnow He Ha HF. destruct (send_encoded nd nd HR) as (ev & Eev & _); [done..|].
  destruct (gotdeck_run msgs nd ev HR Eev Hnow HF ltac:(done)) as (nd' & E & H). cbv zeta in H. rewrite He, andb_true_r in H.
  by exists ev, nd'.
Qed.

End Start.

(** Three players and a deck of two cards whose product has been announced. *)
Definition start_demo : node :=
  on_priv (fun p => p.[outcards <- replicate 6 (replicate 32 3)])
    (on_hand (fun h => h.[checkprod <- replicate 32 1])
      (on_dp (fun d => d.[newhand <- [123]].[numcards <- 2]) demo)).

Lemma gotdeck_starts_encoding_witness :
  deck_ready 0 start_demo /\
  let msgs := [(replicate 32 1, 2); (replicate 32 1, 0); (replicate 8 1, 1); (replicate 8 1, 2)] in
  exists ev nd', encoded_cmd start_demo = Some ev /\ gotdeck_all 0 77 start_demo msgs = Some nd' /\
    let start := forallb (has_reported start_demo msgs) (seqZ 0 (dN (dp start_demo))) in
    out nd' = out start_demo ++ (if start then [ev] else []) /\ encodestarted (hand (dp nd')) = if start then u32 77 else 0.
Proof.
  assert (H : deck_ready 0 start_demo).
  { split; try done. by destruct demo_ok. }
  split; [exact H|]. intros msgs. apply gotdeck_starts_encoding.
  - exact H.
  - done.
  - done.
  - done.
  - unfold msgs. repeat (apply list.Forall_cons_2; [split; [cbn; lia|vm_compute; reflexivity]|]). constructor.
Defined.

(** ** The audit trail of a card *)

(** A node that can take its layer off: the index it writes its factor to, and arrays of
    full size whose factors are 32 bytes each. *)
Record peeler (n N k : Z) (nd : node) : Prop := {
  pl_ind : myind (sp nd) = k;
  pl_N : dN (dp nd) = N;
  pl_n : numcards (dp nd) = n;
  pl_out : (Z.to_nat (n * N) <= len (outcards (priv nd)))%nat;
  pl_xz : (Z.to_nat (n * N) <= len (xoverz (priv nd)))%nat;
  pl_bytes : Forall b256 (xoverz (priv nd)) }.

(** The factor found for a cipher, or the zeroes of a cipher that is not in the deck. *)
Lemma decode_some xz dest cipher outs n N :
  0 <= dest < N -> 0 <= n -> (Z.to_nat (n * N) <= len outs)%nat -> (Z.to_nat (n * N) <= len xz)%nat -> Forall b256 xz -> b256 cipher ->
  exists x, b256 x /\ cards777_decode xz dest cipher outs n N = Some (cbytes (fv x * fv cipher), x).
Proof.
  intros Hd Hn Ho Hx HF Hc. unfold cards777_decode.
  assert (G : forall m i, 0 <= i -> i + Z.of_nat m = n -> exists r,
    for_ret m i (fun i (_ : unit) =>
      out ← aget outs (i * N + dest);
      if memeq out cipher then x ← aget xz (i * N + dest); Some (inr (fcontract (fmul (fexpand x) (fexpand cipher)), x)) else Some (inl tt)) tt = Some r /\
    match r with inl _ => True | inr (c, x) => b256 x /\ c = cbytes (fv x * fv cipher) end).
  { induction m as [|m IH]; intros i Hi Hm; [by exists (inl tt)|]. rewrite for_ret_S. cbv zeta.
    assert (Hind : 0 <= i * N + dest < Z.of_nat (Z.to_nat (n * N))) by (rewrite Z2Nat.id; nia).
    destruct (aget_range outs (i * N + dest)) as [o Eo]; [lia|]. rewrite Eo, bind_Some. destruct (memeq o cipher).
    - destruct (aget_range xz (i * N + dest)) as [x Ex]; [lia|]. rewrite Ex, !bind_Some. eexists. split; [reflexivity|].
      apply aget_Some in Ex as [_ Ex]. pose proof (Forall_lookup_1 _ _ _ _ HF Ex) as Hxb. split; [exact Hxb|].
      destruct (fexpand_fv x Hxb) as [T1 E1], (fexpand_fv cipher Hc) as [T2 E2]. by rewrite mul_cbytes, E1, E2.
    - rewrite bind_Some. apply IH; lia. }
  destruct (G (Z.to_nat n) 0) as (r & -> & Hr); [lia|lia|]. rewrite bind_Some. destruct r as [u|[c x]].
  - exists Cards.zero256. split; [split; [repeat constructor; lia|reflexivity]|]. do 2 f_equal.
  - destruct Hr as [Hxb ->]. by exists x.
Qed.

(** The players take their layers off, the last one first. *)
Fixpoint peel_all (players : list node) (audit : list (list Z)) (destplayer : Z) : option (list (list Z)) :=
  match players with
  | [] => Some audit
  | nd :: players => audit ← peel nd audit destplayer; peel_all players audit destplayer
  end.

Definition factors_product (final : list Z) (seeds : list (list Z)) : list Z := cbytes (foldr (fun s v => fv s * v) (fv final) seeds).

Lemma peel_step n N k nd audit dest final :
  peeler n N (Z.of_nat k) nd -> (0 < k)%nat -> 0 <= n -> 0 <= dest < N ->
  len audit = Z.to_nat N -> Z.of_nat k < N -> Forall b256 audit ->
  audit !! 0%nat = Some (factors_product final (drop (S k) audit)) ->
  exists audit', peel nd audit dest = Some audit' /\ len audit' = Z.to_nat N /\ Forall b256 audit' /\
    audit' !! 0%nat = Some (factors_product final (drop k audit')).
Proof.
  intros [P1 P2 P3 P4 P5 P6] Hk Hn Hd Hl HkN HF H0. unfold peel.
  assert (E0 : aget audit 0 = Some (factors_product final (drop (S k) audit))) by (by apply aget_Some).
  rewrite E0, bind_Some, P1, P2, P3. set (a0 := factors_product _ _) in *.
  destruct (decode_some (xoverz (priv nd)) dest a0 (outcards (priv nd)) n N) as (x & Hx & ->); try done; [apply cbytes_b256|].
  rewrite bind_Some, aset_nat, bind_Some, aset_nat by (rewrite ?length_insert; lia). rewrite Nat2Z.id.
  eexists. split; [reflexivity|]. rewrite !length_insert. split; [done|]. split.
  - apply list.Forall_insert; [apply list.Forall_insert; done|apply cbytes_b256].
  - rewrite list_lookup_insert_eq by (rewrite length_insert; lia). f_equal. change (Z.to_nat 0) with 0%nat.
    rewrite drop_insert_lt by lia. rewrite (drop_S (<[k:=x]> audit) x k) by (apply list_lookup_insert_eq; lia).
    rewrite drop_insert_lt by lia. unfold factors_product. cbn [foldr]. apply cbytes_eqp. unfold a0, factors_product.
    by rewrite fv_cbytes, eqp_mod.
Qed.

(** Players [k], ..., 1. *)
Lemma peel_all_ok n N dest final : 0 <= n -> 0 <= dest < N ->
  forall k players audit, Forall2 (fun j nd => peeler n N (Z.of_nat j) nd) (rev (seq 1 k)) players ->
  len audit = Z.to_nat N -> Z.of_nat k < N -> Forall b256 audit ->
  audit !! 0%nat = Some (factors_product final (drop (S k) audit)) ->
  exists audit', peel_all players audit dest = Some audit' /\ len audit' = Z.to_nat N /\ Forall b256 audit' /\
    audit' !! 0%nat = Some (factors_product final (drop 1 audit')).
Proof.
  intros Hn Hd. induction k as [|k IH]; intros players audit HP Hl Hk HF H0.
  - apply Forall2_nil_inv_l in HP as ->. by exists audit.
  - rewrite seq_S, rev_app_distr in HP. apply Forall2_cons_inv_l in HP as (nd & players' & Hnd & HP & ->). cbn [peel_all].
    destruct (peel_step n N (S k) nd audit dest final Hnd) as (audit1 & -> & H1 & H2 & H3); [lia|done|done|done|lia|done|done|].
    rewrite bind_Some. apply IH; done || lia.
Qed.

(** [C17] The audit of a card.  A card of the final deck goes through the players from the
    last one to the second; each takes its layer off and leaves its factor in the audit
    trail, or zeroes when the card is not in its deck.  The audit that the owner of the card
    then makes of the trail gets past the check of the factors: [cards777_validate] accepts
    exactly when the card that came out is the key [c] encrypted for the owner. *)
Theorem trail_validates n k players final audit dest c pub :
  let N := Z.of_nat k + 1 in
  0 <= n -> 0 <= dest < N -> canonical final -> b256 c -> b256 pub ->
  Forall2 (fun j nd => peeler n N (Z.of_nat j) nd) (rev (seq 1 k)) players ->
  len audit = S k -> Forall b256 audit -> audit !! 0%nat = Some final ->
  exists a0 seeds, peel_all players audit dest = Some (a0 :: seeds) /\ len seeds = k /\
    cards777_validate c final (a0 :: seeds) N pub
    = Some (if bool_decide (a0 = cbytes (fv c * fe (shared_factor c pub))) then znth c 1 else -1).
Proof.
  intros N Hn Hd Hfin Hc Hpub HP Hl HF H0.
  destruct (peel_all_ok n N dest final Hn Hd k players audit HP) as (audit' & E & Hl' & HF' & H1); [lia|lia|done| |].
  - rewrite H0, drop_ge by lia. change (factors_product final []) with (cbytes (fv final)). by rewrite (canonical_bytes final Hfin).
  - destruct audit' as [|a0 seeds]; [done|]. injection H1 as H1. rewrite drop_0 in H1. apply list.Forall_cons in HF' as [Ha0 Hs].
    cbn [len] in Hl'. exists a0, seeds. split; [done|]. split; [lia|]. replace N with (1 + Z.of_nat (len seeds)) by lia.
    rewrite validate_eq by (done || apply Hfin). fold (factors_product final seeds). rewrite H1.
    rewrite (bool_decide_eq_true_2 (factors_product final seeds = factors_product final seeds)) by reflexivity. done.
Qed.

(** Two players and a deck of one card. *)
Definition trail_demo : node :=
  on_priv (fun p => p.[outcards <- [cbytes 5; cbytes 6]].[xoverz <- [cbytes 7; cbytes 8]])
    (on_dp (fun d => d.[dN <- 2].[numcards <- 1]) (on_sp (fun i => i.[myind <- 1]) demo)).

Lemma trail_validates_witness :
  peeler 1 2 1 trail_demo /\
  exists a0 seeds, peel_all [trail_demo] [cbytes 5; cbytes 0] 0 = Some (a0 :: seeds) /\ len seeds = 1%nat /\
    cards777_validate (cbytes 9) (cbytes 5) (a0 :: seeds) 2 (cbytes 3)
    = Some (if bool_decide (a0 = cbytes (fv (cbytes 9) * fe (shared_factor (cbytes 9) (cbytes 3)))) then znth (cbytes 9) 1 else -1).
Proof.
  assert (H : peeler 1 2 1 trail_demo).
  { split; [reflexivity|reflexivity|reflexivity|apply le_n|apply le_n|].
    apply list.Forall_cons_2; [apply cbytes_b256|]. apply list.Forall_cons_2; [apply cbytes_b256|constructor]. }
  split; [exact H|].
  apply (trail_validates 1 1 [trail_demo] (cbytes 5) [cbytes 5; cbytes 0] 0 (cbytes 9) (cbytes 3)).
  - discriminate.
  - split; [discriminate|reflexivity].
  - apply cbytes_canonical.
  - apply cbytes_b256.
  - apply cbytes_b256.
  - constructor; [exact H|constructor].
  - reflexivity.
  - apply list.Forall_cons_2; [apply cbytes_b256|]. apply list.Forall_cons_2; [apply cbytes_b256|constructor].
  - reflexivity.
Defined.
