(* ===== verification/CoinTx.v ===== *)
(** * cointx.c: the wire format of coin transactions

    A transaction is written to and read from a byte buffer; ids and scripts are kept as
    hexadecimal text in fixed arrays.  [inputs] and [outputs] hold the first [numinputs] and
    [numoutputs] entries of the arrays.  A function returns [None] when it reads or writes
    outside a buffer or array; where the code returns -1 or the null pointer the result says
    so.  The display functions are not modelled, and neither is the signature hash of
    [emit_cointx]. *)
From Stdlib Require Import ZArith Lia.
From stdpp Require Import base list numbers option.
From S2P Require Import Prelude Bits Utils.
Open Scope Z_scope.

(** coins777.c:42-42 [struct rawvout] *)
Record rawvout := mkVout { script : list Z; value : Z }.
(** coins777.c:58-58 [struct cointx_input] With the two members of [tx]. *)
Record cointx_input := mkVin { txidstr : list Z; vout : Z; sigs : list Z; sequence : Z }.
(** coins777.c:59-73 [struct cointx_info] *)
Record cointx_info := mkTx { version : Z; timestamp : Z; inputs : list cointx_input; outputs : list rawvout; nlocktime : Z }.

(** coins777.c:56-56 [MAX_COINTX_INPUTS] *)
Definition MAX_COINTX_INPUTS : Z := 256.
(** coins777.c:57-57 [MAX_COINTX_OUTPUTS] *)
Definition MAX_COINTX_OUTPUTS : Z := 256.

(** A character array of [size] bytes that holds a string. *)
Definition array_of (size : nat) (s : list Z) : list Z := s ++ replicate (size - length s) 0.

(** [memcpy] of bytes to and from a place in a buffer. *)
Definition store (data : list Z) (offset : Z) (l : list Z) : option (list Z) :=
  if (offset <? 0) || (Z.of_nat (length data) <? offset + Z.of_nat (length l)) then None
  else Some (take (Z.to_nat offset) data ++ l ++ drop (Z.to_nat offset + length l) data).
Definition fetch (data : list Z) (offset n : Z) : option (list Z) :=
  if (offset <? 0) || (Z.of_nat (length data) <? offset + n) then None
  else Some (take (Z.to_nat n) (drop (Z.to_nat offset) data)).

(** ** Numbers *)

(** cointx.c:49-66 [hdecode_varint] The value and the new offset, -1 for an error. *)
Definition hdecode_varint (ptr : list Z) (offset mappedsize : Z) : option (Z * Z) :=
  if (offset <? 0) || (mappedsize <=? offset) then Some (0, -1)
  else
    c ← aget ptr offset;
    let offset := offset + 1 in
    let wide n := if mappedsize <? offset + n then Some (0, -1) else l ← fetch ptr offset n; Some (le_val l, offset + n) in
    if c =? 0xfd then wide 2 else if c =? 0xfe then wide 4 else if c =? 0xff then wide 8 else Some (c, offset).

(** cointx.c:68-97 [hcalc_varint] The bytes are written from [offset] on; the result is their
    number. *)
Definition hcalc_varint (buf : list Z) (offset x : Z) : option (Z * list Z) :=
  if x <? 0xfd then buf ← aset buf offset (u8 (Z.land x 255)); Some (1, buf)
  else if x <=? 0xffff then
    buf ← aset buf offset 0xfd; buf ← store buf (offset + 1) (le_bytes 2 (u16 x)); Some (3, buf)
  else if x <=? 0xffffffff then
    buf ← aset buf offset 0xfe; buf ← store buf (offset + 1) (le_bytes 4 (u32 x)); Some (5, buf)
  else
    buf ← aset buf offset 0xff; buf ← store buf (offset + 1) (le_bytes 8 x); Some (9, buf).

(** cointx.c:99-106 [_emit_uint32] *)
Definition _emit_uint32 (data : list Z) (offset x : Z) : option (Z * list Z) :=
  '(data, _) ← for_loopM 4 0 (fun i '(data, x) =>
    data ← aset data (offset + i) (u8 (Z.land x 255)); Some (data, Z.shiftr x 8)) (data, x);
  Some (offset + 4, data).

(** cointx.c:108-118 [_decode_uint32] The number and the new offset. *)
Definition _decode_uint32 (data : list Z) (offset len : Z) : option (Z * Z) :=
  x ← for_loopM 4 0 (fun i x => b ← aget data (offset + 3 - i); Some (u32 (Z.lor (Z.shiftl x 8) b))) 0;
  let offset := offset + 4 in
  Some (x, if len <? offset then -1 else offset).

(** ** Inputs and outputs *)

(** cointx.c:120-139 [_decode_vin] The inner [None] is the return value -1. *)
Definition _decode_vin (data : list Z) (offset len : Z) : option (option (cointx_input * Z)) :=
  revdata ← for_loopM 32 0 (fun i r => b ← aget data (offset + 31 - i); Some (r ++ [b])) [];
  '(_, txid) ← init_hexbytes_noT revdata 32;
  '(vout, offset) ← _decode_uint32 data (offset + 32) len;
  if offset <? 0 then Some None
  else
    '(siglen, offset) ← hdecode_varint data offset len;
    if (offset <? 0) || (4096 <? siglen) then Some None
    else
      '(n, sigs) ← init_hexbytes_noT (drop (Z.to_nat offset) data) siglen;
      if 4096 <? n then None
      else
        '(sequence, offset) ← _decode_uint32 data (offset + siglen) len;
        if offset <? 0 then Some None else Some (Some (mkVin txid (u16 vout) sigs sequence, offset)).

(** cointx.c:169-169 [_emit_cointx_output] The bytes of a hexadecimal string are written at [offset]. *)
Definition put_hex (data : list Z) (offset n : Z) (hex : list Z) : option (list Z) :=
  if (offset <? 0) || (Z.of_nat (length data) <? offset) then None
  else '(_, rest) ← decode_hex (drop (Z.to_nat offset) data) n hex; Some (take (Z.to_nat offset) data ++ rest).

(** cointx.c:141-158 [_emit_cointx_input] *)
Definition _emit_cointx_input (data : list Z) (offset : Z) (vin : cointx_input) : option (Z * list Z) :=
  '(_, revdata) ← decode_hex (replicate 32 0) 32 (array_of 128 (txidstr vin));
  data ← for_loopM 32 0 (fun i data => b ← aget revdata i; aset data (offset + 31 - i) b) data;
  '(offset, data) ← _emit_uint32 data (offset + 32) (vout vin);
  let siglen := Z.shiftr (Z.of_nat (length (sigs vin))) 1 in
  '(n, data) ← hcalc_varint data offset siglen;
  let offset := offset + n in
  data ← (if negb (siglen =? 0) then put_hex data offset siglen (array_of 4096 (sigs vin)) else Some data);
  _emit_uint32 data (offset + siglen) (sequence vin).

(** cointx.c:160-171 [_emit_cointx_output] *)
Definition _emit_cointx_output (data : list Z) (offset : Z) (vout : rawvout) : option (Z * list Z) :=
  '(offset, data) ← _emit_uint32 data offset (u32 (value vout));
  '(offset, data) ← _emit_uint32 data offset (u32 (Z.shiftr (value vout) 32));
  let scriptlen := Z.shiftr (Z.of_nat (length (script vout))) 1 in
  '(n, data) ← hcalc_varint data offset scriptlen;
  let offset := offset + n in
  data ← (if negb (scriptlen =? 0) then put_hex data offset scriptlen (array_of 2048 (script vout)) else Some data);
  Some (offset + scriptlen, data).

(** cointx.c:173-187 [_decode_vout] *)
Definition _decode_vout (data : list Z) (offset len : Z) : option (option (rawvout * Z)) :=
  '(low, offset) ← _decode_uint32 data offset len;
  if offset <? 0 then Some None
  else
    '(high, offset) ← _decode_uint32 data offset len;
    if offset <? 0 then Some None
    else
      let value := Z.lor (u64 (Z.shiftl high 32)) low in
      '(scriptlen, offset) ← hdecode_varint data offset len;
      if (offset <? 0) || (2048 <? scriptlen) then Some None
      else
        '(n, script) ← init_hexbytes_noT (drop (Z.to_nat offset) data) scriptlen;
        if 2048 <? n then None else Some (Some (mkVout script value, offset + scriptlen)).

(** ** Transactions *)

(** cointx.c:218-222 [emit_cointxdata] The loop over the entries; the inner [None] is the return value -1. *)
Fixpoint emit_list {A} (emit : list Z -> Z -> A -> option (Z * list Z)) (maxlen : Z) (l : list A) (data : list Z) (offset : Z)
  : option (option (Z * list Z)) :=
  match l with
  | [] => Some (Some (offset, data))
  | x :: l => '(offset, data) ← emit data offset x; if maxlen <? offset then Some None else emit_list emit maxlen l data offset
  end.

(** cointx.c:211-231 [emit_cointxdata] *)
Definition emit_cointxdata (data : list Z) (maxlen : Z) (cointx : cointx_info) (oldtx : bool) : option (option (Z * list Z)) :=
  '(offset, data) ← _emit_uint32 data 0 (version cointx);
  '(offset, data) ← (if oldtx then Some (offset, data) else _emit_uint32 data offset (timestamp cointx));
  '(n, data) ← hcalc_varint data offset (Z.of_nat (length (inputs cointx)));
  r ← emit_list _emit_cointx_input maxlen (inputs cointx) data (offset + n);
  match r with
  | None => Some None
  | Some (offset, data) =>
      '(n, data) ← hcalc_varint data offset (Z.of_nat (length (outputs cointx)));
      r ← emit_list _emit_cointx_output maxlen (outputs cointx) data (offset + n);
      match r with
      | None => Some None
      | Some (offset, data) => '(offset, data) ← _emit_uint32 data offset (nlocktime cointx); Some (Some (offset, data))
      end
  end.

(** cointx.c:233-243 [_emit_cointx] The returned value and the string.  After a failure the
    terminator is written two bytes before the string, unless [len] is below two. *)
Definition _emit_cointx (len : Z) (cointx : cointx_info) (oldtx : bool) : option (Z * list Z) :=
  r ← emit_cointxdata (replicate (Z.to_nat len) 0) len cointx oldtx;
  match r with
  | None => if -1 <? Z.quot len 2 - 1 then None else Some (-1, [])
  | Some (offset, data) =>
      if offset <? Z.quot len 2 - 1 then '(_, s) ← init_hexbytes_noT data offset; Some (offset, s) else Some (-1, [])
  end.

(** cointx.c:259-287 [_validate_decoderawtransaction] Whether the strings are equal, and the
    string, which loses two extra zeroes at its end. *)
Definition _validate_decoderawtransaction (hexstr : list Z) (cointx : cointx_info) (oldtx : bool) : option (bool * list Z) :=
  '(_, checkstr) ← _emit_cointx (Z.of_nat (length hexstr) * 2) cointx oldtx;
  if bool_decide (checkstr = hexstr) then Some (true, hexstr)
  else
    let hlen := Z.of_nat (length hexstr) in
    if (Z.of_nat (length checkstr) + 2 =? hlen) && (znth hexstr (hlen - 1) =? znth hexstr (hlen - 2)) && (znth hexstr (hlen - 1) =? 48)
    then Some (false, take (length hexstr - 2) hexstr) else Some (false, hexstr).

(** cointx.c:318-320 [_decode_rawtransaction] The loop over the entries; [break] and the null pointer that follows are the inner
    [None]. *)
Fixpoint decode_list {A} (decode : list Z -> Z -> Z -> option (option (A * Z))) (len : Z) (n : nat) (data : list Z) (offset : Z)
  : option (option (list A * Z)) :=
  match n with
  | O => Some (Some ([], offset))
  | S n =>
      r ← decode data offset len;
      match r with
      | None => Some None
      | Some (x, offset) =>
          r ← decode_list decode len n data offset;
          match r with None => Some None | Some (l, offset) => Some (Some (x :: l, offset)) end
      end
  end.

(** cointx.c:289-347 [_decode_rawtransaction] [data] is the uninitialised buffer on the stack
    and [mem] the memory of the string; the result is the transaction, the inner [None] the
    null pointer, and the string afterwards. *)
Definition _decode_rawtransaction (data mem : list Z) (oldtx : bool) : option (option (cointx_info * list Z)) :=
  hexstr ← c_str mem;
  let len := Z.of_nat (length hexstr) in
  if (8192 * 2 - 1 <=? len) || negb (is_hexstr (Some hexstr)) || negb (Z.land len 1 =? 0) then Some None
  else
    let len := Z.shiftr len 1 in
    '(_, data) ← decode_hex data len mem;
    '(version, offset) ← _decode_uint32 data 0 len;
    '(timestamp, offset) ← (if oldtx then Some (0, offset) else _decode_uint32 data offset len);
    '(numinputs, offset) ← hdecode_varint data offset len;
    if MAX_COINTX_INPUTS <? numinputs then Some None
    else
      r ← decode_list _decode_vin len (Z.to_nat numinputs) data offset;
      match r with
      | None => Some None
      | Some (inputs, offset) =>
          '(numoutputs, offset) ← hdecode_varint data offset len;
          if MAX_COINTX_OUTPUTS <? numoutputs then Some None
          else
            r ← decode_list _decode_vout len (Z.to_nat numoutputs) data offset;
            match r with
            | None => Some None
            | Some (outputs, offset) =>
                '(nlocktime, _) ← _decode_uint32 data offset len;
                let cointx := mkTx version timestamp inputs outputs nlocktime in
                '(_, hexstr) ← _validate_decoderawtransaction hexstr cointx oldtx;
                Some (Some (cointx, hexstr))
            end
      end.

(** ** Writing: a buffer whose first bytes have been written *)

Definition cursor (d p : list Z) : list Z := p ++ drop (length p) d.
Abbreviation at_end p := (Z.of_nat (length p)) (only parsing).

Lemma cursor_length d p : (length p <= length d)%nat -> length (cursor d p) = length d.
Proof. intros H. unfold cursor. rewrite length_app, length_drop. lia. Qed.

Lemma aset_cursor d p x : (length p < length d)%nat -> aset (cursor d p) (at_end p) x = Some (cursor d (p ++ [x])).
Proof.
  intros H. unfold cursor. rewrite aset_app_r, Z.sub_diag by lia.
  destruct (lookup_lt_is_Some_2 d (length p) H) as [y Ey]. rewrite (drop_S d y _ Ey), length_app. cbn [length].
  replace (length p + 1)%nat with (S (length p)) by lia.
  change (aset (y :: drop (S (length p)) d) 0 x) with (Some (x :: drop (S (length p)) d)). rewrite bind_Some.
  by rewrite <- app_assoc.
Qed.

Lemma store_cursor d p l : (length p + length l <= length d)%nat -> store (cursor d p) (at_end p) l = Some (cursor d (p ++ l)).
Proof.
  intros H. unfold store. rewrite cursor_length by lia.
  destruct (Z.ltb_spec (at_end p) 0); [lia|]. destruct (Z.ltb_spec (Z.of_nat (length d)) (at_end p + at_end l)); [lia|].
  cbn [orb]. f_equal. rewrite Nat2Z.id. unfold cursor. rewrite take_app_length, length_app, <- app_assoc.
  rewrite drop_app_ge, drop_drop by lia. do 3 f_equal. lia.
Qed.

Lemma byte_and x : u8 (Z.land x 255) = x mod 256.
Proof. change 255 with (Z.ones 8). rewrite Z.land_ones by lia. apply uwrap_small. change (2 ^ 8) with 256. dmlia. Qed.

Lemma shiftr8 x : Z.shiftr x 8 = x / 256.
Proof. by rewrite Z.shiftr_div_pow2. Qed.

Lemma at_end_snoc (p : list Z) (x : Z) : at_end (p ++ [x]) = at_end p + 1.
Proof. rewrite length_app. cbn. lia. Qed.

Lemma emit32_loop d : forall n p k y, (length p + n <= length d)%nat ->
  for_loopM n k (fun i '(data, x) =>
    data ← aset data (at_end p - k + i) (u8 (Z.land x 255)); Some (data, Z.shiftr x 8)) (cursor d p, y)
  = Some (cursor d (p ++ le_bytes n y), Z.shiftr y (8 * Z.of_nat n)).
Proof.
  induction n as [|n IH]; intros p k y H.
  - change (le_bytes 0 y) with (@nil Z). by rewrite app_nil_r, Z.shiftr_0_r.
  - rewrite for_loopM_S. cbv beta iota. replace (at_end p - k + k) with (at_end p) by lia. rewrite aset_cursor by lia.
    rewrite !bind_Some, byte_and.
    specialize (IH (p ++ [y mod 256]) (k + 1) (Z.shiftr y 8)). rewrite at_end_snoc in IH.
    replace (at_end p + 1 - (k + 1)) with (at_end p - k) in IH by lia. rewrite IH by (rewrite length_app; cbn; lia).
    change (le_bytes (S n) y) with (y mod 256 :: le_bytes n (Z.shiftr y 8)). rewrite <- app_assoc. do 2 f_equal.
    rewrite Z.shiftr_shiftr by lia. f_equal. lia.
Qed.

Lemma emit32 d p x : (length p + 4 <= length d)%nat ->
  _emit_uint32 (cursor d p) (at_end p) x = Some (at_end (p ++ le_bytes 4 x), cursor d (p ++ le_bytes 4 x)).
Proof.
  intros H. unfold _emit_uint32. pose proof (emit32_loop d 4 p 0 x H) as E. rewrite Z.sub_0_r in E. rewrite E, bind_Some.
  by rewrite length_app, le_bytes_length, Nat2Z.inj_add.
Qed.

(** The canonical variable-length integer. *)
Definition varint (x : Z) : list Z :=
  if x <? 0xfd then [x] else if x <=? 0xffff then 0xfd :: le_bytes 2 x
  else if x <=? 0xffffffff then 0xfe :: le_bytes 4 x else 0xff :: le_bytes 8 x.

Lemma emit_varint d p x : 0 <= x < 2 ^ 64 -> (length p + length (varint x) <= length d)%nat ->
  hcalc_varint (cursor d p) (at_end p) x = Some (at_end (varint x), cursor d (p ++ varint x)).
Proof.
  intros Hx H. change (2 ^ 64) with 18446744073709551616 in Hx. unfold hcalc_varint, varint in *.
  assert (G : forall c l, (length p + S (length l) <= length d)%nat ->
    (buf ← aset (cursor d p) (at_end p) c; buf ← store buf (at_end p + 1) l; Some (at_end (c :: l), buf))
    = Some (at_end (c :: l), cursor d (p ++ c :: l))).
  { intros c l Hl. rewrite aset_cursor, bind_Some by lia. rewrite <- at_end_snoc with (x := c).
    rewrite store_cursor, bind_Some by (rewrite length_app; cbn; lia). by rewrite <- app_assoc. }
  destruct (Z.ltb_spec x 0xfd); [|destruct (Z.leb_spec x 0xffff); [|destruct (Z.leb_spec x 0xffffffff)]].
  - rewrite byte_and, Z.mod_small by lia. by rewrite aset_cursor, bind_Some by (cbn in H; lia).
  - rewrite (uwrap_small 16) by (change (2 ^ 16) with 65536; lia). apply (G 0xfd (le_bytes 2 x)). cbn in *. lia.
  - rewrite (uwrap_small 32) by (change (2 ^ 32) with 4294967296; lia). apply (G 0xfe (le_bytes 4 x)). cbn in *. lia.
  - apply (G 0xff (le_bytes 8 x)). cbn in *. lia.
Qed.

Lemma hexstr_array size m : bytes m -> (2 * length m + 2 <= size)%nat ->
  exists g, array_of size (hexstr m) = hexstr m ++ 0 :: 0 :: g.
Proof.
  intros Hm H. unfold array_of. rewrite hexstr_length. exists (replicate (size - 2 * length m - 2) 0).
  replace (size - 2 * length m)%nat with (2 + (size - 2 * length m - 2))%nat at 1 by lia. by rewrite replicate_add.
Qed.

Lemma put_hex_cursor d p m size :
  bytes m -> m <> [] -> (2 * length m + 2 <= size)%nat -> (length p + length m <= length d)%nat ->
  put_hex (cursor d p) (at_end p) (Z.of_nat (length m)) (array_of size (hexstr m)) = Some (cursor d (p ++ m)).
Proof.
  intros Hm Hne Hs Hl. unfold put_hex. rewrite cursor_length by lia.
  destruct (Z.ltb_spec (at_end p) 0); [lia|]. destruct (Z.ltb_spec (Z.of_nat (length d)) (at_end p)); [lia|]. cbn [orb].
  rewrite Nat2Z.id. unfold cursor. rewrite drop_app_length, take_app_length. destruct (hexstr_array size m Hm Hs) as [g ->].
  rewrite decode_hexstr, bind_Some by (done || (rewrite ?length_drop; lia)).
  by rewrite length_app, <- app_assoc, drop_drop.
Qed.

(** ** Transactions on the wire *)

Record wire_in := mkWin { w_id : list Z; w_vout : Z; w_sig : list Z; w_seq : Z }.
Record wire_out := mkWout { w_value : Z; w_script : list Z }.
Record wire_tx := mkWtx { w_version : Z; w_time : Z; w_ins : list wire_in; w_outs : list wire_out; w_lock : Z }.

(** What fits: 32-byte ids, output numbers of 16 bits, scripts that leave room for the text
    in the arrays. *)
Definition win_ok (w : wire_in) : Prop :=
  (bytes (w_id w) /\ length (w_id w) = 32%nat) /\ 0 <= w_vout w < 2 ^ 16 /\ (bytes (w_sig w) /\ (length (w_sig w) <= 2047)%nat) /\
  0 <= w_seq w < 2 ^ 32.
Definition wout_ok (w : wire_out) : Prop :=
  0 <= w_value w < 2 ^ 64 /\ bytes (w_script w) /\ (length (w_script w) <= 1023)%nat.
Definition wtx_ok (w : wire_tx) : Prop :=
  0 <= w_version w < 2 ^ 32 /\ 0 <= w_time w < 2 ^ 32 /\ 0 <= w_lock w < 2 ^ 32 /\
  Forall win_ok (w_ins w) /\ (length (w_ins w) <= 256)%nat /\ Forall wout_ok (w_outs w) /\ (length (w_outs w) <= 256)%nat.

(** The bytes of a transaction: ids are reversed, numbers little-endian. *)
Definition win_bytes (w : wire_in) : list Z :=
  rev (w_id w) ++ le_bytes 4 (w_vout w) ++ varint (Z.of_nat (length (w_sig w))) ++ w_sig w ++ le_bytes 4 (w_seq w).
Definition wout_bytes (w : wire_out) : list Z :=
  le_bytes 8 (w_value w) ++ varint (Z.of_nat (length (w_script w))) ++ w_script w.
Definition wtx_bytes (oldtx : bool) (w : wire_tx) : list Z :=
  le_bytes 4 (w_version w) ++ (if oldtx then [] else le_bytes 4 (w_time w)) ++
  varint (Z.of_nat (length (w_ins w))) ++ concat (map win_bytes (w_ins w)) ++
  varint (Z.of_nat (length (w_outs w))) ++ concat (map wout_bytes (w_outs w)) ++ le_bytes 4 (w_lock w).

(** The structs for it. *)
Definition vin_of (w : wire_in) : cointx_input := mkVin (hexstr (w_id w)) (w_vout w) (hexstr (w_sig w)) (w_seq w).
Definition vout_of (w : wire_out) : rawvout := mkVout (hexstr (w_script w)) (w_value w).
Definition cointx_of (oldtx : bool) (w : wire_tx) : cointx_info :=
  mkTx (w_version w) (if oldtx then 0 else w_time w) (map vin_of (w_ins w)) (map vout_of (w_outs w)) (w_lock w).

(** A script in text, with its length in front. *)
Lemma emit_script d p m size :
  bytes m -> (2 * length m + 2 <= size)%nat -> Z.of_nat (length m) < 2 ^ 16 ->
  (length p + length (varint (Z.of_nat (length m))) + length m <= length d)%nat ->
  let siglen := Z.shiftr (Z.of_nat (length (hexstr m))) 1 in
  siglen = Z.of_nat (length m) /\
  hcalc_varint (cursor d p) (at_end p) siglen = Some (at_end (varint siglen), cursor d (p ++ varint siglen)) /\
  (if negb (siglen =? 0) then put_hex (cursor d (p ++ varint siglen)) (at_end p + at_end (varint siglen)) siglen (array_of size (hexstr m))
   else Some (cursor d (p ++ varint siglen))) = Some (cursor d (p ++ varint siglen ++ m)).
Proof.
  intros Hm Hs Hb Hl siglen. assert (E : siglen = Z.of_nat (length m)).
  { unfold siglen. rewrite hexstr_length, Z.shiftr_div_pow2 by lia. change (2 ^ 1) with 2. dmlia. }
  change (2 ^ 16) with 65536 in Hb. rewrite E. split; [done|]. split.
  - apply emit_varint; [change (2 ^ 64) with 18446744073709551616; lia|lia].
  - rewrite <- Nat2Z.inj_add, <- length_app. destruct m as [|b m]; [by rewrite !app_nil_r|].
    destruct (Z.eqb_spec (Z.of_nat (length (b :: m))) 0) as [E0|_]; [cbn in E0; lia|]. cbn [negb].
    rewrite put_hex_cursor, <- app_assoc by (done || (rewrite ?length_app; lia)). done.
Qed.

Lemma le_bytes_halves x : le_bytes 8 x = le_bytes 4 (u32 x) ++ le_bytes 4 (u32 (Z.shiftr x 32)).
Proof.
  assert (E : forall y, u8 (u32 y) = u8 y) by (intros y; unfold uwrap; change (2 ^ 32) with 4294967296; change (2 ^ 8) with 256; dmlia).
  assert (G : forall y k, 0 <= k <= 24 -> u8 (Z.shiftr (u32 y) k) = u8 (Z.shiftr y k)).
  { intros y k Hk. apply Z.bits_inj'. intros j Hj. rewrite !uwrap_testbit by lia. rewrite !Z.shiftr_spec, uwrap_testbit by lia.
    destruct (Z.ltb_spec j 8); [|done]. destruct (Z.ltb_spec (j + k) 32); [|lia]. done. }
  unfold le_bytes. cbn [app]. rewrite !Z.shiftr_shiftr by lia. cbn [Z.add Pos.add Pos.succ]. by rewrite !G, !E by lia.
Qed.

(** Bytes written in reverse order. *)
Lemma reverse_loop d p l n c : n = length l -> c = Z.of_nat (length l) - 1 -> (length p + length l <= length d)%nat ->
  for_loopM n 0 (fun i data => b ← aget l i; aset data (at_end p + c - i) b) (cursor d p)
  = Some (cursor d (p ++ rev l)).
Proof.
  intros -> -> H.
  match goal with |- for_loopM ?n 0 ?b ?s = _ =>
    destruct (for_loopM_inv (fun i data => data = p ++ take (length l - Z.to_nat i) (drop (length p) d) ++ rev (take (Z.to_nat i) l) ++ drop (length p + length l) d) n 0 b s)
      as (r & -> & ->) end.
  - intros i data Hi ->. destruct (aget_range l i) as [x Ex]; [lia|]. rewrite Ex, bind_Some. eexists. split; [|reflexivity].
    set (q := (length l - Z.to_nat (i + 1))%nat). replace (length l - Z.to_nat i)%nat with (S q) by lia.
    destruct (lookup_lt_is_Some_2 (drop (length p) d) q) as [y Ey]; [rewrite length_drop; lia|].
    rewrite (take_S_r _ _ _ Ey), <- app_assoc. rewrite aset_app_r by lia.
    assert (Hq : length (take q (drop (length p) d)) = q) by (rewrite length_take, length_drop; lia).
    rewrite aset_app_r, Hq by lia. replace (_ - _ - _) with 0 by lia.
    change (aset ([y] ++ ?t) 0 x) with (Some (x :: t)). rewrite !bind_Some.
    apply aget_Some in Ex as [_ Ex]. replace (Z.to_nat (i + 1)) with (S (Z.to_nat i)) by lia.
    rewrite (take_S_r _ _ _ Ex), rev_app_distr. done.
  - change (rev (take (Z.to_nat 0) l) ++ drop (length p + length l) d) with (drop (length p + length l) d).
    unfold cursor. rewrite Nat.sub_0_r, <- drop_drop. by rewrite take_drop.
  - rewrite Z.add_0_l, Nat2Z.id, Nat.sub_diag, firstn_all. cbn [take app]. unfold cursor.
    by rewrite <- app_assoc, length_app, length_rev.
Qed.

Lemma emit_input d p w : win_ok w -> (length p + length (win_bytes w) <= length d)%nat ->
  _emit_cointx_input (cursor d p) (at_end p) (vin_of w) = Some (at_end (p ++ win_bytes w), cursor d (p ++ win_bytes w)).
Proof.
  intros ((Hid & Hl32) & Hv & (Hs & Hls) & Hq) Hlen. unfold win_bytes in *. rewrite !length_app, length_rev, !le_bytes_length, Hl32 in Hlen.
  unfold _emit_cointx_input, vin_of. cbn [txidstr vout sigs sequence].
  destruct (hexstr_array 128 (w_id w) Hid) as [g ->]; [lia|].
  pose proof (decode_hexstr (w_id w) (replicate 32 0) 0 g Hid) as E0. rewrite Hl32 in E0. change (Z.of_nat 32) with 32 in E0.
  rewrite E0, bind_Some by (done || (intros E; rewrite E in Hl32; done)). clear E0.
  rewrite drop_ge, app_nil_r by (rewrite length_replicate; lia). cbv beta iota.
  rewrite (reverse_loop d p (w_id w)), bind_Some by lia.
  replace (at_end p + 32) with (at_end (p ++ rev (w_id w))) by (rewrite length_app, length_rev; lia).
  rewrite emit32, bind_Some by (rewrite length_app, length_rev; lia). cbv beta iota. rewrite <- app_assoc.
  set (p2 := p ++ rev (w_id w) ++ le_bytes 4 (w_vout w)). assert (Hp2 : length p2 = (length p + 36)%nat) by (unfold p2; rewrite !length_app, length_rev, le_bytes_length; lia).
  destruct (emit_script d p2 (w_sig w) 4096 Hs) as (Es & E2 & E3); [lia|change (2 ^ 16) with 65536; lia|lia|]. cbv zeta in Es, E2, E3.
  set (siglen := Z.shiftr _ 1) in *. rewrite E2, bind_Some. cbv beta iota. rewrite E3, bind_Some, Es.
  replace (at_end p2 + at_end (varint (Z.of_nat (length (w_sig w)))) + Z.of_nat (length (w_sig w)))
    with (at_end (p2 ++ varint (Z.of_nat (length (w_sig w))) ++ w_sig w)) by (rewrite !length_app; lia).
  rewrite emit32 by (rewrite !length_app; lia). unfold p2. by rewrite <- !app_assoc.
Qed.

Lemma emit_output d p w : wout_ok w -> (length p + length (wout_bytes w) <= length d)%nat ->
  _emit_cointx_output (cursor d p) (at_end p) (vout_of w) = Some (at_end (p ++ wout_bytes w), cursor d (p ++ wout_bytes w)).
Proof.
  intros (Hv & Hs & Hls) Hlen. unfold wout_bytes in *. rewrite !length_app, le_bytes_length in Hlen.
  unfold _emit_cointx_output, vout_of. cbn [value script].
  rewrite emit32, bind_Some by lia. cbv beta iota. rewrite emit32, bind_Some by (rewrite length_app, le_bytes_length; lia). cbv beta iota.
  rewrite <- app_assoc. replace (le_bytes 4 (u32 (w_value w)) ++ le_bytes 4 (u32 (Z.shiftr (w_value w) 32))) with (le_bytes 8 (w_value w)) by apply le_bytes_halves.
  set (p2 := p ++ le_bytes 8 (w_value w)). assert (Hp2 : length p2 = (length p + 8)%nat) by (unfold p2; rewrite !length_app, le_bytes_length; lia).
  destruct (emit_script d p2 (w_script w) 2048 Hs) as (Es & E2 & E3); [lia|change (2 ^ 16) with 65536; lia|lia|]. cbv zeta in Es, E2, E3.
  set (siglen := Z.shiftr _ 1) in *. rewrite E2, bind_Some. cbv beta iota. rewrite E3, bind_Some, Es.
  unfold p2. rewrite <- !app_assoc. do 3 f_equal. rewrite !length_app. lia.
Qed.

Lemma emit_list_ok {A B} (emit : list Z -> Z -> A -> option (Z * list Z)) (mk : B -> A) (img : B -> list Z) (ok : B -> Prop) d maxlen :
  (forall p w, ok w -> (length p + length (img w) <= length d)%nat -> emit (cursor d p) (at_end p) (mk w) = Some (at_end (p ++ img w), cursor d (p ++ img w))) ->
  forall ws p, Forall ok ws -> (length p + length (concat (map img ws)) <= length d)%nat ->
  Z.of_nat (length p + length (concat (map img ws))) <= maxlen ->
  emit_list emit maxlen (map mk ws) (cursor d p) (at_end p)
  = Some (Some (at_end (p ++ concat (map img ws)), cursor d (p ++ concat (map img ws)))).
Proof.
  intros He. induction ws as [|w ws IH]; intros p HF Hl Hm; cbn [map concat emit_list] in *.
  - by rewrite app_nil_r.
  - apply list.Forall_cons in HF as [Hw HF]. rewrite length_app in Hl, Hm. rewrite He, bind_Some by (done || lia). cbv beta iota.
    destruct (Z.ltb_spec maxlen (at_end (p ++ img w))) as [Hlt|_]; [rewrite length_app in Hlt; lia|].
    rewrite IH, <- app_assoc by (done || (rewrite length_app; lia)). done.
Qed.

(** What [emit_cointxdata] writes. *)
Lemma emit_eq oldtx w d maxlen :
  wtx_ok w -> (length (wtx_bytes oldtx w) <= length d)%nat -> Z.of_nat (length (wtx_bytes oldtx w)) <= maxlen ->
  emit_cointxdata d maxlen (cointx_of oldtx w) oldtx
  = Some (Some (Z.of_nat (length (wtx_bytes oldtx w)), wtx_bytes oldtx w ++ drop (length (wtx_bytes oldtx w)) d)).
Proof.
  intros (Hv & Ht & Hk & Hi & Hin & Ho & Hon) Hl Hm. unfold emit_cointxdata, cointx_of. cbn [version timestamp inputs outputs nlocktime].
  rewrite !length_map. change d with (cursor d []) at 1. change 0 with (at_end (@nil Z)) at 1.
  set (ins := concat (map win_bytes (w_ins w))). set (outs := concat (map wout_bytes (w_outs w))).
  assert (Hlen : length (wtx_bytes oldtx w) = (4 + (if oldtx then 0 else 4) + length (varint (Z.of_nat (length (w_ins w)))) + length ins
      + length (varint (Z.of_nat (length (w_outs w)))) + length outs + 4)%nat).
  { unfold wtx_bytes. fold ins outs. rewrite !length_app, !le_bytes_length. destruct oldtx; cbn [length]; rewrite ?le_bytes_length; lia. }
  rewrite emit32, bind_Some by (cbn; lia). cbv beta iota. cbn [app].
  set (p1 := le_bytes 4 (w_version w) ++ (if oldtx then [] else le_bytes 4 (w_time w))).
  assert (Hp1 : length p1 = (4 + (if oldtx then 0 else 4))%nat) by (unfold p1; rewrite length_app; destruct oldtx; by rewrite ?le_bytes_length).
  match goal with |- (?r ≫= _) = _ => replace r with (Some (at_end p1, cursor d p1)) end.
  2: { unfold p1. destruct oldtx; [by rewrite app_nil_r|]. symmetry. apply emit32. rewrite le_bytes_length. lia. }
  rewrite bind_Some. cbv beta iota. rewrite emit_varint, bind_Some by (change (2 ^ 64) with 18446744073709551616; lia). cbv beta iota.
  rewrite <- Nat2Z.inj_add, <- length_app. set (p2 := p1 ++ varint _).
  assert (Hp2 : length p2 = (length p1 + length (varint (Z.of_nat (length (w_ins w)))))%nat) by (unfold p2; by rewrite length_app).
  rewrite (emit_list_ok _ vin_of win_bytes win_ok d maxlen) by first [done|fold ins; lia|intros; by apply emit_input].
  fold ins. rewrite bind_Some. cbv beta iota.
  rewrite emit_varint, bind_Some by (first [change (2 ^ 64) with 18446744073709551616; lia|rewrite length_app; lia]). cbv beta iota.
  rewrite <- Nat2Z.inj_add, <- length_app. set (p3 := _ ++ varint (Z.of_nat (length (w_outs w)))).
  assert (Hp3 : length p3 = (length p2 + length ins + length (varint (Z.of_nat (length (w_outs w)))))%nat) by (unfold p3; by rewrite !length_app).
  rewrite (emit_list_ok _ vout_of wout_bytes wout_ok d maxlen) by first [done|fold outs; lia|intros; by apply emit_output].
  fold outs. rewrite bind_Some. cbv beta iota. rewrite emit32, bind_Some by (rewrite length_app; lia). cbv beta iota.
  assert (E : (p3 ++ outs) ++ le_bytes 4 (w_lock w) = wtx_bytes oldtx w).
  { unfold p3, p2, p1, wtx_bytes. fold ins outs. by rewrite <- !app_assoc. }
  rewrite E. done.
Qed.

(** ** Reading: a buffer with the bytes at the offset *)
















Lemma emit_hex oldtx w L :
  wtx_ok w -> Z.of_nat (length (wtx_bytes oldtx w)) < L / 2 - 1 -> L < 2 ^ 30 ->
  _emit_cointx L (cointx_of oldtx w) oldtx = Some (Z.of_nat (length (wtx_bytes oldtx w)), hexstr (wtx_bytes oldtx w)).
Proof.
  intros Hw Hlt HL. change (2 ^ 30) with 1073741824 in HL. assert (0 <= L) by dmlia. unfold _emit_cointx.
  rewrite emit_eq, bind_Some by first [done|rewrite length_replicate; dmlia|dmlia].
  rewrite Z.quot_div_nonneg by lia. destruct (Z.ltb_spec (Z.of_nat (length (wtx_bytes oldtx w))) (L / 2 - 1)); [|lia].
  rewrite init_hexbytes_prefix, bind_Some by (change (2 ^ 30) with 1073741824; dmlia). done.
Qed.

(** The writer against the format.  For every transaction that fits the arrays
    [_emit_cointx] gives the hexadecimal text of exactly the bytes of the wire format, as
    long as the text fits the limit. *)
Theorem emit_cointx_format oldtx w L :
  wtx_ok w -> Z.of_nat (length (wtx_bytes oldtx w)) < L / 2 - 1 -> L < 2 ^ 30 ->
  _emit_cointx L (cointx_of oldtx w) oldtx = Some (Z.of_nat (length (wtx_bytes oldtx w)), hexstr (wtx_bytes oldtx w)).
Proof. exact (emit_hex oldtx w L). Qed.


(** One input with a short script, one output. *)
Definition tx_demo : wire_tx :=
  mkWtx 1 1443000000 [mkWin (replicate 32 171) 3 [72; 48; 69] 4294967295] [mkWout 5000000000 [118; 169; 20]] 0.

Lemma tx_demo_ok : wtx_ok tx_demo.
Proof.
  unfold wtx_ok, tx_demo. cbn [w_version w_time w_ins w_outs w_lock]. split_and!; try done; try (cbn; lia).
  - apply list.Forall_cons_2; [|constructor]. unfold win_ok. cbn [w_id w_vout w_sig w_seq].
    split_and!; try done; try (repeat constructor; lia); try (cbn; lia).
  - apply list.Forall_cons_2; [|constructor]. unfold wout_ok. cbn [w_value w_script].
    split_and!; try done; try (repeat constructor; lia); try (cbn; lia).
Qed.

Lemma emit_cointx_format_witness :
  wtx_ok tx_demo /\
  _emit_cointx 1000 (cointx_of false tx_demo) false = Some (Z.of_nat (length (wtx_bytes false tx_demo)), hexstr (wtx_bytes false tx_demo)).
Proof. split; [exact tx_demo_ok|]. apply emit_cointx_format; [exact tx_demo_ok|reflexivity|reflexivity]. Defined.


(** ** Where the format does not fit

    An output number above 65535, such as that of a coinbase input, is cut to 16 bits. *)
Example vout_truncated :
  option_map (option_map (fun r => vout (fst r))) (_decode_vin (replicate 32 0 ++ le_bytes 4 4294967295 ++ [0; 1; 0; 0; 0]) 0 41)
  = Some (Some 65535).
Proof. vm_compute. reflexivity. Qed.

(** A script of 1024 bytes passes the check of its length and overflows the array that holds
    its text. *)
Example script_overflow : _decode_vout (le_bytes 8 1 ++ varint 1024 ++ replicate (Z.to_nat 1024) 1) 0 2000 = None.
Proof. vm_compute. reflexivity. Qed.

(** A text that ends after the version makes the reader go on at offset -1. *)
Example truncated_reads_before : _decode_rawtransaction (replicate 16 0) [48; 49; 48; 48; 48; 48; 48; 48; 0; 0] true = None.
Proof. vm_compute. reflexivity. Qed.

(** The limit is checked after the bytes have been written: a transaction that does not fit
    overruns the buffer of [_emit_cointx] first. *)
Example limit_checked_late :
  emit_cointxdata (replicate 100 0) 8 (cointx_of true tx_demo) true = Some None /\
  _emit_cointx 8 (cointx_of true tx_demo) true = None.
Proof. vm_compute. split; reflexivity. Qed.
