(* ===== verification/Address.v ===== *)
(** * cJSON.c, NXT777.c: account ids as decimal text and as Reed-Solomon addresses

    An account is a 64-bit number.  It is written in decimal ([expand_nxt64bits],
    [calc_nxt64bits]) or as an address of 17 letters, 13 for the number in base 32 and 4
    check symbols of a Reed-Solomon code over the field of 32 elements ([RS_encode],
    [RS_decode]).  [conv_acctstr] takes either form.  Text is a list of characters without
    the terminator; [RS_decode] reads memory and checks every access.  The requests to a
    server that follow the first [return] of [conv_rsacctstr] are dead code. *)
From Stdlib Require Import ZArith Lia.
From stdpp Require Import base list numbers option.
From S2P Require Import Prelude Utils.
Open Scope Z_scope.

(** ** Decimal text *)

(** cJSON.c:922-927 [expand_nxt64bits] The loop, lowest digit first. *)
Fixpoint expand_rev (fuel : nat) (nxt64bits : Z) : option text :=
  if nxt64bits =? 0 then Some []
  else match fuel with
       | O => None
       | S fuel => rev ← expand_rev fuel (nxt64bits / 10); Some (nxt64bits mod 10 + 48 :: rev)
       end.

(** cJSON.c:918-933 [expand_nxt64bits] The text; [rev] has room for 64 digits. *)
Definition expand_nxt64bits (nxt64bits : Z) : option text :=
  rev ← expand_rev 64 nxt64bits;
  Some (reverse rev).

(** The sign of [strcmp]. *)
Fixpoint strcmp (a b : text) : Z :=
  match a, b with
  | [], [] => 0
  | [], _ => -1
  | _, [] => 1
  | x :: a, y :: b => if x =? y then strcmp a b else if x <? y then -1 else 1
  end.

(** cJSON.c:949-958 [cmp_nxt64bits] *)
Definition cmp_nxt64bits (str : option text) (nxt64bits : Z) : option Z :=
  match str with
  | None => Some (-1)
  | Some str =>
      if (nxt64bits =? 0) && (znth (str ++ [0]) 0 =? 0) then Some 0
      else expanded ← expand_nxt64bits nxt64bits; Some (strcmp str expanded)
  end.

(** cJSON.c:985-1007 [calc_nxt64bits] The loop from the last digit on. *)
Definition calc_digits (str : text) : option Z :=
  let n := Z.of_nat (length str) in
  r ← for_ret (length str) 0 (fun k '(mult, nxt64bits) =>
    c ← aget str (n - 1 - k);
    if (c <? 48) || (57 <? c) then Some (inr 0)
    else Some (inl (u64 (mult * 10), u64 (nxt64bits + u64 (mult * (c - 48)))))) (1, 0);
  Some (match r with inl (_, x) => x | inr x => x end).

(** cJSON.c:961-1013 [calc_nxt64bits] *)
Definition calc_nxt64bits (str : option text) : option Z :=
  match str with
  | None => Some 0
  | Some str =>
      if 22 <=? Z.of_nat (length str) then Some 0
      else if bool_decide (str = [48]) || bool_decide (str = [102; 97; 108; 115; 101]) then Some 0
      else if znth (str ++ [0]) 0 =? 45 then
        (* an illegal character ends the function before the sign is used *)
        x ← calc_digits (drop 1 str); Some (u64 (- x))
      else calc_digits str
  end.

(** ** The field of 32 elements *)

(** NXT777.c:1424-1424 [gexp] *)
Definition gexp : list Z :=
  [1; 2; 4; 8; 16; 5; 10; 20; 13; 26; 17; 7; 14; 28; 29; 31; 27; 19; 3; 6; 12; 24; 21; 15; 30; 25; 23; 11; 22; 9; 18; 1].
(** NXT777.c:1425-1425 [glog] *)
Definition glog : list Z :=
  [0; 0; 1; 18; 2; 5; 19; 11; 3; 29; 6; 27; 20; 8; 12; 23; 4; 10; 30; 17; 7; 22; 28; 26; 21; 25; 9; 16; 13; 14; 24; 15].
(** NXT777.c:1426-1426 [cwmap] *)
Definition cwmap : list Z := [3; 2; 1; 0; 7; 6; 5; 4; 13; 14; 15; 16; 12; 8; 9; 10; 11].
(** NXT777.c:1427-1427 [alphabet] The digits 2 to 9 and the capital letters but [I] and [O]. *)
Definition alphabet : list Z :=
  [50; 51; 52; 53; 54; 55; 56; 57; 65; 66; 67; 68; 69; 70; 71; 72; 74; 75; 76; 77; 78; 80; 81; 82; 83; 84; 85; 86; 87; 88; 89; 90].

(** NXT777.c:1429-1435 [gmult] *)
Definition gmult (a b : Z) : option Z :=
  if (a =? 0) || (b =? 0) then Some 0
  else la ← aget glog a; lb ← aget glog b; aget gexp (Z.rem (la + lb) 31).

(** NXT777.c:1437-1451 [letterval] *)
Definition letterval (letter : Z) : Z :=
  if letter <? 57 then letter - 50
  else
    let ret := letter - 65 + 8 in
    let ret := if 73 <? letter then ret - 1 else ret in
    if 79 <? letter then ret - 1 else ret.

(** ** Addresses *)

(** [strncmp("NXT-",rs,4) == 0] *)
Definition nxt_prefix (rs : list Z) : option bool :=
  r ← for_ret 4 0 (fun i _ =>
    c ← aget rs i; x ← aget [78; 88; 84; 45] i;
    if c =? x then Some (inl tt) else Some (inr tt)) tt;
  Some (match r with inl _ => true | inr _ => false end).

(** NXT777.c:1453-1470 [RS_decode] *)
Definition RS_decode (rs : list Z) : option Z :=
  same ← nxt_prefix rs;
  if negb same then Some 0
  else
    '(code, _) ← for_loopM 17 0 (fun i '(code, p) =>
      c ← aget rs p;
      k ← aget cwmap i;
      code ← aset code k (letterval (i8 c));
      d ← aget rs (p + 1);
      Some (code, if d =? 45 then p + 2 else p + 1)) (1 :: replicate 16 0, 4);
    for_loopM 13 0 (fun k out => c ← aget code (12 - k); Some (u64 (out * 32 + c))) 0.

(** What [sprintf] writes for [%llu], with fuel for the digits. *)
Fixpoint sprintf_llu (fuel : nat) (x : Z) : text :=
  match fuel with
  | O => []
  | S fuel => (if x <? 10 then [] else sprintf_llu fuel (x / 10)) ++ [x mod 10 + 48]
  end.

(** NXT777.c:1491-1504 [RS_encode] One turn of the conversion: division by 32 of the decimal
    number in [inp]; the quotient's digits replace it.  Returns [inp], the remainder and the
    number of digits. *)
Definition divide_round (inp : list Z) (len : Z) : option (list Z * Z * Z) :=
  for_loopM (Z.to_nat len) 0 (fun i '(inp, divide, newlen) =>
    x ← aget inp i;
    let divide := divide * 10 + x in
    if 32 <=? divide then
      inp ← aset inp newlen (Z.shiftr divide 5);
      Some (inp, Z.land divide 31, newlen + 1)
    else if 0 <? newlen then inp ← aset inp newlen 0; Some (inp, divide, newlen + 1)
    else Some (inp, divide, newlen)) (inp, 0, 0).

(** NXT777.c:1489-1507 [RS_encode] The digits in base 32, lowest first, and their number. *)
Fixpoint convert_loop (fuel : nat) (inp : list Z) (len : Z) (out : list Z) (pos : Z) : option (list Z * Z) :=
  match fuel with
  | O => None
  | S fuel =>
      '(inp, divide, newlen) ← divide_round inp len;
      out ← aset out pos divide;
      if newlen =? 0 then Some (out, pos + 1) else convert_loop fuel inp newlen out (pos + 1)
  end.

(** NXT777.c:1511-1518 [RS_encode] A step of the division that leaves the check symbols. *)
Definition check_step (c : Z) (p : Z * Z * Z * Z) : option (Z * Z * Z * Z) :=
  let '(p0, p1, p2, p3) := p in
  let fb := Z.lxor c p3 in
  m30 ← gmult 30 fb; m6 ← gmult 6 fb; m9 ← gmult 9 fb; m17 ← gmult 17 fb;
  Some (m17, Z.lxor p0 m9, Z.lxor p1 m6, Z.lxor p2 m30).

(** NXT777.c:1523-1532 [RS_encode] The text of a code word. *)
Definition address_text (code : list Z) : option text :=
  for_loopM 17 0 (fun i addr =>
    k ← aget cwmap i; v ← aget code k; a ← aget alphabet v;
    let addr := addr ++ [a] in
    let j := Z.of_nat (length addr) in
    Some (if (j mod 5 =? 3) && (j <? 20) then addr ++ [45] else addr)) [78; 88; 84; 45].

(** NXT777.c:1472-1535 [RS_encode] The result and the text; the text of the error is not
    modelled. *)
Definition RS_encode (id : Z) : option (Z * option text) :=
  let acc := sprintf_llu 64 id in
  let len := Z.of_nat (length acc) in
  if (len =? 20) && negb (znth acc 0 =? 49) then Some (-1, None)
  else
    inp ← for_loopM (length acc) 0 (fun i inp => c ← aget acc i; aset inp i (c - 48)) (replicate 32 0);
    '(out, pos) ← convert_loop 33 inp len (replicate 32 0) 0;
    code ← for_loopM 13 0 (fun i code =>
      c ← (if 0 <=? pos - 1 - i then aget out i else Some 0); aset code i c) (1 :: replicate 16 0);
    '(p0, p1, p2, p3) ← for_loopM 13 0 (fun k p => c ← aget code (12 - k); check_step c p) (0, 0, 0, 0);
    let code := take 13 code ++ [p0; p1; p2; p3] in
    addr ← address_text code;
    Some (0, Some addr).

(** NXT777.c:683-700 [conv_rsacctstr] The number and the text afterwards; an empty text with
    the number 0 falls through to the end. *)
Definition conv_rsacctstr (rsacctstr : text) (nxt64bits : Z) : option (Z * text) :=
  if negb (nxt64bits =? 0) then
    '(_, addr) ← RS_encode nxt64bits; addr ← addr; Some (nxt64bits, addr)
  else match rsacctstr with
       | [] => Some (0, [])
       | _ => x ← RS_decode (rsacctstr ++ [0]); Some (x, rsacctstr)
       end.

(** NXT777.c:1537-1552 [conv_acctstr] *)
Definition conv_acctstr (acctstr : option text) : option Z :=
  match acctstr with
  | None => Some 0
  | Some str =>
      let len := is_decimalstr acctstr in
      if (0 <? len) && (len <? 24) then calc_nxt64bits acctstr
      else
        same ← nxt_prefix (str ++ [0]);
        if same : bool then '(x, _) ← conv_rsacctstr str 0; Some x else Some 0
  end.

(** ** Decimal numbers *)

(** The value of decimal digits, the highest first. *)
Definition dec (l : list Z) : Z := foldl (fun v d => 10 * v + d) 0 l.
Abbreviation digits_ok l := (Forall (fun d => 0 <= d <= 9) l).

Lemma dec_snoc l d : dec (l ++ [d]) = 10 * dec l + d.
Proof. unfold dec. by rewrite foldl_app. Qed.

Lemma digits_snoc l d : digits_ok (l ++ [d]) <-> digits_ok l /\ 0 <= d <= 9.
Proof. rewrite list.Forall_app, list.Forall_singleton. done. Qed.

Lemma dec_nonneg l : digits_ok l -> 0 <= dec l.
Proof.
  induction l as [|d l IH] using rev_ind; [done|]. intros [Hl Hd]%digits_snoc.
  rewrite dec_snoc. specialize (IH Hl). lia.
Qed.

(** The text of digits. *)
Definition dtext (l : list Z) : text := map (fun d => d + 48) l.

Lemma pow10_S n : 10 ^ Z.of_nat (S n) = 10 * 10 ^ Z.of_nat n.
Proof. rewrite Nat2Z.inj_succ, Z.pow_succ_r by lia. done. Qed.

(** [sprintf] and [expand_nxt64bits] write the digits of the number, as many as it has. *)
Lemma sprintf_digits n m x :
  0 <= x < 10 ^ Z.of_nat m -> (0 < m <= n)%nat ->
  exists l, sprintf_llu n x = dtext l /\ digits_ok l /\ dec l = x /\ (1 <= length l <= m)%nat.
Proof.
  revert m x. induction n as [|n IH]; intros m x Hx Hn; [lia|]. cbn [sprintf_llu].
  destruct m as [|m]; [lia|]. rewrite pow10_S in Hx. destruct (Z.ltb_spec x 10).
  - exists [x]. rewrite Z.mod_small by lia. split; [done|]. split; [apply list.Forall_singleton; lia|].
    split; [unfold dec; simpl; lia|simpl; lia].
  - assert (Hm : (0 < m)%nat) by (destruct m; [change (10 ^ Z.of_nat 0) with 1 in Hx; lia|lia]).
    destruct (IH m (x / 10)) as (l & -> & Hl & Hd & Hlen); [dmlia|lia|].
    exists (l ++ [x mod 10]). unfold dtext. rewrite map_app. split; [done|]. split; [|split].
    + apply digits_snoc. split; [done|dmlia].
    + rewrite dec_snoc, Hd. dmlia.
    + rewrite length_app. simpl. lia.
Qed.

Lemma expand_digits n m x :
  0 <= x < 10 ^ Z.of_nat m -> (m <= n)%nat ->
  exists l, expand_rev n x = Some (reverse (dtext l)) /\ digits_ok l /\ dec l = x /\ (length l <= m)%nat.
Proof.
  revert m x. induction n as [|n IH]; intros m x Hx Hn.
  - destruct m; [|lia]. change (10 ^ Z.of_nat 0) with 1 in Hx. replace x with 0 by lia. exists []. split_and!; done.
  - cbn [expand_rev]. destruct (Z.eqb_spec x 0) as [->|Hnz].
    + exists []. split_and!; try done. simpl. lia.
    + destruct m as [|m]; [change (10 ^ Z.of_nat 0) with 1 in Hx; lia|]. rewrite pow10_S in Hx.
      destruct (IH m (x / 10)) as (l & E & Hl & Hd & Hlen); [dmlia|lia|]. rewrite E, bind_Some.
      exists (l ++ [x mod 10]). unfold dtext. rewrite map_app, reverse_app. split; [done|]. split; [|split].
      * apply digits_snoc. split; [done|dmlia].
      * rewrite dec_snoc, Hd. dmlia.
      * rewrite length_app. simpl. lia.
Qed.

Lemma expand_text x :
  0 <= x < 2 ^ 64 -> exists l, expand_nxt64bits x = Some (dtext l) /\ digits_ok l /\ dec l = x /\ (length l <= 20)%nat.
Proof.
  intros Hx. destruct (expand_digits 64 20 x) as (l & E & H); [|lia|].
  - change (10 ^ Z.of_nat 20) with 100000000000000000000. change (2 ^ 64) with 18446744073709551616 in Hx. lia.
  - exists l. unfold expand_nxt64bits. rewrite E, bind_Some, reverse_involutive. done.
Qed.

Lemma dtext_get l k : 0 <= k < Z.of_nat (length l) -> aget (dtext l) k = Some (znth l k + 48).
Proof.
  intros Hk. apply aget_Some. split; [lia|]. unfold dtext. rewrite list_lookup_fmap.
  pose proof (aget_znth l k Hk) as E. apply aget_Some in E as [_ ->]. done.
Qed.

(** The value of the last [k] digits. *)
Lemma dec_app l1 l2 : dec (l1 ++ l2) = dec l1 * 10 ^ Z.of_nat (length l2) + dec l2.
Proof.
  induction l2 as [|d l2 IH] using rev_ind.
  - rewrite app_nil_r. change (10 ^ Z.of_nat (length (@nil Z))) with 1. change (dec []) with 0. lia.
  - rewrite app_assoc, !dec_snoc, IH, length_app. simpl length.
    rewrite Nat2Z.inj_add, Z.pow_add_r by lia. change (10 ^ Z.of_nat 1) with 10. ring.
Qed.

Lemma u64_add_r x y : u64 (x + u64 y) = u64 (x + y).
Proof. unfold uwrap. apply Zplus_mod_idemp_r. Qed.
Lemma u64_mul_l x y : u64 (u64 x * y) = u64 (x * y).
Proof. unfold uwrap. apply Zmult_mod_idemp_l. Qed.
Lemma u64_add_l x y : u64 (u64 x + y) = u64 (x + y).
Proof. unfold uwrap. apply Zplus_mod_idemp_l. Qed.

(** The loop over the digits never stops early and computes the number modulo [2 ^ 64]. *)
Lemma calc_digits_eq l : digits_ok l -> calc_digits (dtext l) = Some (u64 (dec l)).
Proof.
  intros Hl. unfold calc_digits. set (n := Z.of_nat (length (dtext l))).
  assert (Hn : n = Z.of_nat (length l)) by (unfold n, dtext; by rewrite length_map).
  assert (G : forall m suf, (m + length suf = length l)%nat -> (exists pre, l = pre ++ suf) ->
    (r ← for_ret m (Z.of_nat (length suf)) (fun k '(mult, nxt64bits) =>
      c ← aget (dtext l) (n - 1 - k);
      if (c <? 48) || (57 <? c) then Some (inr 0)
      else Some (inl (u64 (mult * 10), u64 (nxt64bits + u64 (mult * (c - 48))))))
      (u64 (10 ^ Z.of_nat (length suf)), u64 (dec suf));
     Some (match r with inl (_, x) => x | inr x => x end)) = Some (u64 (dec l))).
  { induction m as [|m IH]; intros suf Hm [pre E].
    - destruct pre as [|d pre]; [by subst l|]. rewrite E, length_app in Hm. simpl in Hm. lia.
    - assert (Hpre : (0 < length pre)%nat) by (rewrite E, length_app in Hm; lia).
      destruct pre as [|d pre _] using rev_ind; [simpl in Hpre; lia|].
      rewrite for_ret_S.
      rewrite dtext_get by (rewrite E, !length_app in *; simpl in *; lia). rewrite bind_Some.
      assert (Hd : znth l (n - 1 - Z.of_nat (length suf)) = d).
      { unfold znth, aget. rewrite Hn, E, !length_app. simpl length. zcase; [|lia].
        rewrite lookup_app_l by (rewrite length_app; simpl; lia).
        rewrite lookup_app_r by lia. by replace (_ - _)%nat with 0%nat by lia. }
      rewrite Hd. assert (Hd9 : 0 <= d <= 9).
      { rewrite E in Hl. apply list.Forall_app in Hl as [Hl _]. by apply digits_snoc in Hl as [_ Hl]. }
      destruct (Z.ltb_spec (d + 48) 48); [lia|]. destruct (Z.ltb_spec 57 (d + 48)); [lia|]. cbn [orb]. rewrite bind_Some.
      specialize (IH (d :: suf)). rewrite <- IH; [|simpl; lia|exists pre; rewrite E, <- app_assoc; done].
      simpl length. replace (Z.of_nat (length suf) + 1) with (Z.of_nat (S (length suf))) by lia.
      do 3 f_equal.
      + rewrite u64_mul_l, Nat2Z.inj_succ, Z.pow_succ_r by lia. f_equal. lia.
      + rewrite u64_mul_l, u64_add_l, u64_add_r. replace (d + 48 - 48) with d by lia.
        change (dec (d :: suf)) with (dec ([d] ++ suf)). rewrite dec_app. change (dec [d]) with (10 * 0 + d). f_equal. lia. }
  replace (length (dtext l)) with (length l) by (unfold dtext; by rewrite length_map). apply (G (length l) []); [simpl; lia|]. exists l. by rewrite app_nil_r.
Qed.

Lemma dtext_char l k : digits_ok l -> 0 <= k < Z.of_nat (length l) -> 48 <= znth (dtext l) k <= 57.
Proof.
  intros Hl Hk. unfold znth at 1 2. rewrite dtext_get by done. change (48 <= znth l k + 48 <= 57).
  pose proof (Forall_znth (fun d => 0 <= d <= 9) l k ltac:(cbv beta; lia) Hl) as H. cbv beta in H. lia.
Qed.

Lemma calc_decimal l : digits_ok l -> (length l < 22)%nat -> calc_nxt64bits (Some (dtext l)) = Some (u64 (dec l)).
Proof.
  intros Hl Hn. unfold calc_nxt64bits. unfold dtext at 1. rewrite length_map.
  destruct (Z.leb_spec 22 (Z.of_nat (length l))); [lia|].
  destruct l as [|d [|e l]]; [done| |].
  - assert (Hd9 : 0 <= d <= 9) by (by apply (digits_snoc [] d) in Hl as [_ ?]). destruct (Z.eq_dec d 0) as [->|Hd]; [done|].
    rewrite !bool_decide_eq_false_2 by (cbn; intros [=]; lia). cbn [orb]. change (znth _ 0) with (d + 48).
    destruct (Z.eqb_spec (d + 48) 45); [lia|]. by apply calc_digits_eq.
  - pose proof (dtext_char _ 0 Hl ltac:(simpl; lia)) as Hc. change (znth (dtext (d :: e :: l)) 0) with (d + 48) in Hc.
    rewrite !bool_decide_eq_false_2 by (cbn; intros [=]; lia). cbn [orb]. change (znth _ 0) with (d + 48).
    destruct (Z.eqb_spec (d + 48) 45); [lia|]. by apply calc_digits_eq.
Qed.

(** ** The field of 32 elements *)

(** [x] times the element 2: a shift, reduced by the polynomial [x^5 + x^2 + 1]. *)
Definition xtime (x : Z) : Z := if 16 <=? x then Z.lxor (2 * x) 37 else 2 * x.

(** The product, bit by bit of the second factor. *)
Fixpoint fprod (n : nat) (a b : Z) : Z :=
  match n with
  | O => 0
  | S n => Z.lxor (if Z.testbit b 0 then a else 0) (fprod n (xtime a) (Z.shiftr b 1))
  end.
Definition field_mul (a b : Z) : Z := fprod 5 a b.

Lemma lxor_diff a b c d : Z.lxor (Z.lxor a b) (Z.lxor c d) = Z.lxor (Z.lxor a c) (Z.lxor b d).
Proof. rewrite !Z.lxor_assoc. f_equal. rewrite <- !Z.lxor_assoc. f_equal. apply Z.lxor_comm. Qed.

Lemma fprod_lxor n a b c : fprod n a (Z.lxor b c) = Z.lxor (fprod n a b) (fprod n a c).
Proof.
  revert a b c. induction n as [|n IH]; intros a b c; cbn [fprod]; [done|].
  rewrite Z.shiftr_lxor, IH, Z.lxor_spec, lxor_diff. f_equal.
  destruct (Z.testbit b 0), (Z.testbit c 0); cbn [xorb]; by rewrite ?Z.lxor_nilpotent, ?Z.lxor_0_r, ?Z.lxor_0_l.
Qed.

(** Equations between sums, bit by bit. *)
Ltac xor_bits :=
  apply Z.bits_inj'; intros ?i ?Hi; rewrite ?Z.lxor_spec;
  repeat match goal with |- context [Z.testbit ?x ?i] => destruct (Z.testbit x i) end; reflexivity.

Lemma lxor_move a b c : Z.lxor a b = c -> a = Z.lxor b c.
Proof. intros <-. xor_bits. Qed.

Lemma field_mul_lxor a b c : field_mul a (Z.lxor b c) = Z.lxor (field_mul a b) (field_mul a c).
Proof. apply fprod_lxor. Qed.

(** What holds for every element, by enumeration. *)
Lemma all_elements (P : Z -> bool) : forallb P (seqZ 0 32) = true -> forall x, 0 <= x < 32 -> P x = true.
Proof. intros H x Hx. rewrite forallb_forall in H. apply H, list_elem_of_In, elem_of_seqZ. lia. Qed.

Definition elt (x : Z) : Prop := 0 <= x < 32.

Lemma elt_lxor x y : elt x -> elt y -> elt (Z.lxor x y).
Proof.
  unfold elt. intros Hx Hy. assert (Hn : 0 <= Z.lxor x y) by (apply Z.lxor_nonneg; lia). split; [done|].
  apply (testbit_bound _ 5); [lia|done|]. intros i Hi. rewrite Z.lxor_spec, !(testbit_small _ 5) by lia. done.
Qed.

Definition field_checked (a b : Z) : bool :=
  match gmult a b with Some z => (z =? field_mul a b) && (0 <=? z) && (z <? 32) | None => false end.

(** The tables of logarithms multiply. *)
Lemma gmult_eq a b : elt a -> elt b -> gmult a b = Some (field_mul a b) /\ elt (field_mul a b).
Proof.
  intros Ha Hb.
  pose proof (all_elements (fun a => forallb (field_checked a) (seqZ 0 32)) ltac:(vm_compute; reflexivity) a Ha) as H. cbv beta in H.
  pose proof (all_elements _ H b Hb) as G. unfold field_checked in G. destruct (gmult a b) as [z|]; [|done]. unfold elt. zbool.
  subst z. split; [done|lia].
Qed.

(** ** The code *)

(** The powers of the element 2 at which a code word vanishes, and the value of a word there:
    symbol [i] of the number stands at [x^(4+i)], check symbol [13+i] at [x^i]. *)
Definition root (k : Z) : Z := znth gexp k.
Definition at_root (k : Z) (l : list Z) : Z := foldr (fun c v => Z.lxor c (field_mul (root k) v)) 0 l.
Definition polynomial (code : list Z) : list Z := drop 13 code ++ take 13 code.

(** The value of the check symbols so far. *)
Definition check_value (k : Z) (p : Z * Z * Z * Z) : Z := let '(p0, p1, p2, p3) := p in at_root k [p0; p1; p2; p3].
Definition check_ok (p : Z * Z * Z * Z) : Prop := let '(p0, p1, p2, p3) := p in elt p0 /\ elt p1 /\ elt p2 /\ elt p3.

Lemma root_elt k : 0 <= k < 32 -> elt (root k).
Proof.
  intros Hk. pose proof (all_elements (fun k => (0 <=? root k) && (root k <? 32)) ltac:(vm_compute; reflexivity) k Hk) as H.
  cbv beta in H. unfold elt. zbool. lia.
Qed.

Lemma field_elt a b : elt a -> elt b -> elt (field_mul a b).
Proof. intros. by apply gmult_eq. Qed.

(** The generator vanishes at the four roots. *)
Lemma generator_root k fb : 1 <= k <= 4 -> elt fb ->
  at_root k [field_mul 17 fb; field_mul 9 fb; field_mul 6 fb; field_mul 30 fb] =
  field_mul (root k) (field_mul (root k) (field_mul (root k) (field_mul (root k) fb))).
Proof.
  intros Hk Hfb. pose proof (all_elements (fun fb => forallb (fun k => (at_root k [field_mul 17 fb; field_mul 9 fb; field_mul 6 fb; field_mul 30 fb] =?
    field_mul (root k) (field_mul (root k) (field_mul (root k) (field_mul (root k) fb))))) [1; 2; 3; 4]) ltac:(vm_compute; reflexivity) fb Hfb) as H.
  cbv beta in H. rewrite forallb_forall in H. apply Z.eqb_eq, H. simpl. lia.
Qed.

(** One step multiplies the value by the root and adds the new symbol, four places up. *)
Lemma check_step_value c p k :
  elt c -> check_ok p -> 1 <= k <= 4 ->
  exists p', check_step c p = Some p' /\ check_ok p' /\
    check_value k p' = Z.lxor (field_mul (root k) (check_value k p))
      (field_mul (root k) (field_mul (root k) (field_mul (root k) (field_mul (root k) c)))).
Proof.
  destruct p as [[[p0 p1] p2] p3]. intros Hc (H0 & H1 & H2 & H3) Hk.
  pose proof (elt_lxor c p3 Hc H3) as Hfb. unfold check_step.
  destruct (gmult_eq 30 (Z.lxor c p3)) as [-> E30]; [unfold elt; lia|done|].
  destruct (gmult_eq 6 (Z.lxor c p3)) as [-> E6]; [unfold elt; lia|done|].
  destruct (gmult_eq 9 (Z.lxor c p3)) as [-> E9]; [unfold elt; lia|done|].
  destruct (gmult_eq 17 (Z.lxor c p3)) as [-> E17]; [unfold elt; lia|done|].
  rewrite !bind_Some. eexists. split; [reflexivity|]. split; [cbn; split_and!; first [exact E17|by apply elt_lxor]|].
  pose proof (generator_root k _ Hk Hfb) as G. unfold check_value, at_root, foldr in *.
  change (field_mul (root k) 0) with 0 in *. rewrite !Z.lxor_0_r in *. rewrite !(field_mul_lxor (root k)) in *.
  apply lxor_move in G. rewrite G. xor_bits.
Qed.

(** ** From base 10 to base 32 *)

Lemma aset_at_nat {A} (l : list A) (m : nat) x : (m < length l)%nat -> aset l (Z.of_nat m) x = Some (<[m := x]> l).
Proof. intros Hm. unfold aset. repeat zcase; try lia. cbn [andb]. by rewrite Nat2Z.id. Qed.

Lemma take_push {A} (l : list A) (m : nat) x : (m < length l)%nat -> take (S m) (<[m := x]> l) = take m l ++ [x].
Proof.
  intros Hm. rewrite (take_S_r _ _ x) by (by rewrite list_lookup_insert_eq). by rewrite take_insert_ge by lia.
Qed.

(** The state of a turn after [i] digits: [m] digits of the quotient are written, none of
    them a leading zero, and the digits still to be read are untouched. *)
Definition round_inv (inp : list Z) (i : Z) (s : list Z * Z * Z) : Prop :=
  let '(inp', divide, newlen) := s in
  exists m : nat, newlen = Z.of_nat m /\ newlen <= i /\ length inp' = length inp /\ 0 <= divide < 32 /\
    digits_ok (take m inp') /\ dec (take (Z.to_nat i) inp) = 32 * dec (take m inp') + divide /\
    (m <> O -> 0 < dec (take m inp')) /\ forall k, i <= k -> aget inp' k = aget inp k.

Lemma round_push inp i inp' divide m d :
  (Z.to_nat i < length inp)%nat -> 0 <= i ->
  round_inv inp i (inp', divide, Z.of_nat m) -> 0 <= d <= 9 -> (m <> O \/ d <> 0) ->
  dec (take (S (Z.to_nat i)) inp) = 10 * (32 * dec (take m inp')) + 32 * d + (dec (take (S (Z.to_nat i)) inp) mod 32) ->
  exists inp'', aset inp' (Z.of_nat m) d = Some inp'' /\
    round_inv inp (i + 1) (inp'', dec (take (S (Z.to_nat i)) inp) mod 32, Z.of_nat m + 1).
Proof.
  intros Hl Hi (m' & Em & Hmi & Hlen & Hdiv & Hok & Hdec & Hpos & Hsame) Hd Hnz E. apply Nat2Z.inj in Em as <-.
  exists (<[m := d]> inp'). split; [apply aset_at_nat; lia|]. exists (S m).
  rewrite take_push by lia. split; [lia|]. split; [lia|]. split; [by rewrite length_insert|]. split; [dmlia|].
  pose proof (dec_nonneg _ Hok) as Hn. rewrite dec_snoc.
  split; [by apply digits_snoc|]. split; [replace (Z.to_nat (i + 1)) with (S (Z.to_nat i)) by lia; lia|].
  split; [destruct Hnz as [Hm|Hm]; [specialize (Hpos Hm); lia|lia]|].
  intros k Hk. rewrite <- Hsame by lia. unfold aget. zcase; [|done]. by rewrite list_lookup_insert_ne by lia.
Qed.

Lemma divide_round_ok inp (n : nat) :
  (n <= length inp)%nat -> digits_ok (take n inp) ->
  exists inp' m, divide_round inp (Z.of_nat n) = Some (inp', dec (take n inp) mod 32, Z.of_nat m) /\
    length inp' = length inp /\ (m <= n)%nat /\ digits_ok (take m inp') /\ dec (take m inp') = dec (take n inp) / 32 /\
    (m <> O -> 0 < dec (take m inp')).
Proof.
  intros Hn Hok. unfold divide_round. rewrite Nat2Z.id.
  match goal with |- context [for_loopM ?n 0 ?b ?s] => destruct (for_loopM_inv (round_inv inp) n 0 b s) as ([[inp' divide] newlen] & -> & Hinv) end.
  - intros i [[inp' divide] newlen] Hi Hinv. pose proof Hinv as (m & -> & Hmi & Hlen & Hdiv & Hq & Hdec & Hpos & Hsame).
    rewrite Hsame by lia. destruct (aget_range inp i) as [x Ex]; [lia|]. rewrite Ex, bind_Some.
    apply aget_Some in Ex as [_ Ex]. assert (Hx : 0 <= x <= 9).
    { assert (Et : take n inp !! Z.to_nat i = Some x) by (rewrite lookup_take_lt by lia; done). exact (Forall_lookup_1 _ _ _ _ Hok Et). }
    pose proof (take_S_r inp (Z.to_nat i) x Ex) as Et. pose proof (f_equal dec Et) as Ed. rewrite dec_snoc, Hdec in Ed.
    assert (Hm32 : dec (take (S (Z.to_nat i)) inp) mod 32 = (divide * 10 + x) mod 32) by (rewrite Ed; dmlia).
    pose proof (dec_nonneg _ Hq). destruct (Z.leb_spec 32 (divide * 10 + x)) as [Hge|Hlt].
    + rewrite Z.shiftr_div_pow2 by lia. change (2 ^ 5) with 32. change 31 with (Z.ones 5). rewrite Z.land_ones by lia. change (2 ^ 5) with 32.
      destruct (round_push inp i inp' divide m ((divide * 10 + x) / 32)) as (inp'' & -> & Hr); [lia|lia|done|dmlia|right; dmlia|dmlia|].
      rewrite bind_Some. eexists. split; [reflexivity|]. by rewrite <- Hm32.
    + destruct (Z.ltb_spec 0 (Z.of_nat m)).
      * destruct (round_push inp i inp' divide m 0) as (inp'' & -> & Hr); [lia|lia|done|lia|left; lia|rewrite Hm32, Z.mod_small by lia; lia|].
        rewrite bind_Some. eexists. split; [reflexivity|]. rewrite Hm32, Z.mod_small in Hr by lia. exact Hr.
      * eexists. split; [reflexivity|]. assert (m = O) as -> by lia. exists O.
        split; [done|]. split; [lia|]. split; [done|]. split; [lia|]. split; [done|].
        split; [|split; [done|intros; apply Hsame; lia]].
        replace (Z.to_nat (i + 1)) with (S (Z.to_nat i)) by lia. rewrite Ed. change (dec (take 0 inp')) with 0. lia.
  - exists O. split; [done|]. split; [lia|]. split; [done|]. split; [lia|]. split; [constructor|]. done.
  - destruct Hinv as (m & -> & Hm & Hlen & Hdiv & Hq & Hdec & Hpos & _). rewrite Z.add_0_l, Nat2Z.id in Hdec.
    exists inp', m. rewrite Hdec. split; [do 3 f_equal; dmlia|]. split; [done|]. split; [lia|]. split; [done|]. split; [dmlia|done].
Qed.

(** Digit [k] of a number in base 32. *)
Definition digit32 (id k : Z) : Z := id / 32 ^ k mod 32.

Lemma pow32_S k : 0 <= k -> 32 ^ (k + 1) = 32 * 32 ^ k.
Proof. intros. rewrite Z.pow_add_r by lia. change (32 ^ 1) with 32. lia. Qed.

Lemma div32_S id k : 0 <= id -> 0 <= k -> id / 32 ^ (k + 1) = id / 32 ^ k / 32.
Proof. intros. rewrite pow32_S, Z.mul_comm, Z.div_div by lia. done. Qed.

Lemma digit32_high id p k : 0 <= id < 32 ^ p -> 0 <= p <= k -> digit32 id k = 0.
Proof.
  intros Hid Hk. unfold digit32. rewrite Z.div_small; [done|].
  pose proof (Z.pow_le_mono_r 32 p k ltac:(lia) ltac:(lia)). lia.
Qed.

(** The conversion ends and gives the digits; [g] is a number of turns that is enough. *)
Lemma convert_loop_ok fuel g inp (n : nat) out (pos : nat) id :
  (n <= length inp)%nat -> digits_ok (take n inp) -> dec (take n inp) = id / 32 ^ Z.of_nat pos ->
  0 <= id < 32 ^ Z.of_nat (pos + g) -> (0 < g <= fuel)%nat -> (pos + g <= length out)%nat ->
  (forall k, 0 <= k < Z.of_nat (length out) -> znth out k = if k <? Z.of_nat pos then digit32 id k else 0) ->
  exists out' pos', convert_loop fuel inp (Z.of_nat n) out (Z.of_nat pos) = Some (out', Z.of_nat pos') /\
    length out' = length out /\ (pos' <= pos + g)%nat /\ id < 32 ^ Z.of_nat pos' /\
    forall k, 0 <= k < Z.of_nat (length out) -> znth out' k = digit32 id k.
Proof.
  revert g inp n out pos. induction fuel as [|fuel IH]; intros g inp n out pos Hn Hok Hdec Hid Hg Hout Hz; [lia|].
  cbn [convert_loop]. destruct (divide_round_ok inp n Hn Hok) as (inp' & m & -> & Hlen & Hm & Hok' & Hq & Hpos).
  rewrite bind_Some, aset_zput, bind_Some by lia. rewrite Hdec in *. rewrite <- div32_S in Hq by lia.
  set (out1 := zput out (Z.of_nat pos) (id / 32 ^ Z.of_nat pos mod 32)).
  assert (Hl1 : length out1 = length out) by apply zput_length.
  assert (Hz1 : forall k, 0 <= k < Z.of_nat (length out) -> znth out1 k = if k <? Z.of_nat (S pos) then digit32 id k else 0).
  { intros k Hk. unfold out1. rewrite znth_zput by lia. destruct (Z.eqb_spec (Z.of_nat pos) k) as [<-|Hne].
    - destruct (Z.ltb_spec (Z.of_nat pos) (Z.of_nat (S pos))); [done|lia].
    - rewrite Hz by lia. destruct (Z.ltb_spec k (Z.of_nat pos)), (Z.ltb_spec k (Z.of_nat (S pos))); done || lia. }
  replace (Z.of_nat pos + 1) with (Z.of_nat (S pos)) in * by lia.
  destruct (Z.eqb_spec (Z.of_nat m) 0) as [Hm0|Hm0].
  - exists out1, (S pos). assert (m = O) as -> by lia. change (dec (take 0 inp')) with 0 in Hq.
    assert (Hsm : id < 32 ^ Z.of_nat (S pos)) by (symmetry in Hq; apply Z.div_small_iff in Hq; lia).
    split; [done|]. split; [done|]. split; [lia|]. split; [done|].
    intros k Hk. rewrite Hz1 by done. destruct (Z.ltb_spec k (Z.of_nat (S pos))); [done|].
    symmetry. apply (digit32_high id (Z.of_nat (S pos))); lia.
  - specialize (Hpos ltac:(lia)). rewrite Hq in Hpos.
    assert (Hge : 32 ^ Z.of_nat (S pos) <= id).
    { destruct (Z.lt_ge_cases id (32 ^ Z.of_nat (S pos))); [|done]. rewrite Z.div_small in Hpos by lia. lia. }
    assert (Hg1 : (1 < g)%nat) by (destruct g as [|[|g]]; [lia| |lia]; rewrite Nat.add_1_r in Hid; lia).
    destruct (IH (g - 1)%nat inp' m out1 (S pos)) as (out' & pos' & E & Hl' & Hp' & Hs & Hd); try lia; try done.
    + by replace (S pos + (g - 1))%nat with (pos + g)%nat by lia.
    + by rewrite Hl1.
    + exists out', pos'. rewrite Hl1 in *. split; [done|]. split; [done|]. split; [lia|]. done.
Qed.

(** ** Code words *)

(** The digits of a number and the check symbols that belong to them. *)
Definition digits32 (id : Z) : list Z := map (digit32 id) (seqZ 0 13).

Lemma digit32_elt id k : elt (digit32 id k).
Proof. apply Z.mod_pos_bound. lia. Qed.

Lemma at_root_cons k c l : at_root k (c :: l) = Z.lxor c (field_mul (root k) (at_root k l)).
Proof. done. Qed.

(** Fourth power of a root times a value. *)
Definition up4 (k v : Z) : Z := field_mul (root k) (field_mul (root k) (field_mul (root k) (field_mul (root k) v))).

Lemma at_root_check p k ds : at_root k (let '(p0, p1, p2, p3) := p in [p0; p1; p2; p3] ++ ds) = Z.lxor (check_value k p) (up4 k (at_root k ds)).
Proof.
  destruct p as [[[p0 p1] p2] p3]. unfold check_value, up4. cbn [app]. rewrite !at_root_cons.
  change (at_root k []) with 0. change (field_mul (root k) 0) with 0. rewrite Z.lxor_0_r, !field_mul_lxor. xor_bits.
Qed.

(** The loop over the digits leaves the remainder: with the digits above, the word vanishes at
    the four roots. *)
Lemma check_loop (ds code : list Z) :
  length ds = 13%nat -> take 13 code = ds -> (17 <= length code)%nat -> Forall elt ds ->
  exists p, for_loopM 13 0 (fun k p => c ← aget code (12 - k); check_step c p) (0, 0, 0, 0) = Some p /\ check_ok p /\
    forall k, 1 <= k <= 4 -> check_value k p = up4 k (at_root k ds).
Proof.
  intros Hl Ht Hlc He.
  match goal with |- context [for_loopM ?n 0 ?b ?s] => destruct (for_loopM_inv (fun i p => check_ok p /\
    forall k, 1 <= k <= 4 -> check_value k p = up4 k (at_root k (drop (Z.to_nat (13 - i)) ds))) n 0 b s) as (p & E & Hok & Hv) end.
  - intros j p Hj [Hp Hv]. rewrite aget_znth by lia. rewrite bind_Some.
    assert (Hd : drop (Z.to_nat (13 - (j + 1))) ds = znth code (12 - j) :: drop (Z.to_nat (13 - j)) ds).
    { replace (Z.to_nat (13 - j)) with (S (Z.to_nat (13 - (j + 1)))) by lia. apply drop_S. rewrite <- Ht, lookup_take_lt by lia.
      pose proof (aget_znth code (12 - j) ltac:(lia)) as Eg. apply aget_Some in Eg as [_ Eg]. rewrite <- Eg. f_equal. lia. }
    assert (Hc : elt (znth code (12 - j))).
    { assert (Hs : Forall elt (drop (Z.to_nat (13 - (j + 1))) ds)) by (by apply list.Forall_drop). rewrite Hd in Hs. by apply list.Forall_cons in Hs as [Hs _]. }
    destruct (check_step_value _ p 1 Hc Hp ltac:(lia)) as (p' & Es & Hok & _). exists p'. split; [done|]. split; [done|].
    intros k Hk. destruct (check_step_value _ p k Hc Hp Hk) as (p'' & Es' & _ & Hv'). assert (p'' = p') as -> by congruence.
    rewrite Hv', Hv, Hd, at_root_cons by done. unfold up4. rewrite !field_mul_lxor. apply Z.lxor_comm.
  - split; [repeat split; lia|]. intros k Hk. rewrite drop_ge by (rewrite Hl; lia). done.
  - exists p. split; [done|]. split; [done|]. intros k Hk. by rewrite (Hv k Hk).
Qed.

(** The text of a word. *)
Definition letter (v : Z) : Z := znth alphabet v.
Definition address (code : list Z) : text :=
  let L k := letter (znth code k) in
  [78; 88; 84; 45; L 3; L 2; L 1; L 0; 45; L 7; L 6; L 5; L 4; 45; L 13; L 14; L 15; L 16; 45; L 12; L 8; L 9; L 10; L 11].

Lemma alphabet_get v : elt v -> aget alphabet v = Some (letter v).
Proof. intros Hv. apply aget_znth. exact Hv. Qed.

(** A word of 17 symbols as an explicit list. *)
Ltac word17 code Hl :=
  do 17 (destruct code as [|?c code]; [discriminate Hl|]); destruct code; [|discriminate Hl].

(** The first read of a known place of an array, and a test that has a value. *)
Ltac array_read :=
  match goal with |- context [aget ?l ?k ≫= _] => let v := eval vm_compute in (aget l k) in
    lazymatch v with Some _ => change (aget l k) with v; rewrite bind_Some end end.
Ltac test_value :=
  match goal with |- context [if ?b then _ else _] => let v := eval vm_compute in b in
    lazymatch v with true => change b with true | false => change b with false end end.

Lemma address_text_eq code : length code = 17%nat -> Forall elt code -> address_text code = Some (address code).
Proof.
  intros Hl He. word17 code Hl. repeat (apply list.Forall_cons in He as [?E He]). unfold address_text.
  do 17 (rewrite for_loopM_S; array_read; array_read; rewrite alphabet_get by done; rewrite bind_Some; test_value; cbn iota; rewrite bind_Some;
    cbn [app]).
  done.
Qed.

(** ** Reading an address *)

(** What [letterval] makes of a letter. *)
Definition read_letter (v : Z) : Z := letterval (i8 (letter v)).

Lemma letter_read v : elt v -> letter v <> 45 /\ read_letter v = if v =? 7 then 0 else v.
Proof.
  intros Hv. pose proof (all_elements (fun v => negb (letter v =? 45) && (read_letter v =? if v =? 7 then 0 else v)) ltac:(vm_compute; reflexivity) v Hv) as H.
  cbv beta in H. zbool. done.
Qed.

(** The place of letter [i] in an address. *)
Definition place (i : Z) : Z := 4 + i + Z.min (i / 4) 3.

Lemma address_place code i :
  length code = 17%nat -> Forall elt code -> 0 <= i < 17 ->
  aget (address code ++ [0]) (place i) = Some (letter (znth code (znth cwmap i))) /\
  exists d, aget (address code ++ [0]) (place i + 1) = Some d /\
    (if d =? 45 then place i + 2 else place i + 1) = place (i + 1).
Proof.
  intros Hl He Hi.
  assert (Hn : forall k, (letter (znth code k) =? 45) = false).
  { intros k. apply Z.eqb_neq, letter_read. apply Forall_znth; [unfold elt; lia|done]. }
  assert (Hc : i = 0 \/ i = 1 \/ i = 2 \/ i = 3 \/ i = 4 \/ i = 5 \/ i = 6 \/ i = 7 \/ i = 8 \/ i = 9 \/ i = 10 \/ i = 11 \/
    i = 12 \/ i = 13 \/ i = 14 \/ i = 15 \/ i = 16) by lia.
  destruct_or! Hc; subst i; (split; [reflexivity|]); eexists; (split; [reflexivity|]); rewrite ?Hn; reflexivity.
Qed.

Lemma cwmap_inj i j : 0 <= i < 17 -> 0 <= j < 17 -> znth cwmap i = znth cwmap j -> i = j.
Proof.
  intros Hi Hj E.
  assert (H : forallb (fun i => forallb (fun j => negb (znth cwmap i =? znth cwmap j) || (i =? j)) (seqZ 0 17)) (seqZ 0 17) = true) by (vm_compute; reflexivity).
  rewrite forallb_forall in H. specialize (H i). rewrite <- list_elem_of_In, elem_of_seqZ in H. specialize (H ltac:(lia)).
  rewrite forallb_forall in H. specialize (H j). rewrite <- list_elem_of_In, elem_of_seqZ in H. specialize (H ltac:(lia)).
  rewrite E, Z.eqb_refl in H. by apply Z.eqb_eq in H.
Qed.

Lemma cwmap_onto k : 0 <= k < 17 -> 0 <= znth cwmap k < 17 /\ exists i, 0 <= i < 17 /\ znth cwmap i = k.
Proof.
  intros Hk.
  assert (Hc : k = 0 \/ k = 1 \/ k = 2 \/ k = 3 \/ k = 4 \/ k = 5 \/ k = 6 \/ k = 7 \/ k = 8 \/ k = 9 \/ k = 10 \/ k = 11 \/
    k = 12 \/ k = 13 \/ k = 14 \/ k = 15 \/ k = 16) by lia.
  split; [destruct_or! Hc; subst k; vm_compute; done|].
  exists (match array_search cwmap 17 k with Some i => i | None => 0 end).
  destruct_or! Hc; subst k; vm_compute; split; done.
Qed.

(** The number with some digits, the lowest first. *)
Definition value32 (l : list Z) : Z := foldr (fun c v => u64 (v * 32 + c)) 0 l.

Lemma value_loop ds code :
  length ds = 13%nat -> (forall k, 0 <= k < 13 -> aget code k = aget ds k) ->
  for_loopM 13 0 (fun k out => c ← aget code (12 - k); Some (u64 (out * 32 + c))) 0 = Some (value32 ds).
Proof.
  intros Hl Hc.
  match goal with |- context [for_loopM ?n 0 ?b ?s] =>
    destruct (for_loopM_inv (fun i out => out = value32 (drop (Z.to_nat (13 - i)) ds)) n 0 b s) as (v & -> & ->) end.
  - intros i out Hi ->. rewrite Hc by lia. destruct (aget_range ds (12 - i)) as [c Ec]; [lia|]. rewrite Ec, bind_Some.
    eexists. split; [reflexivity|]. apply aget_Some in Ec as [_ Ec]. replace (Z.to_nat (12 - i)) with (Z.to_nat (13 - (i + 1))) in Ec by lia.
    rewrite (drop_S _ _ _ Ec). by replace (S (Z.to_nat (13 - (i + 1)))) with (Z.to_nat (13 - i)) by lia.
  - by rewrite drop_ge by (rewrite Hl; lia).
  - done.
Qed.

Lemma decode_address code :
  length code = 17%nat -> Forall elt code ->
  RS_decode (address code ++ [0]) = Some (value32 (map read_letter (take 13 code))).
Proof.
  intros Hl He. unfold RS_decode.
  change (nxt_prefix (address code ++ [0])) with (Some true). rewrite bind_Some. cbn [negb].
  set (mem := address code ++ [0]).
  match goal with |- context [for_loopM 17 0 ?b ?s] => destruct (for_loopM_inv (fun i '(read, p) => length read = 17%nat /\ p = place i /\
    forall j, 0 <= j < i -> znth read (znth cwmap j) = read_letter (znth code (znth cwmap j))) 17 0 b s) as ([read p] & -> & Hlr & _ & Hr) end.
  - intros i [read p] Hi (Hlr & -> & Hr). destruct (address_place code i Hl He ltac:(lia)) as (E1 & d & E2 & Ed).
    fold mem in E1, E2. rewrite E1, bind_Some. rewrite (aget_znth cwmap i) by (cbn; lia). rewrite bind_Some.
    destruct (cwmap_onto i ltac:(lia)) as [Hk _]. rewrite aset_zput, bind_Some by lia. rewrite E2, bind_Some.
    eexists. split; [reflexivity|]. split; [by rewrite zput_length|]. split; [done|].
    intros j Hj. rewrite znth_zput by lia. destruct (Z.eqb_spec (znth cwmap i) (znth cwmap j)) as [Eq|Ne]; [by rewrite <- Eq|].
    apply Hr. assert (j <> i) by congruence. lia.
  - split_and!; [done|done|lia].
  - rewrite bind_Some. assert (Hall : forall k, 0 <= k < 13 -> aget read k = Some (read_letter (znth code k))).
    { intros k Hk. rewrite aget_znth by lia. destruct (cwmap_onto k ltac:(lia)) as [_ (i & Hi & <-)]. by rewrite Hr by lia. }
    apply (value_loop (map read_letter (take 13 code))); [rewrite length_map, length_take; lia|].
    intros k Hk. rewrite Hall by done. symmetry. apply aget_Some. split; [lia|]. rewrite list_lookup_fmap, lookup_take_lt by lia.
    pose proof (aget_znth code k ltac:(lia)) as Eg. apply aget_Some in Eg as [_ ->]. done.
Qed.

(** Reading the digits gives the number back. *)
Lemma value32_digits id : 0 <= id < 2 ^ 64 -> value32 (digits32 id) = id.
Proof.
  intros Hid. assert (G : forall (m k : nat), (m + k = 13)%nat -> foldr (fun c v => u64 (v * 32 + c)) 0 (map (digit32 id) (seqZ (Z.of_nat k) (Z.of_nat m))) = id / 32 ^ Z.of_nat k).
  { induction m as [|m IH]; intros k Hk.
    - replace k with 13%nat by lia. cbn. rewrite Z.div_small; [done|]. change (32 ^ Z.of_nat 13) with 36893488147419103232. change (2 ^ 64) with 18446744073709551616 in Hid. lia.
    - rewrite seqZ_cons by lia. cbn [map foldr]. replace (Z.succ (Z.of_nat k)) with (Z.of_nat (S k)) by lia.
      replace (Z.pred (Z.of_nat (S m))) with (Z.of_nat m) by lia. rewrite IH by lia.
      replace (Z.of_nat (S k)) with (Z.of_nat k + 1) by lia. rewrite div32_S by lia. unfold digit32.
      assert (0 <= id / 32 ^ Z.of_nat k <= id) by (split; [apply Z.div_pos; lia|apply Z.div_le_upper_bound; nia]).
      rewrite uwrap_small; dmlia. }
  pose proof (G 13%nat 0%nat eq_refl) as E. change (32 ^ Z.of_nat 0) with 1 in E. rewrite Z.div_1_r in E. exact E.
Qed.

Lemma digits32_length id : length (digits32 id) = 13%nat.
Proof. unfold digits32. by rewrite length_map, length_seqZ. Qed.

Lemma digits32_elts id : Forall elt (digits32 id).
Proof. unfold digits32. apply List.Forall_map, list.Forall_forall. intros k _. apply digit32_elt. Qed.

Lemma dec_bound l : digits_ok l -> dec l < 10 ^ Z.of_nat (length l).
Proof.
  induction l as [|d l IH] using rev_ind; [done|]. intros [Hl Hd]%digits_snoc.
  rewrite dec_snoc, length_app, Nat.add_1_r, pow10_S. specialize (IH Hl). lia.
Qed.

(** The decimal text of a 64-bit number; one of twenty digits starts with 1. *)
Lemma sprintf_u64 x :
  0 <= x < 2 ^ 64 ->
  exists l, sprintf_llu 64 x = dtext l /\ digits_ok l /\ dec l = x /\ (1 <= length l <= 20)%nat /\
    (Z.of_nat (length l) =? 20) && negb (znth (dtext l) 0 =? 49) = false.
Proof.
  intros Hx. change (2 ^ 64) with 18446744073709551616 in Hx.
  assert (E19 : 10 ^ Z.of_nat 19 = 10000000000000000000) by reflexivity.
  destruct (Z.lt_ge_cases x (10 ^ Z.of_nat 19)) as [Hlt|Hge].
  - destruct (sprintf_digits 64 19 x) as (l & E & Hl & Hd & Hlen); [lia|lia|]. exists l.
    split; [exact E|]. split; [exact Hl|]. split; [exact Hd|]. split; [lia|].
    destruct (Z.eqb_spec (Z.of_nat (length l)) 20); [lia|reflexivity].
  - destruct (sprintf_digits 64 20 x) as (l & E & Hl & Hd & Hlen); [|lia|].
    { change (10 ^ Z.of_nat 20) with 100000000000000000000. lia. }
    exists l. split; [exact E|]. split; [exact Hl|]. split; [exact Hd|]. split; [lia|]. clear E. destruct l as [|d l]; [simpl in Hlen; lia|].
    destruct (Z.eqb_spec (Z.of_nat (length (d :: l))) 20) as [E20|]; [|reflexivity]. cbn [andb].
    assert (Hl19 : length l = 19%nat) by (simpl in E20; lia).
    change (dec (d :: l)) with (dec ([d] ++ l)) in Hd. rewrite dec_app, Hl19, E19 in Hd. change (dec [d]) with (10 * 0 + d) in Hd.
    apply list.Forall_cons in Hl as [Hd9 Hl]. pose proof (dec_nonneg l Hl). pose proof (dec_bound l Hl) as Hb. rewrite Hl19, E19 in Hb.
    change (znth (dtext (d :: l)) 0) with (d + 48). rewrite E19 in Hge. cbv beta in Hd9. replace d with 1 by lia. reflexivity.
Qed.

(** A loop that writes the entries of [a] over those of [b]. *)
Lemma fill_array (n : nat) (a b : list Z) body :
  (n <= length a)%nat -> (n <= length b)%nat ->
  (forall i x t, 0 <= i < Z.of_nat n -> a !! Z.to_nat i = Some x -> body i t = aset t i x) ->
  for_loopM n 0 body b = Some (take n a ++ drop n b).
Proof.
  intros Ha Hb Hbody.
  destruct (for_loopM_inv (fun i t => t = take (Z.to_nat i) a ++ drop (Z.to_nat i) b) n 0 body b) as (t & -> & ->).
  - intros i t Hi ->. destruct (lookup_lt_is_Some_2 a (Z.to_nat i)) as [x Hx]; [lia|].
    destruct (lookup_lt_is_Some_2 b (Z.to_nat i)) as [y Hy]; [lia|].
    rewrite (Hbody i x) by (done || lia). replace (Z.to_nat (i + 1)) with (S (Z.to_nat i)) by lia.
    eexists. split; [|reflexivity]. set (m := Z.to_nat i) in *. assert (Ei : i = Z.of_nat m) by lia. clearbody m. subst i.
    rewrite aset_at_nat by (rewrite length_app, length_take, length_drop; lia). f_equal.
    rewrite insert_app_r_alt by (rewrite length_take; lia). rewrite length_take, Nat.min_l, Nat.sub_diag by lia.
    rewrite (drop_S _ _ _ Hy), (take_S_r _ _ _ Hx), <- app_assoc. done.
  - done.
  - by rewrite Z.add_0_l, Nat2Z.id.
Qed.

Lemma digits_array l :
  (length l <= 32)%nat ->
  for_loopM (length l) 0 (fun i inp => c ← aget (dtext l) i; aset inp i (c - 48)) (replicate 32 0) =
    Some (l ++ replicate (32 - length l) 0).
Proof.
  intros Hl. rewrite (fill_array (length l) l).
  - by rewrite firstn_all, drop_replicate.
  - done.
  - by rewrite length_replicate.
  - intros i x t Hi Hx. rewrite dtext_get by done. rewrite bind_Some. f_equal. unfold znth, aget. zcase; [|lia]. rewrite Hx. lia.
Qed.

Lemma copy_digits out (pos : nat) id :
  0 <= id < 32 ^ Z.of_nat pos -> (13 <= length out)%nat ->
  (forall k, 0 <= k < Z.of_nat (length out) -> znth out k = digit32 id k) ->
  for_loopM 13 0 (fun i code => c ← (if 0 <=? Z.of_nat pos - 1 - i then aget out i else Some 0); aset code i c) (1 :: replicate 16 0) =
    Some (digits32 id ++ [0; 0; 0; 0]).
Proof.
  intros Hid Hl Ho. rewrite (fill_array 13 (digits32 id)).
  - by rewrite <- (digits32_length id) at 1; rewrite firstn_all.
  - by rewrite digits32_length.
  - simpl. lia.
  - intros i x t Hi Hx. unfold digits32 in Hx. rewrite list_lookup_fmap, lookup_seqZ_lt in Hx by lia. injection Hx as <-.
    replace (0 + Z.of_nat (Z.to_nat i)) with i by lia. destruct (Z.leb_spec 0 (Z.of_nat pos - 1 - i)).
    + rewrite aget_znth by lia. by rewrite bind_Some, Ho by lia.
    + rewrite bind_Some. by rewrite (digit32_high id (Z.of_nat pos)) by lia.
Qed.

(** The code word [RS_encode] prints. *)
Lemma RS_encode_word id :
  0 <= id < 2 ^ 64 ->
  exists checks, length checks = 4%nat /\ Forall elt checks /\
    RS_encode id = Some (0, Some (address (digits32 id ++ checks))) /\
    forall k, 1 <= k <= 4 -> at_root k (polynomial (digits32 id ++ checks)) = 0.
Proof.
  intros Hid. unfold RS_encode.
  destruct (sprintf_u64 id Hid) as (l & -> & Hl & Hd & Hlen & Hfirst).
  assert (Hll : length (dtext l) = length l) by apply length_map. rewrite Hll.
  rewrite Hfirst, digits_array by lia. rewrite bind_Some.
  destruct (convert_loop_ok 33 13 (l ++ replicate (32 - length l) 0) (length l) (replicate 32 0) 0 id) as (out & pos & Ec &  Hlo & Hp & Hs & Ho).
  { rewrite length_app. lia. }
  { by rewrite take_app_length. }
  { rewrite take_app_length, Hd. symmetry. apply Z.div_1_r. }
  { assert (2 ^ 64 < 32 ^ Z.of_nat (0 + 13)) by reflexivity. lia. }
  { lia. }
  { simpl. lia. }
  { intros k Hk. unfold znth. rewrite aget_replicate by (change (length (replicate 32 0)) with 32%nat in Hk; lia). by destruct (Z.ltb_spec k (Z.of_nat 0)); [lia|]. }
  change (Z.of_nat 0) with 0 in Ec. rewrite Ec, bind_Some. change (length (replicate 32 0)) with 32%nat in Hlo, Ho.
  rewrite (copy_digits out pos id); [rewrite bind_Some|lia|lia|by rewrite Hlo].
  destruct (check_loop (digits32 id) (digits32 id ++ [0; 0; 0; 0])) as (p & E & Hok & Hv).
  { apply digits32_length. }
  { by rewrite take_app_length' by (symmetry; apply digits32_length). }
  { rewrite length_app, digits32_length. simpl. lia. }
  { apply digits32_elts. }
  rewrite E, bind_Some. destruct p as [[[p0 p1] p2] p3]. rewrite take_app_length' by (symmetry; apply digits32_length).
  exists [p0; p1; p2; p3]. split; [done|]. assert (He : Forall elt [p0; p1; p2; p3]) by (destruct Hok as (? & ? & ? & ?); repeat (constructor; [done|]); constructor).
  split; [done|]. split.
  - rewrite address_text_eq; [done| |].
    + rewrite length_app, digits32_length. done.
    + apply list.Forall_app. split; [apply digits32_elts|done].
  - intros k Hk. unfold polynomial. rewrite take_app_length', drop_app_length' by (symmetry; apply digits32_length).
    rewrite (at_root_check (p0, p1, p2, p3)). rewrite (Hv k Hk). apply Z.lxor_nilpotent.
Qed.

Lemma decimal_chars l : digits_ok l -> forallb (fun c => negb ((c <? 48) || (57 <? c))) (dtext l) = true.
Proof.
  intros Hl. apply forallb_forall. intros c Hc. unfold dtext in Hc. apply in_map_iff in Hc as (d & <- & Hd).
  rewrite <- list_elem_of_In in Hd. pose proof (proj1 (list.Forall_forall _ _) Hl d Hd) as Hd9. cbv beta in Hd9.
  destruct (Z.ltb_spec (d + 48) 48); [lia|]. destruct (Z.ltb_spec 57 (d + 48)); [lia|]. done.
Qed.

(** [C19] Every 64-bit account id has an address: [RS_encode] ends without an error and prints
    a word whose first 13 symbols are the id in base 32 and which vanishes at the four roots of
    the generator, so that it is a code word of the Reed-Solomon code. *)
Theorem RS_encode_codeword id :
  0 <= id < 2 ^ 64 ->
  exists code, length code = 17%nat /\ Forall elt code /\ take 13 code = digits32 id /\ value32 (take 13 code) = id /\
    (forall k, 1 <= k <= 4 -> at_root k (polynomial code) = 0) /\ RS_encode id = Some (0, Some (address code)).
Proof.
  intros Hid. destruct (RS_encode_word id Hid) as (checks & Hc & He & E & Hv). exists (digits32 id ++ checks).
  rewrite length_app, digits32_length, Hc, take_app_length' by (symmetry; apply digits32_length).
  split_and!; try done; [|by apply value32_digits]. apply list.Forall_app. split; [apply digits32_elts|done].
Qed.

(** [C20] The address of an account reads back as the account when none of its 13 digits in
    base 32 is 7, the digit that is printed as [9]. *)
Theorem RS_decode_encode id :
  0 <= id < 2 ^ 64 -> Forall (fun d => d <> 7) (digits32 id) ->
  exists addr, RS_encode id = Some (0, Some addr) /\ RS_decode (addr ++ [0]) = Some id.
Proof.
  intros Hid H7. destruct (RS_encode_word id Hid) as (checks & Hc & He & E & _). exists (address (digits32 id ++ checks)).
  split; [done|]. rewrite decode_address, take_app_length' by
    (rewrite ?length_app, ?digits32_length; try lia; try (apply list.Forall_app; split; [apply digits32_elts|done])).
  f_equal. rewrite <- (value32_digits id Hid) at 2. f_equal. rewrite <- (map_id (digits32 id)) at 2.
  apply map_ext_in. intros d Hd. rewrite <- list_elem_of_In in Hd.
  destruct (letter_read d) as [_ ->]; [exact (proj1 (list.Forall_forall _ _) (digits32_elts id) d Hd)|].
  destruct (Z.eqb_spec d 7) as [->|]; [|done]. by destruct (proj1 (list.Forall_forall _ _) H7 7 Hd).
Qed.

(** An account number survives its decimal text, and [conv_acctstr] reads it back. *)
Theorem expand_calc_nxt64bits id :
  0 <= id < 2 ^ 64 ->
  exists str, expand_nxt64bits id = Some str /\ calc_nxt64bits (Some str) = Some id /\ cmp_nxt64bits (Some str) id = Some 0 /\
    conv_acctstr (Some str) = Some id.
Proof.
  intros Hid. destruct (expand_text id Hid) as (l & E & Hl & Hd & Hlen). exists (dtext l). split; [done|].
  assert (Hc : calc_nxt64bits (Some (dtext l)) = Some id) by (rewrite calc_decimal, Hd, uwrap_small by (done || lia); done).
  assert (Hs : forall a, strcmp a a = 0) by (induction a as [|x a IH]; [done|]; cbn; by rewrite Z.eqb_refl).
  split; [done|]. split.
  - unfold cmp_nxt64bits. rewrite E, bind_Some, Hs. by destruct (_ && _).
  - unfold conv_acctstr, is_decimalstr. rewrite decimal_chars by done.
    destruct l as [|d l]; [by rewrite <- Hd|]. unfold dtext at 1 2. rewrite length_map.
    destruct (Z.ltb_spec 0 (Z.of_nat (length (d :: l)))); [|simpl in *; lia].
    destruct (Z.ltb_spec (Z.of_nat (length (d :: l))) 24); [done|lia].
Qed.

Lemma RS_encode_codeword_witness : 0 <= 17013046603665206934 < 2 ^ 64 /\
  exists code, length code = 17%nat /\ Forall elt code /\ take 13 code = digits32 17013046603665206934 /\ value32 (take 13 code) = 17013046603665206934 /\
    (forall k, 1 <= k <= 4 -> at_root k (polynomial code) = 0) /\ RS_encode 17013046603665206934 = Some (0, Some (address code)).
Proof. split; [done|]. apply (RS_encode_codeword 17013046603665206934). done. Defined.

Lemma RS_decode_encode_witness : Forall (fun d => d <> 7) (digits32 17013046603665206934) /\
  exists addr, RS_encode 17013046603665206934 = Some (0, Some addr) /\ RS_decode (addr ++ [0]) = Some 17013046603665206934.
Proof.
  assert (H : Forall (fun d => d <> 7) (digits32 17013046603665206934)) by (vm_compute; repeat (constructor; [discriminate|]); constructor).
  split; [exact H|]. apply (RS_decode_encode 17013046603665206934); [done|exact H].
Defined.

Lemma expand_calc_nxt64bits_witness : 0 <= 18446744073709551615 < 2 ^ 64 /\
  exists str, expand_nxt64bits 18446744073709551615 = Some str /\ calc_nxt64bits (Some str) = Some 18446744073709551615 /\
    cmp_nxt64bits (Some str) 18446744073709551615 = Some 0 /\ conv_acctstr (Some str) = Some 18446744073709551615.
Proof. split; [done|]. apply (expand_calc_nxt64bits 18446744073709551615). done. Defined.

(** The letter [9] is read as the letter [2]: the address of account 7 reads as account 0. *)
Example nine_read_as_two :
  ('(_, addr) ← RS_encode 7; addr ← addr; RS_decode (addr ++ [0])) = Some 0.
Proof. reflexivity. Qed.

(** The check symbols are not looked at: the address of account 1 with another last letter
    still reads as account 1. *)
Example checks_ignored :
  ('(_, addr) ← RS_encode 1; addr ← addr; RS_decode (<[14%nat := 90]> addr ++ [0])) = Some 1 /\
  ('(_, addr) ← RS_encode 1; addr ← addr; Some (bool_decide (<[14%nat := 90]> addr = addr))) = Some false.
Proof. split; reflexivity. Qed.

(** A text that is too short is read past its end. *)
Example short_address_overread : RS_decode [78; 88; 84; 45; 50; 0] = None.
Proof. reflexivity. Qed.
