(* ===== verification/Acct.v ===== *)
(** * bits777.c: accounts, signatures and hash chains

    An account is the first 64 bits of the hash of a Curve25519 public key.  A signature is
    the hash of a shared secret, a time and the data; the secret is shared with the "genesis"
    account, both keys of which are constants of the program.  [calc_sha256] and
    [calc_sha256cat] are LibTomCrypt's and stand for the hash function of the standard
    ([Sha256.sha256]); the curve is the one of the program ([Cards.curve25519]). *)
From Stdlib Require Import ZArith Lia.
From stdpp Require Import base list numbers option.
From S2P Require Import Prelude Bits Curve25519 Sha256 Cards.
Open Scope Z_scope.

(** bits777.c:35-35 [acct777_sig] *)
Record acct777_sig := mkSig { sigbits : list Z; pubkey : list Z; signer64bits : Z; sig_time : Z }.

(** The 32 bytes written in hexadecimal, most significant digit of each byte first, as one
    number. *)
Definition key_bytes (x : Z) : list Z := reverse (le_bytes 32 x).

(** system777.c:661-661 [GENESISPUBKEYSTR] *)
Definition GENESIS_PUBKEY : list Z := key_bytes 0x1259ec21d31a30898d7cd1609f80d9668b4778e3d97e941044b39f0c44d2e51b.
(** system777.c:662-662 [GENESISPRIVKEYSTR] *)
Definition GENESIS_PRIVKEY : list Z := key_bytes 0x88a71671a6edd987ad9e9097428fc3f169decba3ac8f10da7b24e0ca16803b70.

(** bits777.c:234-241 [acct777_pubkey] *)
Definition acct777_pubkey (privkey : list Z) : list Z := curve25519_donna (clamp privkey) curve25519_basepoint9.

(** bits777.c:243-248 [acct777_nxt64bits] *)
Definition acct777_nxt64bits (pubkey : list Z) : Z := txid (sha256 pubkey).

(** bits777.c:252-253 [acct777_hashiter] The two bytes that stand for the days and the length
    of the chain. *)
Definition lockseed (lockdays chainlen : Z) : list Z :=
  let seed := u16 (Z.lor (Z.land chainlen 0x7f) (Z.shiftl lockdays 7)) in
  [Z.land seed 0xff; Z.land (Z.shiftr seed 8) 0xff].

(** bits777.c:250-260 [acct777_hashiter] *)
Definition acct777_hashiter (privkey pubkey : list Z) (lockdays chainlen : Z) : list Z :=
  let shared := curve25519 (clamp privkey) pubkey in
  sha256 (shared ++ lockseed lockdays chainlen).

(** bits777.c:265-266 [acct777_lockhash] The loop; [chainlen] is a byte. *)
Fixpoint lockhash_loop (chainlen : nat) (lockhash pubkey : list Z) (lockdays : Z) : list Z :=
  match chainlen with
  | O => lockhash
  | S n => lockhash_loop n (acct777_hashiter lockhash pubkey lockdays (Z.of_nat chainlen)) pubkey lockdays
  end.

(** bits777.c:262-268 [acct777_lockhash] *)
Definition acct777_lockhash (pubkey : list Z) (lockdays chainlen : Z) : list Z :=
  lockhash_loop (Z.to_nat (u8 chainlen)) GENESIS_PRIVKEY pubkey lockdays.

(** bits777.c:270-280 [acct777_invoicehash] [privkey] are the random bytes; the hash that is
    stored.  The call gives the arguments in the order of the code. *)
Definition acct777_invoicehash (privkey : list Z) (lockdays chainlen : Z) : list Z :=
  let chainlen := u8 chainlen in
  for_loop (Z.to_nat chainlen) 0 (fun i lockhash =>
    acct777_hashiter lockhash GENESIS_PUBKEY (chainlen - i) (u8 (u16 lockdays))) privkey.

(** bits777.c:282-294 [acct777_sign] The number of the signer and the signature. *)
Definition acct777_sign (privkey otherpubkey : list Z) (timestamp : Z) (data : list Z) : Z * acct777_sig :=
  let shared := curve25519 privkey otherpubkey in
  let buf := le_bytes 4 timestamp ++ shared in
  let pub := acct777_pubkey privkey in
  let signer := acct777_nxt64bits pub in
  (signer, mkSig (sha256 (buf ++ data)) pub signer timestamp).

(** bits777.c:296-306 [acct777_validate] *)
Definition acct777_validate (sig : acct777_sig) (timestamp : Z) (data : list Z) : Z :=
  let '(_, checksig) := acct777_sign GENESIS_PRIVKEY (pubkey sig) timestamp data in
  if negb (memeq (sigbits checksig) (sigbits sig)) then 0 else acct777_nxt64bits (pubkey sig).

(** bits777.c:308-311 [acct777_signtx] *)
Definition acct777_signtx (privkey : list Z) (timestamp : Z) (data : list Z) : Z * acct777_sig :=
  acct777_sign privkey GENESIS_PUBKEY timestamp data.

(** bits777.c:313-319 [acct777_swaptx] The result and the signature afterwards. *)
Definition acct777_swaptx (privkey : list Z) (sig : acct777_sig) (timestamp : Z) (data : list Z) : Z * acct777_sig :=
  if negb (acct777_validate sig timestamp data =? signer64bits sig) then (0, sig)
  else acct777_sign privkey GENESIS_PUBKEY timestamp data.

#[local] Opaque curve25519 curve25519_donna sha256 curve25519_basepoint9.

Lemma acct777_pubkey_b256 privkey : b256 privkey -> b256 (acct777_pubkey privkey).
Proof.
  intros [Hb Hl]. unfold acct777_pubkey. destruct basepoint_b256 as [B1 B2].
  apply curve25519_donna_bytes; [by apply clamp_bytes|by rewrite clamp_length|exact B1|exact B2].
Qed.

#[local] Opaque curve25519 curve25519_donna sha256 GENESIS_PRIVKEY GENESIS_PUBKEY acct777_pubkey acct777_nxt64bits le_bytes.

(** A signature and the public key in it have 32 bytes each. *)
Lemma acct777_signtx_b256 privkey timestamp data : b256 privkey ->
  let '(_, sig) := acct777_signtx privkey timestamp data in b256 (sigbits sig) /\ b256 (pubkey sig).
Proof.
  intros Hk. unfold acct777_signtx, acct777_sign. split; [exact (sha256_bytes _)|exact (acct777_pubkey_b256 _ Hk)].
Qed.

(** ** What a valid signature means *)

(** The data that are hashed when a signature of [pub] is checked. *)
Definition checked (pub : list Z) (timestamp : Z) (data : list Z) : list Z :=
  le_bytes 4 timestamp ++ curve25519 GENESIS_PRIVKEY pub ++ data.

Lemma validate_checked sig timestamp data :
  acct777_validate sig timestamp data =
    if bool_decide (sha256 (checked (pubkey sig) timestamp data) = sigbits sig) then acct777_nxt64bits (pubkey sig) else 0.
Proof. unfold acct777_validate, acct777_sign, memeq, checked. cbn [sigbits]. rewrite <- app_assoc. destruct (bool_decide _); reflexivity. Qed.

(** What [acct777_validate] accepts is the hash of the time, of a secret that the program's own
    constants give, and of the data; so it does not show that the owner of the key has signed. *)
Lemma validate_accepts sig timestamp data :
  acct777_validate sig timestamp data <> 0 <->
    sigbits sig = sha256 (checked (pubkey sig) timestamp data) /\ acct777_nxt64bits (pubkey sig) <> 0.
Proof.
  rewrite validate_checked. destruct (bool_decide_reflect (sha256 (checked (pubkey sig) timestamp data) = sigbits sig)) as [E|Hne].
  - split; [intros H; split; [symmetry; exact E|exact H]|intros [_ H]; exact H].
  - split; [intros H; destruct (H eq_refl)|intros [E _]; destruct (Hne (eq_sym E))].
Qed.

Lemma checked_inj pub t d t' d' : checked pub t d = checked pub t' d' -> u32 t = u32 t' /\ d = d'.
Proof.
  unfold checked. intros Ec. apply app_inj_1 in Ec as [Et Ed]; [|rewrite !le_bytes_length; reflexivity].
  apply app_inv_head in Ed. split; [|exact Ed]. apply (f_equal le_val) in Et. rewrite !le_val_bytes in Et. exact Et.
Qed.

(** [C21] A signature binds its time and data.  [acct777_validate] accepts a signature exactly when
    its bits are the hash of the time, the secret of its public key with the genesis account and
    the data, and then gives the account of that public key (of which 0 cannot be told from a
    refusal).  If the same signature is accepted for two times (as 32 bits) or two data, then the
    two texts that were hashed are different and have the same hash. *)
Theorem acct777_validate_binds sig timestamp data :
  let text t d := le_bytes 4 t ++ curve25519 GENESIS_PRIVKEY (pubkey sig) ++ d in
  (acct777_validate sig timestamp data <> 0 <->
     sigbits sig = sha256 (text timestamp data) /\ acct777_nxt64bits (pubkey sig) <> 0) /\
  (acct777_validate sig timestamp data <> 0 ->
     acct777_validate sig timestamp data = acct777_nxt64bits (pubkey sig) /\
     forall timestamp' data', acct777_validate sig timestamp' data' <> 0 ->
       u32 timestamp' = u32 timestamp /\ data' = data \/
       text timestamp' data' <> text timestamp data /\ sha256 (text timestamp' data') = sha256 (text timestamp data)).
Proof.
  intros text. split; [exact (validate_accepts sig timestamp data)|].
  intros H. pose proof (proj1 (validate_accepts _ _ _) H) as [E Hnz]. split.
  { rewrite validate_checked, bool_decide_eq_true_2; [reflexivity|symmetry; exact E]. }
  intros t' d' H'. pose proof (proj1 (validate_accepts _ _ _) H') as [E' _].
  destruct (decide (checked (pubkey sig) t' d' = checked (pubkey sig) timestamp data)) as [Ec|Hne].
  - left. exact (checked_inj _ _ _ _ _ Ec).
  - right. split; [exact Hne|]. rewrite E' in E. exact E.
Qed.

(** A signed transaction is accepted as its signer's when the two ends agree on the secret
    they share; and one signature is accepted for two different times or data only at a
    collision of the hash. *)
Theorem acct777_signtx_valid privkey timestamp data :
  curve25519 GENESIS_PRIVKEY (acct777_pubkey privkey) = curve25519 privkey GENESIS_PUBKEY ->
  let '(signer, sig) := acct777_signtx privkey timestamp data in
  signer = acct777_nxt64bits (acct777_pubkey privkey) /\ signer64bits sig = signer /\
  acct777_validate sig timestamp data = signer /\
  forall timestamp' data', signer <> 0 -> acct777_validate sig timestamp' data' = signer ->
    u32 timestamp' = u32 timestamp /\ data' = data \/
    checked (acct777_pubkey privkey) timestamp' data' <> checked (acct777_pubkey privkey) timestamp data /\
    sha256 (checked (acct777_pubkey privkey) timestamp' data') = sha256 (checked (acct777_pubkey privkey) timestamp data).
Proof.
  intros Hdh. unfold acct777_signtx, acct777_sign. split; [reflexivity|]. split; [reflexivity|].
  rewrite <- Hdh, <- app_assoc. set (pub := acct777_pubkey privkey) in *.
  change (le_bytes 4 timestamp ++ curve25519 GENESIS_PRIVKEY pub ++ data) with (checked pub timestamp data).
  clearbody pub. clear Hdh. rewrite validate_checked. cbn [pubkey sigbits].
  split; [rewrite bool_decide_eq_true_2 by reflexivity; reflexivity|]. intros t' d' Hnz. rewrite validate_checked. cbn [pubkey sigbits].
  destruct (bool_decide_reflect (sha256 (checked pub t' d') = sha256 (checked pub timestamp data))) as [E|]; [intros _|congruence].
  destruct (decide (checked pub t' d' = checked pub timestamp data)) as [Ec|]; [left|right; split; assumption].
  exact (checked_inj _ _ _ _ _ Ec).
Qed.

(** The chain of an invoice swaps the days and the length: the seeds of its steps are not those
    of the lock. *)
Example invoice_swaps_arguments : lockseed 30 1 = [1; 15] /\ lockseed 1 30 = [158; 0].
Proof. split; reflexivity. Qed.

(** A signature that anybody can compute, of a text of three bytes. *)
Definition sig_demo : acct777_sig := mkSig (sha256 (checked (replicate 32 1) 5 [1; 2; 3])) (replicate 32 1) 0 5.

Lemma acct777_validate_binds_witness :
  acct777_validate sig_demo 5 [1; 2; 3] <> 0 /\
  acct777_validate sig_demo 5 [1; 2; 3] = acct777_nxt64bits (replicate 32 1).
Proof.
  assert (H : acct777_validate sig_demo 5 [1; 2; 3] <> 0).
  { apply validate_accepts. split; [reflexivity|]. vm_compute. discriminate. }
  split; [exact H|]. exact (proj1 (proj2 (acct777_validate_binds sig_demo 5 [1; 2; 3]) H)).
Defined.
