(* ===== verification/Serdes.v ===== *)
(** * serdes777.c: peggy transactions on the wire

    A transaction is a C struct; the same functions write it to a bit stream and read it back,
    one field after the other, guided by tables of offsets and sizes.  The model keeps that:
    [fields] is the memory of the struct up to [hexstr], with the offsets of the x86-64 ABI,
    and [rwflag] tells the direction.  What the code leaves uninitialised on its stack is a
    parameter: [stack] is the local buffer of [serdes777_rwstr], [garbage] its [len].

    This file has the code; the round trip is proved in SerdesCode.  Diagnostics and the
    parsing of JSON requests are not modelled. *)
From Stdlib Require Import ZArith Lia.
From stdpp Require Import base list numbers option.
From S2P Require Import Prelude Bits HuffStream Cards Acct Utils.
Open Scope Z_scope.

Abbreviation mem := (list Z) (only parsing).

(** The unsigned number in [n] bytes at [off]. *)
Definition load (m : mem) (off : Z) (n : nat) : option Z :=
  if (0 <=? off) && (off + Z.of_nat n <=? Z.of_nat (length m)) then Some (le_val (take n (drop (Z.to_nat off) m))) else None.

(** The bytes [x] at [off]. *)
Definition store (m : mem) (off : Z) (x : list Z) : option mem :=
  if (0 <=? off) && (off + Z.of_nat (length x) <=? Z.of_nat (length m)) then Some (take (Z.to_nat off) m ++ x ++ drop (Z.to_nat off + length x) m) else None.

(** ** Fields *)

(** serdes777.c:127-152 [serdes777_rwbits] *)
Definition serdes777_rwbits (rwflag : Z) (m : mem) (ptr len : Z) (hp : HUFF) : option (Z * mem * HUFF) :=
  if rwflag =? 0 then
    r ← for_ret (Z.to_nat len) 0 (fun i '(m, hp) =>
      '(bit, hp) ← hgetbit hp;
      if bit <? 0 then Some (inr (-1, m, hp))
      else m ← (if negb (bit =? 0) then SETBIT m (8 * ptr + i) else CLEARBIT m (8 * ptr + i)); Some (inl (m, hp))) (m, hp);
    Some (match r with inl (m, hp) => (len, m, hp) | inr r => r end)
  else
    r ← for_ret (Z.to_nat len) 0 (fun i hp =>
      g ← GETBIT m (8 * ptr + i);
      '(e, hp) ← hputbit hp (c_bool (negb (g =? 0)));
      if e <? 0 then Some (inr (-100 * i - 100, hp)) else Some (inl hp)) hp;
    Some (match r with inl hp => (len, m, hp) | inr (e, hp) => (e, m, hp) end).

(** serdes777.c:154-229 [serdes777_rwsizebits] The two bits of a short size are read from left
    to right; shifting the -1 of an exhausted stream is undefined. *)
Definition serdes777_rwsizebits (rwflag : Z) (m : mem) (xptr xval sizebits : Z) (hp : HUFF) : option (Z * mem * HUFF) :=
  if sizebits =? 3 then
    if negb (rwflag =? 0) then
      if xval =? 0 then '(_, hp) ← hputbit hp 0; Some (1, m, hp)
      else
        '(_, hp) ← hputbit hp 1;
        if xval <? 3 then
          '(_, hp) ← hputbit hp (c_bool (negb (Z.land xval 1 =? 0)));
          '(_, hp) ← hputbit hp (c_bool (negb (Z.land xval 2 =? 0)));
          Some (3, m, hp)
        else
          '(_, hp) ← hputbit hp 1; '(_, hp) ← hputbit hp 1;
          '(n, m, hp) ← serdes777_rwbits 1 m xptr 8 hp;
          if negb (n =? 8) then Some (-30, m, hp) else Some (11, m, hp)
    else
      '(b, hp) ← hgetbit hp;
      if b =? 0 then m ← aset m xptr 0; Some (1, m, hp)
      else
        '(b0, hp) ← hgetbit hp; '(b1, hp) ← hgetbit hp;
        if b1 <? 0 then None
        else
          let numbits := b0 + Z.shiftl b1 1 in
          if numbits <? 3 then m ← aset m xptr (u8 numbits); Some (3, m, hp)
          else
            '(n, m, hp) ← serdes777_rwbits 0 m xptr 8 hp;
            if negb (n =? 8) then Some (-4, m, hp) else Some (11, m, hp)
  else
    let numbits := if rwflag =? 0 then 0 else hcalc_bitsize xval - 1 in
    if negb (rwflag =? 0) && (2 ^ sizebits <=? numbits) then Some (-10, m, hp)
    else
      '(n, nb, hp) ← serdes777_rwbits rwflag (le_bytes 4 numbits) 0 sizebits hp;
      if negb (n =? sizebits) then Some (-20, m, hp)
      else
        let numbits := i32 (le_val nb) in
        '(n, m, hp) ← serdes777_rwbits rwflag m xptr (numbits + 1) hp;
        if negb (n =? numbits + 1) then Some (-30, m, hp) else Some (numbits + 1 + sizebits, m, hp).

(** serdes777.c:231-231 [serdes777_rwchar] *)
Definition serdes777_rwchar (rwflag : Z) (m : mem) (xptr : Z) (hp : HUFF) := x ← load m xptr 1; serdes777_rwsizebits rwflag m xptr x 3 hp.
(** serdes777.c:232-232 [serdes777_rwshort] *)
Definition serdes777_rwshort (rwflag : Z) (m : mem) (xptr : Z) (hp : HUFF) := x ← load m xptr 2; serdes777_rwsizebits rwflag m xptr x 4 hp.
(** serdes777.c:233-233 [serdes777_rwint] *)
Definition serdes777_rwint (rwflag : Z) (m : mem) (xptr : Z) (hp : HUFF) := x ← load m xptr 4; serdes777_rwsizebits rwflag m xptr x 5 hp.
(** serdes777.c:234-234 [serdes777_rwlong] *)
Definition serdes777_rwlong (rwflag : Z) (m : mem) (xptr : Z) (hp : HUFF) := x ← load m xptr 8; serdes777_rwsizebits rwflag m xptr x 6 hp.

(** serdes777.c:236-254 [serdes777_convstr] The result and the destination, into which [src] is converted. *)
Definition serdes777_convstr (encoding : Z) (dest src : mem) (len : Z) : option (Z * mem) :=
  if encoding =? 16 then
    let len := Z.shiftr len 1 in
    '(_, dest) ← decode_hex dest len src; Some (8 * len, dest)
  else if encoding =? -16 then
    '(_, s) ← init_hexbytes_noT src len; dest ← store dest 0 (s ++ [0]); Some (8 * (Z.shiftl len 1 + 1), dest)
  else if encoding =? 32 then decode_base32 dest src len
  else if encoding =? -32 then s ← init_base32 src len; dest ← store dest 0 (s ++ [0]); Some (len, dest)
  else Some (-1, dest).

(** serdes777.c:256-270 [serdes777_rwvarstr] The count, [data], the length and the stream. *)
Definition serdes777_rwvarstr (rwflag : Z) (data : mem) (off len : Z) (hp : HUFF) : option (Z * mem * Z * HUFF) :=
  '(total, l, hp) ← serdes777_rwchar rwflag (le_bytes 4 len) 0 hp;
  let n := i32 (le_val l) in
  if total <? 0 then Some (total, data, n, hp)
  else
    r ← for_ret (Z.to_nat n) 0 (fun i '(total, data, hp) =>
      '(numbits, data, hp) ← serdes777_rwchar rwflag data (off + i) hp;
      if numbits <? 0 then Some (inr (-1, data, n, hp)) else Some (inl (total + numbits, data, hp))) (total, data, hp);
    Some (match r with inl (total, data, hp) => (total, data, n, hp) | inr r => r end).

(** What the stack held before: the buffer and [len] of [serdes777_rwstr]. *)
Record leftover := mkLeftover { stack : list Z; garbage : Z }.

(** serdes777.c:272-303 [serdes777_rwstr] *)
Definition serdes777_rwstr (lo : leftover) (rwflag : Z) (m : mem) (data : Z) (hp : HUFF) (encoding : Z) : option (Z * mem * HUFF) :=
  if rwflag =? 0 then
    if encoding =? 0 then '(total, m, _, hp) ← serdes777_rwvarstr 0 m data (garbage lo) hp; Some (if total <? 0 then -1 else total, m, hp)
    else
      '(total, buf, _, hp) ← serdes777_rwvarstr 0 (stack lo) 0 (garbage lo) hp;
      if total <? 0 then Some (-1, m, hp)
      else
        '(total, dest) ← serdes777_convstr (- encoding) (drop (Z.to_nat data) m) buf total;
        Some (total, take (Z.to_nat data) m ++ dest, hp)
  else
    str ← c_str (drop (Z.to_nat data) m);
    let len := Z.of_nat (length str) in
    if encoding =? 0 then '(total, m, _, hp) ← serdes777_rwvarstr rwflag m data len hp; Some (total, m, hp)
    else
      '(len, buf) ← serdes777_convstr encoding (stack lo) (drop (Z.to_nat data) m) len;
      if len <? 0 then Some (-1, m, hp)
      else if negb (Z.land len 7 =? 0) then Some (-1, m, hp)
      else '(total, _, _, hp) ← serdes777_rwvarstr rwflag buf 0 len hp; Some (total, m, hp).

(** serdes777.c:305-319 [serdes777_rw] *)
Definition serdes777_rw (lo : leftover) (rwflag : Z) (m : mem) (xptr size : Z) (hp : HUFF) : option (Z * mem * HUFF) :=
  if size <? 0 then serdes777_rwbits rwflag m xptr (- size * 8) hp
  else if size =? 1 then serdes777_rwchar rwflag m xptr hp
  else if size =? 2 then serdes777_rwshort rwflag m xptr hp
  else if size =? 4 then serdes777_rwint rwflag m xptr hp
  else if size =? 8 then serdes777_rwlong rwflag m xptr hp
  else serdes777_rwstr lo rwflag m xptr hp size.

(** serdes777.c:321-333 [serdes777_codec] *)
Fixpoint codec_loop (lo : leftover) (rwflag : Z) (m : mem) (ptr : Z) (tokens : list (Z * Z)) (i totalbits : Z) (hp : HUFF) : option (Z * mem * HUFF) :=
  match tokens with
  | [] => Some (totalbits, m, hp)
  | (offset, size) :: tokens =>
      '(numbits, m, hp) ← serdes777_rw lo rwflag m (ptr + offset) size hp;
      if numbits <? 0 then Some (- i - 1, m, hp) else codec_loop lo rwflag m ptr tokens (i + 1) (totalbits + numbits) hp
  end.
Definition serdes777_codec (lo : leftover) (rwflag : Z) (m : mem) (ptr : Z) (tokens : list (Z * Z)) (hp : HUFF) := codec_loop lo rwflag m ptr tokens 0 0 hp.

(** ** The parts of a transaction

    The offsets are those of the structs in serdes777.c:56-97. *)

(** serdes777.c:337-343 [serdes777_locktokens] peg, denom, minlockdays, maxlockdays, clonesmear, mixrange and margin. *)
Definition locktokens : list (Z * Z) := [(0, 2); (2, 2); (4, 2); (6, 2); (8, 2); (10, 2); (15, 1)].

(** serdes777.c:335-345 [serdes777_rwlock] *)
Definition serdes777_rwlock (lo : leftover) (rwflag : Z) (m : mem) (lock : Z) (TX : HUFF) := serdes777_codec lo rwflag m lock locktokens TX.

(** serdes777.c:48-48 [PEGGY_ADDRBTCD] *)
Definition PEGGY_ADDRBTCD : Z := 0.
(** serdes777.c:49-49 [PEGGY_ADDRCREATE] *)
Definition PEGGY_ADDRCREATE : Z := 1.
(** serdes777.c:50-50 [PEGGY_ADDRNXT] *)
Definition PEGGY_ADDRNXT : Z := 2.
(** serdes777.c:51-51 [PEGGY_ADDRUNIT] *)
Definition PEGGY_ADDRUNIT : Z := 3.
(** serdes777.c:52-52 [PEGGY_ADDRPUBKEY] *)
Definition PEGGY_ADDRPUBKEY : Z := 4.
(** serdes777.c:53-53 [PEGGY_ADDR777] *)
Definition PEGGY_ADDR777 : Z := 5.
(** serdes777.c:54-54 [PEGGY_ADDRFUNDING] *)
Definition PEGGY_ADDRFUNDING : Z := 6.

(** serdes777.c:347-374 [serdes777_rwaddr] The members of the union are all at [addr]; the lock of a new unit is behind 32 bytes. *)
Definition serdes777_rwaddr (lo : leftover) (rwflag : Z) (m : mem) (addr type : Z) (TX : HUFF) : option (Z * mem * HUFF) :=
  if type =? PEGGY_ADDRBTCD then serdes777_rw lo rwflag m addr 0 TX
  else if type =? PEGGY_ADDRNXT then serdes777_rw lo rwflag m addr (-8) TX
  else if type =? PEGGY_ADDRCREATE then
    '(numbits, m, TX) ← serdes777_rw lo rwflag m addr (-32) TX;
    if numbits <? 0 then Some (-3, m, TX)
    else
      '(n, m, TX) ← serdes777_rwlock lo rwflag m (addr + 32) TX;
      if n <? 0 then Some (-2, m, TX) else Some (numbits + n, m, TX)
  else if (type =? PEGGY_ADDRUNIT) || (type =? PEGGY_ADDRPUBKEY) then
    '(numbits, m, TX) ← serdes777_rw lo rwflag m addr (-32) TX;
    if numbits <? 0 then Some (-3, m, TX)
    else
      '(n, m, TX) ← serdes777_rw lo rwflag m (addr + 32) 2 TX;
      if n <? 0 then Some (-2, m, TX)
      else
        '(n, m, TX) ← serdes777_rw lo rwflag m (addr + 36) 2 TX;
        if n <? 0 then Some (-2, m, TX) else serdes777_rw lo rwflag m addr (-48) TX
  else if type =? PEGGY_ADDR777 then serdes777_rw lo rwflag m addr (-48) TX
  else Some (-1, m, TX).

(** serdes777.c:378-383 [serdes777_bettokens] prediction, peg, binary. *)
Definition bettokens : list (Z * Z) := [(0, 8); (8, 0); (23, 1)].
(** [num] structs of [stride] bytes at [base]. *)
Definition rw_array (lo : leftover) (rwflag : Z) (m : mem) (base stride : Z) (tokens : list (Z * Z)) (num numbits : Z) (TX : HUFF) : option (Z * mem * HUFF) :=
  r ← for_ret (Z.to_nat num) 0 (fun i '(numbits, m, TX) =>
    '(n, m, TX) ← serdes777_codec lo rwflag m (base + stride * i) tokens TX;
    if n <? 0 then Some (inr (-1, m, TX)) else Some (inl (numbits + n, m, TX))) (numbits, m, TX);
  Some (match r with inl r => r | inr r => r end).
(** serdes777.c:376-394 [serdes777_rwbets] *)
Definition serdes777_rwbets (lo : leftover) (rwflag : Z) (m : mem) (bets numbets : Z) (TX : HUFF) : option (Z * mem * HUFF) :=
  if numbets <=? 0 then Some (0, m, TX) else rw_array lo rwflag m bets 24 bettokens numbets 0 TX.

(** serdes777.c:398-406 [serdes777_mptokens] claimhash, refundhash, expiration, chainlen, vin, vout. *)
Definition mptokens : list (Z * Z) := [(0, 32); (32, 32); (64, 4); (68, 1); (69, 1); (70, 1)].
(** serdes777.c:396-417 [serdes777_rwmicropay] *)
Definition serdes777_rwmicropay (lo : leftover) (rwflag : Z) (m : mem) (micropay num : Z) (TX : HUFF) : option (Z * mem * HUFF) :=
  if num <=? 0 then Some (0, m, TX) else rw_array lo rwflag m micropay 72 mptokens num 0 TX.

(** serdes777.c:419-447 [serdes777_rwinout] *)
Definition serdes777_rwinout (lo : leftover) (rwflag inoutflag : Z) (m : mem) (inout : Z) (TX : HUFF) : option (Z * mem * HUFF) :=
  '(a, m, TX) ← serdes777_rw lo rwflag m inout 1 TX;
  '(b, m, TX) ← serdes777_rw lo rwflag m (inout + 1) 1 TX;
  type ← load m inout 1;
  '(c, m, TX) ← serdes777_rwaddr lo rwflag m (inout + 8) type TX;
  '(d, m, TX) ← serdes777_rw lo rwflag m (inout + 56) (if inoutflag =? 0 then 8 else 4) TX;
  if (a <? 0) || (b <? 0) || (c <? 0) || (d <? 0) then Some (-1, m, TX) else Some (a + b + c + d, m, TX).

(** serdes777.c:451-456 [serdes777_pricetokens] num, timestamp, maxlockdays. *)
Definition pricetokens : list (Z * Z) := [(0, 2); (4, 4); (2, 2)].
(** serdes777.c:449-470 [serdes777_rwprices] *)
Definition serdes777_rwprices (lo : leftover) (rwflag : Z) (m : mem) (price : Z) (TX : HUFF) : option (Z * mem * HUFF) :=
  '(numbits, m, TX) ← serdes777_codec lo rwflag m price pricetokens TX;
  if numbits <? 0 then Some (-1, m, TX)
  else num ← load m price 2; rw_array lo rwflag m (price + 8) 4 [(0, 4)] num numbits TX.

(** serdes777.c:474-480 [serdes777_tunetokens] type, peg, val, B. *)
Definition tunetokens : list (Z * Z) := [(0, 1); (1, 0); (16, 8); (24, 8)].
(** serdes777.c:472-491 [serdes777_rwtune] *)
Definition serdes777_rwtune (lo : leftover) (rwflag : Z) (m : mem) (tune numtunes : Z) (TX : HUFF) : option (Z * mem * HUFF) :=
  if numtunes <=? 0 then Some (0, m, TX) else rw_array lo rwflag m tune 32 tunetokens numtunes (-1) TX.

(** ** A transaction *)

(** The offsets of the members of [struct peggy_tx] and the size up to [data]. *)
Definition tx_numinputs : Z := 2.
Definition tx_numoutputs : Z := 3.
Definition tx_txtype : Z := 4.
Definition tx_flags : Z := 5.
Definition tx_msglen : Z := 6.
Definition tx_numdetails : Z := 7.
Definition tx_timestamp : Z := 8.
Definition tx_inputs : Z := 24.
Definition tx_funding : Z := 984.
Definition tx_outputs : Z := 1048.
Definition tx_details : Z := 2072.
Definition tx_hexstr : Z := 4120.
Definition tx_size : nat := Z.to_nat 4632.

(** serdes777.c:75-75 [PEGGY_TXBET] *)
Definition PEGGY_TXBET : Z := 1.
(** serdes777.c:76-76 [PEGGY_TXPRICES] *)
Definition PEGGY_TXPRICES : Z := 2.
(** serdes777.c:77-77 [PEGGY_TXTUNE] *)
Definition PEGGY_TXTUNE : Z := 3.
(** serdes777.c:78-78 [PEGGY_TXMICROPAY] *)
Definition PEGGY_TXMICROPAY : Z := 4.
(** serdes777.c:45-45 [PEGGY_FLAGS_HASFUNDING] *)
Definition PEGGY_FLAGS_HASFUNDING : Z := 1.

(** serdes777.c:493-513 [serdes777_rwdetails] The case of PEGGY_TXTUNE leaves the switch before its call. *)
Definition serdes777_rwdetails (lo : leftover) (rwflag : Z) (m : mem) (TX : HUFF) : option (Z * mem * HUFF) :=
  txtype ← load m tx_txtype 1;
  numdetails ← load m tx_numdetails 1;
  '(numbits, m, TX) ←
    (if txtype =? PEGGY_TXBET then serdes777_rwbets lo rwflag m tx_details numdetails TX
     else if txtype =? PEGGY_TXPRICES then serdes777_rwprices lo rwflag m tx_details TX
     else if txtype =? PEGGY_TXTUNE then Some (0, m, TX)
     else if txtype =? PEGGY_TXMICROPAY then serdes777_rwmicropay lo rwflag m tx_details numdetails TX
     else Some (0, m, TX));
  if numbits <? 0 then Some (-1, m, TX)
  else
    msglen ← load m tx_msglen 1;
    if negb (msglen =? 0) then
      '(n, m, TX) ← serdes777_rwstr lo rwflag m tx_hexstr TX 16;
      if n <? 0 then Some (-1, m, TX) else Some (numbits + n, m, TX)
    else Some (numbits, m, TX).

(** serdes777.c:515-532 [serdes777_sethdrtokens] datalen, numinputs, numoutputs, txtype, flags, msglen, numdetails, timestamp, activation, expiration. *)
Definition hdrtokens : list (Z * Z) :=
  [(0, -2); (tx_numinputs, 1); (tx_numoutputs, 1); (tx_txtype, 1); (tx_flags, 1); (tx_msglen, 1); (tx_numdetails, 1); (tx_timestamp, 4); (12, 4); (16, 4)].

(** serdes777.c:552-570 [serdes777_rwtx] One round of the outer loop. *)
Definition rw_inouts (lo : leftover) (rwflag iter : Z) (m : mem) (base n totalbits : Z) (TX : HUFF) : option ((Z * mem * HUFF) + (Z * mem * HUFF)) :=
  for_ret (Z.to_nat n) 0 (fun i '(totalbits, m, TX) =>
    '(numbits, m, TX) ← serdes777_rwinout lo rwflag iter m (base + 64 * i) TX;
    if numbits <? 0 then Some (inr (-1, m, TX)) else Some (inl (totalbits + numbits, m, TX))) (totalbits, m, TX).

(** serdes777.c:534-577 [serdes777_rwtx] *)
Definition serdes777_rwtx (lo : leftover) (rwflag : Z) (m : mem) (TX : HUFF) : option (Z * mem * HUFF) :=
  '(totalbits, m, TX) ← serdes777_codec lo rwflag m 0 hdrtokens TX;
  if totalbits <? 0 then Some (-1, m, TX)
  else
    flags ← load m tx_flags 1;
    '(numbits, m, TX) ← (if truth (Z.land flags PEGGY_FLAGS_HASFUNDING) then serdes777_rwinout lo rwflag 0 m tx_funding TX else Some (0, m, TX));
    if numbits <? 0 then Some (-1, m, TX)
    else
      n ← load m tx_numinputs 1;
      r ← rw_inouts lo rwflag 0 m tx_inputs n (totalbits + numbits) TX;
      match r with
      | inr r => Some r
      | inl (totalbits, m, TX) =>
          n ← load m tx_numoutputs 1;
          r ← rw_inouts lo rwflag 1 m tx_outputs n totalbits TX;
          match r with
          | inr r => Some r
          | inl (totalbits, m, TX) =>
              '(numbits, m, TX) ← serdes777_rwdetails lo rwflag m TX;
              if numbits <? 0 then Some (-1, m, TX) else Some (totalbits + numbits, m, TX)
          end
      end.

(** serdes777.c:29-29 [PEGGY_PASTSTAMP] *)
Definition PEGGY_PASTSTAMP : Z := 3600.
(** serdes777.c:30-30 [PEGGY_FUTURESTAMP] *)
Definition PEGGY_FUTURESTAMP : Z := 60.

(** serdes777.c:579-586 [serdes777_checktimestamp] *)
Definition serdes777_checktimestamp (blocktimestamp timestamp : Z) : Z :=
  if (blocktimestamp =? 0) || (timestamp =? 0) then 0
  else if (timestamp <? blocktimestamp - PEGGY_PASTSTAMP) || (blocktimestamp + PEGGY_FUTURESTAMP <? timestamp) then -1 else 0.

(** serdes777.c:88-97 [struct peggy_tx] *)
Record peggy_tx := mkTx { fields : mem; data : list Z; sigs : list acct777_sig }.

#[export] Instance eta_peggy_tx : Eta peggy_tx := fun t => mkTx (fields t) (data t) (sigs t).

(** serdes777.c:70-70 [PEGGY_MAXSIGS] *)
Definition PEGGY_MAXSIGS : nat := 16.
Definition zero_sig : acct777_sig := mkSig (replicate 32 0) (replicate 32 0) 0 0.
Definition zero_HUFF : HUFF := mkHUFF [] 0 0 0 0 0 0.

Definition set_sigbits (s : acct777_sig) (x : list Z) : acct777_sig := mkSig x (pubkey s) (signer64bits s) (sig_time s).
Definition set_pubkey (s : acct777_sig) (x : list Z) : acct777_sig := mkSig (sigbits s) x (signer64bits s) (sig_time s).
Definition set_signer (s : acct777_sig) (x : Z) : acct777_sig := mkSig (sigbits s) (pubkey s) x (sig_time s).

(** The 32 bytes at [off]. *)
Definition bits256_at (d : list Z) (off : Z) : list Z := take 32 (drop (Z.to_nat off) d).

(** serdes777.c:616-629 [serdes777_deserialize] The signatures behind the [len] bytes of a transaction. *)
Definition read_sigs (f : mem) (d : list Z) (len n : Z) (sigs : list acct777_sig) : option (list acct777_sig * Z) :=
  numinputs ← load f tx_numinputs 1;
  type ← load f tx_inputs 1;
  if (numinputs =? 1) && (type =? PEGGY_ADDRPUBKEY) && (n =? 1) then
    s ← aget sigs 0;
    sigs ← aset sigs 0 (set_pubkey (set_sigbits s (bits256_at d len)) (bits256_at f (tx_inputs + 8)));
    Some (sigs, len + 32)
  else
    for_loopM (Z.to_nat n) 0 (fun i '(sigs, len) =>
      s ← aget sigs (i / 2);
      sigs ← aset sigs (i / 2) (if Z.land i 1 =? 0 then set_sigbits s (bits256_at d len) else set_pubkey s (bits256_at d len));
      Some (sigs, len + 32)) (sigs, len).

(** serdes777.c:630-644 [serdes777_deserialize] The signatures are checked up to the first that is empty. *)
Definition check_sigs (n timestamp : Z) (d : list Z) (sigs : list acct777_sig) (signedcount : Z) : option (option (list acct777_sig) * Z) :=
  r ← for_ret (Z.to_nat n) 0 (fun i '(sigs, signedcount) =>
    s ← aget sigs i;
    if negb (txid (sigbits s) =? 0) then
      let v := acct777_validate s timestamp d in
      sigs ← aset sigs i (set_signer s v);
      if v =? 0 then Some (inr (None, signedcount)) else Some (inl (sigs, i32 (signedcount + 1)))
    else Some (inr (Some sigs, signedcount))) (sigs, signedcount);
  Some (match r with inl (sigs, signedcount) => (Some sigs, signedcount) | inr r => r end).

(** serdes777.c:588-646 [serdes777_deserialize] The result, the transaction unless it is refused, and the count of signatures. *)
Definition serdes777_deserialize (lo : leftover) (signedcount blocktimestamp : Z) (d : list Z) (totallen : Z) : option (Z * option peggy_tx * Z) :=
  let f := replicate tx_size 0 in
  let TX := _init_HUFF zero_HUFF totallen d in
  let TX := mkHUFF (buf TX) (ptr TX) (bitoffset TX) (maski TX) (totallen * 8) (allocsize TX) (allocated TX) in
  if 4096 <? totallen then None
  else
    let data := d ++ replicate (Z.to_nat (4096 - totallen)) 0 in
    '(totalbits, f, TX) ← serdes777_rwtx lo 0 f TX;
    if totalbits <? 0 then Some (-1, None, signedcount)
    else
      timestamp ← load f tx_timestamp 4;
      if serdes777_checktimestamp blocktimestamp timestamp <? 0 then Some (-1, None, signedcount)
      else
        let len := hconv_bitlen totalbits in
        if totallen <? len then Some (-1, None, signedcount)
        else
          f ← store f 0 (le_bytes 2 len);
          let remains := totallen - len in
          if negb (remains mod 32 =? 0) then Some (-1, None, signedcount)
          else
            let n := remains / 32 in
            if 0 <? n then
              '(sigs, len') ← read_sigs f d len n (replicate PEGGY_MAXSIGS zero_sig);
              '(sigs, signedcount) ← check_sigs n timestamp (take (Z.to_nat len) data) sigs signedcount;
              match sigs with
              | None => Some (-1, None, signedcount)
              | Some sigs => Some (len', Some (mkTx f data sigs), signedcount)
              end
            else Some (len, Some (mkTx f data (replicate PEGGY_MAXSIGS zero_sig)), signedcount).

(** serdes777.c:670-683 [serdes777_serialize] The signatures that the transaction has are appended; a refused one gives [None] for the data. *)
Fixpoint append_sigs (fuel : nat) (i : Z) (sigs : list acct777_sig) (timestamp : Z) (d : list Z) (len : Z) : option (option (list Z * Z) * Z) :=
  match fuel with
  | O => Some (Some (d, len), i)
  | S fuel =>
      s ← aget sigs i;
      if txid (sigbits s) =? 0 then Some (Some (d, len), i)
      else if negb (acct777_validate s timestamp (take (Z.to_nat len) d) =? signer64bits s) then Some (None, i)
      else
        d ← store d len (sigbits s);
        d ← store d (len + 32) (pubkey s);
        append_sigs fuel (i + 1) sigs timestamp d (len + 64)
  end.

(** serdes777.c:648-698 [serdes777_serialize] *)
Definition serdes777_serialize (lo : leftover) (Ptx : peggy_tx) (blocktimestamp : Z) (privkey : list Z) (timestamp : Z) : option (Z * peggy_tx) :=
  let TX := _init_HUFF zero_HUFF 4096 (replicate (Z.to_nat 4096) 0) in
  stamp ← load (fields Ptx) tx_timestamp 4;
  if negb (stamp =? 0) && negb (timestamp =? 0) && (serdes777_checktimestamp blocktimestamp timestamp <? 0) then
    Some (-1, Ptx.[data <- replicate (Z.to_nat 4096) 0])
  else
    f ← (if stamp =? 0 then store (fields Ptx) tx_timestamp (le_bytes 4 timestamp) else Some (fields Ptx));
    '(numbits, f, TX) ← serdes777_rwtx lo 1 f TX;
    if numbits <? 0 then Some (-1, mkTx f (buf TX) (sigs Ptx))
    else
      let len := hconv_bitlen (bitoffset TX) in
      f ← store f 0 (le_bytes 2 len);
      let '(_, TX) := hseek TX 0 SEEK_SET in
      '(e, f, TX) ← serdes777_rw lo 1 f 0 (-2) TX;
      if e <? 0 then Some (-1, mkTx f (buf TX) (sigs Ptx))
      else
        stamp ← load f tx_timestamp 4;
        '(r, i) ← append_sigs PEGGY_MAXSIGS 0 (sigs Ptx) stamp (buf TX) len;
        match r with
        | None => Some (-1, mkTx f (buf TX) (sigs Ptx))
        | Some (d, len) =>
            if (i <? Z.of_nat PEGGY_MAXSIGS - 1) && negb (stamp =? 0) && negb (txid privkey =? 0) then
              let '(signer, sig) := acct777_signtx privkey stamp (take (Z.to_nat len) d) in
              sigs ← aset (sigs Ptx) i sig;
              d ← store d len (sigbits sig);
              d ← store d (len + 32) (pubkey sig);
              Some (len + 64, mkTx f d sigs)
            else Some (len, mkTx f d (sigs Ptx))
        end.
