(* ===== verification/SerdesCode.v ===== *)
(** * serdes777.c: a transaction is read as it was written

    Reading is related to writing field by field: a field [codes] some bits when writing puts
    them on the stream and reading them fills the memory as the writer's.  While a transaction
    is read each byte of the memory is still zero or already the writer's ([part]). *)
From Stdlib Require Import ZArith Lia.
From stdpp Require Import base list numbers option.
From S2P Require Import Prelude Bits HuffStream Cards Acct Utils Serdes.
Open Scope Z_scope.

(** ** Bits of the memory *)

(** [n] bits from bit [p] on. *)
Definition mbits (m : list Z) (p : Z) (n : nat) : list bool := map (fun i => bit m (p + Z.of_nat i)) (seq 0 n).

Lemma mbits_length m p n : length (mbits m p n) = n.
Proof. unfold mbits. by rewrite length_map, length_seq. Qed.

Lemma mbits_snoc m p n : mbits m p (S n) = mbits m p n ++ [bit m (p + Z.of_nat n)].
Proof. unfold mbits. by rewrite seq_S, map_app. Qed.

Lemma mbits_get m p n k : (k < n)%nat -> mbits m p n !! k = Some (bit m (p + Z.of_nat k)).
Proof. intros H. unfold mbits. rewrite list_lookup_fmap, lookup_seq_lt by lia. done. Qed.

Lemma bit_of_byte m i k : 0 <= k < 8 -> bit m (8 * i + k) = Z.testbit (znth m i) k.
Proof. intros H. unfold bit. replace ((8 * i + k) / 8) with i by dmlia. by replace ((8 * i + k) mod 8) with k by dmlia. Qed.

(** The memory while it is read. *)
Definition part (m' m : list Z) : Prop := length m' = length m /\ bytes m' /\ forall i, 0 <= i -> znth m' i = 0 \/ znth m' i = znth m i.

Definition agree (m' m : list Z) (R : Z -> Prop) : Prop := forall i, R i -> znth m' i = znth m i.

Definition grows (m' m'' m : list Z) : Prop := part m'' m /\ forall i, 0 <= i -> znth m' i = znth m i -> znth m'' i = znth m i.

(** The bytes of a field. *)
Definition span (off : Z) (n : nat) (i : Z) : Prop := off <= i < off + Z.of_nat n.

(** ** [serdes777_rwbits] *)

Lemma rwbits_write m ptr n hp : 0 <= ptr -> 8 * ptr + Z.of_nat n <= 8 * Z.of_nat (length m) -> hwf hp -> room hp n ->
  serdes777_rwbits 1 m ptr (Z.of_nat n) hp = Some (Z.of_nat n, m, hputs hp (mbits m (8 * ptr) n)).
Proof.
  intros Hp Hm Hw Hr. unfold serdes777_rwbits. change (1 =? 0) with false. cbv iota. rewrite Nat2Z.id.
  match goal with |- context [for_ret n 0 ?body hp] =>
    destruct (for_ret_inv (fun k h => h = hputs hp (mbits m (8 * ptr) (Z.to_nat k))) n 0 body hp) as (h & -> & ->) end; [|done|].
  - intros k h Hk ->. destruct (GETBIT_truth m (8 * ptr + k)) as (g & -> & Hg & _); [lia|]. step.
    set (l := mbits m (8 * ptr) (Z.to_nat k)). assert (Hl : length l = Z.to_nat k) by apply mbits_length.
    assert (Hrl : room hp (length l)) by (eapply room_le; [|exact Hr]; lia). pose proof (hputs_spec hp l Hw Hrl) as (Hw' & Hb & Ha & _).
    rewrite hputbit_eq; [|done|unfold room in *; rewrite Hb, Ha; lia]. step. change (0 <? 0) with false. cbv iota. eexists. split; [done|].
    replace (Z.to_nat (k + 1)) with (S (Z.to_nat k)) by lia. rewrite mbits_snoc, hputs_app. cbn. rewrite truth_c_bool. unfold truth in Hg. rewrite Hg.
    f_equal. f_equal. lia.
  - step. by rewrite Z.add_0_l, Nat2Z.id.
Qed.

Lemma rwbits_read m m' ptr n w hp q : part m' m -> bytes m -> 0 <= ptr -> (n <= 8 * w)%nat -> ptr + Z.of_nat w <= Z.of_nat (length m) ->
  (forall j, 8 * ptr + Z.of_nat n <= j < 8 * (ptr + Z.of_nat w) -> bit m j = false) -> hwf hp -> stored hp q (mbits m (8 * ptr) n) ->
  exists m'', serdes777_rwbits 0 m' ptr (Z.of_nat n) (hat hp q) = Some (Z.of_nat n, m'', hat hp (q + Z.of_nat n)) /\ grows m' m'' m /\ agree m'' m (span ptr w).
Proof.
  intros (Hl & Hb' & Hpart) Hb Hp Hn Hm Hz Hw Hst. unfold serdes777_rwbits. change (0 =? 0) with true. cbv iota. rewrite Nat2Z.id.
  match goal with |- context [for_ret n 0 ?body ?s] =>
    destruct (for_ret_inv (fun k '(t, h) => h = hat hp (q + k) /\ length t = length m /\ bytes t /\
      forall j, 0 <= j -> bit t j = if (8 * ptr <=? j) && (j <? 8 * ptr + k) then bit m j else bit m' j) n 0 body s) as ([m'' h] & -> & -> & Hl2 & Hb2 & Hbit) end.
  - intros k [t h] Hk (-> & Hlt & Hbt & Hbit). pose proof Hst as (Hq & Hqe & Hget).
    pose proof (Hget (Z.to_nat k) _ (mbits_get m (8 * ptr) n (Z.to_nat k) ltac:(lia))) as Hbk. rewrite mbits_length in Hqe.
    rewrite hgetbit_eq; [|apply hat_wf; [done|lia]|cbn; lia]. step. cbn [hat bitoffset]. unfold hbit in *. cbn [buf hat] in *.
    replace (q + Z.of_nat (Z.to_nat k)) with (q + k) in Hbk by lia. rewrite Hbk. replace (8 * ptr + Z.of_nat (Z.to_nat k)) with (8 * ptr + k) by lia.
    set (v := bit m (8 * ptr + k)). destruct (Z.ltb_spec (c_bool v) 0); [by destruct v|].
    assert (Hs : (if negb (c_bool v =? 0) then SETBIT t (8 * ptr + k) else CLEARBIT t (8 * ptr + k)) = Some (bit_upd t (8 * ptr + k) v)).
    { destruct v; cbn [c_bool negb Z.eqb]; [apply SETBIT_eq|apply CLEARBIT_eq]; done || lia. }
    rewrite Hs. step. eexists. split; [reflexivity|]. rewrite hat_hat. split_and!; [by rewrite Z.add_assoc|by rewrite bit_upd_length|apply bit_upd_bytes; [lia|done]|].
    intros j Hj. rewrite bit_bit_upd by lia. destruct (Z.eqb_spec j (8 * ptr + k)) as [->|Hne].
    + replace ((8 * ptr <=? 8 * ptr + k) && (8 * ptr + k <? 8 * ptr + (k + 1))) with true by (symmetry; apply andb_true_intro; split; [apply Z.leb_le|apply Z.ltb_lt]; lia). done.
    + rewrite Hbit by done. destruct (Z.leb_spec (8 * ptr) j), (Z.ltb_spec j (8 * ptr + k)), (Z.ltb_spec j (8 * ptr + (k + 1))); cbn [andb]; done || lia.
  - rewrite Z.add_0_r. split_and!; try done. intros j Hj. destruct (Z.leb_spec (8 * ptr) j), (Z.ltb_spec j (8 * ptr + 0)); cbn [andb]; done || lia.
  - step. exists m''. rewrite Z.add_0_l in *. split; [done|].
    assert (Hin : agree m'' m (span ptr w)).
    { intros i Hi. unfold span in Hi. apply byte_ext; [done|done|lia|]. intros k Hk. rewrite Hbit by lia.
      destruct (Z.leb_spec (8 * ptr) (8 * i + k)); [|lia]. destruct (Z.ltb_spec (8 * i + k) (8 * ptr + Z.of_nat n)); cbn [andb]; [done|].
      rewrite (Hz (8 * i + k)) by lia. destruct (Hpart i ltac:(lia)) as [E|E]; rewrite bit_of_byte, E by lia; [apply Z.bits_0|].
      rewrite <- bit_of_byte by lia. apply Hz. lia. }
    assert (Hout : forall i, 0 <= i -> ~ span ptr w i -> znth m'' i = znth m' i).
    { intros i Hi Hs. apply byte_ext; [done|done|done|]. intros k Hk. rewrite Hbit by lia. unfold span in Hs.
      destruct (Z.leb_spec (8 * ptr) (8 * i + k)), (Z.ltb_spec (8 * i + k) (8 * ptr + Z.of_nat n)); cbn [andb]; done || lia. }
    assert (Hdec : forall i, span ptr w i \/ ~ span ptr w i) by (intros i; unfold span; lia).
    split; [|done]. split; [split_and!; [done|done|]|].
    + intros i Hi. destruct (Hdec i) as [Hs|Hs]; [right; by apply Hin|]. rewrite (Hout i Hi Hs). by apply Hpart.
    + intros i Hi E. destruct (Hdec i) as [Hs|Hs]; [by apply Hin|]. by rewrite (Hout i Hi Hs).
Qed.

(** ** Fields *)

(** [F] codes [bits] and the bytes of [R]; the reader may look at the bytes of [R0]. *)
Record codes (R0 : Z -> Prop) (F : Z -> list Z -> HUFF -> option (Z * list Z * HUFF)) (m : list Z) (bits : list bool) (R : Z -> Prop) : Prop := {
  c_write : forall hp, hwf hp -> room hp (length bits) -> F 1 m hp = Some (Z.of_nat (length bits), m, hputs hp bits);
  c_read : forall m' hp q, part m' m -> agree m' m R0 -> hwf hp -> stored hp q bits ->
    exists m'', F 0 m' (hat hp q) = Some (Z.of_nat (length bits), m'', hat hp (q + Z.of_nat (length bits))) /\ grows m' m'' m /\ agree m'' m R }.

Definition nothing (i : Z) : Prop := False.

Definition sub (m : list Z) (off : Z) (n : nat) : list Z := take n (drop (Z.to_nat off) m).

Lemma load_eq m off n : 0 <= off -> off + Z.of_nat n <= Z.of_nat (length m) -> load m off n = Some (le_val (sub m off n)).
Proof. intros H1 H2. unfold load. destruct (Z.leb_spec 0 off), (Z.leb_spec (off + Z.of_nat n) (Z.of_nat (length m))); done || lia. Qed.

Lemma sub_length m off n : 0 <= off -> off + Z.of_nat n <= Z.of_nat (length m) -> length (sub m off n) = n.
Proof. intros. unfold sub. rewrite length_take, length_drop. lia. Qed.

Lemma sub_bytes m off n : bytes m -> bytes (sub m off n).
Proof. intros. unfold sub. by apply Forall_take, Forall_drop. Qed.

Lemma znth_sub m off n i : 0 <= off -> 0 <= i < Z.of_nat n -> znth (sub m off n) i = znth m (off + i).
Proof.
  intros Ho Hi. unfold znth, aget, sub. destruct (Z.leb_spec 0 i), (Z.leb_spec 0 (off + i)); try lia.
  rewrite lookup_take_lt by lia. rewrite lookup_drop. by replace (Z.to_nat off + Z.to_nat i)%nat with (Z.to_nat (off + i)) by lia.
Qed.

Lemma sub_testbit m off n j : bytes m -> 0 <= off -> off + Z.of_nat n <= Z.of_nat (length m) -> 0 <= j < 8 * Z.of_nat n ->
  Z.testbit (le_val (sub m off n)) j = bit m (8 * off + j).
Proof.
  intros Hb Ho Hm Hj. rewrite le_val_testbit by (lia || by apply sub_bytes). rewrite znth_sub by dmlia. unfold bit.
  replace ((8 * off + j) / 8) with (off + j / 8) by dmlia. by replace ((8 * off + j) mod 8) with (j mod 8) by dmlia.
Qed.

Lemma sub_agree m' m off n : 0 <= off -> off + Z.of_nat n <= Z.of_nat (length m) -> length m' = length m -> agree m' m (span off n) -> sub m' off n = sub m off n.
Proof.
  intros Ho Hm Hl Ha. apply list_eq. intros i. unfold sub. destruct (Nat.lt_ge_cases i n).
  - rewrite !lookup_take_lt, !lookup_drop by lia. specialize (Ha (off + Z.of_nat i)). unfold span, znth, aget in Ha.
    destruct (Z.leb_spec 0 (off + Z.of_nat i)); [|lia]. replace (Z.to_nat (off + Z.of_nat i)) with (Z.to_nat off + i)%nat in Ha by lia.
    destruct (lookup_lt_is_Some_2 m' (Z.to_nat off + i)) as [x Hx]; [lia|]. destruct (lookup_lt_is_Some_2 m (Z.to_nat off + i)) as [y Hy]; [lia|].
    rewrite Hx, Hy in *. f_equal. apply Ha. lia.
  - rewrite !lookup_take_ge by lia. done.
Qed.

(** *** Raw bytes *)

Lemma codes_raw m off n : bytes m -> 0 <= off -> off + Z.of_nat n <= Z.of_nat (length m) ->
  codes nothing (fun f m hp => serdes777_rwbits f m off (8 * Z.of_nat n) hp) m (mbits m (8 * off) (8 * n)) (span off n).
Proof.
  intros Hb Ho Hm. replace (8 * Z.of_nat n) with (Z.of_nat (8 * n)) by lia. constructor; rewrite mbits_length.
  - intros hp Hw Hr. apply rwbits_write; done || lia.
  - intros m' hp q Hp _ Hw Hst. apply (rwbits_read m m' off (8 * n) n); try done; try lia.
Qed.

(** *** Numbers with their size *)

Definition num_bits (m : list Z) (off : Z) (n : nat) (sizebits : nat) : list bool :=
  let b := hcalc_bitsize (le_val (sub m off n)) in mbits (le_bytes 4 (b - 1)) 0 sizebits ++ mbits m (8 * off) (Z.to_nat b).

Lemma codes_num m off n (sizebits : nat) : bytes m -> 0 <= off -> off + Z.of_nat n <= Z.of_nat (length m) ->
  (n = 2 /\ sizebits = 4 \/ n = 4 /\ sizebits = 5 \/ n = 8 /\ sizebits = 6)%nat ->
  codes nothing (fun f m hp => x ← load m off n; serdes777_rwsizebits f m off x (Z.of_nat sizebits) hp) m (num_bits m off n sizebits) (span off n).
Proof.
  intros Hb Ho Hm Hn. set (x := le_val (sub m off n)). set (b := hcalc_bitsize x).
  assert (Hx : 0 <= x < 2 ^ (8 * Z.of_nat n)) by (pose proof (le_val_range (sub m off n) (sub_bytes m off n Hb)) as H; by rewrite sub_length in H by done).
  destruct (hcalc_bitsize_least x) as (Hb1 & Hxb & Hmin); [destruct Hn as [[-> _]|[[-> _]|[-> _]]]; lia|]. fold b in Hb1, Hxb, Hmin.
  specialize (Hmin (8 * Z.of_nat n) ltac:(lia) ltac:(lia)).
  assert (Hs3 : (Z.of_nat sizebits =? 3) = false) by (destruct Hn as [[_ ->]|[[_ ->]|[_ ->]]]; done).
  assert (Hsb : b - 1 < 2 ^ Z.of_nat sizebits) by (destruct Hn as [[-> ->]|[[-> ->]|[-> ->]]]; lia).
  assert (Hs32 : (sizebits <= 6)%nat) by lia. assert (Hnb : bytes (le_bytes 4 (b - 1))) by apply le_bytes_bytes.
  assert (Hv : i32 (le_val (le_bytes 4 (b - 1))) = b - 1) by (rewrite le_val_bytes, Z.mod_small by lia; apply swrap_small; lia).
  constructor.
  - intros hp Hw Hr. rewrite load_eq by done. step. fold x. unfold num_bits in *. fold x b in Hr. fold x b. unfold serdes777_rwsizebits. rewrite Hs3.
    change (1 =? 0) with false. cbn [negb andb]. fold b. destruct (Z.leb_spec (2 ^ Z.of_nat sizebits) (b - 1)); [lia|].
    rewrite length_app, !mbits_length in *. destruct (hputs_room hp (mbits (le_bytes 4 (b - 1)) 0 sizebits) (Z.to_nat b) Hw) as [Hw' Hr']; [by rewrite mbits_length|].
    rewrite rwbits_write; [|lia|rewrite le_bytes_length; lia|done|eapply room_le; [|exact Hr]; lia]. step. rewrite Z.eqb_refl. cbn [negb]. rewrite Hv.
    replace (b - 1 + 1) with (Z.of_nat (Z.to_nat b)) by lia. rewrite rwbits_write by (done || lia). step. rewrite Z.eqb_refl. cbn [negb].
    rewrite hputs_app. do 3 f_equal. lia.
  - intros m' hp q Hp _ Hw Hst. pose proof Hp as (Hl & _). rewrite load_eq by lia. step. unfold num_bits in *. fold x b in Hst. fold x b.
    apply stored_app in Hst as [Hst1 Hst2]. rewrite mbits_length in Hst2. unfold serdes777_rwsizebits. rewrite Hs3. change (0 =? 0) with true. cbn [negb andb].
    destruct (rwbits_read (le_bytes 4 (b - 1)) (le_bytes 4 0) 0 sizebits 4 hp q) as (nb & -> & [(Hnl & Hnbb & _) _] & Hag); try done; try lia.
    { split_and!; [by rewrite !le_bytes_length|apply le_bytes_bytes|]. intros i Hi. left. change (le_bytes 4 0) with (replicate 4 0). apply (Forall_znth (fun x => x = 0)); [done|]. by apply Forall_replicate. }
    { intros j Hj. unfold bit. rewrite <- le_val_testbit by (rewrite ?le_bytes_length; done || lia). rewrite le_val_bytes, Z.mod_small by lia.
      apply (testbit_small _ (Z.of_nat sizebits)); lia. }
    assert (Enb : nb = le_bytes 4 (b - 1)).
    { pose proof (sub_agree nb (le_bytes 4 (b - 1)) 0 4 ltac:(lia)) as E. unfold sub in E. rewrite !drop_0 in E. rewrite !take_ge in E by (rewrite ?Hnl, ?le_bytes_length; lia).
      apply E; [by rewrite le_bytes_length|done|done]. }
    step. rewrite Z.eqb_refl. cbn [negb]. rewrite Enb, Hv. replace (b - 1 + 1) with (Z.of_nat (Z.to_nat b)) by lia.
    destruct (rwbits_read m m' off (Z.to_nat b) n hp (q + Z.of_nat sizebits)) as (m2 & -> & Hg & Ha); try done; try lia.
    { intros j Hj. replace j with (8 * off + (j - 8 * off)) by lia. rewrite <- (sub_testbit m off n) by (done || lia). apply (testbit_small _ b); fold x; lia. }
    step. rewrite Z.eqb_refl. cbn [negb]. exists m2. rewrite length_app, !mbits_length. split; [|done]. f_equal. f_equal; [f_equal; lia|]. f_equal. lia.
Qed.

(** *** Bytes *)

Definition char_bits (m : list Z) (off : Z) : list bool :=
  let x := znth m off in
  if x =? 0 then [false] else if x <? 3 then [true; Z.testbit x 0; Z.testbit x 1] else [true; true; true] ++ mbits m (8 * off) 8.

Lemma grows_put m' m off : part m' m -> bytes m -> 0 <= off < Z.of_nat (length m) ->
  grows m' (zput m' off (znth m off)) m /\ agree (zput m' off (znth m off)) m (span off 1).
Proof.
  intros (Hl & Hb' & Hp) Hb Ho.
  assert (E : forall i, 0 <= i -> znth (zput m' off (znth m off)) i = if off =? i then znth m i else znth m' i).
  { intros i Hi. rewrite znth_zput by lia. destruct (Z.eqb_spec off i); by subst. }
  split; [split; [split_and!|]|].
  - by rewrite zput_length.
  - apply Forall_zput; [done|by apply znth_byte].
  - intros i Hi. rewrite E by done. destruct (off =? i); [by right|by apply Hp].
  - intros i Hi Hsame. rewrite E by done. by destruct (off =? i).
  - intros i Hi. unfold span in Hi. rewrite E by lia. by destruct (Z.eqb_spec off i); [|lia].
Qed.

Lemma hputbits3 hp (b0 b1 b2 : bool) : hwf hp -> room hp 3 ->
  hputbit hp (c_bool b0) = Some (0, hput1 hp b0) /\ hputbit (hput1 hp b0) (c_bool b1) = Some (0, hput1 (hput1 hp b0) b1) /\
  hputbit (hput1 (hput1 hp b0) b1) (c_bool b2) = Some (0, hputs hp [b0; b1; b2]).
Proof.
  intros Hw Hr. assert (R0 : room hp 1) by (eapply room_le; [|exact Hr]; lia). pose proof (hput1_wf hp b0 Hw R0) as W1.
  pose proof (room_hput1 hp b0 _ Hr) as Hr1. assert (R1 : room (hput1 hp b0) 1) by (eapply room_le; [|exact Hr1]; lia).
  pose proof (hput1_wf _ b1 W1 R1) as W2. pose proof (room_hput1 _ b1 _ Hr1) as Hr2.
  rewrite !hputbit_eq by done. by rewrite !truth_c_bool.
Qed.

Lemma codes_char m off : bytes m -> 0 <= off < Z.of_nat (length m) ->
  codes nothing (fun f m hp => serdes777_rwchar f m off hp) m (char_bits m off) (span off 1).
Proof.
  intros Hb Ho. pose proof (znth_byte m off Hb) as Hx. set (x := znth m off) in *.
  assert (Hld : forall t, length t = length m -> load t off 1 = Some (znth t off)).
  { intros t Ht. rewrite load_eq by lia. f_equal. pose proof (sub_length t off 1 ltac:(lia) ltac:(lia)) as Hl. pose proof (znth_sub t off 1 0 ltac:(lia) ltac:(lia)) as Hz.
    rewrite Z.add_0_r in Hz. destruct (sub t off 1) as [|y [|]]; try done. change (znth [y] 0) with y in Hz. change (le_val [y]) with (y + 256 * 0). lia. }
  unfold char_bits. fold x. constructor.
  - intros hp Hw Hr. unfold serdes777_rwchar. rewrite Hld by done. step. fold x. unfold serdes777_rwsizebits. change (3 =? 3) with true. change (1 =? 0) with false. cbn [negb].
    destruct (Z.eqb_spec x 0) as [E0|E0].
    + cbn [length] in *. rewrite hputbit_eq by done. step. done.
    + destruct (Z.ltb_spec x 3) as [E3|E3].
      * destruct (hputbits3 hp true (negb (Z.land x 1 =? 0)) (negb (Z.land x 2 =? 0)) Hw Hr) as (P1 & P2 & P3). cbn [c_bool] in P1. rewrite P1. step. rewrite P2. step. rewrite P3. step.
        assert (x = 1 \/ x = 2) as [->| ->] by lia; done.
      * rewrite length_app, mbits_length in *. cbn [length] in *. assert (R3 : room hp 3) by (eapply room_le; [|exact Hr]; lia).
        destruct (hputbits3 hp true true true Hw R3) as (P1 & P2 & P3). cbn [c_bool] in P1, P2, P3. rewrite P1. step. rewrite P2. step. rewrite P3. step.
        destruct (hputs_room hp [true; true; true] 8 Hw Hr) as [W R]. change 8 with (Z.of_nat 8). rewrite rwbits_write by (done || lia). step. by rewrite hputs_app.
  - intros m' hp q Hp _ Hw Hst. pose proof Hp as (Hl & _). unfold serdes777_rwchar. rewrite Hld by done. step. unfold serdes777_rwsizebits. change (3 =? 3) with true. change (0 =? 0) with true. cbn [negb].
    destruct (Z.eqb_spec x 0) as [E0|E0].
    + destruct (hgetbit_stored hp q _ _ Hw Hst) as [-> _]. step. cbn [c_bool]. change (0 =? 0) with true. cbv iota. rewrite aset_zput by lia. step.
      exists (zput m' off (znth m off)). split; [fold x; by rewrite E0|by apply grows_put].
    + destruct (Z.ltb_spec x 3) as [E3|E3].
      * destruct (hgetbit_stored hp q _ _ Hw Hst) as [-> Hst1]. step. destruct (hgetbit_stored hp _ _ _ Hw Hst1) as [G1 Hst2].
        destruct (hgetbit_stored hp _ _ _ Hw Hst2) as [G2 _]. cbn [c_bool]. change (1 =? 0) with false. cbv iota. rewrite G1. step. rewrite G2. step.
        destruct (Z.ltb_spec (c_bool (Z.testbit x 1)) 0); [by destruct (Z.testbit x 1)|].
        assert (Hnum : c_bool (Z.testbit x 0) + Z.shiftl (c_bool (Z.testbit x 1)) 1 = x) by (assert (x = 1 \/ x = 2) as [-> | ->] by lia; done).
        rewrite Hnum. destruct (Z.ltb_spec x 3); [|lia]. rewrite (uwrap_small 8) by lia. rewrite aset_zput by lia. step.
        exists (zput m' off (znth m off)). split; [|by apply grows_put]. fold x. change (length [true; Z.testbit x 0; Z.testbit x 1]) with 3%nat. by replace (q + 1 + 1 + 1) with (q + Z.of_nat 3) by lia.
      * apply stored_app in Hst as [Hst0 Hst8]. destruct (hgetbit_stored hp q _ _ Hw Hst0) as [-> Hst1]. step. destruct (hgetbit_stored hp _ _ _ Hw Hst1) as [G1 Hst2].
        destruct (hgetbit_stored hp _ _ _ Hw Hst2) as [G2 _]. cbn [c_bool] in *. change (1 =? 0) with false. cbv iota. rewrite G1. step. rewrite G2. step.
        change (1 <? 0) with false. change (1 + Z.shiftl 1 1 <? 3) with false. cbv iota. change (Z.of_nat (length [true; true; true])) with 3 in Hst8.
        destruct (rwbits_read m m' off 8 1 hp (q + 3)) as (m2 & E & Hg & Ha); try done; try lia.
        replace (q + 1 + 1 + 1) with (q + 3) by lia. change 8 with (Z.of_nat 8). rewrite E. step. exists m2. split; [|done]. cbn [negb]. rewrite length_app, mbits_length. cbn [length].
        change (Z.of_nat 8 =? Z.of_nat 8) with true. cbn [negb]. by replace (q + 3 + Z.of_nat 8) with (q + Z.of_nat (3 + 8)) by lia.
Qed.

(** ** Sequences of fields *)

Lemma znth_neg m i : i < 0 -> znth m i = 0.
Proof. intros H. unfold znth, aget. by destruct (Z.leb_spec 0 i); [lia|]. Qed.

Lemma grows_agree m' m'' m R : grows m' m'' m -> agree m' m R -> agree m'' m R.
Proof. intros [_ Hg] Ha i Hi. destruct (Z.lt_ge_cases i 0); [by rewrite !znth_neg by done|]. by apply Hg, Ha. Qed.

Lemma grows_trans m1 m2 m3 m : grows m1 m2 m -> grows m2 m3 m -> grows m1 m3 m.
Proof. intros [_ G1] [P G2]. split; [done|]. intros i Hi E. by apply G2, G1. Qed.

Lemma grows_refl m' m : part m' m -> grows m' m' m.
Proof. done. Qed.

Lemma load_agree m' m off n : length m' = length m -> 0 <= off -> off + Z.of_nat n <= Z.of_nat (length m) -> agree m' m (span off n) -> load m' off n = load m off n.
Proof. intros Hl Ho Hm Ha. rewrite !load_eq by lia. by rewrite (sub_agree m' m). Qed.

Section tokens.
Context (lo : leftover) (m : list Z) (Hb : bytes m).

(** What a size of a token stands for. *)
Definition good_size (size : Z) : Prop := size = 1 \/ size = 2 \/ size = 4 \/ size = 8 \/ size < 0.

Definition field_bits (ptr size : Z) : list bool :=
  if size <? 0 then mbits m (8 * ptr) (8 * Z.to_nat (- size))
  else if size =? 1 then char_bits m ptr
  else if size =? 2 then num_bits m ptr 2 4
  else if size =? 4 then num_bits m ptr 4 5
  else num_bits m ptr 8 6.

Lemma codes_rw ptr size : good_size size -> 0 <= ptr -> ptr + Z.abs size <= Z.of_nat (length m) ->
  codes nothing (fun f m hp => serdes777_rw lo f m ptr size hp) m (field_bits ptr size) (span ptr (Z.to_nat (Z.abs size))).
Proof using Hb.
  intros Hs Hp Hm. destruct (Z.ltb_spec size 0) as [Hneg|Hpos].
  - unfold serdes777_rw, field_bits. destruct (Z.ltb_spec size 0); [|lia]. replace (- size * 8) with (8 * Z.of_nat (Z.to_nat (- size))) by lia.
    replace (Z.to_nat (Z.abs size)) with (Z.to_nat (- size)) by lia. apply codes_raw; [done|done|lia].
  - destruct Hs as [->|[->|[->|[->|]]]]; [apply codes_char; [done|lia]| | | |lia].
    + apply (codes_num m ptr 2 4); [done|done|lia|lia].
    + apply (codes_num m ptr 4 5); [done|done|lia|lia].
    + apply (codes_num m ptr 8 6); [done|done|lia|lia].
Qed.

Fixpoint token_bits (ptr : Z) (tokens : list (Z * Z)) : list bool :=
  match tokens with [] => [] | (o, s) :: tokens => field_bits (ptr + o) s ++ token_bits ptr tokens end.

Fixpoint token_span (ptr : Z) (tokens : list (Z * Z)) (i : Z) : Prop :=
  match tokens with [] => False | (o, s) :: tokens => span (ptr + o) (Z.to_nat (Z.abs s)) i \/ token_span ptr tokens i end.

Definition tokens_ok (ptr : Z) (tokens : list (Z * Z)) : Prop :=
  Forall (fun '(o, s) => good_size s /\ 0 <= ptr + o /\ ptr + o + Z.abs s <= Z.of_nat (length m)) tokens.

Lemma codec_write ptr tokens : tokens_ok ptr tokens -> forall i total hp, 0 <= total -> hwf hp -> room hp (length (token_bits ptr tokens)) ->
  codec_loop lo 1 m ptr tokens i total hp = Some (total + Z.of_nat (length (token_bits ptr tokens)), m, hputs hp (token_bits ptr tokens)).
Proof using Hb.
  induction 1 as [|[o s] tokens (Hs & Ho & Hm) Hok IH]; intros i total hp Ht Hw Hr; cbn [codec_loop token_bits] in *; [cbn; by rewrite Z.add_0_r|].
  rewrite length_app in *. destruct (hputs_room hp _ _ Hw Hr) as [Hw' Hr'].
  rewrite (c_write _ _ _ _ _ (codes_rw (ptr + o) s Hs Ho Hm)) by (done || (eapply room_le; [|exact Hr]; lia)). step.
  destruct (Z.ltb_spec (Z.of_nat (length (field_bits (ptr + o) s))) 0); [lia|]. rewrite IH by (done || lia). rewrite hputs_app. do 3 f_equal. lia.
Qed.

Lemma codec_read ptr tokens : tokens_ok ptr tokens -> forall i total m' hp q, 0 <= total -> part m' m -> hwf hp -> stored hp q (token_bits ptr tokens) ->
  exists m'', codec_loop lo 0 m' ptr tokens i total (hat hp q) =
    Some (total + Z.of_nat (length (token_bits ptr tokens)), m'', hat hp (q + Z.of_nat (length (token_bits ptr tokens)))) /\ grows m' m'' m /\ agree m'' m (token_span ptr tokens).
Proof using Hb.
  induction 1 as [|[o s] tokens (Hs & Ho & Hm) Hok IH]; intros i total m' hp q Ht Hp Hw Hst; cbn [codec_loop token_bits token_span] in *.
  - exists m'. cbn. rewrite !Z.add_0_r. split; [done|]. split; [by apply grows_refl|]. by intros j [].
  - apply stored_app in Hst as [Hst1 Hst2]. destruct (c_read _ _ _ _ _ (codes_rw (ptr + o) s Hs Ho Hm) m' hp q Hp ltac:(by intros j []) Hw Hst1) as (m1 & -> & G1 & A1).
    step. destruct (Z.ltb_spec (Z.of_nat (length (field_bits (ptr + o) s))) 0); [lia|].
    edestruct (IH (i + 1) (total + Z.of_nat (length (field_bits (ptr + o) s))) m1 hp) as (m2 & -> & G2 & A2); [lia|by destruct G1|done|exact Hst2|].
    exists m2. rewrite length_app, Nat2Z.inj_add. split; [by rewrite !Z.add_assoc|]. split; [by eapply grows_trans|].
    intros j [Hj|Hj]; [|by apply A2]. by eapply (grows_agree m1 m2).
Qed.

Lemma codes_codec ptr tokens : tokens_ok ptr tokens ->
  codes nothing (fun f m hp => serdes777_codec lo f m ptr tokens hp) m (token_bits ptr tokens) (token_span ptr tokens).
Proof using Hb.
  intros Hok. constructor.
  - intros hp Hw Hr. unfold serdes777_codec. by rewrite codec_write.
  - intros m' hp q Hp _ Hw Hst. unfold serdes777_codec. by apply codec_read.
Qed.
End tokens.

(** *** Loops over structs *)

Lemma load_byte m off : 0 <= off < Z.of_nat (length m) -> load m off 1 = Some (znth m off).
Proof.
  intros Ho. rewrite load_eq by lia. f_equal. pose proof (sub_length m off 1 ltac:(lia) ltac:(lia)) as Hl. pose proof (znth_sub m off 1 0 ltac:(lia) ltac:(lia)) as Hz.
  rewrite Z.add_0_r in Hz. destruct (sub m off 1) as [|y [|]]; try done. change (znth [y] 0) with y in Hz. change (le_val [y]) with (y + 256 * 0). lia.
Qed.

Definition loop_bits (B : Z -> list bool) (n : nat) : list bool := concat (map (fun k => B (Z.of_nat k)) (seq 0 n)).
Definition loop_span (R : Z -> Z -> Prop) (n : nat) (i : Z) : Prop := exists k, 0 <= k < Z.of_nat n /\ R k i.

Lemma loop_bits_snoc B n : loop_bits B (S n) = loop_bits B n ++ B (Z.of_nat n).
Proof. unfold loop_bits. rewrite seq_S, map_app, concat_app. cbn. by rewrite app_nil_r. Qed.

(** The body of the loops over inputs, outputs, prices. *)
Definition rw_round (F : Z -> Z -> list Z -> HUFF -> option (Z * list Z * HUFF)) (f : Z) (i : Z) '((total, m, TX) : Z * list Z * HUFF)
    : option ((Z * list Z * HUFF) + (Z * list Z * HUFF)) :=
  '(n, m, TX) ← F i f m TX;
  if n <? 0 then Some (inr (-1, m, TX)) else Some (inl (total + n, m, TX)).

Section loops.
Context (F : Z -> Z -> list Z -> HUFF -> option (Z * list Z * HUFF)) (m : list Z) (B : Z -> list bool) (R : Z -> Z -> Prop) (n : nat).
Context (HF : forall i, 0 <= i < Z.of_nat n -> codes nothing (F i) m (B i) (R i)).

Lemma loop_write total hp : hwf hp -> room hp (length (loop_bits B n)) ->
  for_ret n 0 (rw_round F 1) (total, m, hp) = Some (inl (total + Z.of_nat (length (loop_bits B n)), m, hputs hp (loop_bits B n))).
Proof using HF.
  intros Hw Hr. destruct (for_ret_inv (fun k '(t, m', h) => m' = m /\ t = total + Z.of_nat (length (loop_bits B (Z.to_nat k))) /\ h = hputs hp (loop_bits B (Z.to_nat k)) /\
      exists rest, length (loop_bits B n) = (length (loop_bits B (Z.to_nat k)) + rest)%nat) n 0 (rw_round F 1) (total, m, hp)) as ([[t m'] h] & -> & -> & -> & -> & _).
  - intros k [[t m'] h] Hk (-> & -> & -> & _). unfold rw_round.
    assert (Hrest : exists rest, length (loop_bits B n) = (length (loop_bits B (Z.to_nat k)) + (length (B k) + rest))%nat).
    { assert (E : n = (Z.to_nat k + (1 + (n - Z.to_nat k - 1)))%nat) by lia. exists (length (concat (map (fun k => B (Z.of_nat k)) (seq (Z.to_nat k + 1) (n - Z.to_nat k - 1))))).
      unfold loop_bits. rewrite E at 1. rewrite !seq_app, !map_app, !concat_app, !length_app. cbn [seq map concat]. rewrite app_nil_r, Nat.add_0_l.
      rewrite Z2Nat.id by lia. lia. }
    destruct Hrest as [rest Hrest]. rewrite Hrest in Hr. destruct (hputs_room hp (loop_bits B (Z.to_nat k)) (length (B k) + rest) Hw Hr) as [Hw' Hr'].
    rewrite (c_write _ _ _ _ _ (HF k ltac:(lia))) by (done || (eapply room_le; [|exact Hr']; lia)). step. destruct (Z.ltb_spec (Z.of_nat (length (B k))) 0); [lia|].
    eexists. split; [reflexivity|]. replace (Z.to_nat (k + 1)) with (S (Z.to_nat k)) by lia. rewrite loop_bits_snoc, Z2Nat.id, hputs_app, length_app by lia.
    split_and!; [done|lia|done|]. exists rest. lia.
  - change (loop_bits B (Z.to_nat 0)) with (@nil bool). split_and!; [done|cbn; lia|done|]. exists (length (loop_bits B n)). done.
  - by rewrite Z.add_0_l, Nat2Z.id.
Qed.

Lemma loop_read total m' hp q : part m' m -> hwf hp -> stored hp q (loop_bits B n) ->
  exists m'', for_ret n 0 (rw_round F 0) (total, m', hat hp q) =
    Some (inl (total + Z.of_nat (length (loop_bits B n)), m'', hat hp (q + Z.of_nat (length (loop_bits B n))))) /\ grows m' m'' m /\ agree m'' m (loop_span R n).
Proof using HF.
  intros Hp Hw Hst. destruct (for_ret_inv (fun k '(t, m2, h) => t = total + Z.of_nat (length (loop_bits B (Z.to_nat k))) /\
      h = hat hp (q + Z.of_nat (length (loop_bits B (Z.to_nat k)))) /\ grows m' m2 m /\ agree m2 m (loop_span R (Z.to_nat k))) n 0 (rw_round F 0) (total, m', hat hp q))
    as ([[t m2] h] & -> & -> & -> & Hg & Ha).
  - intros k [[t m2] h] Hk (-> & -> & Hg & Ha). unfold rw_round.
    assert (Hpre : exists rest, loop_bits B n = loop_bits B (Z.to_nat k) ++ B k ++ rest).
    { assert (E : n = (Z.to_nat k + (1 + (n - Z.to_nat k - 1)))%nat) by lia. exists (concat (map (fun k => B (Z.of_nat k)) (seq (Z.to_nat k + 1) (n - Z.to_nat k - 1)))).
      unfold loop_bits. rewrite E at 1. rewrite !seq_app, !map_app, !concat_app. cbn [seq map concat]. rewrite app_nil_r, Nat.add_0_l. by rewrite Z2Nat.id by lia. }
    destruct Hpre as [rest E]. rewrite E in Hst. apply stored_app in Hst as [_ Hst]. apply stored_app in Hst as [Hst _].
    destruct (c_read _ _ _ _ _ (HF k ltac:(lia)) m2 hp _ ltac:(by destruct Hg) ltac:(by intros j []) Hw Hst) as (m3 & -> & G3 & A3). step.
    destruct (Z.ltb_spec (Z.of_nat (length (B k))) 0); [lia|]. eexists. split; [reflexivity|]. replace (Z.to_nat (k + 1)) with (S (Z.to_nat k)) by lia.
    rewrite loop_bits_snoc, Z2Nat.id, length_app, Nat2Z.inj_add, !Z.add_assoc by lia. split_and!; [done|done|by eapply grows_trans|].
    intros j (i & Hi & HR). destruct (Z.eq_dec i k) as [->|]; [by apply A3|]. eapply (grows_agree m2 m3); [done|exact Ha|]. exists i. split; [lia|done].
  - change (loop_bits B (Z.to_nat 0)) with (@nil bool). cbn [length Z.of_nat]. rewrite !Z.add_0_r. split_and!; [done|done|by apply grows_refl|]. intros j (i & Hi & _). lia.
  - rewrite Z.add_0_l, Nat2Z.id in *. by exists m2.
Qed.
End loops.

(** ** The parts of a transaction *)

Section parts.
Context (lo : leftover) (m : list Z) (Hb : bytes m).

(** The address types that are written and read in the same way. *)
Definition addr_ok (type : Z) : Prop := type = PEGGY_ADDRCREATE \/ type = PEGGY_ADDRNXT \/ type = PEGGY_ADDR777.

Definition addr_tokens (type : Z) : list (Z * Z) :=
  if type =? PEGGY_ADDRNXT then [(0, -8)]
  else if type =? PEGGY_ADDRCREATE then (0, -32) :: map (fun '(o, s) => (32 + o, s)) locktokens
  else [(0, -48)].

Lemma codes_addr addr type : addr_ok type -> 0 <= addr -> addr + 48 <= Z.of_nat (length m) ->
  codes nothing (fun f m hp => serdes777_rwaddr lo f m addr type hp) m (token_bits m addr (addr_tokens type)) (token_span addr (addr_tokens type)).
Proof using Hb.
  intros Ht Ha Hm. assert (Hone : forall s, s < 0 -> - s <= 48 -> codes nothing (fun f m hp => serdes777_rw lo f m addr s hp) m (token_bits m addr [(0, s)]) (token_span addr [(0, s)])).
  { intros s Hs Hs48. pose proof (codes_rw lo m Hb addr s ltac:(unfold good_size; lia) Ha ltac:(lia)) as C. cbn [token_bits token_span]. rewrite Z.add_0_r, app_nil_r.
    destruct C as [W R]. constructor; [exact W|]. intros m' hp q Hp H0 Hw Hst. destruct (R m' hp q Hp H0 Hw Hst) as (m2 & E & G & A). exists m2. split; [done|]. split; [done|].
    intros j [Hj|[]]. by apply A. }
  destruct Ht as [-> | [-> | ->]]; [|exact (Hone (-8) ltac:(lia) ltac:(lia))|exact (Hone (-48) ltac:(lia) ltac:(lia))].
  assert (Hlock : tokens_ok m (addr + 32) locktokens) by (repeat (constructor; [unfold good_size; lia|]); constructor).
  assert (Eb : token_bits m addr (addr_tokens PEGGY_ADDRCREATE) = field_bits m addr (-32) ++ token_bits m (addr + 32) locktokens).
  { cbn [addr_tokens PEGGY_ADDRCREATE PEGGY_ADDRNXT Z.eqb Pos.eqb locktokens map token_bits]. rewrite Z.add_0_r, !Z.add_assoc. done. }
  assert (Es : forall i, token_span addr (addr_tokens PEGGY_ADDRCREATE) i -> span addr 32 i \/ token_span (addr + 32) locktokens i).
  { intros i. cbn [addr_tokens PEGGY_ADDRCREATE PEGGY_ADDRNXT Z.eqb Pos.eqb locktokens map token_span]. rewrite Z.add_0_r, !Z.add_assoc. tauto. }
  rewrite Eb. pose proof (codes_rw lo m Hb addr (-32) ltac:(unfold good_size; lia) Ha ltac:(lia)) as C1. pose proof (codes_codec lo m Hb (addr + 32) locktokens Hlock) as C2.
  constructor; rewrite length_app.
  - intros hp Hw Hr. destruct (hputs_room hp _ _ Hw Hr) as [Hw' Hr']. unfold serdes777_rwaddr. cbn [PEGGY_ADDRCREATE PEGGY_ADDRBTCD PEGGY_ADDRNXT Z.eqb Pos.eqb].
    rewrite (c_write _ _ _ _ _ C1) by (done || (eapply room_le; [|exact Hr]; lia)). step. destruct (Z.ltb_spec (Z.of_nat (length (field_bits m addr (-32)))) 0); [lia|].
    unfold serdes777_rwlock. rewrite (c_write _ _ _ _ _ C2) by done. step. destruct (Z.ltb_spec (Z.of_nat (length (token_bits m (addr + 32) locktokens))) 0); [lia|].
    rewrite hputs_app. do 3 f_equal. lia.
  - intros m' hp q Hp _ Hw Hst. apply stored_app in Hst as [Hst1 Hst2]. unfold serdes777_rwaddr. cbn [PEGGY_ADDRCREATE PEGGY_ADDRBTCD PEGGY_ADDRNXT Z.eqb Pos.eqb].
    destruct (c_read _ _ _ _ _ C1 m' hp q Hp ltac:(by intros j []) Hw Hst1) as (m1 & -> & G1 & A1). step.
    destruct (Z.ltb_spec (Z.of_nat (length (field_bits m addr (-32)))) 0); [lia|]. unfold serdes777_rwlock.
    destruct (c_read _ _ _ _ _ C2 m1 hp _ ltac:(by destruct G1) ltac:(by intros j []) Hw Hst2) as (m2 & -> & G2 & A2). step.
    destruct (Z.ltb_spec (Z.of_nat (length (token_bits m (addr + 32) locktokens))) 0); [lia|]. exists m2. rewrite Nat2Z.inj_add, Z.add_assoc. split; [done|].
    split; [by eapply grows_trans|]. intros j Hj. destruct (Es j Hj) as [Hs|Hs]; [by eapply (grows_agree m1 m2)|by apply A2].
Qed.

(** An input (with 8 bytes for the amount) or an output (with 4 for the ratio). *)
Definition inout_bits (iter p : Z) : list bool :=
  field_bits m p 1 ++ field_bits m (p + 1) 1 ++ token_bits m (p + 8) (addr_tokens (znth m p)) ++ field_bits m (p + 56) (if iter =? 0 then 8 else 4).

Definition inout_span (iter p : Z) (i : Z) : Prop :=
  span p 1 i \/ span (p + 1) 1 i \/ token_span (p + 8) (addr_tokens (znth m p)) i \/ span (p + 56) (if (iter =? 0)%Z then 8 else 4)%nat i.

Lemma codes_inout iter p : addr_ok (znth m p) -> 0 <= p -> p + 64 <= Z.of_nat (length m) ->
  codes nothing (fun f m hp => serdes777_rwinout lo f iter m p hp) m (inout_bits iter p) (inout_span iter p).
Proof using Hb.
  intros Ht Hp Hm. set (s4 := if iter =? 0 then 8 else 4). assert (Hs4 : s4 = 8 \/ s4 = 4) by (unfold s4; destruct (iter =? 0); auto).
  assert (En : Z.to_nat (Z.abs s4) = (if (iter =? 0)%Z then 8 else 4)%nat) by (unfold s4; destruct (iter =? 0); done).
  pose proof (codes_rw lo m Hb p 1 ltac:(unfold good_size; lia) Hp ltac:(lia)) as C1. pose proof (codes_rw lo m Hb (p + 1) 1 ltac:(unfold good_size; lia) ltac:(lia) ltac:(lia)) as C2.
  pose proof (codes_addr (p + 8) _ Ht ltac:(lia) ltac:(lia)) as C3. pose proof (codes_rw lo m Hb (p + 56) s4 ltac:(unfold good_size; lia) ltac:(lia) ltac:(lia)) as C4.
  unfold inout_bits, inout_span. fold s4. rewrite <- En. constructor; rewrite !length_app.
  - intros hp Hw Hr. destruct (hputs_room hp _ _ Hw Hr) as [W1 R1]. destruct (hputs_room _ _ _ W1 R1) as [W2 R2]. destruct (hputs_room _ _ _ W2 R2) as [W3 R3].
    unfold serdes777_rwinout. fold s4. rewrite (c_write _ _ _ _ _ C1) by (done || (eapply room_le; [|exact Hr]; lia)). step.
    rewrite (c_write _ _ _ _ _ C2) by (done || (eapply room_le; [|exact R1]; lia)). step. rewrite load_byte by lia. step.
    rewrite (c_write _ _ _ _ _ C3) by (done || (eapply room_le; [|exact R2]; lia)). step. rewrite (c_write _ _ _ _ _ C4) by done. step.
    repeat match goal with |- context [Z.of_nat ?x <? 0] => destruct (Z.ltb_spec (Z.of_nat x) 0); [lia|] end. cbn [orb]. rewrite !hputs_app. do 3 f_equal. lia.
  - intros m' hp q Hpt _ Hw Hst. apply stored_app in Hst as [S1 Hst]. apply stored_app in Hst as [S2 Hst]. apply stored_app in Hst as [S3 S4].
    unfold serdes777_rwinout. fold s4. destruct (c_read _ _ _ _ _ C1 m' hp q Hpt ltac:(by intros j []) Hw S1) as (m1 & -> & G1 & A1). step.
    destruct (c_read _ _ _ _ _ C2 m1 hp _ ltac:(by destruct G1) ltac:(by intros j []) Hw S2) as (m2 & -> & G2 & A2). step.
    assert (A12 : agree m2 m (span p 1)) by (by eapply (grows_agree m1)). assert (Hl2 : length m2 = length m) by apply G2.
    rewrite load_byte by lia. step. rewrite (A12 p) by (unfold span; lia).
    destruct (c_read _ _ _ _ _ C3 m2 hp _ ltac:(by destruct G2) ltac:(by intros j []) Hw S3) as (m3 & -> & G3 & A3). step.
    destruct (c_read _ _ _ _ _ C4 m3 hp _ ltac:(by destruct G3) ltac:(by intros j []) Hw S4) as (m4 & -> & G4 & A4). step.
    repeat match goal with |- context [Z.of_nat ?x <? 0] => destruct (Z.ltb_spec (Z.of_nat x) 0); [lia|] end. cbn [orb]. exists m4. rewrite !Nat2Z.inj_add, !Z.add_assoc. split; [done|].
    assert (G34 : grows m2 m4 m) by (by eapply grows_trans). assert (G14 : grows m1 m4 m) by (by eapply grows_trans).
    split; [by eapply grows_trans|]. intros j [Hj|[Hj|[Hj|Hj]]]; [by apply (grows_agree m1 m4 m _ G14 A1)|by apply (grows_agree m2 m4 m _ G34 A2)|by apply (grows_agree m3 m4 m _ G4 A3)|by apply A4].
Qed.

(** The prices. *)
Definition feed_bits (p k : Z) : list bool := token_bits m (p + 8 + 4 * k) [(0, 4)].
Definition prices_bits (p : Z) : list bool := token_bits m p pricetokens ++ loop_bits (feed_bits p) (Z.to_nat (le_val (sub m p 2))).
Definition prices_span (p : Z) (i : Z) : Prop :=
  token_span p pricetokens i \/ loop_span (fun k => token_span (p + 8 + 4 * k) [(0, 4)]) (Z.to_nat (le_val (sub m p 2))) i.

Lemma rw_array_eq f m0 base stride tokens num t TX :
  rw_array lo f m0 base stride tokens num t TX =
    (r ← for_ret (Z.to_nat num) 0 (rw_round (fun i f m TX => serdes777_codec lo f m (base + stride * i) tokens TX) f) (t, m0, TX);
     Some (match r with inl r => r | inr r => r end)).
Proof. reflexivity. Qed.

Lemma codes_prices p : 0 <= p -> p + 1032 <= Z.of_nat (length m) -> le_val (sub m p 2) <= 256 ->
  codes nothing (fun f m hp => serdes777_rwprices lo f m p hp) m (prices_bits p) (prices_span p).
Proof using Hb.
  intros Hp Hm Hn. assert (Hn0 : 0 <= le_val (sub m p 2)) by apply (le_val_range _ (sub_bytes m p 2 Hb)).
  assert (Hok : tokens_ok m p pricetokens) by (repeat (constructor; [unfold good_size; lia|]); constructor).
  pose proof (codes_codec lo m Hb p pricetokens Hok) as C1.
  set (n := Z.to_nat (le_val (sub m p 2))) in *.
  assert (C2 : forall i, 0 <= i < Z.of_nat n -> codes nothing ((fun i f m TX => serdes777_codec lo f m (p + 8 + 4 * i) [(0, 4)] TX) i) m (feed_bits p i) (token_span (p + 8 + 4 * i) [(0, 4)])).
  { intros i Hi. apply (codes_codec lo m Hb). repeat (constructor; [unfold good_size; lia|]); constructor. }
  unfold prices_bits, prices_span. fold n. constructor; rewrite length_app.
  - intros hp Hw Hr. destruct (hputs_room hp _ _ Hw Hr) as [W1 R1]. unfold serdes777_rwprices.
    rewrite (c_write _ _ _ _ _ C1) by (done || (eapply room_le; [|exact Hr]; lia)). step. destruct (Z.ltb_spec (Z.of_nat (length (token_bits m p pricetokens))) 0); [lia|].
    rewrite load_eq by lia. step. rewrite rw_array_eq. fold n. rewrite (loop_write _ m (feed_bits p) _ n C2) by done. step. rewrite hputs_app. do 3 f_equal. lia.
  - intros m' hp q Hpt _ Hw Hst. apply stored_app in Hst as [S1 S2]. unfold serdes777_rwprices.
    destruct (c_read _ _ _ _ _ C1 m' hp q Hpt ltac:(by intros j []) Hw S1) as (m1 & -> & G1 & A1). step. destruct (Z.ltb_spec (Z.of_nat (length (token_bits m p pricetokens))) 0); [lia|].
    assert (Hl1 : length m1 = length m) by apply G1. rewrite (load_agree m1 m) by (done || lia || (intros j Hj; apply A1; left; unfold span in *; lia)). rewrite load_eq by lia. step.
    rewrite rw_array_eq. fold n. destruct (loop_read _ m (feed_bits p) _ n C2 (Z.of_nat (length (token_bits m p pricetokens))) m1 hp _ ltac:(by destruct G1) Hw S2) as (m2 & -> & G2 & A2).
    step. exists m2. rewrite Nat2Z.inj_add, Z.add_assoc. split; [done|]. split; [by eapply grows_trans|]. intros j [Hj|Hj]; [by eapply (grows_agree m1 m2)|by apply A2].
Qed.
End parts.

(** ** The whole transaction *)

(** A transaction without a message, funding, bets and micropayments, with addresses whose
    code is the same in both directions. *)
Record supported (m : list Z) : Prop := {
  sp_length : length m = tx_size;
  sp_bytes : bytes m;
  sp_flags : Z.land (znth m tx_flags) 1 = 0;
  sp_msglen : znth m tx_msglen = 0;
  sp_kind : znth m tx_txtype <> PEGGY_TXBET /\ znth m tx_txtype <> PEGGY_TXMICROPAY;
  sp_prices : znth m tx_txtype = PEGGY_TXPRICES -> le_val (sub m tx_details 2) <= 256;
  sp_inputs : znth m tx_numinputs <= 15 /\ forall i, 0 <= i < znth m tx_numinputs -> addr_ok (znth m (tx_inputs + 64 * i));
  sp_outputs : znth m tx_numoutputs <= 16 /\ forall i, 0 <= i < znth m tx_numoutputs -> addr_ok (znth m (tx_outputs + 64 * i)) }.

Definition inouts_bits (m : list Z) (iter base num : Z) : list bool := loop_bits (fun i => inout_bits m iter (base + 64 * i)) (Z.to_nat num).
Definition inouts_span (m : list Z) (iter base num : Z) : Z -> Prop := loop_span (fun i => inout_span m iter (base + 64 * i)) (Z.to_nat num).

Definition details_bits (m : list Z) : list bool := if znth m tx_txtype =? PEGGY_TXPRICES then prices_bits m tx_details else [].
Definition details_span (m : list Z) (i : Z) : Prop := znth m tx_txtype = PEGGY_TXPRICES /\ prices_span m tx_details i.

(** The bits behind the length. *)
Definition tx_body (m : list Z) : list bool :=
  token_bits m 0 (tail hdrtokens) ++ inouts_bits m 0 tx_inputs (znth m tx_numinputs) ++ inouts_bits m 1 tx_outputs (znth m tx_numoutputs) ++ details_bits m.
Definition tx_bits (m : list Z) : list bool := mbits m 0 16 ++ tx_body m.

(** The bytes of a transaction that count. *)
Definition tx_span (m : list Z) (i : Z) : Prop :=
  token_span 0 hdrtokens i \/ inouts_span m 0 tx_inputs (znth m tx_numinputs) i \/ inouts_span m 1 tx_outputs (znth m tx_numoutputs) i \/ details_span m i.

Section transaction.
Context (lo : leftover) (m : list Z) (Hsp : supported m).

Lemma size_ok : Z.of_nat (length m) = 4632.
Proof using Hsp. rewrite (sp_length _ Hsp). vm_compute. reflexivity. Qed.

Lemma codes_header : codes nothing (fun f m hp => serdes777_codec lo f m 0 hdrtokens hp) m (token_bits m 0 hdrtokens) (token_span 0 hdrtokens).
Proof using Hsp.
  pose proof size_ok as Hsz. apply (codes_codec lo m (sp_bytes _ Hsp)). unfold hdrtokens, tx_numinputs, tx_numoutputs, tx_txtype, tx_flags, tx_msglen, tx_numdetails, tx_timestamp.
  repeat (constructor; [unfold good_size; lia|]); constructor.
Qed.

Lemma codes_inouts iter base num : (forall i, 0 <= i < num -> addr_ok (znth m (base + 64 * i))) -> 0 <= base -> base + 64 * num <= 4632 ->
  forall i, 0 <= i < Z.of_nat (Z.to_nat num) ->
    codes nothing ((fun i f m hp => serdes777_rwinout lo f iter m (base + 64 * i) hp) i) m (inout_bits m iter (base + 64 * i)) (inout_span m iter (base + 64 * i)).
Proof using Hsp. pose proof size_ok as Hsz. intros Ht Hbase Hm i Hi. apply codes_inout; [exact (sp_bytes _ Hsp)|apply Ht; lia|lia|lia]. Qed.

(** What the reader has seen when it comes to the details. *)
Definition controls (i : Z) : Prop := i = tx_txtype \/ i = tx_numdetails \/ i = tx_msglen.

Lemma codes_details : codes controls (fun f m hp => serdes777_rwdetails lo f m hp) m (details_bits m) (details_span m).
Proof using Hsp.
  pose proof size_ok as Hsz. destruct (sp_kind _ Hsp) as [Hk1 Hk4]. pose proof (sp_msglen _ Hsp) as Hmsg. unfold details_bits, details_span.
  assert (Hld : forall t off, length t = length m -> 0 <= off <= 8 -> load t off 1 = Some (znth t off)) by (intros t off Ht Ho; apply load_byte; lia).
  destruct (Z.eqb_spec (znth m tx_txtype) PEGGY_TXPRICES) as [Hpr|Hpr].
  - pose proof (codes_prices lo m (sp_bytes _ Hsp) tx_details ltac:(unfold tx_details; lia) ltac:(unfold tx_details; lia) (sp_prices _ Hsp Hpr)) as C. constructor.
    + intros hp Hw Hr. unfold serdes777_rwdetails. rewrite !Hld by (done || (unfold tx_txtype, tx_numdetails, tx_msglen; lia)). do 2 step. rewrite Hpr.
      change (PEGGY_TXPRICES =? PEGGY_TXBET) with false. change (PEGGY_TXPRICES =? PEGGY_TXPRICES) with true. cbv iota.
      rewrite (c_write _ _ _ _ _ C) by done. step. destruct (Z.ltb_spec (Z.of_nat (length (prices_bits m tx_details))) 0); [lia|].
      rewrite Hld by (done || (unfold tx_msglen; lia)). step. by rewrite Hmsg.
    + intros m' hp q Hp Hc Hw Hst. pose proof Hp as (Hl & _). unfold serdes777_rwdetails. rewrite !Hld by (done || (unfold tx_txtype, tx_numdetails, tx_msglen; lia)). do 2 step.
      rewrite (Hc tx_txtype), Hpr by (unfold controls; tauto). change (PEGGY_TXPRICES =? PEGGY_TXBET) with false. change (PEGGY_TXPRICES =? PEGGY_TXPRICES) with true. cbv iota.
      destruct (c_read _ _ _ _ _ C m' hp q Hp ltac:(by intros j []) Hw Hst) as (m2 & -> & G2 & A2). step. destruct (Z.ltb_spec (Z.of_nat (length (prices_bits m tx_details))) 0); [lia|].
      rewrite Hld by (apply G2 || (unfold tx_msglen; lia)). step. assert (Hc2 : agree m2 m controls) by (by eapply (grows_agree m' m2)).
      rewrite (Hc2 tx_msglen), Hmsg by (unfold controls; tauto). exists m2. split; [done|]. split; [done|]. intros j [_ Hj]. by apply A2.
  - assert (Hnone : forall f t TX, length t = length m -> znth t tx_txtype = znth m tx_txtype -> znth t tx_msglen = 0 -> serdes777_rwdetails lo f t TX = Some (0, t, TX)).
    { intros f t TX Ht E1 E2. unfold serdes777_rwdetails. rewrite !Hld by (done || (unfold tx_txtype, tx_numdetails, tx_msglen; lia)). do 2 step. rewrite E1.
      destruct (Z.eqb_spec (znth m tx_txtype) PEGGY_TXBET); [done|]. destruct (Z.eqb_spec (znth m tx_txtype) PEGGY_TXPRICES); [done|].
      destruct (Z.eqb_spec (znth m tx_txtype) PEGGY_TXMICROPAY); [done|].
      destruct (znth m tx_txtype =? PEGGY_TXTUNE); cbv iota; step; change (0 <? 0) with false; cbv iota; (rewrite Hld by (done || (unfold tx_msglen; lia))); step; by rewrite E2. }
    constructor.
    + intros hp Hw Hr. by rewrite Hnone.
    + intros m' hp q Hp Hc Hw Hst. pose proof Hp as (Hl & _). rewrite Hnone; [|done|apply Hc; unfold controls; tauto|rewrite <- Hmsg; apply Hc; unfold controls; tauto].
      exists m'. cbn. rewrite Z.add_0_r. split; [done|]. split; [by apply grows_refl|]. by intros j [].
Qed.

Lemma rw_inouts_eq f iter t base n total TX :
  rw_inouts lo f iter t base n total TX = for_ret (Z.to_nat n) 0 (rw_round (fun i f m TX => serdes777_rwinout lo f iter m (base + 64 * i) TX) f) (total, t, TX).
Proof using. reflexivity. Qed.

Lemma codes_tx : codes nothing (fun f m hp => serdes777_rwtx lo f m hp) m (tx_bits m) (tx_span m).
Proof using Hsp.
  pose proof size_ok as Hsz. destruct (sp_inputs _ Hsp) as [Hin Hint]. destruct (sp_outputs _ Hsp) as [Hout Houtt].
  pose proof (codes_inouts 0 tx_inputs (znth m tx_numinputs) Hint ltac:(unfold tx_inputs; lia) ltac:(unfold tx_inputs; lia)) as CI.
  pose proof (codes_inouts 1 tx_outputs (znth m tx_numoutputs) Houtt ltac:(unfold tx_outputs; lia) ltac:(unfold tx_outputs; lia)) as CO.
  pose proof codes_header as CH. pose proof codes_details as CD.
  assert (Eb : tx_bits m = token_bits m 0 hdrtokens ++ inouts_bits m 0 tx_inputs (znth m tx_numinputs) ++ inouts_bits m 1 tx_outputs (znth m tx_numoutputs) ++ details_bits m).
  { unfold tx_bits, tx_body. rewrite app_assoc. reflexivity. }
  assert (Hld : forall t off, length t = length m -> 0 <= off <= 8 -> load t off 1 = Some (znth t off)) by (intros t off Ht Ho; apply load_byte; lia).
  assert (Hz : truth (Z.land (znth m tx_flags) PEGGY_FLAGS_HASFUNDING) = false) by (change PEGGY_FLAGS_HASFUNDING with 1; by rewrite (sp_flags _ Hsp)).
  rewrite Eb. constructor; rewrite !length_app.
  - intros hp Hw Hr. destruct (hputs_room hp _ _ Hw Hr) as [W1 R1]. destruct (hputs_room _ _ _ W1 R1) as [W2 R2]. destruct (hputs_room _ _ _ W2 R2) as [W3 R3].
    unfold serdes777_rwtx. rewrite (c_write _ _ _ _ _ CH) by (done || (eapply room_le; [|exact Hr]; lia)). step.
    destruct (Z.ltb_spec (Z.of_nat (length (token_bits m 0 hdrtokens))) 0); [lia|]. rewrite Hld by (done || (unfold tx_flags, tx_numinputs, tx_numoutputs; lia)). step. rewrite Hz. step.
    change (0 <? 0) with false. cbv iota. rewrite Hld by (done || (unfold tx_flags, tx_numinputs, tx_numoutputs; lia)). step. rewrite rw_inouts_eq. unfold inouts_bits in *.
    rewrite (loop_write _ m _ _ _ CI) by (done || (eapply room_le; [|exact R1]; lia)). step. rewrite Hld by (done || (unfold tx_flags, tx_numinputs, tx_numoutputs; lia)). step. rewrite rw_inouts_eq.
    rewrite (loop_write _ m _ _ _ CO) by (done || (eapply room_le; [|exact R2]; lia)). step. rewrite (c_write _ _ _ _ _ CD) by done. step.
    destruct (Z.ltb_spec (Z.of_nat (length (details_bits m))) 0); [lia|]. rewrite !hputs_app. do 3 f_equal. lia.
  - intros m' hp q Hp _ Hw Hst. apply stored_app in Hst as [S1 Hst]. apply stored_app in Hst as [S2 Hst]. apply stored_app in Hst as [S3 S4].
    unfold serdes777_rwtx. destruct (c_read _ _ _ _ _ CH m' hp q Hp ltac:(by intros j []) Hw S1) as (m1 & -> & G1 & A1). step.
    destruct (Z.ltb_spec (Z.of_nat (length (token_bits m 0 hdrtokens))) 0); [lia|].
    assert (A1c : forall i, 2 <= i <= 7 -> znth m1 i = znth m i).
    { intros i Hi. apply A1. cbn [hdrtokens token_span]. unfold span, tx_numinputs, tx_numoutputs, tx_txtype, tx_flags, tx_msglen, tx_numdetails. cbn. lia. }
    assert (Hl1 : length m1 = length m) by apply G1. rewrite Hld by (done || (unfold tx_flags, tx_numinputs, tx_numoutputs; lia)). step.
    rewrite (A1c tx_flags) by (unfold tx_flags; lia). rewrite Hz. step. change (0 <? 0) with false. cbv iota. rewrite Hld by (done || (unfold tx_flags, tx_numinputs, tx_numoutputs; lia)). step. rewrite (A1c tx_numinputs) by (unfold tx_numinputs; lia). rewrite rw_inouts_eq. unfold inouts_bits in *.
    destruct (loop_read _ m _ _ _ CI (Z.of_nat (length (token_bits m 0 hdrtokens)) + 0) m1 hp _ ltac:(by destruct G1) Hw S2) as (m2 & -> & G2 & A2). step.
    assert (Hl2 : length m2 = length m) by apply G2. rewrite Hld by (done || (unfold tx_flags, tx_numinputs, tx_numoutputs; lia)). step.
    assert (A2c : agree m2 m (fun i => 2 <= i <= 7)) by (by eapply (grows_agree m1 m2)). rewrite (A2c tx_numoutputs) by (unfold tx_numoutputs; lia). rewrite rw_inouts_eq.
    edestruct (loop_read _ m _ _ _ CO) as (m3 & -> & G3 & A3); [by destruct G2|exact Hw|exact S3|]. step.
    assert (A3c : agree m3 m (fun i => 2 <= i <= 7)) by (by eapply (grows_agree m2 m3)).
    destruct (c_read _ _ _ _ _ CD m3 hp _ ltac:(by destruct G3) ltac:(intros j Hj; apply A3c; unfold controls, tx_txtype, tx_numdetails, tx_msglen in Hj; lia) Hw S4) as (m4 & -> & G4 & A4). step.
    destruct (Z.ltb_spec (Z.of_nat (length (details_bits m))) 0); [lia|]. exists m4. rewrite !Nat2Z.inj_add, !Z.add_assoc, Z.add_0_r. split; [done|].
    assert (G34 : grows m2 m4 m) by (by eapply grows_trans). assert (G14 : grows m1 m4 m) by (by eapply grows_trans).
    split; [by eapply grows_trans|]. intros j [Hj|[Hj|[Hj|Hj]]]; [by apply (grows_agree m1 m4 m _ G14 A1)|by apply (grows_agree m2 m4 m _ G34 A2)|by apply (grows_agree m3 m4 m _ G4 A3)|by apply A4].
Qed.
End transaction.

(** ** How many bits *)

Definition size_bits (s : Z) : nat := if s <? 0 then 8 * Z.to_nat (- s) else if s =? 1 then 11 else if s =? 2 then 20 else if s =? 4 then 37 else 70.

Lemma num_bits_length m off n sb : (n = 2 /\ sb = 4 \/ n = 4 /\ sb = 5 \/ n = 8 /\ sb = 6)%nat -> bytes m -> 0 <= off -> off + Z.of_nat n <= Z.of_nat (length m) ->
  (length (num_bits m off n sb) <= sb + 8 * n)%nat.
Proof.
  intros Hn Hb Ho Hm. unfold num_bits. rewrite length_app, !mbits_length.
  pose proof (le_val_range (sub m off n) (sub_bytes m off n Hb)) as Hx. rewrite sub_length in Hx by done.
  destruct (hcalc_bitsize_least (le_val (sub m off n))) as (Hb1 & _ & Hmin); [destruct Hn as [[-> _]|[[-> _]|[-> _]]]; lia|].
  specialize (Hmin (8 * Z.of_nat n) ltac:(lia) ltac:(lia)). lia.
Qed.

Lemma char_bits_length m off : (length (char_bits m off) <= 11)%nat.
Proof. unfold char_bits. destruct (_ =? 0); [cbn; lia|]. destruct (_ <? 3); cbn [length]; [lia|]. rewrite length_app, mbits_length. cbn. lia. Qed.

Lemma field_bits_length m ptr s : bytes m -> good_size s -> 0 <= ptr -> ptr + Z.abs s <= Z.of_nat (length m) -> (length (field_bits m ptr s) <= size_bits s)%nat.
Proof.
  intros Hb Hs Hp Hm. unfold field_bits, size_bits. destruct (Z.ltb_spec s 0); [by rewrite mbits_length|].
  destruct Hs as [->|[->|[->|[->|]]]]; cbn [Z.eqb Pos.eqb]; [apply char_bits_length|apply num_bits_length; lia || done..|lia].
Qed.

Lemma token_bits_length m ptr tokens : bytes m -> tokens_ok m ptr tokens -> (length (token_bits m ptr tokens) <= list_sum (map (fun t => size_bits t.2) tokens))%nat.
Proof.
  intros Hb. induction 1 as [|[o s] tokens (Hs & Ho & Hm) Hok IH]; [done|]. cbn [token_bits map list_sum snd foldr]. rewrite length_app.
  pose proof (field_bits_length m (ptr + o) s Hb Hs Ho Hm). unfold list_sum in IH. lia.
Qed.

Lemma loop_bits_length B n k : (forall i, 0 <= i < Z.of_nat n -> (length (B i) <= k)%nat) -> (length (loop_bits B n) <= n * k)%nat.
Proof.
  induction n as [|n IH]; intros H; [done|]. rewrite loop_bits_snoc, length_app. specialize (H (Z.of_nat n) ltac:(lia)) as H1.
  assert (length (loop_bits B n) <= n * k)%nat by (apply IH; intros i Hi; apply H; lia). lia.
Qed.

Lemma inout_bits_length m iter p : bytes m -> addr_ok (znth m p) -> 0 <= p -> p + 64 <= Z.of_nat (length m) -> (length (inout_bits m iter p) <= 479)%nat.
Proof.
  intros Hb Ht Hp Hm. unfold inout_bits. rewrite !length_app.
  pose proof (field_bits_length m p 1 Hb ltac:(unfold good_size; lia) Hp ltac:(lia)) as H1.
  pose proof (field_bits_length m (p + 1) 1 Hb ltac:(unfold good_size; lia) ltac:(lia) ltac:(lia)) as H2.
  assert (H3 : (length (token_bits m (p + 8) (addr_tokens (znth m p))) <= 387)%nat).
  { etransitivity; [apply token_bits_length; [done|]|destruct Ht as [-> | [-> | ->]]; vm_compute; lia].
    destruct Ht as [-> | [-> | ->]]; cbn [addr_tokens PEGGY_ADDRCREATE PEGGY_ADDRNXT PEGGY_ADDR777 Z.eqb Pos.eqb locktokens map];
      repeat (constructor; [unfold good_size; lia|]); constructor. }
  assert (H4 : (length (field_bits m (p + 56) (if iter =? 0 then 8 else 4)%Z) <= 70)%nat).
  { etransitivity; [apply field_bits_length; [done|unfold good_size; destruct (iter =? 0); lia|lia|destruct (iter =? 0); lia]|]. destruct (iter =? 0); vm_compute; lia. }
  change (size_bits 1) with 11%nat in *. lia.
Qed.

Lemma tx_bits_length m : supported m -> Z.of_nat (length (tx_bits m)) < 8 * 4032.
Proof.
  intros Hsp. pose proof (size_ok m Hsp) as Hsz. pose proof (sp_bytes _ Hsp) as Hb. destruct (sp_inputs _ Hsp) as [Hin Hint]. destruct (sp_outputs _ Hsp) as [Hout Houtt].
  unfold tx_bits, tx_body. rewrite !length_app, mbits_length.
  assert (H1 : (length (token_bits m 0 (tail hdrtokens)) <= 177)%nat).
  { etransitivity; [apply token_bits_length; [done|]|vm_compute; lia]. unfold hdrtokens, tx_numinputs, tx_numoutputs, tx_txtype, tx_flags, tx_msglen, tx_numdetails, tx_timestamp.
    cbn [tail]. repeat (constructor; [unfold good_size; lia|]); constructor. }
  assert (H2 : (length (inouts_bits m 0 tx_inputs (znth m tx_numinputs)) <= Z.to_nat (znth m tx_numinputs) * 479)%nat).
  { apply loop_bits_length. intros i Hi. apply inout_bits_length; [done|apply Hint; lia|unfold tx_inputs; lia|unfold tx_inputs; lia]. }
  assert (H3 : (length (inouts_bits m 1 tx_outputs (znth m tx_numoutputs)) <= Z.to_nat (znth m tx_numoutputs) * 479)%nat).
  { apply loop_bits_length. intros i Hi. apply inout_bits_length; [done|apply Houtt; lia|unfold tx_outputs; lia|unfold tx_outputs; lia]. }
  assert (H4 : (length (details_bits m) <= 77 + 256 * 37)%nat).
  { unfold details_bits. destruct (Z.eqb_spec (znth m tx_txtype) PEGGY_TXPRICES) as [Hk|]; [|cbn; lia]. pose proof (sp_prices _ Hsp Hk) as Hn. unfold prices_bits. rewrite length_app.
    assert (length (token_bits m tx_details pricetokens) <= 77)%nat.
    { etransitivity; [apply token_bits_length; [done|]|vm_compute; lia]. unfold tx_details. repeat (constructor; [unfold good_size; lia|]); constructor. }
    assert (length (loop_bits (feed_bits m tx_details) (Z.to_nat (le_val (sub m tx_details 2)))) <= Z.to_nat (le_val (sub m tx_details 2)) * 37)%nat; [|lia].
    apply loop_bits_length. intros i Hi. etransitivity; [apply token_bits_length; [done|]|vm_compute; lia]. unfold tx_details. repeat (constructor; [unfold good_size; lia|]); constructor. }
  lia.
Qed.

(** ** The length in front *)

(** Everything but the length is the same. *)
Definition same (m1 m : list Z) : Prop := length m1 = length m /\ forall i, 2 <= i -> znth m1 i = znth m i.

Section same.
Context (m1 m : list Z) (Hsame : same m1 m).

Lemma same_mbits p n : 16 <= p -> mbits m1 p n = mbits m p n.
Proof using Hsame.
  intros Hp. unfold mbits. apply map_ext. intros i. unfold bit. destruct Hsame as [_ H]. rewrite H by dmlia. done.
Qed.

Lemma same_sub off n : 2 <= off -> off + Z.of_nat n <= Z.of_nat (length m) -> sub m1 off n = sub m off n.
Proof using Hsame. intros Ho Hm. destruct Hsame as [Hl H]. apply sub_agree; [lia|done|done|]. intros i Hi. unfold span in Hi. apply H. lia. Qed.

Lemma same_field ptr s : good_size s -> 2 <= ptr -> ptr + Z.abs s <= Z.of_nat (length m) -> field_bits m1 ptr s = field_bits m ptr s.
Proof using Hsame.
  intros Hs Hp Hm. unfold field_bits. destruct (Z.ltb_spec s 0); [apply same_mbits; lia|].
  assert (Hnum : forall n sb, ptr + Z.of_nat n <= Z.of_nat (length m) -> num_bits m1 ptr n sb = num_bits m ptr n sb).
  { intros n sb Hn. unfold num_bits. rewrite same_sub by lia. by rewrite (same_mbits (8 * ptr)) by lia. }
  destruct Hs as [->|[->|[->|[->|]]]]; cbn [Z.eqb Pos.eqb]; [|apply Hnum; lia..|lia].
  unfold char_bits. destruct Hsame as [_ H2]. rewrite H2 by lia. by rewrite same_mbits by lia.
Qed.

Lemma same_tokens ptr tokens : tokens_ok m ptr tokens -> Forall (fun t => 2 <= ptr + t.1) tokens -> token_bits m1 ptr tokens = token_bits m ptr tokens.
Proof using Hsame.
  induction 1 as [|[o s] tokens (Hs & Ho & Hm) Hok IH]; intros Hge; [done|]. apply list.Forall_cons in Hge as [Hge1 Hge]. cbn [token_bits fst] in *.
  rewrite same_field by done. by rewrite IH.
Qed.

Lemma same_loop B1 B n : (forall i, 0 <= i < Z.of_nat n -> B1 i = B i) -> loop_bits B1 n = loop_bits B n.
Proof using.
  intros H. induction n as [|n IH]; [done|]. rewrite !loop_bits_snoc, H by lia. f_equal. apply IH. intros i Hi. apply H. lia.
Qed.

Ltac toks := repeat (constructor; [unfold good_size; cbn; lia|]); constructor.

Lemma addr_tokens_ok p type : addr_ok type -> 0 <= p -> p + 48 <= Z.of_nat (length m) -> tokens_ok m p (addr_tokens type) /\ Forall (fun t => 0 <= t.1) (addr_tokens type).
Proof using.
  intros Ht Hp Hm. destruct Ht as [-> | [-> | ->]]; cbn [addr_tokens PEGGY_ADDRCREATE PEGGY_ADDRNXT PEGGY_ADDR777 Z.eqb Pos.eqb locktokens map]; split; toks.
Qed.

Lemma same_inout iter p : addr_ok (znth m p) -> 2 <= p -> p + 64 <= Z.of_nat (length m) -> inout_bits m1 iter p = inout_bits m iter p.
Proof using Hsame.
  intros Ht Hp Hm. unfold inout_bits. assert (Et : znth m1 p = znth m p) by (destruct Hsame as [_ H]; by apply H). rewrite Et.
  rewrite !same_field by (unfold good_size; destruct (iter =? 0); lia). destruct (addr_tokens_ok (p + 8) _ Ht ltac:(lia) ltac:(lia)) as [Hok Hge].
  rewrite same_tokens; [done|done|]. eapply list.Forall_impl; [exact Hge|]. intros t Ht0. cbv beta in *. lia.
Qed.

Lemma same_body : supported m -> tx_body m1 = tx_body m.
Proof using Hsame.
  intros Hsp. pose proof (size_ok m Hsp) as Hsz. pose proof Hsame as [Hl H2]. destruct (sp_inputs _ Hsp) as [Hin Hint]. destruct (sp_outputs _ Hsp) as [Hout Houtt].
  unfold tx_body, inouts_bits, details_bits, prices_bits.
  rewrite !H2 by (unfold tx_numinputs, tx_numoutputs, tx_txtype; lia). f_equal; [|f_equal; [|f_equal]].
  - apply same_tokens; unfold hdrtokens, tx_numinputs, tx_numoutputs, tx_txtype, tx_flags, tx_msglen, tx_numdetails, tx_timestamp; cbn [tail]; toks.
  - apply same_loop. intros i Hi. apply same_inout; [apply Hint; lia|unfold tx_inputs; lia|unfold tx_inputs; lia].
  - apply same_loop. intros i Hi. apply same_inout; [apply Houtt; lia|unfold tx_outputs; lia|unfold tx_outputs; lia].
  - destruct (Z.eqb_spec (znth m tx_txtype) PEGGY_TXPRICES) as [Hk|]; [|done]. pose proof (sp_prices _ Hsp Hk) as Hn.
    rewrite same_sub by (unfold tx_details; lia). f_equal; [apply same_tokens; unfold tx_details; toks|].
    apply same_loop. intros i Hi. unfold feed_bits. apply same_tokens; unfold tx_details; toks.
Qed.

Lemma same_supported : bytes m1 -> supported m -> supported m1.
Proof using Hsame.
  intros Hb1 Hsp. pose proof (size_ok m Hsp) as Hsz. pose proof Hsame as [Hl H2].
  destruct Hsp as [Hlen Hb Hf Hmsg Hk Hpr [Hin Hint] [Hout Houtt]].
  constructor; rewrite ?(H2 tx_flags), ?(H2 tx_msglen), ?(H2 tx_txtype), ?(H2 tx_numinputs), ?(H2 tx_numoutputs) by (unfold tx_flags, tx_msglen, tx_txtype, tx_numinputs, tx_numoutputs; lia); try done; try congruence.
  - intros Hp. rewrite same_sub by (unfold tx_details; lia). by apply Hpr.
  - split; [done|]. intros i Hi. rewrite H2 by (unfold tx_inputs; lia). by apply Hint.
  - split; [done|]. intros i Hi. rewrite H2 by (unfold tx_outputs; lia). by apply Houtt.
Qed.
End same.

(** The length is written over the first bits. *)
Lemma stored_overwrite hp a a' b : hwf hp -> stored hp 0 (a ++ b) -> length a' = length a -> room (hat hp 0) (length a) ->
  stored (hputs (hat hp 0) a') 0 (a' ++ b).
Proof.
  intros Hw (_ & He & Hg) Hl Hr. assert (Hw0 : hwf (hat hp 0)) by (apply hat_wf; [done|lia]).
  destruct (hputs_spec (hat hp 0) a' Hw0 ltac:(by rewrite Hl)) as (_ & _ & _ & He' & Hb). cbn [hat endpos bitoffset] in *. rewrite length_app in *.
  split_and!; [lia|rewrite He', length_app; lia|]. intros k x Hk. rewrite Z.add_0_l, Hb by lia. rewrite Z.sub_0_r, Nat2Z.id. destruct (Z.leb_spec 0 (Z.of_nat k)); [|lia].
  destruct (Nat.lt_ge_cases k (length a')) as [Hlt|Hge].
  - rewrite lookup_app_l in Hk by done. by rewrite Hk.
  - rewrite lookup_app_r in Hk by done. rewrite (lookup_ge_None_2 a' k) by done. specialize (Hg k x). rewrite Z.add_0_l in Hg. apply Hg.
    rewrite lookup_app_r by lia. by rewrite <- Hl.
Qed.

Lemma store_front m x : (length x <= length m)%nat -> store m 0 x = Some (x ++ drop (length x) m).
Proof.
  intros H. unfold store. change (0 <=? 0) with true. destruct (Z.leb_spec (0 + Z.of_nat (length x)) (Z.of_nat (length m))); [|lia]. done.
Qed.

(** ** Serializing *)

Definition tx_len (m : list Z) : Z := (Z.of_nat (length (tx_bits m)) + 7) / 8.
Definition with_len (m : list Z) : list Z := le_bytes 2 (tx_len m) ++ drop 2 m.
Definition blank : list Z := replicate (Z.to_nat 4096) 0.

Lemma blank_length : Z.of_nat (length blank) = 4096.
Proof. unfold blank. rewrite length_replicate. lia. Qed.
Lemma blank_bytes : bytes blank.
Proof. apply bytes_replicate. lia. Qed.
Lemma blank_eq : replicate (Z.to_nat 4096) 0 = blank.
Proof. reflexivity. Qed.
#[local] Opaque blank.

Lemma with_len_same m : supported m -> same (with_len m) m /\ bytes (with_len m) /\ store m 0 (le_bytes 2 (tx_len m)) = Some (with_len m).
Proof.
  intros Hsp. pose proof (size_ok m Hsp) as Hsz. unfold with_len. split; [split|split].
  - rewrite length_app, le_bytes_length, length_drop. lia.
  - intros i Hi. unfold znth, aget. destruct (Z.leb_spec 0 i); [|lia]. rewrite lookup_app_r by (rewrite le_bytes_length; lia). rewrite le_bytes_length, lookup_drop.
    by replace (2 + (Z.to_nat i - 2))%nat with (Z.to_nat i) by lia.
  - apply Forall_app. split; [apply le_bytes_bytes|apply Forall_drop, (sp_bytes _ Hsp)].
  - rewrite store_front by (rewrite le_bytes_length; lia). by rewrite le_bytes_length.
Qed.

Lemma tx_len_range m : supported m -> 2 <= tx_len m <= 4032 /\ Z.of_nat (length (tx_bits m)) <= 8 * tx_len m.
Proof.
  intros Hsp. pose proof (tx_bits_length m Hsp). unfold tx_len. assert (16 <= length (tx_bits m))%nat by (unfold tx_bits; rewrite length_app, mbits_length; lia). dmlia.
Qed.

(** What [serdes777_serialize] does before the signatures. *)
Lemma serialize_body lo m : supported m -> exists TX TX2,
  serdes777_rwtx lo 1 m (_init_HUFF zero_HUFF 4096 blank) = Some (Z.of_nat (length (tx_bits m)), m, TX) /\
  hconv_bitlen (bitoffset TX) = tx_len m /\ hseek TX 0 SEEK_SET = (0, hat TX 0) /\
  serdes777_rw lo 1 (with_len m) 0 (-2) (hat TX 0) = Some (16, with_len m, TX2) /\
  bytes (buf TX2) /\ Z.of_nat (length (buf TX2)) = 4096 /\ stored TX2 0 (tx_bits (with_len m)).
Proof.
  intros Hsp. pose proof (tx_bits_length m Hsp) as Hlen. pose proof (size_ok m Hsp) as Hsz. destruct (with_len_same m Hsp) as (Hsame & Hb1 & _).
  set (hp := _init_HUFF zero_HUFF 4096 blank). assert (Ehp : hp = over blank 0 0) by (unfold hp, _init_HUFF, over; rewrite blank_length; done).
  assert (Hwf : hwf hp) by (rewrite Ehp; apply over_wf; [exact blank_bytes|rewrite blank_length; lia|rewrite blank_length; lia]).
  assert (Hbo : bitoffset hp = 0) by (by rewrite Ehp). assert (Hal : allocsize hp = 4096) by (rewrite Ehp; exact blank_length).
  assert (Hr : room hp (length (tx_bits m))) by (unfold room; rewrite Hbo, Hal; lia). destruct (hputs_spec hp _ Hwf Hr) as (W & B & A & E & _).
  set (TX := hputs hp (tx_bits m)) in *. rewrite Hbo in B, E. rewrite Hal in A. assert (He : 0 <= 0 <= endpos TX) by lia. pose proof (hat_wf TX 0 W He) as W0.
  assert (Hr0 : room (hat TX 0) 16) by (unfold room; change (allocsize (hat TX 0)) with (allocsize TX); change (bitoffset (hat TX 0)) with 0; lia).
  set (TX2 := hputs (hat TX 0) (mbits (with_len m) 0 16)).
  destruct (hputs_spec (hat TX 0) (mbits (with_len m) 0 16) W0) as (W2 & _ & A2 & _); [by rewrite mbits_length|]. fold TX2 in W2, A2. cbn [hat allocsize] in A2.
  exists TX, TX2. split_and!.
  - apply (c_write _ _ _ _ _ (codes_tx lo m Hsp) hp Hwf Hr).
  - rewrite B, hconv_bitlen_eq by lia. done.
  - by apply hseek_set.
  - pose proof (codes_raw (with_len m) 0 2 Hb1 ltac:(lia)) as C. rewrite (proj1 Hsame) in C. specialize (C ltac:(lia)).
    exact (c_write _ _ _ _ _ C (hat TX 0) W0 Hr0).
  - apply W2.
  - destruct W2 as (_ & _ & _ & Hl & _). lia.
  - unfold tx_bits. rewrite (same_body _ _ Hsame Hsp). apply (stored_overwrite TX (mbits m 0 16)); [exact W| |by rewrite !mbits_length|by rewrite mbits_length].
    pose proof (stored_hputs hp _ Hwf Hr) as S. by rewrite Hbo in S.
Qed.

(** The bytes of a transaction as they are stored. *)
Definition tx_stored (m d : list Z) : Prop := Z.of_nat (length d) = tx_len m /\ bytes d /\ stored (over d (8 * tx_len m) 0) 0 (tx_bits (with_len m)).

Lemma append_sigs_stop fuel i sigs s timestamp d len : aget sigs i = Some s -> txid (sigbits s) = 0 ->
  append_sigs (S fuel) i sigs timestamp d len = Some (Some (d, len), i).
Proof. intros Hs Ht. cbn [append_sigs]. rewrite Hs. step. by rewrite Ht. Qed.

(** Without signatures so far. *)
Definition unsigned (sigs : list acct777_sig) : Prop := exists s rest, sigs = s :: rest /\ txid (sigbits s) = 0.

Lemma serialize_eq lo m d0 sigs bts privkey ts stamp : supported m -> load m tx_timestamp 4 = Some stamp -> stamp <> 0 ->
  serdes777_checktimestamp bts ts = 0 -> unsigned sigs -> exists buf, bytes buf /\ Z.of_nat (length buf) = 4096 /\ tx_stored m (take (Z.to_nat (tx_len m)) buf) /\
  serdes777_serialize lo (mkTx m d0 sigs) bts privkey ts =
    if txid privkey =? 0 then Some (tx_len m, mkTx (with_len m) buf sigs)
    else
      let '(_, sig) := acct777_signtx privkey stamp (take (Z.to_nat (tx_len m)) buf) in
      sigs ← aset sigs 0 sig;
      d ← store buf (tx_len m) (sigbits sig);
      d ← store d (tx_len m + 32) (pubkey sig);
      Some (tx_len m + 64, mkTx (with_len m) d sigs).
Proof.
  intros Hsp Hst Hnz Hchk (s & rest & -> & Hs0). destruct (serialize_body lo m Hsp) as (TX & TX2 & E1 & E2 & E3 & E4 & Hb & Hl & Hstored).
  destruct (with_len_same m Hsp) as (Hsame & Hb1 & E5). destruct (tx_len_range m Hsp) as [Hlr Hlb]. pose proof (size_ok m Hsp) as Hsz.
  exists (buf TX2). split; [done|]. split; [done|]. split.
  { split_and!; [rewrite length_take; lia|by apply Forall_take|]. pose proof (stored_take TX2 (Z.to_nat (tx_len m)) _ 0 Hstored) as S. rewrite Z2Nat.id in S by lia. apply S; [|lia].
    unfold tx_bits in *. rewrite (same_body _ _ Hsame Hsp). rewrite length_app, mbits_length in *. lia. }
  unfold serdes777_serialize. cbn [fields data Serdes.sigs]. rewrite blank_eq. rewrite Hst. step. destruct (Z.eqb_spec stamp 0); [done|]. rewrite Hchk. rewrite andb_false_r. step.
  rewrite E1. step. destruct (Z.ltb_spec (Z.of_nat (length (tx_bits m))) 0); [lia|]. rewrite E2, E5. step. rewrite E3. rewrite E4. step. change (16 <? 0) with false. cbv iota.
  assert (Hst1 : load (with_len m) tx_timestamp 4 = Some stamp).
  { rewrite load_eq by (rewrite ?(proj1 Hsame); unfold tx_timestamp; lia). rewrite (same_sub _ _ Hsame) by (unfold tx_timestamp; lia). rewrite <- Hst. symmetry. apply load_eq; unfold tx_timestamp; lia. }
  rewrite Hst1. step. change (append_sigs PEGGY_MAXSIGS) with (append_sigs (S 15)). rewrite (append_sigs_stop 15 0 (s :: rest) s) by done. step.
  change (0 <? Z.of_nat PEGGY_MAXSIGS - 1) with true. destruct (Z.eqb_spec stamp 0); [done|]. cbn [negb andb]. destruct (Z.eqb_spec (txid privkey) 0); cbn [negb]; done.
Qed.

(** ** Deserializing *)

Lemma stored_over_app x y e bits : stored (over x e 0) 0 bits -> Z.of_nat (length bits) <= 8 * Z.of_nat (length x) ->
  stored (over (x ++ y) (Z.of_nat (length (x ++ y)) * 8) 0) 0 bits.
Proof.
  intros (_ & _ & Hg) Hl. split_and!; [lia|cbn [over endpos]; rewrite length_app; lia|]. intros k b Hk. rewrite <- (Hg k b Hk). unfold hbit, bit. cbn [over buf].
  apply lookup_lt_Some in Hk. f_equal. unfold znth, aget. destruct (Z.leb_spec 0 ((0 + Z.of_nat k) / 8)); [|done]. rewrite lookup_app_l by dmlia. done.
Qed.

Lemma blank_tx_part m : supported m -> part (replicate tx_size 0) m.
Proof.
  intros Hsp. split_and!; [by rewrite length_replicate, (sp_length _ Hsp)|apply bytes_replicate; lia|].
  intros i _. left. apply (Forall_znth (fun x => x = 0)); [done|]. by apply Forall_replicate.
Qed.

(** Reading the bytes of a transaction, with something behind them. *)
Lemma read_body lo m d tail : supported m -> tx_stored m d -> bytes tail -> tx_len m + Z.of_nat (length tail) <= 4096 -> exists f TX,
  let totallen := tx_len m + Z.of_nat (length tail) in
  let hp := _init_HUFF zero_HUFF totallen (d ++ tail) in
  serdes777_rwtx lo 0 (replicate tx_size 0) (mkHUFF (buf hp) (ptr hp) (bitoffset hp) (maski hp) (totallen * 8) (allocsize hp) (allocated hp)) =
    Some (Z.of_nat (length (tx_bits (with_len m))), f, TX) /\ part f (with_len m) /\ agree f (with_len m) (tx_span (with_len m)).
Proof.
  intros Hsp (Hl & Hb & Hst) Hbt Htot. destruct (with_len_same m Hsp) as (Hsame & Hb1 & _). pose proof (same_supported _ _ Hsame Hb1 Hsp) as Hsp1.
  destruct (tx_len_range m Hsp) as [Hlr Hlb]. pose proof (blank_tx_part _ Hsp1) as Hpart.
  assert (Ebits : length (tx_bits (with_len m)) = length (tx_bits m)) by (unfold tx_bits; rewrite (same_body _ _ Hsame Hsp), !length_app, !mbits_length; done).
  pose proof (stored_over_app d tail _ _ Hst ltac:(lia)) as Hst2. set (hp2 := over (d ++ tail) _ 0) in Hst2.
  assert (Hwf : hwf hp2) by (apply over_wf; [by apply Forall_app|rewrite length_app; lia|lia]).
  destruct (c_read _ _ _ _ _ (codes_tx lo _ Hsp1) _ hp2 0 Hpart ltac:(by intros j []) Hwf Hst2) as (f & E & [Hp _] & Ha).
  exists f, (hat hp2 (0 + Z.of_nat (length (tx_bits (with_len m))))). cbv zeta. split; [|done]. rewrite <- E. f_equal. unfold hp2, over, hat, _init_HUFF. cbn [buf ptr bitoffset maski allocsize allocated endpos].
  rewrite length_app, Nat2Z.inj_add, Hl, (uwrap_small 31) by lia. done.
Qed.

(** The bytes in front of [f] are the length already. *)
Lemma store_same m f : supported m -> part f (with_len m) -> agree f (with_len m) (tx_span (with_len m)) -> store f 0 (le_bytes 2 (tx_len m)) = Some f.
Proof.
  intros Hsp (Hl & _) Ha. pose proof (size_ok m Hsp) as Hsz. destruct (with_len_same m Hsp) as (Hsame & _ & _).
  rewrite store_front by (rewrite le_bytes_length, Hl, (proj1 Hsame); lia). f_equal. rewrite le_bytes_length.
  assert (E : sub f 0 2 = sub (with_len m) 0 2).
  { apply sub_agree; [lia|rewrite (proj1 Hsame); lia|done|]. intros i Hi. apply Ha. left. cbn [hdrtokens token_span]. left. exact Hi. }
  unfold sub in E. change (Z.to_nat 0) with O in E. rewrite !drop_0 in E. unfold with_len in E. rewrite take_app_le, (take_ge (le_bytes 2 (tx_len m))) in E by (rewrite le_bytes_length; lia).
  by rewrite <- E, take_drop.
Qed.

Lemma load_stamp m f stamp : supported m -> part f (with_len m) -> agree f (with_len m) (tx_span (with_len m)) -> load m tx_timestamp 4 = Some stamp ->
  load f tx_timestamp 4 = Some stamp.
Proof.
  intros Hsp (Hl & _) Ha Hst. pose proof (size_ok m Hsp) as Hsz. destruct (with_len_same m Hsp) as (Hsame & _ & _).
  rewrite (load_agree f (with_len m)); [|done|done|rewrite (proj1 Hsame); unfold tx_timestamp; lia|].
  - rewrite load_eq in * by (rewrite ?(proj1 Hsame); unfold tx_timestamp; lia). by rewrite (same_sub _ _ Hsame) by (unfold tx_timestamp; lia).
  - intros i Hi. apply Ha. left. cbn [hdrtokens token_span]. change (Z.to_nat (Z.abs 4)) with 4%nat. rewrite !Z.add_0_l. tauto.
Qed.

Definition no_sigs : list acct777_sig := replicate PEGGY_MAXSIGS zero_sig.

Lemma deserialize_eq lo m d tail cnt bts stamp : supported m -> tx_stored m d -> bytes tail -> Z.of_nat (length tail) mod 32 = 0 ->
  tx_len m + Z.of_nat (length tail) <= 4096 -> load m tx_timestamp 4 = Some stamp -> serdes777_checktimestamp bts stamp = 0 ->
  exists f, part f (with_len m) /\ agree f (with_len m) (tx_span (with_len m)) /\
  let dd := d ++ tail in
  let totallen := tx_len m + Z.of_nat (length tail) in
  let pad := dd ++ replicate (Z.to_nat (4096 - totallen)) 0 in
  serdes777_deserialize lo cnt bts dd totallen =
    if 0 <? Z.of_nat (length tail) / 32 then
      '(sigs, len') ← read_sigs f dd (tx_len m) (Z.of_nat (length tail) / 32) no_sigs;
      '(sigs, cnt) ← check_sigs (Z.of_nat (length tail) / 32) stamp d sigs cnt;
      match sigs with
      | None => Some (-1, None, cnt)
      | Some sigs => Some (len', Some (mkTx f pad sigs), cnt)
      end
    else Some (tx_len m, Some (mkTx f pad no_sigs), cnt).
Proof.
  intros Hsp Hd Hbt Hmod Htot Hst Hchk. destruct (read_body lo m d tail Hsp Hd Hbt Htot) as (f & TX & E & Hp & Ha). exists f. split; [done|]. split; [done|].
  destruct Hd as (Hl & Hb & Hs). destruct (tx_len_range m Hsp) as [Hlr Hlb]. destruct (with_len_same m Hsp) as (Hsame & _).
  assert (Ebits : length (tx_bits (with_len m)) = length (tx_bits m)) by (unfold tx_bits; rewrite (same_body _ _ Hsame Hsp), !length_app, !mbits_length; done).
  cbv zeta in *. unfold serdes777_deserialize. destruct (Z.ltb_spec 4096 (tx_len m + Z.of_nat (length tail))); [lia|].
  rewrite E. step. destruct (Z.ltb_spec (Z.of_nat (length (tx_bits (with_len m)))) 0); [lia|]. rewrite (load_stamp m f stamp) by done. step. rewrite Hchk. change (0 <? 0) with false. cbv iota.
  pose proof (tx_bits_length m Hsp). rewrite Ebits, hconv_bitlen_eq by lia. fold (tx_len m). destruct (Z.ltb_spec (tx_len m + Z.of_nat (length tail)) (tx_len m)); [lia|].
  rewrite (store_same m f) by done. step. replace (tx_len m + Z.of_nat (length tail) - tx_len m) with (Z.of_nat (length tail)) by lia. rewrite Hmod. change (0 =? 0) with true. cbn [negb].
  assert (Et : forall pad, take (Z.to_nat (tx_len m)) ((d ++ tail) ++ pad) = d) by (intros pad; rewrite <- app_assoc; apply take_app_length'; lia).
  rewrite Et. done.
Qed.

(** ** Round trips *)

(** The bytes of a transaction that come through, field by field: of an address of type CREATE
    all but the days of the redemption gap and the extra days; the header; the inputs with an
    amount of eight bytes; the outputs with a ratio of four; the prices. *)
Definition addr_wire (type k : Z) : Prop :=
  if type =? PEGGY_ADDRNXT then 0 <= k < 8 else if type =? PEGGY_ADDRCREATE then 0 <= k < 44 \/ k = 47 else 0 <= k < 48.
Definition inout_wire (m : list Z) (p amount i : Z) : Prop :=
  p <= i < p + 2 \/ addr_wire (znth m p) (i - (p + 8)) \/ p + 56 <= i < p + 56 + amount.
Definition wire (m : list Z) (i : Z) : Prop :=
  0 <= i < 20 \/ (exists k, 0 <= k < znth m tx_numinputs /\ inout_wire m (tx_inputs + 64 * k) 8 i) \/
  (exists k, 0 <= k < znth m tx_numoutputs /\ inout_wire m (tx_outputs + 64 * k) 4 i) \/
  (znth m tx_txtype = PEGGY_TXPRICES /\ tx_details <= i < tx_details + 8 + 4 * le_val (sub m tx_details 2)).

Lemma addr_wire_span type p i : addr_wire type (i - p) -> token_span p (addr_tokens type) i.
Proof.
  unfold addr_wire, addr_tokens. destruct (type =? PEGGY_ADDRNXT); [|destruct (type =? PEGGY_ADDRCREATE)]; cbn [locktokens map token_span Z.abs]; unfold span; lia.
Qed.

Lemma inout_wire_span m iter p i : inout_wire m p (if iter =? 0 then 8 else 4) i -> inout_span m iter p i.
Proof.
  unfold inout_wire, inout_span, span. intros [H|[H|H]]; [lia|right; right; left; by apply addr_wire_span|]. destruct (iter =? 0); lia.
Qed.

Lemma wire_span m i : wire m i -> tx_span m i.
Proof.
  intros [H|[(k & Hk & H)|[(k & Hk & H)|[Ht H]]]].
  - left. cbn [hdrtokens token_span Z.abs]. unfold span, tx_numinputs, tx_numoutputs, tx_txtype, tx_flags, tx_msglen, tx_numdetails, tx_timestamp. lia.
  - right. left. exists k. split; [lia|]. by apply inout_wire_span.
  - right. right. left. exists k. split; [lia|]. by apply inout_wire_span.
  - right. right. right. split; [done|]. unfold prices_span. destruct (Z.lt_ge_cases i (tx_details + 8)).
    + left. cbn [pricetokens token_span Z.abs]. unfold span. lia.
    + right. exists ((i - (tx_details + 8)) / 4). split; [dmlia|]. left. unfold span. change (Z.to_nat (Z.abs 4)) with 4%nat. dmlia.
Qed.


(** [C22] A transaction without message, funding, bets and micropayments, whose addresses have
    types CREATE, NXT or 777, with a stamp that is not zero, when both ends accept the time, and
    that is neither signed nor given a key to sign with, is serialized into at most 4032 bytes,
    and those bytes are deserialized to a transaction that is the same in every byte that
    counts, the length filled in. *)
Theorem serdes777_roundtrip lo lo2 m d0 sigs bts bts2 privkey ts stamp cnt :
  supported m -> load m tx_timestamp 4 = Some stamp -> stamp <> 0 -> serdes777_checktimestamp bts ts = 0 -> serdes777_checktimestamp bts2 stamp = 0 ->
  unsigned sigs -> txid privkey = 0 ->
  exists len d, serdes777_serialize lo (mkTx m d0 sigs) bts privkey ts = Some (len, mkTx (le_bytes 2 len ++ drop 2 m) d sigs) /\ 2 <= len <= 4032 /\
    exists f, serdes777_deserialize lo2 cnt bts2 (take (Z.to_nat len) d) len =
        Some (len, Some (mkTx f (take (Z.to_nat len) d ++ replicate (Z.to_nat (4096 - len)) 0) no_sigs), cnt) /\
      agree f (le_bytes 2 len ++ drop 2 m) (wire (le_bytes 2 len ++ drop 2 m)).
Proof.
  intros Hsp Hst Hnz Hc1 Hc2 Hsig Hpriv. destruct (serialize_eq lo m d0 sigs bts privkey ts stamp Hsp Hst Hnz Hc1 Hsig) as (b & Hb & Hbl & Hstored & Hser).
  destruct (tx_len_range m Hsp) as [Hlr _]. exists (tx_len m), b. rewrite Hser, Hpriv. change (0 =? 0) with true. split; [done|]. split; [done|].
  destruct (deserialize_eq lo2 m (take (Z.to_nat (tx_len m)) b) [] cnt bts2 stamp Hsp Hstored ltac:(constructor) eq_refl ltac:(cbn; lia) Hst Hc2) as (f & Hp & Ha & E).
  exists f. split; [|intros i Hi; apply Ha, wire_span, Hi]. cbv zeta in E. rewrite app_nil_r in E. change (Z.of_nat (length (@nil Z))) with 0 in E. rewrite Z.add_0_r in E. exact E.
Qed.

Lemma bits256_front x y n : length x = n -> bits256_at (x ++ y) (Z.of_nat n) = take 32 y.
Proof. intros H. unfold bits256_at. rewrite Nat2Z.id, drop_app_length' by done. done. Qed.

#[local] Opaque acct777_signtx acct777_validate.

(** The signature of a transaction as it is read ... *)
Lemma read_one f d sb pk n : load f tx_numinputs 1 <> None -> length sb = 32%nat -> length pk = 32%nat -> length d = n -> load f tx_inputs 1 <> None ->
  read_sigs f (d ++ sb ++ pk) (Z.of_nat n) 2 no_sigs = Some (<[0%nat := mkSig sb pk 0 0]> no_sigs, Z.of_nat n + 64).
Proof.
  intros Hni Hsb Hpk Hd Ht. destruct (load f tx_numinputs 1) as [ni|] eqn:Hni2; [|done]. destruct (load f tx_inputs 1) as [t|] eqn:Ht2; [|done]. unfold read_sigs. rewrite Hni2, Ht2. do 2 step.
  change (2 =? 1) with false. rewrite !andb_false_r.
  change (Z.to_nat 2) with 2%nat. rewrite for_loopM_S. change (0 / 2) with 0. change (aget no_sigs 0) with (Some zero_sig). step. change (Z.land 0 1 =? 0) with true. cbv iota.
  rewrite bits256_front by done. rewrite take_app_length' by done. change (aset no_sigs 0 ?x) with (Some (<[0%nat := x]> no_sigs)). do 2 step.
  rewrite for_loopM_S. change ((0 + 1) / 2) with 0. change (Z.land (0 + 1) 1 =? 0) with false. cbv iota.
  change (aget (<[0%nat := ?x]> no_sigs) 0) with (Some x). step. change (aset (<[0%nat := ?x]> no_sigs) 0 ?y) with (Some (<[0%nat := y]> no_sigs)). step.
  assert (E2 : bits256_at (d ++ sb ++ pk) (Z.of_nat n + 32) = pk).
  { rewrite app_assoc. replace (Z.of_nat n + 32) with (Z.of_nat (n + 32)) by lia. rewrite bits256_front by (rewrite length_app; lia). by rewrite take_ge by lia. }
  rewrite E2. step. change (for_loopM 0 (0 + 1 + 1) ?b ?s) with (Some s). unfold set_pubkey, set_sigbits, zero_sig. cbn [sigbits pubkey signer64bits sig_time].
  by replace (Z.of_nat n + 32 + 32) with (Z.of_nat n + 64) by lia.
Qed.

(** ... and checked. *)
Lemma check_one s d cnt stamp :
  check_sigs 2 stamp d (<[0%nat := s]> no_sigs) cnt =
    let v := acct777_validate s stamp d in
    if txid (sigbits s) =? 0 then Some (Some (<[0%nat := s]> no_sigs), cnt)
    else if v =? 0 then Some (None, cnt) else Some (Some (<[0%nat := set_signer s v]> no_sigs), i32 (cnt + 1)).
Proof.
  unfold check_sigs. change (Z.to_nat 2) with 2%nat. rewrite for_ret_S. change (aget (<[0%nat := s]> no_sigs) 0) with (Some s). step.
  destruct (Z.eqb_spec (txid (sigbits s)) 0); cbn [negb]; [by repeat step|].
  change (aset (<[0%nat := s]> no_sigs) 0 ?y) with (Some (<[0%nat := y]> no_sigs)). step.
  destruct (acct777_validate s stamp d =? 0) eqn:Ev; [cbv zeta; rewrite ?Ev; by repeat step|]. step. rewrite for_ret_S. change (0 + 1) with 1.
  change (aget (<[0%nat := ?x]> no_sigs) 1) with (Some zero_sig). step. change (txid (sigbits zero_sig) =? 0) with true. cbn [negb]. cbv zeta. rewrite ?Ev. by repeat step.
Qed.

(** The signature appended to the bytes. *)
Lemma store_pair buf n sb pk : length sb = 32%nat -> length pk = 32%nat -> (n + 64 <= length buf)%nat ->
  (d ← store buf (Z.of_nat n) sb; store d (Z.of_nat n + 32) pk) = Some (take n buf ++ sb ++ pk ++ drop (n + 64) buf).
Proof.
  intros Hs Hp Hn. unfold store. rewrite Nat2Z.id. destruct (Z.leb_spec 0 (Z.of_nat n)); [|lia].
  destruct (Z.leb_spec (Z.of_nat n + Z.of_nat (length sb)) (Z.of_nat (length buf))); [|lia]. cbn [andb]. step.
  set (d := take n buf ++ sb ++ drop (n + length sb) buf). assert (Hd : length d = length buf) by (subst d; rewrite !length_app, length_take, length_drop; lia).
  destruct (Z.leb_spec 0 (Z.of_nat n + 32)); [|lia]. destruct (Z.leb_spec (Z.of_nat n + 32 + Z.of_nat (length pk)) (Z.of_nat (length d))); [|lia]. cbn [andb]. f_equal.
  replace (Z.to_nat (Z.of_nat n + 32)) with (n + 32)%nat by lia. subst d.
  assert (E1 : take (n + 32) (take n buf ++ sb ++ drop (n + length sb) buf) = take n buf ++ sb).
  { rewrite app_assoc. apply take_app_length'. rewrite length_app, length_take. lia. }
  assert (E2 : drop (n + 32 + length pk) (take n buf ++ sb ++ drop (n + length sb) buf) = drop (n + 64) buf).
  { rewrite app_assoc, drop_app_ge by (rewrite length_app, length_take; lia). rewrite drop_drop. f_equal. rewrite length_app, length_take. lia. }
  rewrite E1, E2. by rewrite <- app_assoc.
Qed.

(** [C23] The same kind of transaction (no message, funding, bets or micropayments, addresses of
    types CREATE, NXT or 777, a stamp that is not zero, times that both ends accept, no first
    signature yet), given a key of 32 bytes whose first 64 bits are not zero: it is serialized
    with the signature and the public key behind its bytes, and when those are deserialized
    the transaction is the same in every byte that counts, and the signature is checked over
    the same bytes and time: it is counted when it is valid, and otherwise the transaction is
    refused (one whose first 64 bits are zero is taken as absent). *)
Theorem serdes777_signed_roundtrip lo lo2 m d0 s0 sigs bts bts2 privkey ts stamp cnt :
  supported m -> load m tx_timestamp 4 = Some stamp -> stamp <> 0 -> serdes777_checktimestamp bts ts = 0 -> serdes777_checktimestamp bts2 stamp = 0 ->
  txid (sigbits s0) = 0 -> b256 privkey -> txid privkey <> 0 ->
  exists len d, let body := take (Z.to_nat len) d in let '(_, sig) := acct777_signtx privkey stamp body in
    serdes777_serialize lo (mkTx m d0 (s0 :: sigs)) bts privkey ts = Some (len + 64, mkTx (le_bytes 2 len ++ drop 2 m) d (sig :: sigs)) /\ 2 <= len <= 4032 /\
    exists f, agree f (le_bytes 2 len ++ drop 2 m) (wire (le_bytes 2 len ++ drop 2 m)) /\
      let dd := take (Z.to_nat (len + 64)) d in
      let s := mkSig (sigbits sig) (pubkey sig) 0 0 in
      let v := acct777_validate s stamp body in
      let pad := dd ++ replicate (Z.to_nat (4096 - (len + 64))) 0 in
      serdes777_deserialize lo2 cnt bts2 dd (len + 64) =
        if txid (sigbits sig) =? 0 then Some (len + 64, Some (mkTx f pad (<[0%nat := s]> no_sigs)), cnt)
        else if v =? 0 then Some (-1, None, cnt)
        else Some (len + 64, Some (mkTx f pad (<[0%nat := set_signer s v]> no_sigs)), i32 (cnt + 1)).
Proof.
  intros Hsp Hst Hnz Hc1 Hc2 Hs0 Hkey Hpriv.
  destruct (serialize_eq lo m d0 (s0 :: sigs) bts privkey ts stamp Hsp Hst Hnz Hc1) as (b & Hb & Hbl & Hstored & Hser); [by exists s0, sigs|].
  destruct (tx_len_range m Hsp) as [Hlr _]. set (n := Z.to_nat (tx_len m)) in *. pose proof (acct777_signtx_b256 privkey stamp (take n b) Hkey) as Hsig.
  destruct (acct777_signtx privkey stamp (take n b)) as [signer sig] eqn:Esig. destruct Hsig as [[Sb Sl] [Pb Pl]].
  assert (Hn : length (take n b) = n) by (rewrite length_take; lia). pose proof (store_pair b n (sigbits sig) (pubkey sig) Sl Pl ltac:(lia)) as Hd.
  set (d := take n b ++ sigbits sig ++ pubkey sig ++ drop (n + 64) b) in *. assert (Etake : take n d = take n b) by (apply take_app_length'; lia).
  exists (tx_len m), d. cbv zeta. fold n. fold (with_len m). rewrite Etake, Esig. split; [|split; [lia|]].
  - rewrite Hser. rewrite (proj2 (Z.eqb_neq _ _) Hpriv). change (aset (s0 :: sigs) 0 sig) with (Some (sig :: sigs)). step.
    replace (tx_len m) with (Z.of_nat n) in * by lia. destruct (store b (Z.of_nat n) (sigbits sig)) as [d1|]; [|discriminate]. step. cbn [mbind option_bind] in Hd. rewrite Hd. step. reflexivity.
  - assert (Edd : take (Z.to_nat (tx_len m + 64)) d = take n b ++ sigbits sig ++ pubkey sig).
    { subst d. replace (Z.to_nat (tx_len m + 64)) with (n + 64)%nat by lia. rewrite !app_assoc. apply take_app_length'. rewrite !length_app. lia. }
    rewrite Edd. assert (Htl : Z.of_nat (length (sigbits sig ++ pubkey sig)) = 64) by (rewrite length_app; lia).
    destruct (deserialize_eq lo2 m (take n b) (sigbits sig ++ pubkey sig) cnt bts2 stamp Hsp Hstored) as (f & Hp & Ha & E);
      [by apply Forall_app_2|by rewrite Htl|lia|done|done|].
    exists f. split; [intros i Hi; apply Ha, wire_span, Hi|]. cbv zeta in E. rewrite Htl in E. rewrite E. change (64 / 32) with 2. change (0 <? 2) with true. cbv iota. replace (tx_len m) with (Z.of_nat n) by lia.
    destruct Hp as (Hlf & _). pose proof (size_ok _ (same_supported _ _ (proj1 (with_len_same m Hsp)) (proj1 (proj2 (with_len_same m Hsp))) Hsp)) as Hsz.
    rewrite (read_one f (take n b) (sigbits sig) (pubkey sig) n);
      [|rewrite load_byte by (rewrite Hlf; unfold tx_numinputs; lia); discriminate|exact Sl|exact Pl|exact Hn|rewrite load_byte by (rewrite Hlf; unfold tx_inputs; lia); discriminate].
    step. rewrite check_one. cbv zeta. cbn [sigbits].
    destruct (txid (sigbits sig) =? 0); [step; reflexivity|]. destruct (acct777_validate _ _ _ =? 0); step; reflexivity.
Qed.

(** ** A transaction *)

(** One input of type CREATE and one output of type NXT, stamped 1 January 2015, 13:41:25. *)
Definition sample : list Z :=
  foldl (fun m '(i, x) => zput m i x) (replicate tx_size 0)
    [(2, 1); (3, 1); (8, 133); (9, 78); (10, 165); (11, 84); (24, 1); (32, 9); (80, 3); (1048, 2); (1056, 77); (1057, 1); (1104, 3)].

Lemma sample_supported : supported sample.
Proof.
  split.
  - unfold sample. cbn [foldl]. by rewrite !zput_length, length_replicate.
  - unfold sample. cbn [foldl]. repeat (apply Forall_zput; [|lia]). apply bytes_replicate. lia.
  - vm_compute. reflexivity.
  - vm_compute. reflexivity.
  - split; vm_compute; discriminate.
  - vm_compute. discriminate.
  - assert (E : znth sample tx_numinputs = 1) by (vm_compute; reflexivity). rewrite E. split; [lia|]. intros i Hi. replace i with 0 by lia. left. vm_compute. reflexivity.
  - assert (E : znth sample tx_numoutputs = 1) by (vm_compute; reflexivity). rewrite E. split; [lia|]. intros i Hi. replace i with 0 by lia. right. left. vm_compute. reflexivity.
Qed.

Lemma sample_stamp : load sample tx_timestamp 4 = Some 1420119685.
Proof. vm_compute. reflexivity. Qed.

Lemma serdes777_roundtrip_witness : exists len d f,
  serdes777_serialize (mkLeftover [] 0) (mkTx sample [] no_sigs) 0 (replicate 32 0) 0 = Some (len, mkTx (le_bytes 2 len ++ drop 2 sample) d no_sigs) /\
  serdes777_deserialize (mkLeftover [] 0) 0 1420119660 (take (Z.to_nat len) d) len = Some (len, Some f, 0).
Proof.
  destruct (serdes777_roundtrip (mkLeftover [] 0) (mkLeftover [] 0) sample [] no_sigs 0 1420119660 (replicate 32 0) 0 1420119685 0
    sample_supported sample_stamp) as (len & d & Hs & _ & f & Hd & _); [lia|reflexivity|reflexivity| |reflexivity|].
  - exists zero_sig, (replicate 15 zero_sig). split; reflexivity.
  - exists len, d. eexists. split; [exact Hs|exact Hd].
Defined.

Lemma serdes777_signed_roundtrip_witness : exists len d sig,
  serdes777_serialize (mkLeftover [] 0) (mkTx sample [] no_sigs) 0 (replicate 32 1) 0 = Some (len + 64, mkTx (le_bytes 2 len ++ drop 2 sample) d (sig :: replicate 15 zero_sig)) /\
  2 <= len <= 4032.
Proof.
  destruct (serdes777_signed_roundtrip (mkLeftover [] 0) (mkLeftover [] 0) sample [] zero_sig (replicate 15 zero_sig) 0 1420119660 (replicate 32 1) 0 1420119685 0
    sample_supported sample_stamp) as (len & d & H); [lia|reflexivity|reflexivity|reflexivity| |vm_compute; discriminate|].
  - split; [apply bytes_replicate; lia|reflexivity].
  - cbv zeta in H. destruct (acct777_signtx _ _ _) as [signer sig]. destruct H as (Hs & Hl & _). exists len, d, sig. split; [exact Hs|exact Hl].
Defined.

(** ** Addresses and details that do not come through *)

(** An address of type UNIT falls through to the code of type 777: more is written than is
    counted, so the reader finds a total that is too small and refuses the transaction. *)
Example unit_address_miscounted :
  (fun '(n, _, hp) => (n, bitoffset hp)) <$> serdes777_rwaddr (mkLeftover [] 0) 1 (replicate 48 1) 0 PEGGY_ADDRUNIT (_init_HUFF zero_HUFF 128 (replicate 128 0)) = Some (384, 666).
Proof. vm_compute. reflexivity. Qed.

(** The tuning of prices is never written. *)
Lemma tune_not_written lo m TX : load m tx_txtype 1 = Some PEGGY_TXTUNE -> load m tx_numdetails 1 <> None -> load m tx_msglen 1 = Some 0 ->
  serdes777_rwdetails lo 1 m TX = Some (0, m, TX).
Proof. intros H1 H2 H3. unfold serdes777_rwdetails. rewrite H1. step. destruct (load m tx_numdetails 1) as [n|]; [|done]. step. change (PEGGY_TXTUNE =? PEGGY_TXBET) with false. change (PEGGY_TXTUNE =? PEGGY_TXPRICES) with false. change (PEGGY_TXTUNE =? PEGGY_TXTUNE) with true. cbv iota. step. change (0 <? 0) with false. cbv iota. rewrite H3. step. done. Qed.
